(* ===== verification/_CoqProject ===== *)
-Q . S2P
Prelude.v
GoLib.v
Float.v
FloatError.v
Strconv.v
Base64.v
Topics.v
Wire.v
Framer.v
Queue.v
Backoff.v
Device.v
Port.v
Serial.v
Json.v
Duration.v
Literal.v
ReadTx.v
Logging.v
PahoLog.v
LogFile.v
Encode.v
Pipeline.v
Tx.v
Core.v
Shutdown.v
Config.v
ConfigValidate.v
Credentials.v
ConfigLoad.v
Flags.v
Mqtt.v
Build.v
EndToEnd.v
Probe.v
Command.v
MqttConn.v
SendTx.v
Consumer.v
LogTest.v
BrokerInfo.v
SerialBench.v
TxSystem.v
