(* ===== verification/Prelude.v ===== *)
(** * The device agent: root of the development

    The agent (src/) reads serial devices, publishes what each sends to an MQTT
    broker, writes to each the jobs (tx) it is sent, and reports how it does.
    This library models its Go code and proves what makes it correct. Paths below
    are under src/internal/ unless they start with cmd/.

    ** How the agent works, and where each part is modelled

    A reader opens a port and cuts what it reads into frames; it sends the
    frames, and reports of what happens, to the core. The core numbers and
    publishes the frames (readings), queues the reports (events) and publishes
    them while the broker is there, admits the tx that arrive, hands each to its
    device's writer and answers its sender, and sends keepalives. On a signal it
    stops all of this in order. All of it is built from one configuration.

    - Framer.v: device/serial/framer.go. [Append] and [Timeout] over the buffer,
      with the [limit] added as Go adds ints; [spec_run] is the unbounded framer
      it refines.
    - Port.v, Serial.v: device/serial/serial.go. The write path with its lock,
      and [Run] with its sessions, as the actions it takes on what it observes.
      Device.v (device/device.go) is the contract between them and the core.
    - Backoff.v: backoff/backoff.go, with the jitter in binary64.
    - Queue.v: core/queue.go, and its producers and consumer as steps.
    - Pipeline.v: core/pipeline.go, frames.go, status.go: a device's counters,
      readings and status messages, in a small state monad with its outputs.
    - Tx.v, TxSystem.v: core/tx.go, as functions of the device's state, and as
      the steps its goroutines take between two locks.
    - Core.v, Shutdown.v: core/core.go and the keepalive of status.go: [New], the
      routes of the tx, and [Run]'s goroutines with the program that stops them,
      in [surroundings] that say what of the ports and the broker ends by itself.
    - Topics.v, Wire.v, Encode.v, ReadTx.v: wire/topics.go and messages.go: the
      topics, the messages and their builder, their JSON, and the reading of a tx.
    - Config.v, ConfigValidate.v, ConfigLoad.v, Credentials.v: config/: the
      settings with their defaults and sources, every check, and the reading of
      the file and of the credentials.
    - Mqtt.v: transport/mqtt/client.go and subscribe.go: what is dialled and sent,
      what an acknowledgement means, and the broker's answers to subscriptions.
      PahoLog.v (paholog.go): the gate that ends paho's lines in the log, with
      Go's read-write lock.
    - Logging.v, LogFile.v: logging/logging.go and file.go: the handlers and what
      they record, and the file with its rotation.
    - Build.v: cmd/skuhus-device-agent/run.go and devices.go: [runAgent], which
      puts the parts together from a loaded configuration, its log first.
    - Flags.v, Probe.v, Command.v: the commands in cmd/skuhus-device-agent/: the
      flag package and flags.go; probe.go; and main.go, validate.go, [runCommand]
      and version/version.go, up to the exit code.
    - MqttConn.v, SendTx.v, Consumer.v: src/dev/: the development tools, a sender
      of tx and a consumer, with the connection they share.
    - LogTest.v: logging/logtest/logtest.go, the rules the tests hold log lines to.
    - BrokerInfo.v, SerialBench.v: src/spike/brokerinfo and serialbench, the probe
      of a broker and the bench for a printer.
    - EndToEnd.v: no code of its own: the parts composed as [runAgent] does, from
      a device's bytes to a consumer, and from a sender's tx to the port.
    - GoLib.v, Float.v, FloatError.v, Strconv.v, Duration.v, Literal.v, Base64.v,
      Json.v: what of Go's standard library the code relies on: machine integers,
      binary64 and the error of its operations, time, hex, UTF-8, strings, quoted
      literals, base64, JSON, parsing of numbers, and durations as text.

    A Go method is a function of its receiver's state that returns the new state;
    an error is [Err] of a type that names what went wrong, with the texts that
    are only for a person left out. Integers are [Z] with [int64] and [uint64]
    where the code can wrap. What the code observes (the clock, random numbers,
    a port, the broker, files, YAML, URLs) is an argument.

    ** What is shown

    - The whole (EndToEnd): every frame a device sends reaches a consumer once, in
      order, numbered and to the byte; and what the sender of a tx is told was
      written is what the port took.
    - Framing (Framer): the bounded framer gives exactly the frames of an
      unbounded one, independent of how reads cut the stream, within its bound,
      with every byte counted once; frames joined by the separator come back.
      The frames need a limit that [fits] an int with an incomplete separator
      ([limit_wraps] is one that does not); a configuration that loads has one.
    - Writing (TxSystem, Tx, Port): each tx gets the one answer its case calls
      for; one that is taken is answered as accepted and then
      once as written or failed, is not written again while its id is in hand or
      remembered, and is not taken once the agent stops; a write ends, gives the
      port a prefix in order, and never reaches a closed port.
    - Readings and reports (Pipeline, Queue, Serial): each reading has its number,
      its record and its publish; each report is counted, by its reason or its
      class, and is what a tx is told of the port; an outage leaves the
      most recent events and every tx result; no wake-up is lost; a session's
      calls and reports are in order and its reopening backs off, each wait spread
      by the jitter and no more (Backoff).
    - Messages (Topics, Encode, ReadTx, Core): every topic tells whose it is, the
      filters match what they name, what is encoded decodes to what was meant, a
      keepalive to all the agent knows of its devices, and a
      tx reaches the devices of its topic and no other.
    - Stopping (Shutdown): nothing is sent on a closed channel, nothing framed or
      queued is left behind, the offline message is last, and the end can always
      be reached, by what [Run] itself does and no luck with ports or broker.
    - Configuration (Config, ConfigLoad, Credentials, Build): the sources are in
      the documented order; the problems of a file are its removed keys, each
      once with its replacement, and what the strict decoder says of the other
      lines; a duration is read back from the text it is written as, the
      credentials are those the file says, and a configuration that loads is one
      that every part of the agent accepts, so that only the machine stops it.
    - Log and broker (Logging, LogFile, Mqtt, PahoLog): records reach every
      destination as one line and are kept whole over rotations, also those that
      fail, byte for byte; no line of
      paho's follows the close; the answers reported are those of the newest
      connection; the expiry of every packet is its duration rounded up, exactly
      up to 2^22 seconds, and [rounded_down] is a longer one that is not.
    - Commands (Flags, Probe, Command): a command line is taken exactly when it
      spells declared flags, and overrides exactly those; probe opens what its
      flags say and prints the message that run publishes; validate's exit code
      and output are, line by line, those of a list of what is to be shown
      ([validate_shows]).
    - Tools (SendTx, Consumer): what sendtx publishes is a tx the agent takes with
      the bytes its command line spells, and it hears the results of its tx, a
      group's from every device in scope ([group_results], [loop_group]); the
      consumer shows the bytes of a reading ([reading_shown]). The tests' rules say
      what they mean ([line_rules]); the probe's CONNECT reads back
      ([connect_reads_back]); the bench writes all or a prefix and knows when it
      ends ([writeAll_takes], [writeAll_ends], [awaitFeed_released]).

    ** Fuel

    [append_loop] and [split_fuel] get one more than the bytes they work on, and
    each turn consumes one at least ([append_loop_frames], [split_fuel_enough]).
    [parse_value] gets one more than the length of its text and each call reads a
    byte ([decode_encode] shows it enough for what is encoded). [skip_all] and
    [duration_parts] get the length of their text, of which each turn takes some.
    [unquote_loop] gets one more than its text ([unquote_loop_enough]);
    [length_digits] the bits of its number ([read_length_digits]).
    Every other function is structural. The loops of goroutines are relations.

    ** Not modelled

    How slog writes a line's JSON and source; the text of the JSON line probe
    prints, which escapes no HTML as the published one does ([PrintedJSON] keeps
    the value); the texts of records beyond their
    attributes, of usage and of errors, and how a setting that is no duration
    is written for a person; paho, the serial, YAML and TLS libraries;
    src/spike/mqtt5, which exercised a broker once through paho and printed what
    it did; the flags and the times of the tools in src/dev and src/spike. Memory
    and scheduling are not modelled beyond the interleavings of Queue.v, Port.v,
    TxSystem.v, Shutdown.v, Mqtt.v and PahoLog.v.

    Next: the records of a run. *)
From stdpp Require Export base option list sets strings gmap pretty.
From Stdlib Require Export ZArith Lia ZifyBool.
From Stdlib Require Strings.Byte.
Export Init.Byte.

(** ** Bytes *)

Abbreviation byte := Init.Byte.byte.
Abbreviation bytes := (list Init.Byte.byte).

#[global] Instance byte_eq_dec : EqDecision byte := Strings.Byte.byte_eq_dec.

(** ** Results: what a Go function returning a value and an error returns *)

Inductive result (E A : Type) : Type :=
  | Ok (a : A)
  | Err (e : E).
Arguments Ok {E A} _.
Arguments Err {E A} _.

Definition is_ok {E A} (r : result E A) : bool := match r with Ok _ => true | Err _ => false end.

Declare Scope result_scope.
Delimit Scope result_scope with result.
Notation "'let?' x ':=' c 'in' k" :=
  (match c with Ok x => k | Err e => Err e end)
  (at level 10, x pattern, c at level 100, k at level 200) : result_scope.

(** ** Proof automation shared by the components *)

Create HintDb agent.
Create Rewrite HintDb agent.

(** [split_match] does the case analysis of every [match] and [if] of the
    goal and closes what is immediate. *)
Ltac split_match := repeat (case_match; simplify_eq/=; try done).

(** ** Lists *)

Section Lists.
Context {A : Type}.
Implicit Types l m : list A.

(** The last [n] elements of a list, the whole list when it is shorter. *)
Definition lastn (n : nat) l : list A := drop (length l - n) l.

Lemma lastn_length n l : length (lastn n l) = length l `min` n.
Proof. unfold lastn. rewrite length_drop. lia. Qed.

Lemma lastn_all n l : length l <= n -> lastn n l = l.
Proof. intros. unfold lastn. by replace (length l - n) with 0 by lia. Qed.

Lemma lastn_cons n x l : n <= length l -> lastn n (x :: l) = lastn n l.
Proof.
  intros. unfold lastn. cbn [length].
  by replace (S (length l) - n) with (S (length l - n)) by lia.
Qed.

Lemma lastn_lastn_app n l m : lastn n (lastn n l ++ m) = lastn n (l ++ m).
Proof.
  destruct (decide (length l <= n)) as [?|?]; [by rewrite (lastn_all n l)|].
  unfold lastn. rewrite !length_app, length_drop.
  assert (l ++ m = take (length l - n) l ++ drop (length l - n) l ++ m) as ->
    by (by rewrite (assoc_L (++)), take_drop).
  rewrite (drop_app_ge (take _ _)); rewrite length_take; [|lia].
  f_equal. lia.
Qed.

Lemma lastn_app_split n l : l = take (length l - n) l ++ lastn n l.
Proof. unfold lastn. by rewrite take_drop. Qed.

Lemma lastn_elem n l x : x ∈ lastn n l -> x ∈ l.
Proof. intros. rewrite (lastn_app_split n l). set_solver. Qed.
End Lists.

Lemma lastn_fmap {A B} (f : A -> B) n (l : list A) : map f (lastn n l) = lastn n (map f l).
Proof. unfold lastn. by rewrite length_map, skipn_map. Qed.

#[export] Hint Rewrite @lastn_length : agent.

(** ** Strings *)

Lemma str_app_cons c (s t : string) : (String.String c s +:+ t)%string = String.String c (s +:+ t)%string.
Proof. done. Qed.

Lemma str_app_nil_l (s : string) : ("" +:+ s)%string = s.
Proof. done. Qed.

Lemma str_app_nil_r (s : string) : (s +:+ "")%string = s.
Proof. induction s as [|c s IH]; [done|by rewrite str_app_cons, IH]. Qed.

Lemma str_app_assoc (s t u : string) : (s +:+ (t +:+ u))%string = ((s +:+ t) +:+ u)%string.
Proof. induction s as [|c s IH]; [done|by rewrite !str_app_cons, IH]. Qed.

#[export] Hint Rewrite str_app_nil_r : agent.
