(* ===== verification/GoLib.v ===== *)
(** * What the agent uses of Go's built-in types and standard library

    Machine integers, [time], [encoding/hex], [unicode/utf8], [strings] and the
    decimal form of [fmt]. *)
From S2P Require Import Prelude.
#[local] Open Scope Z_scope.

(** ** Machine integers *)

Definition min_int64 : Z := - 2 ^ 63.
Definition max_int64 : Z := 2 ^ 63 - 1.

(** The value a 64-bit signed, or unsigned, variable holds after an operation
    whose exact result is [z]. *)
Definition int64 (z : Z) : Z := (z + 2 ^ 63) mod 2 ^ 64 - 2 ^ 63.
Definition uint64 (z : Z) : Z := z mod 2 ^ 64.

Definition in_int64 (z : Z) : Prop := min_int64 <= z <= max_int64.

Lemma int64_id z : in_int64 z -> int64 z = z.
Proof. unfold in_int64, int64, min_int64, max_int64. intros. rewrite Z.mod_small; lia. Qed.

Lemma int64_range z : in_int64 (int64 z).
Proof.
  unfold in_int64, int64, min_int64, max_int64.
  pose proof (Z.mod_pos_bound (z + 2 ^ 63) (2 ^ 64) ltac:(lia)). lia.
Qed.

Lemma uint64_id z : 0 <= z < 2 ^ 64 -> uint64 z = z.
Proof. apply Z.mod_small. Qed.

(** ** [time] *)

(** A [time.Duration] is an [int64] of nanoseconds. *)
Abbreviation duration := Z.
Definition Millisecond : duration := 1000000.
Definition Second : duration := 1000000000.

(** A [time.Time] is the nanoseconds since 1 January of year 1, UTC, Go's zero
    time. The location of a time is not modelled: every time that is printed is
    printed in UTC. *)
Abbreviation time := Z.
Definition IsZero (t : time) : bool := t =? 0.
Definition Before (t u : time) : bool := t <? u.
Definition Add (t : time) (d : duration) : time := t + d.

(** [t.Sub(u)] saturates at the ends of [Duration]. *)
Definition Sub (t u : time) : duration := Z.max min_int64 (Z.min max_int64 (t - u)).

(** Days, and nanoseconds, from year 1 to 1 January 1970. *)
Definition unix_epoch_days : Z := 719162.
Definition day_ns : Z := 86400 * Second.
Definition unix_epoch : time := unix_epoch_days * day_ns.
Definition UnixMilli (t : time) : Z := (t - unix_epoch) / Millisecond.

(** [z] in decimal, with zeroes before it up to [width] digits. *)
Definition pad_decimal (width : nat) (z : Z) : string :=
  let digits := pretty z in
  String.append (String.concat "" (replicate (width - String.length digits) "0"%string)) digits.

(** The civil date of a day counted from 1 January 1970: year, month, day. *)
Definition civil_of_days (days : Z) : Z * Z * Z :=
  let z := days + 719468 in
  let era := z / 146097 in
  let doe := z - era * 146097 in
  let yoe := (doe - doe / 1460 + doe / 36524 - doe / 146096) / 365 in
  let doy := doe - (365 * yoe + yoe / 4 - yoe / 100) in
  let mp := (5 * doy + 2) / 153 in
  let month := if mp <? 10 then mp + 3 else mp - 9 in
  (yoe + era * 400 + (if month <=? 2 then 1 else 0), month, doy - (153 * mp + 2) / 5 + 1).

(** [t.UTC().Format("2006-01-02T15:04:05.000Z07:00")]. *)
Definition format_time (t : time) : string :=
  let '(year, month, day) := civil_of_days (t / day_ns - unix_epoch_days) in
  let ms := (t mod day_ns) / Millisecond in
  let hour := ms / 3600000 in
  let minute := (ms / 60000) mod 60 in
  let second := (ms / 1000) mod 60 in
  (pad_decimal 4 year +:+ "-" +:+ pad_decimal 2 month +:+ "-" +:+ pad_decimal 2 day +:+ "T" +:+
   pad_decimal 2 hour +:+ ":" +:+ pad_decimal 2 minute +:+ ":" +:+ pad_decimal 2 second +:+ "." +:+
   pad_decimal 3 (ms mod 1000) +:+ "Z")%string.

Example format_time_unix : format_time unix_epoch = "1970-01-01T00:00:00.000Z"%string.
Proof. vm_compute. reflexivity. Qed.

Example format_time_leap :
  format_time (unix_epoch + 1709164799 * Second + 987654321) = "2024-02-28T23:59:59.987Z"%string /\
  format_time (unix_epoch + 1709164800 * Second) = "2024-02-29T00:00:00.000Z"%string /\
  format_time 0 = "0001-01-01T00:00:00.000Z"%string.
Proof. vm_compute. auto. Qed.

(** ** Bytes and strings *)

Definition byte_Z (b : byte) : Z := Z.of_N (Strings.Byte.to_N b).
Definition byte_of (z : Z) : byte := match Strings.Byte.of_N (Z.to_N z) with Some b => b | None => x00 end.

Lemma byte_Z_range b : 0 <= byte_Z b < 256.
Proof. by destruct b. Qed.

Lemma byte_of_byte_Z b : byte_of (byte_Z b) = b.
Proof. by destruct b. Qed.

Lemma byte_Z_byte_of z : 0 <= z < 256 -> byte_Z (byte_of z) = z.
Proof.
  intros Hz. unfold byte_of, byte_Z. destruct (Strings.Byte.of_N (Z.to_N z)) as [b|] eqn:Hb.
  - apply Strings.Byte.to_of_N in Hb. lia.
  - apply Strings.Byte.of_N_None_iff in Hb. lia.
Qed.

(** [string(data)] and [[]byte(text)]: a Go string is any bytes. *)
Definition string_of_bytes (data : bytes) : string := String.string_of_list_byte data.
Definition bytes_of_string (text : string) : bytes := String.list_byte_of_string text.

Lemma string_length_bytes text : length (bytes_of_string text) = String.length text.
Proof. unfold bytes_of_string, String.list_byte_of_string. rewrite length_map. induction text as [|c text IH]; cbn; congruence. Qed.

Definition hex_digit (z : Z) : string :=
  match String.get (Z.to_nat z) "0123456789abcdef" with
  | Some c => String.String c ""
  | None => ""
  end.

(** [hex.EncodeToString]. *)
Fixpoint hex_encode (data : bytes) : string :=
  match data with
  | [] => ""
  | b :: data' => hex_digit (byte_Z b / 16) +:+ hex_digit (byte_Z b mod 16) +:+ hex_encode data'
  end%string.

Definition between (lo hi : Z) (b : byte) : bool := (lo <=? byte_Z b) && (byte_Z b <=? hi).
Definition continuation : byte -> bool := between 128 191.

(** [utf8.Valid]: no surrogates, no overlong form, nothing past U+10FFFF. *)
Fixpoint utf8_valid (data : bytes) : bool :=
  match data with
  | [] => true
  | b0 :: data1 =>
    if between 0 127 b0 then utf8_valid data1
    else match data1 with
    | [] => false
    | b1 :: data2 =>
      if between 194 223 b0 then continuation b1 && utf8_valid data2
      else match data2 with
      | [] => false
      | b2 :: data3 =>
        if between 224 239 b0 then
          (if byte_Z b0 =? 224 then between 160 191 b1
           else if byte_Z b0 =? 237 then between 128 159 b1 else continuation b1) &&
          continuation b2 && utf8_valid data3
        else match data3 with
        | [] => false
        | b3 :: data4 =>
          if between 240 244 b0 then
            (if byte_Z b0 =? 240 then between 144 191 b1
             else if byte_Z b0 =? 244 then between 128 143 b1 else continuation b1) &&
            continuation b2 && continuation b3 && utf8_valid data4
          else false
        end
      end
    end
  end.

Example utf8_valid_examples :
  utf8_valid [x41; xc3; xa5; xe2; x82; xac; xf0; x9f; x98; x80] = true /\
  utf8_valid [xc0; x80] = false /\ utf8_valid [xed; xa0; x80] = false /\ utf8_valid [xff] = false.
Proof. vm_compute. auto. Qed.

(** What follows a prefix, given as numbers. *)
Fixpoint strip (prefix : list Z) (data : bytes) : option bytes :=
  match prefix, data with
  | [], _ => Some data
  | z :: prefix', b :: data' => if byte_Z b =? z then strip prefix' data' else None
  | _, [] => None
  end.

Definition strip_any (prefixes : list (list Z)) (data : bytes) : option bytes :=
  foldr (fun prefix found => match strip prefix data with Some rest => Some rest | None => found end) None prefixes.

(** The white space of Unicode, in UTF-8. *)
Definition space_runes : list (list Z) :=
  [[9]; [10]; [11]; [12]; [13]; [32]; [194; 133]; [194; 160]; [225; 154; 128];
   [226; 128; 128]; [226; 128; 129]; [226; 128; 130]; [226; 128; 131]; [226; 128; 132]; [226; 128; 133]; [226; 128; 134];
   [226; 128; 135]; [226; 128; 136]; [226; 128; 137]; [226; 128; 138]; [226; 128; 168]; [226; 128; 169]; [226; 128; 175];
   [226; 129; 159]; [227; 128; 128]].

(** [strings.TrimSpace]: no white space first, and none last, of the bytes in
    reverse. *)
Definition skip_first : bytes -> option bytes := strip_any space_runes.
Definition skip_last : bytes -> option bytes := strip_any (map reverse space_runes).

Fixpoint skip_all (skip : bytes -> option bytes) (fuel : nat) (data : bytes) : bytes :=
  match fuel with
  | O => data
  | S fuel' => match skip data with Some rest => skip_all skip fuel' rest | None => data end
  end.

Definition trim_left (data : bytes) : bytes := skip_all skip_first (length data) data.
Definition trim_right (data : bytes) : bytes := reverse (skip_all skip_last (length data) (reverse data)).
Definition TrimSpace (s : string) : string := string_of_bytes (trim_right (trim_left (bytes_of_string s))).

(** [strings.ToLower], as far as its result is ASCII: besides the capitals, the
    dotted capital I and the Kelvin sign have a lower case in ASCII. *)
Fixpoint lower_bytes (data : bytes) : bytes :=
  match data with
  | [] => []
  | b :: rest =>
    let plain := (if between 65 90 b then default b (Strings.Byte.of_N (Strings.Byte.to_N b + 32)) else b) :: lower_bytes rest in
    match rest with
    | b1 :: rest1 =>
      if (byte_Z b =? 196) && (byte_Z b1 =? 176) then x69 :: lower_bytes rest1
      else match rest1 with
      | b2 :: rest2 => if (byte_Z b =? 226) && (byte_Z b1 =? 132) && (byte_Z b2 =? 170) then x6b :: lower_bytes rest2 else plain
      | [] => plain
      end
    | [] => plain
    end
  end.

Definition ToLower (s : string) : string := string_of_bytes (lower_bytes (bytes_of_string s)).

Example TrimSpace_examples :
  TrimSpace (string_of_bytes [x20; x49; xc2; xa0; x6e; xe2; x80; xa8; x09]) = string_of_bytes [x49; xc2; xa0; x6e] /\
  TrimSpace "  " = ""%string /\ ToLower "WaRn"%string = "warn"%string.
Proof. vm_compute. auto. Qed.

(** [strings.HasPrefix], and [strings.CutPrefix]'s rest. *)
Definition CutPrefix (text prefix : string) : option string :=
  if String.prefix prefix text
  then Some (String.substring (String.length prefix) (String.length text - String.length prefix) text)
  else None.

(** [fmt]'s [%d]. *)
Definition fmt_d (z : Z) : string := pretty z.
