(* ===== verification/Float.v ===== *)
(** * [float64]: IEEE 754 binary64 numbers

    The operations are the standard library's executable ones ([SpecFloat] at
    precision 53); here is what rounding keeps of a positive number, and of whole
    numbers that fit. *)
From S2P Require Import Prelude GoLib.
From Stdlib Require Import Floats.SpecFloat.
#[local] Open Scope Z_scope.

Definition float64 : Type := spec_float.
Definition float_mul : float64 -> float64 -> float64 := SFmul 53 1024.
Definition float_add : float64 -> float64 -> float64 := SFadd 53 1024.
Definition float_sub : float64 -> float64 -> float64 := SFsub 53 1024.
Definition float_div : float64 -> float64 -> float64 := SFdiv 53 1024.
Definition float_of_Z (z : Z) : float64 := binary_normalize 53 1024 z 0 false.
Definition float_zero : float64 := S754_zero false.
Definition float_one : float64 := float_of_Z 1.

(** The conversion to [int64], which drops the fraction. [None] is a value
    that does not fit, or is not a number: what Go then gives depends on the
    machine. *)
Definition Z_of_float (f : float64) : option Z :=
  match f with
  | S754_zero _ => Some 0
  | S754_finite negative m e =>
    let magnitude := if 0 <=? e then Z.pos m * 2 ^ e else Z.pos m / 2 ^ (- e) in
    let z := if negative then - magnitude else magnitude in
    if (min_int64 <=? z) && (z <=? max_int64) then Some z else None
  | _ => None
  end.

(** [math.Ceil], and [math.Round], whose halves go away from zero. Both give a
    whole number; [None] is an infinity or not a number. *)
Definition Ceil (f : float64) : option Z :=
  match f with
  | S754_zero _ => Some 0
  | S754_finite negative m e =>
    let signed := if negative then Z.neg m else Z.pos m in
    Some (if 0 <=? e then signed * 2 ^ e else - (- signed / 2 ^ (- e)))
  | _ => None
  end.

Definition Round (f : float64) : option Z :=
  match f with
  | S754_zero _ => Some 0
  | S754_finite negative m e =>
    let magnitude := if 0 <=? e then Z.pos m * 2 ^ e else (Z.pos m + 2 ^ (- e - 1)) / 2 ^ (- e) in
    Some (if negative then - magnitude else magnitude)
  | _ => None
  end.

(** ** Digits *)

Lemma digits_bounds m : 2 ^ (Z.pos (digits2_pos m) - 1) <= Z.pos m < 2 ^ Z.pos (digits2_pos m).
Proof.
  induction m as [m IH|m IH|]; cbn [digits2_pos]; [..|by cbn].
  all: rewrite Pos2Z.inj_succ; replace (Z.succ (Z.pos (digits2_pos m)) - 1) with (Z.succ (Z.pos (digits2_pos m) - 1)) by lia;
    rewrite !Z.pow_succ_r by lia; lia.
Qed.

Lemma digits_unique m d : 0 < d -> 2 ^ (d - 1) <= Z.pos m < 2 ^ d -> Z.pos (digits2_pos m) = d.
Proof.
  intros Hd [Hlo Hhi]. destruct (digits_bounds m) as [Hlo' Hhi'].
  assert (d - 1 < Z.pos (digits2_pos m)) by (apply (Z.pow_lt_mono_r_iff 2); lia).
  assert (Z.pos (digits2_pos m) - 1 < d) by (apply (Z.pow_lt_mono_r_iff 2); lia). lia.
Qed.

Lemma digits_le m n : Z.pos m < 2 ^ n -> 0 <= n -> Z.pos (digits2_pos m) <= n.
Proof.
  intros H Hn. destruct (digits_bounds m) as [Hlo _].
  assert (Z.pos (digits2_pos m) - 1 < n) by (apply (Z.pow_lt_mono_r_iff 2); lia). lia.
Qed.

(** ** Shifts *)

Lemma iter_pos_nat {A} (f : A -> A) n x : iter_pos f n x = Nat.iter (Pos.to_nat n) f x.
Proof.
  revert x. induction n as [n IH|n IH|]; intros x; cbn [iter_pos]; [..|done].
  - rewrite !IH, <-Nat.iter_add, Pos2Nat.inj_xI. replace (S (2 * Pos.to_nat n)) with ((Pos.to_nat n + Pos.to_nat n) + 1)%nat by lia.
    by rewrite (Nat.iter_add (_ + _) 1).
  - rewrite !IH, <-Nat.iter_add, Pos2Nat.inj_xO. by replace (2 * Pos.to_nat n)%nat with (Pos.to_nat n + Pos.to_nat n)%nat by lia.
Qed.

Definition exact (mrs : shr_record) : bool := negb (shr_r mrs || shr_s mrs).

Lemma shr_1_spec mrs :
  0 <= shr_m mrs -> shr_m (shr_1 mrs) = shr_m mrs / 2 /\ exact (shr_1 mrs) = exact mrs && Z.even (shr_m mrs).
Proof.
  destruct mrs as [[|[p|p|]|p] r s]; cbn; intros H; try lia; unfold exact; cbn;
    (split; [by rewrite <-Z.div2_div|by destruct r, s]).
Qed.

Lemma shr_iter_spec n mrs :
  0 <= shr_m mrs ->
  let q := shr_m mrs / 2 ^ Z.of_nat n in
  shr_m (Nat.iter n shr_1 mrs) = q /\
  exact (Nat.iter n shr_1 mrs) = exact mrs && (q * 2 ^ Z.of_nat n =? shr_m mrs).
Proof.
  intros H. cbn zeta. induction n as [|n [IHq IHe]]; rewrite ?Nat.iter_succ.
  { cbn [Nat.iter]. rewrite Z.div_1_r, Z.mul_1_r, Z.eqb_refl. by rewrite andb_true_r. }
  assert (H2 : 0 < 2 ^ Z.of_nat n) by lia.
  assert (Hn : 0 <= shr_m (Nat.iter n shr_1 mrs)) by (rewrite IHq; by apply Z.div_pos).
  destruct (shr_1_spec _ Hn) as [-> ->]. rewrite IHe, IHq, Nat2Z.inj_succ, Z.pow_succ_r, (Z.mul_comm 2) by lia.
  rewrite <-Z.div_div by lia. split; [done|]. rewrite <-andb_assoc. f_equal.
  set (m := shr_m mrs) in *. set (P := 2 ^ Z.of_nat n) in *. set (q := m / P).
  pose proof (Z.div_mod m P ltac:(lia)) as Hm. fold q in Hm. pose proof (Z.mod_pos_bound m P H2).
  pose proof (Z.div_mod q 2 ltac:(lia)). pose proof (Z.mod_pos_bound q 2 ltac:(lia)).
  destruct (Z.even q) eqn:Heven; rewrite ?andb_true_r, ?andb_false_r.
  - apply Z.even_spec in Heven as [h ->]. rewrite (Z.mul_comm 2 h), Z.div_mul in * by lia.
    apply Bool.eq_iff_eq_true. rewrite !Z.eqb_eq. nia.
  - symmetry. apply Z.eqb_neq. intros Heq.
    assert (q mod 2 = 1) by (rewrite Zmod_odd, <-Z.negb_even, Heven; done). nia.
Qed.

Lemma shr_spec mrs e n :
  0 <= shr_m mrs ->
  let q := shr_m mrs / 2 ^ Z.max 0 n in
  exists mrs', shr mrs e n = (mrs', e + Z.max 0 n) /\ shr_m mrs' = q /\ exact mrs' = exact mrs && (q * 2 ^ Z.max 0 n =? shr_m mrs).
Proof.
  intros H. cbn zeta. assert (H0 : forall k, k <= 0 -> exists mrs', (mrs, e) = (mrs', e + Z.max 0 k) /\ shr_m mrs' = shr_m mrs / 2 ^ Z.max 0 k /\
    exact mrs' = exact mrs && (shr_m mrs / 2 ^ Z.max 0 k * 2 ^ Z.max 0 k =? shr_m mrs)).
  { intros k Hk. rewrite Z.max_l by lia. rewrite Z.pow_0_r, Z.div_1_r, Z.mul_1_r, Z.eqb_refl, andb_true_r, Z.add_0_r. by exists mrs. }
  destruct n as [|p|p]; cbn [shr]; [by apply H0| |by apply H0].
  rewrite Z.max_r, iter_pos_nat by lia. eexists. split; [done|].
  pose proof (shr_iter_spec (Pos.to_nat p) mrs H) as Hs. by rewrite positive_nat_Z in Hs.
Qed.

(** ** Rounding *)

(** What a rounding gives for a positive [m * 2 ^ e]: with [e'] the exponent of
    53 digits (or [e], when there are fewer), a number that is the quotient by
    the unit in the last place, or one more, in that unit; exactly the quotient
    when nothing is lost. *)
Definition rounds_to (m e : Z) (lossless : bool) (s : bool) (f : float64) : Prop :=
  let e' := Z.max e (Zdigits2 m + e - 53) in
  let q := m / 2 ^ (e' - e) in
  exists p e'', f = S754_finite s p e'' /\ e' <= e'' <= e' + 1 /\
    (Z.pos p * 2 ^ (e'' - e') = q \/ Z.pos p * 2 ^ (e'' - e') = q + 1) /\
    (lossless = true -> q * 2 ^ (e' - e) = m -> Z.pos p * 2 ^ (e'' - e') = q).

Lemma round_half mrs : let m := round_nearest_even (shr_m mrs) (loc_of_shr_record mrs) in
  (m = shr_m mrs \/ m = shr_m mrs + 1) /\ (exact mrs = true -> m = shr_m mrs).
Proof. destruct mrs as [m [] []]; cbn; unfold exact; cbn; repeat case_match; auto with lia. Qed.

Lemma record_of_loc m loc : shr_m (shr_record_of_loc m loc) = m /\ exact (shr_record_of_loc m loc) = match loc with loc_Exact => true | _ => false end.
Proof. by destruct loc as [|[]]. Qed.

Lemma round_aux_spec s m e loc :
  0 < m -> -1074 <= Zdigits2 m + e - 53 -> Z.max e (Zdigits2 m + e - 53) < 971 ->
  rounds_to m e (match loc with loc_Exact => true | _ => false end) s (binary_round_aux 53 1024 s m e loc).
Proof.
  intros Hm Hmin Hmax. unfold rounds_to, binary_round_aux, shr_fexp.
  set (e' := Z.max e (Zdigits2 m + e - 53)) in *.
  destruct (record_of_loc m loc) as [Hrm Hrl].
  destruct (shr_spec (shr_record_of_loc m loc) e (fexp 53 1024 (Zdigits2 m + e) - e)) as (mrs' & -> & Hq & Hex); [lia|].
  rewrite Hrm, Hrl in *.
  assert (Hshift : Z.max 0 (fexp 53 1024 (Zdigits2 m + e) - e) = e' - e) by (unfold fexp, emin; lia).
  rewrite Hshift in *. replace (e + (e' - e)) with e' by lia.
  destruct (round_half mrs') as [Hround Hexact]. cbn zeta in *. rewrite Hq in *.
  set (q := m / 2 ^ (e' - e)) in *. set (r := round_nearest_even q (loc_of_shr_record mrs')) in *.
  destruct m as [|pm|]; [lia| |lia]. cbn [Zdigits2] in *.
  assert (Hdm := digits_bounds pm). set (d := Z.pos (digits2_pos pm)) in *. assert (0 < d) by lia.
  (* q has the digits of m less those shifted out *)
  assert (Hqb : 2 ^ (d - (e' - e) - 1) <= q < 2 ^ (d - (e' - e))).
  { assert (0 <= e' - e <= d - 1) by lia. unfold q. split.
    - apply Z.div_le_lower_bound; [lia|]. rewrite <-Z.pow_add_r by lia. replace (e' - e + (d - (e' - e) - 1)) with (d - 1) by lia. lia.
    - apply Z.div_lt_upper_bound; [lia|]. rewrite <-Z.pow_add_r by lia. replace (e' - e + (d - (e' - e))) with d by lia; lia. }
  set (k := d - (e' - e)) in *. assert (Hk : 1 <= k <= 53) by lia.
  assert (0 < 2 ^ (k - 1)) by lia.
  assert (Hkk : 2 ^ k = 2 * 2 ^ (k - 1)) by (rewrite <-Z.pow_succ_r by lia; f_equal; lia).
  destruct (shr_spec (shr_record_of_loc r loc_Exact) e' (fexp 53 1024 (Zdigits2 r + e') - e')) as (mrs'' & -> & Hq2 & _); [cbn; lia|].
  change (shr_m (shr_record_of_loc r loc_Exact)) with r in *.
  assert (exists p, r = Z.pos p) as [p Hp] by (destruct r as [|p|]; [lia|by exists p|lia]). rewrite Hp in *. cbn [Zdigits2] in *.
  assert (Hd2 : Z.pos (digits2_pos p) = k \/ (Z.pos (digits2_pos p) = k + 1 /\ Z.pos p = 2 ^ k)).
  { assert (Hpk : 2 ^ (k - 1) <= Z.pos p <= 2 ^ k) by lia. clear -Hpk Hk Hkk. clearbody k.
    destruct (decide (Z.pos p = 2 ^ k)) as [Heq|Hne].
    - right. split; [|done]. apply digits_unique; [lia|]. replace (k + 1) with (Z.succ k) by lia. rewrite Z.pow_succ_r by lia.
      replace (Z.succ k - 1) with k by lia. lia.
    - left. apply digits_unique; lia. }
  assert (Hn2 : Z.max 0 (fexp 53 1024 (Z.pos (digits2_pos p) + e') - e') = 0 \/
    (Z.max 0 (fexp 53 1024 (Z.pos (digits2_pos p) + e') - e') = 1 /\ Z.pos p = 2 ^ 53)).
  { assert (Hmin' : -1074 <= e') by lia. clear -Hd2 Hk Hmin'. clearbody k e'. unfold fexp, emin.
    destruct Hd2 as [Hd2|[Hd2 Hpow]]; rewrite Hd2; [left; lia|]. destruct (decide (k = 53)) as [->|]; [right|left]; lia. }
  destruct Hn2 as [Hn2|[Hn2 Hpow]]; rewrite Hn2 in *.
  - rewrite Z.div_1_r in Hq2. rewrite Hq2, (proj2 (Z.leb_le _ _)) by lia. eexists p, _. split; [done|]. split; [lia|].
    replace (e' + 0 - e') with 0 by lia. rewrite Z.mul_1_r. split; [lia|]. intros Hloss Hlow. apply Hexact. rewrite Hex, Hloss. cbn. by apply Z.eqb_eq.
  - rewrite Hq2, Hpow. change (2 ^ 53 / 2 ^ 1) with (Z.pos 4503599627370496). cbv iota. rewrite (proj2 (Z.leb_le _ _)) by lia.
    eexists _, _. split; [done|]. split; [lia|]. replace (e' + 1 - e') with 1 by lia.
    change (Z.pos 4503599627370496 * 2 ^ 1) with (2 ^ 53). rewrite <-Hpow.
    split; [lia|]. intros Hloss Hlow. apply Hexact. rewrite Hex, Hloss. cbn. by apply Z.eqb_eq.
Qed.

(** ** Positive numbers between whole ones *)

(** [f] is positive, at least [a], at most [b], with an exponent from [lo] on. *)
Definition within (lo a b : Z) (f : float64) : Prop :=
  exists p e, f = S754_finite false p e /\ lo <= e < 0 /\ a * 2 ^ (- e) <= Z.pos p <= b * 2 ^ (- e).

Lemma within_weaken lo a b a' b' f : within lo a b f -> a' <= a -> b <= b' -> within lo a' b' f.
Proof. intros (p & e & -> & He & Hp) Ha Hb. exists p, e. split_and!; [done|lia..| |]; nia. Qed.

Lemma Ceil_within lo a b f : within lo a b f -> exists c, Ceil f = Some c /\ a <= c <= b /\ 0 < c.
Proof.
  intros (p & e & -> & He & Hlo & Hhi). cbn [Ceil]. assert (0 < 2 ^ (- e)) by lia.
  rewrite (proj2 (Z.leb_gt 0 e)) by lia. eexists. split; [done|]. set (P := 2 ^ (- e)) in *.
  pose proof (Z.div_mod (- Z.pos p) P ltac:(lia)). pose proof (Z.mod_pos_bound (- Z.pos p) P ltac:(lia)). nia.
Qed.

Lemma Round_within lo a b f : within lo a b f -> exists c, Round f = Some c /\ a <= c <= b.
Proof.
  intros (p & e & -> & He & Hlo & Hhi). cbn [Round]. assert (HP : 2 ^ (- e) = 2 * 2 ^ (- e - 1)) by (rewrite <-Z.pow_succ_r by lia; f_equal; lia).
  rewrite (proj2 (Z.leb_gt 0 e)) by lia. assert (0 < 2 ^ (- e - 1)) by lia. eexists. split; [done|]. split.
  - apply Z.div_le_lower_bound; nia.
  - apply Z.lt_succ_r, Z.div_lt_upper_bound; nia.
Qed.

(** Rounding keeps a number within the whole numbers it is within. *)
Lemma round_aux_within a b m e loc :
  0 < m -> -900 <= e < -1 -> -800 <= Zdigits2 m + e < 52 -> 0 <= a ->
  a * 2 ^ (- e) <= m -> (m < b * 2 ^ (- e) \/ (loc = loc_Exact /\ m <= b * 2 ^ (- e))) ->
  within e a b (binary_round_aux 53 1024 false m e loc).
Proof.
  intros Hm He Hd Ha Hlo Hhi.
  destruct (round_aux_spec false m e loc) as (p & e'' & -> & He'' & Hr & Hexact); [lia..|].
  set (e' := Z.max e (Zdigits2 m + e - 53)) in *. set (q := m / 2 ^ (e' - e)) in *.
  assert (HK : 0 < 2 ^ (e' - e)) by lia. assert (HP : 0 < 2 ^ (- e')) by lia.
  assert (Hsplit : 2 ^ (- e) = 2 ^ (- e') * 2 ^ (e' - e)) by (rewrite <-Z.pow_add_r by lia; f_equal; lia).
  pose proof (Z.div_mod m (2 ^ (e' - e)) ltac:(lia)) as Hq. fold q in Hq. pose proof (Z.mod_pos_bound m (2 ^ (e' - e)) HK).
  rewrite Hsplit in Hlo, Hhi. set (K := 2 ^ (e' - e)) in *. set (P := 2 ^ (- e')) in *. set (R := Z.pos p * 2 ^ (e'' - e')) in *.
  assert (Hqlo : a * P <= q) by (apply Z.div_le_lower_bound; lia).
  assert (HR : a * P <= R <= b * P).
  { split; [lia|]. destruct Hhi as [Hlt|[-> Hle]].
    - assert (q < b * P) by (apply Z.div_lt_upper_bound; lia). lia.
    - destruct (decide (m = b * P * K)) as [Heq|Hne].
      + assert (q = b * P) as Hqb by (unfold q; rewrite Heq; by apply Z.div_mul; lia). rewrite Hexact; [lia|done|lia].
      + assert (q < b * P) by (apply Z.div_lt_upper_bound; lia). lia. }
  exists p, e''. split; [done|]. split; [lia|].
  assert (HP' : P = 2 ^ (- e'') * 2 ^ (e'' - e')) by (unfold P; rewrite <-Z.pow_add_r by lia; f_equal; lia).
  assert (HE : 0 < 2 ^ (e'' - e')) by lia. unfold R in HR. rewrite HP', !Z.mul_assoc in HR.
  split; apply (Z.mul_le_mono_pos_r _ _ _ HE); apply HR.
Qed.

Lemma shl_align_spec m e e' :
  exists m', shl_align m e e' = (m', Z.min e e') /\ Z.pos m' = Z.pos m * 2 ^ (e - Z.min e e').
Proof.
  unfold shl_align. destruct (e' - e) as [|d|d] eqn:Hd.
  - exists m. rewrite Z.min_l by lia. by rewrite Z.sub_diag, Z.mul_1_r.
  - exists m. rewrite Z.min_l by lia. by rewrite Z.sub_diag, Z.mul_1_r.
  - rewrite Z.min_r by lia. exists (Pos.iter xO m d). split; [done|]. replace (e - e') with (Z.pos d) by lia.
    rewrite Pos2Nat.inj_iter, <-(positive_nat_Z d). clear. induction (Pos.to_nat d) as [|n IH]; [by rewrite Z.mul_1_r|].
    change (nat_rect _ m _ (S n)) with (xO (nat_rect (fun _ => positive) m (fun _ => xO) n)). rewrite Pos2Z.inj_xO, IH, Nat2Z.inj_succ, Z.pow_succ_r by lia. lia.
Qed.

Lemma binary_round_within a b m e :
  -800 <= e < 0 -> Z.pos (digits2_pos m) + e < 51 -> 0 <= a ->
  a * 2 ^ (- e) <= Z.pos m <= b * 2 ^ (- e) -> within (e - 53) a b (binary_round 53 1024 false m e).
Proof.
  intros He Hd Ha [Hlo Hhi]. unfold binary_round.
  assert (Hf : fexp 53 1024 (Z.pos (digits2_pos m) + e) = Z.pos (digits2_pos m) + e - 53) by (unfold fexp, emin; lia). rewrite Hf.
  destruct (shl_align_spec m e (Z.pos (digits2_pos m) + e - 53)) as (m' & -> & Hm').
  set (ez := Z.min e (Z.pos (digits2_pos m) + e - 53)) in *. assert (HK : 0 < 2 ^ (e - ez)) by lia.
  assert (Hsplit : 2 ^ (- ez) = 2 ^ (- e) * 2 ^ (e - ez)) by (rewrite <-Z.pow_add_r by lia; f_equal; lia).
  assert (Hdm : Z.pos (digits2_pos m') = Z.pos (digits2_pos m) + (e - ez)).
  { apply digits_unique; [lia|]. destruct (digits_bounds m). rewrite Hm'.
    replace (Z.pos (digits2_pos m) + (e - ez) - 1) with (Z.pos (digits2_pos m) - 1 + (e - ez)) by lia. rewrite !Z.pow_add_r by lia. nia. }
  assert (within ez a b (binary_round_aux 53 1024 false (Z.pos m') ez loc_Exact)) as (p & e1 & -> & He1 & Hp).
  { apply round_aux_within; cbn [Zdigits2]; rewrite ?Hsplit, ?Hm'; [lia..| |right; split; [done|]]; nia. }
  exists p, e1. split_and!; [done|lia..| |]; apply Hp.
Qed.

(** A whole number is itself. *)
Lemma float_of_Z_within n : 0 < n < 2 ^ 51 -> within (-52) n n (float_of_Z n).
Proof.
  intros Hn. destruct n as [|n|]; [lia| |lia]. unfold float_of_Z, binary_normalize, binary_round. rewrite Z.add_0_r.
  assert (Hd : Z.pos (digits2_pos n) <= 51) by (apply digits_le; lia).
  assert (Hf : fexp 53 1024 (Z.pos (digits2_pos n)) = Z.pos (digits2_pos n) - 53) by (unfold fexp, emin; lia). rewrite Hf.
  destruct (shl_align_spec n 0 (Z.pos (digits2_pos n) - 53)) as (m' & -> & Hm'). rewrite Z.min_r in * by lia.
  assert (Hdm : Z.pos (digits2_pos m') = 53).
  { apply digits_unique; [lia|]. destruct (digits_bounds n). rewrite Hm'.
    replace (53 - 1) with (Z.pos (digits2_pos n) - 1 + (0 - (Z.pos (digits2_pos n) - 53))) by lia.
    replace (2 ^ 53) with (2 ^ (Z.pos (digits2_pos n) + (0 - (Z.pos (digits2_pos n) - 53)))) by (f_equal; lia).
    rewrite !Z.pow_add_r by lia. nia. }
  assert (within (Z.pos (digits2_pos n) - 53) (Z.pos n) (Z.pos n) (binary_round_aux 53 1024 false (Z.pos m') (Z.pos (digits2_pos n) - 53) loc_Exact))
    as (p & e1 & -> & He1 & Hp).
  { apply round_aux_within; cbn [Zdigits2]; [lia..| |right; split; [done|]]; rewrite Hm'; apply Z.eq_le_incl; repeat f_equal; lia. }
  exists p, e1. split_and!; [done|lia..| |]; apply Hp.
Qed.

Lemma float_add_within lo a b c d x y :
  -700 <= lo -> 0 <= a -> 0 <= c -> b + d < 2 ^ 50 ->
  within lo a b x -> within lo c d y -> within (lo - 53) (a + c) (b + d) (float_add x y).
Proof.
  intros Hlow Ha Hc Hsmall (mx & ex & -> & Hex & Hx) (my & ey & -> & Hey & Hy). unfold float_add, SFadd. cbv zeta.
  destruct (shl_align_spec mx ex (Z.min ex ey)) as (mx' & -> & Hmx). destruct (shl_align_spec my ey (Z.min ex ey)) as (my' & -> & Hmy).
  replace (Z.min ex (Z.min ex ey)) with (Z.min ex ey) in * by lia. replace (Z.min ey (Z.min ex ey)) with (Z.min ex ey) in * by lia.
  set (ez := Z.min ex ey) in *. cbn [fst cond_Zopp]. rewrite <-Pos2Z.inj_add. unfold binary_normalize.
  assert (Hsx : 2 ^ (- ez) = 2 ^ (- ex) * 2 ^ (ex - ez)) by (rewrite <-Z.pow_add_r by lia; f_equal; lia).
  assert (Hsy : 2 ^ (- ez) = 2 ^ (- ey) * 2 ^ (ey - ez)) by (rewrite <-Z.pow_add_r by lia; f_equal; lia).
  assert (0 < 2 ^ (ex - ez)) by lia. assert (0 < 2 ^ (ey - ez)) by lia.
  assert (Hbx : a * 2 ^ (- ez) <= Z.pos mx' <= b * 2 ^ (- ez)) by (rewrite Hmx, Hsx; nia).
  assert (Hby : c * 2 ^ (- ez) <= Z.pos my' <= d * 2 ^ (- ez)) by (rewrite Hmy, Hsy; nia).
  assert (Hd : Z.pos (digits2_pos (mx' + my')) <= 50 + - ez).
  { apply digits_le; [|lia]. rewrite Z.pow_add_r by lia. assert (0 < 2 ^ (- ez)) by lia. nia. }
  destruct (binary_round_within (a + c) (b + d) (mx' + my') ez) as (p & e & -> & He & Hp); [lia..|].
  exists p, e. split_and!; [done|lia..| |]; apply Hp.
Qed.

(** A proper fraction of whole numbers: the quotient of the shifted mantissas,
    with all the digits there are, is rounded. *)
Lemma float_div_quotient n d :
  0 < n < d -> d < 2 ^ 51 ->
  exists q e loc, float_div (float_of_Z n) (float_of_Z d) = binary_round_aux 53 1024 false q e loc /\
    -160 <= e <= -53 /\ 0 < q < 2 ^ (- e) /\ 0 < Zdigits2 q <= - e /\ q * d <= n * 2 ^ (- e) < (q + 1) * d.
Proof.
  intros Hn Hd. destruct (float_of_Z_within n) as (mn & en & -> & Hen & Hmn); [lia|].
  destruct (float_of_Z_within d) as (md & ed & -> & Hed & Hmd); [lia|]. unfold float_div, SFdiv, SFdiv_core_binary. cbn [Zdigits2 xorb].
  assert (Hfn : Z.pos mn = n * 2 ^ (- en)) by lia. assert (Hfd : Z.pos md = d * 2 ^ (- ed)) by lia.
  assert (Hdn : Z.pos (digits2_pos mn) + en <= Z.pos (digits2_pos md) + ed /\ 1 <= Z.pos (digits2_pos mn) + en /\ Z.pos (digits2_pos md) + ed <= 51).
  { destruct (digits_bounds mn) as [Hn1 Hn2], (digits_bounds md) as [Hd1 Hd2]. rewrite Hfn in Hn1, Hn2. rewrite Hfd in Hd1, Hd2.
    assert (Z.pos (digits2_pos md) <= 51 + - ed) by (apply digits_le; [|lia]; rewrite Hfd, Z.pow_add_r by lia; nia).
    assert (- en < Z.pos (digits2_pos mn)) by (apply (Z.pow_lt_mono_r_iff 2); [lia..|nia]). split_and!; [|lia..].
    assert (Z.pos (digits2_pos mn) - 1 + - ed < Z.pos (digits2_pos md) + - en); [|lia].
    apply (Z.pow_lt_mono_r_iff 2); [lia..|]. rewrite !Z.pow_add_r by lia. assert (0 < 2 ^ (- en)) by lia. assert (0 < 2 ^ (- ed)) by lia. nia. }
  assert (Hfexp : fexp 53 1024 (Z.pos (digits2_pos mn) + en - (Z.pos (digits2_pos md) + ed)) =
    Z.pos (digits2_pos mn) + en - (Z.pos (digits2_pos md) + ed) - 53) by (unfold fexp, emin; lia). rewrite Hfexp.
  set (e' := Z.min (Z.pos (digits2_pos mn) + en - (Z.pos (digits2_pos md) + ed) - 53) (en - ed)).
  assert (Hm' : match en - ed - e' with 0 => Z.pos mn | Z.pos _ => Z.shiftl (Z.pos mn) (en - ed - e') | Z.neg _ => 0 end =
    Z.pos mn * 2 ^ (en - ed - e')).
  { destruct (en - ed - e') as [|s|s] eqn:Hs; [lia|by rewrite Z.shiftl_mul_pow2|lia]. }
  rewrite Hm'. set (m' := Z.pos mn * 2 ^ (en - ed - e')). destruct (Z.div_eucl m' (Z.pos md)) as [q r] eqn:Hqr.
  assert (Hq : q = m' / Z.pos md) by (unfold Z.div; by rewrite Hqr).
  assert (Hpos : 0 < q).
  { rewrite Hq. apply Z.div_str_pos. split; [lia|]. unfold m'. destruct (digits_bounds mn) as [Hn1 _], (digits_bounds md) as [_ Hd2].
    assert (2 ^ Z.pos (digits2_pos md) <= 2 ^ (Z.pos (digits2_pos mn) - 1 + (en - ed - e'))) by (apply Z.pow_le_mono_r; lia).
    rewrite Z.pow_add_r in * by lia. assert (0 < 2 ^ (en - ed - e')) by lia. nia. }
  assert (Hlt : q < 2 ^ (- e')).
  { rewrite Hq. apply Z.div_lt_upper_bound; [lia|]. unfold m'. rewrite Hfn, Hfd.
    assert (Hs : 2 ^ (- en) * 2 ^ (en - ed - e') = 2 ^ (- ed) * 2 ^ (- e')) by (rewrite <-!Z.pow_add_r by lia; f_equal; lia).
    rewrite <-!Z.mul_assoc, Hs, !Z.mul_assoc. assert (0 < 2 ^ (- ed)) by lia. assert (0 < 2 ^ (- e')) by lia. nia. }
  assert (Hdq : 0 < Zdigits2 q <= - e').
  { destruct q as [|q|]; [lia| |lia]. cbn [Zdigits2]. split; [lia|]. apply digits_le; lia. }
  exists q, e', (new_location (Z.pos md) r). split; [done|]. split; [lia|]. split; [lia|]. split; [done|].
  pose proof (Z.div_mod m' (Z.pos md) ltac:(lia)) as Hdm. pose proof (Z.mod_pos_bound m' (Z.pos md) ltac:(lia)). rewrite <-Hq in Hdm.
  assert (Hm : m' = n * 2 ^ (- e') * 2 ^ (- ed)).
  { unfold m'. rewrite Hfn, <-!Z.mul_assoc, <-!Z.pow_add_r by lia. do 2 f_equal. lia. }
  assert (0 < 2 ^ (- ed)) by lia. rewrite Hfd in *. clear -Hdm Hm H H0. set (E := 2 ^ (- ed)) in *. set (N := n * 2 ^ (- e')) in *. clearbody E N m'. nia.
Qed.

Lemma float_div_within n d :
  0 < n < d -> d < 2 ^ 51 -> within (-160) 0 1 (float_div (float_of_Z n) (float_of_Z d)).
Proof.
  intros Hn Hd. destruct (float_div_quotient n d Hn Hd) as (q & e & loc & -> & He & Hq & Hdigits & _).
  destruct (round_aux_within 0 1 q e loc) as (p & e' & -> & He' & Hp); [lia..|].
  exists p, e'. split_and!; [done|lia..| |]; apply Hp.
Qed.

Lemma Ceil_value lo a b f : within lo a b f -> exists p e c, f = S754_finite false p e /\ e < 0 /\ Ceil f = Some c /\ (c - 1) * 2 ^ (- e) < Z.pos p <= c * 2 ^ (- e).
Proof.
  intros (p & e & -> & He & _). cbn [Ceil]. assert (0 < 2 ^ (- e)) by lia. rewrite (proj2 (Z.leb_gt 0 e)) by lia.
  do 3 eexists. split; [done|]. split; [lia|]. split; [done|].
  pose proof (Z.div_mod (- Z.pos p) (2 ^ (- e)) ltac:(lia)). pose proof (Z.mod_pos_bound (- Z.pos p) (2 ^ (- e)) ltac:(lia)). nia.
Qed.

Lemma Round_value lo a b f : within lo a b f -> exists p e c, f = S754_finite false p e /\ e < 0 /\ Round f = Some c /\
  (2 * c - 1) * 2 ^ (- e) <= 2 * Z.pos p <= (2 * c + 1) * 2 ^ (- e).
Proof.
  intros (p & e & -> & He & _). cbn [Round]. assert (HP : 2 ^ (- e) = 2 * 2 ^ (- e - 1)) by (rewrite <-Z.pow_succ_r by lia; f_equal; lia).
  assert (0 < 2 ^ (- e - 1)) by lia. rewrite (proj2 (Z.leb_gt 0 e)) by lia. do 3 eexists. split; [done|]. split; [lia|]. split; [done|].
  pose proof (Z.div_mod (Z.pos p + 2 ^ (- e - 1)) (2 ^ (- e)) ltac:(lia)). pose proof (Z.mod_pos_bound (Z.pos p + 2 ^ (- e - 1)) (2 ^ (- e)) ltac:(lia)). nia.
Qed.

(** The product of whole numbers is their product while it fits. *)
Lemma float_mul_whole x y :
  0 < x -> 0 < y -> x * y < 2 ^ 51 -> within (-110) (x * y) (x * y) (float_mul (float_of_Z x) (float_of_Z y)).
Proof.
  intros Hx Hy Hxy. destruct (float_of_Z_within x) as (mx & ex & -> & Hex & Hmx); [nia|].
  destruct (float_of_Z_within y) as (my & ey & -> & Hey & Hmy); [nia|]. unfold float_mul, SFmul. cbn [xorb].
  assert (Hm : Z.pos (mx * my) = x * y * 2 ^ (- (ex + ey))).
  { rewrite Pos2Z.inj_mul. replace (Z.pos mx) with (x * 2 ^ (- ex)) by lia. replace (Z.pos my) with (y * 2 ^ (- ey)) by lia.
    replace (- (ex + ey)) with (- ex + - ey) by lia. rewrite Z.pow_add_r by lia. ring. }
  assert (Z.pos (digits2_pos (mx * my)) <= 51 + - (ex + ey)).
  { apply digits_le; [|lia]. rewrite Hm, Z.pow_add_r by lia. assert (0 < 2 ^ (- (ex + ey))) by lia. by apply Z.mul_lt_mono_pos_r. }
  destruct (round_aux_within (x * y) (x * y) (Z.pos (mx * my)) (ex + ey) loc_Exact) as (p & e & -> & He & Hp); [cbn [Zdigits2]; lia..|nia|lia|right; split; [done|lia]|].
  exists p, e. split_and!; [done|lia..| |]; apply Hp.
Qed.
