(* ===== verification/FloatError.v ===== *)
(** * The error of binary64 operations

    The value of a number as a rational, and how far a product, a sum and a
    difference of moderate positive numbers are from the exact ones. *)
From S2P Require Import Prelude GoLib Float.
From Stdlib Require Import Floats.SpecFloat QArith Qabs Qpower Lqa.
#[local] Open Scope Z_scope.

(** [m * 2 ^ e]. *)
Definition Qval (m e : Z) : Q := (inject_Z m * 2 ^ e)%Q.

Definition fval (f : float64) : Q :=
  match f with
  | S754_finite s m e => Qval (if s then Z.neg m else Z.pos m) e
  | _ => 0%Q
  end.

(** The unit of the relative error: one in [2 ^ 52]. *)
Definition ulp : Q := (1 # 4503599627370496)%Q.

Lemma Qpow2_pos e : (0 < 2 ^ e)%Q.
Proof. by apply Qpower_0_lt. Qed.

Lemma Qval_shift m e k : 0 <= k -> (Qval (m * 2 ^ k) e == Qval m (e + k))%Q.
Proof.
  intros Hk. unfold Qval. rewrite inject_Z_mult, Zpower_Qpower by done. rewrite Qpower_plus by done. change (inject_Z 2) with 2%Q. ring.
Qed.

Lemma Qval_mult m e m' e' : (Qval m e * Qval m' e' == Qval (m * m') (e + e'))%Q.
Proof. unfold Qval. rewrite inject_Z_mult, Qpower_plus by done. ring. Qed.

Lemma Qval_le m m' e : m <= m' -> (Qval m e <= Qval m' e)%Q.
Proof. intros H. unfold Qval. apply Qmult_le_compat_r; [by rewrite <-Zle_Qle|]. apply Qlt_le_weak, Qpow2_pos. Qed.

Lemma Qval_0 n e : e <= 0 -> (Qval (n * 2 ^ (- e)) e == inject_Z n)%Q.
Proof. intros He. rewrite Qval_shift by lia. unfold Qval. replace (e + - e) with 0 by lia. change (2 ^ 0)%Q with 1%Q. ring. Qed.

Lemma within_value lo a b f : within lo a b f -> (inject_Z a <= fval f <= inject_Z b)%Q.
Proof.
  intros (p & e & -> & He & Hlo & Hhi). cbn [fval]. rewrite <-(Qval_0 a e), <-(Qval_0 b e) by lia. split; by apply Qval_le.
Qed.

(** ** Rounding *)

(** An error of whole numbers, in units of [2 ^ e]. *)
Lemma units_error x m e : 2 ^ 52 * Z.abs (x - m) <= m -> (Qabs (Qval x e - Qval m e) <= ulp * Qval m e)%Q.
Proof.
  intros H. assert (H1 : (inject_Z x - inject_Z m <= ulp * inject_Z m)%Q /\ (inject_Z m - inject_Z x <= ulp * inject_Z m)%Q).
  { assert (Ha : 2 ^ 52 * x <= 2 ^ 52 * m + m) by lia. assert (Hb : 2 ^ 52 * m <= 2 ^ 52 * x + m) by lia.
    rewrite Zle_Qle in Ha, Hb. rewrite !inject_Z_plus, !inject_Z_mult in Ha, Hb. change (inject_Z (2 ^ 52)) with (4503599627370496 # 1)%Q in *.
    unfold ulp. split; lra. }
  pose proof (Qpow2_pos e) as HP. unfold Qval. set (P := (2 ^ e)%Q) in *. destruct H1 as [H1 H2].
  apply Qabs_Qle_condition. split.
  - apply (Qmult_le_compat_r _ _ P) in H2; [|by apply Qlt_le_weak]. lra.
  - apply (Qmult_le_compat_r _ _ P) in H1; [|by apply Qlt_le_weak]. lra.
Qed.

Lemma round_aux_error m e :
  0 < m -> -1074 <= Zdigits2 m + e - 53 -> Z.max e (Zdigits2 m + e - 53) < 971 ->
  (Qabs (fval (binary_round_aux 53 1024 false m e loc_Exact) - Qval m e) <= ulp * Qval m e)%Q.
Proof.
  intros Hm Hmin Hmax. destruct (round_aux_spec false m e loc_Exact) as (p & e'' & -> & He'' & Hr & Hexact); [done..|]. cbn [fval].
  set (e' := Z.max e (Zdigits2 m + e - 53)) in *. set (q := m / 2 ^ (e' - e)) in *. set (K := 2 ^ (e' - e)) in *.
  assert (HK : 0 < K) by (apply Z.pow_pos_nonneg; lia). set (x := Z.pos p * 2 ^ (e'' - e)).
  assert (Hx : x = Z.pos p * 2 ^ (e'' - e') * K) by (unfold x, K; rewrite <-Z.mul_assoc, <-Z.pow_add_r by lia; do 2 f_equal; lia).
  assert (Hval : (Qval (Z.pos p) e'' == Qval x e)%Q) by (unfold x; rewrite Qval_shift by lia; by replace (e + (e'' - e)) with e'' by lia).
  assert (Herr : 2 ^ 52 * Z.abs (x - m) <= m).
  { pose proof (Z.div_mod m K ltac:(lia)) as Hq. fold q in Hq. pose proof (Z.mod_pos_bound m K HK). rewrite Hx. clearbody x.
    destruct (decide (e' = e)) as [Heq|Hne].
    - assert (K = 1) as HK1 by (unfold K; by rewrite Heq, Z.sub_diag). rewrite HK1 in *. rewrite Hexact by (done || lia). lia.
    - assert (HKm : 2 ^ 52 * K <= m).
      { destruct m as [|pm|]; [lia| |lia]. cbn [Zdigits2] in *. destruct (digits_bounds pm) as [Hlo _]. unfold K. rewrite <-Z.pow_add_r by lia.
        replace (52 + (e' - e)) with (Z.pos (digits2_pos pm) - 1) by lia. done. }
      set (R := Z.pos p * 2 ^ (e'' - e')) in *. clearbody R K q. nia. }
  rewrite Hval. by apply units_error.
Qed.

Lemma binary_round_error m e :
  -800 <= e < 0 -> Z.pos (digits2_pos m) + e < 51 ->
  (Qabs (fval (binary_round 53 1024 false m e) - Qval (Z.pos m) e) <= ulp * Qval (Z.pos m) e)%Q.
Proof.
  intros He Hd. unfold binary_round.
  assert (Hf : fexp 53 1024 (Z.pos (digits2_pos m) + e) = Z.pos (digits2_pos m) + e - 53) by (unfold fexp, emin; lia). rewrite Hf.
  destruct (shl_align_spec m e (Z.pos (digits2_pos m) + e - 53)) as (m' & -> & Hm').
  set (ez := Z.min e (Z.pos (digits2_pos m) + e - 53)) in *.
  assert (Hval : (Qval (Z.pos m) e == Qval (Z.pos m') ez)%Q) by (rewrite Hm', Qval_shift by lia; by replace (ez + (e - ez)) with e by lia).
  assert (Hdm : Z.pos (digits2_pos m') = Z.pos (digits2_pos m) + (e - ez)).
  { apply digits_unique; [lia|]. destruct (digits_bounds m). rewrite Hm'.
    replace (Z.pos (digits2_pos m) + (e - ez) - 1) with (Z.pos (digits2_pos m) - 1 + (e - ez)) by lia.
    rewrite !Z.pow_add_r by lia. assert (0 < 2 ^ (e - ez)) by lia. nia. }
  rewrite Hval. apply round_aux_error; cbn [Zdigits2]; lia.
Qed.

(** ** Operations on numbers that are not negative *)

(** Zero, or positive with an exponent from [lo] on, and at most [b]. *)
Definition moderate (lo b : Z) (f : float64) : Prop := (exists s, f = S754_zero s) \/ within lo 0 b f.

Lemma moderate_weaken lo b lo' b' f : moderate lo b f -> lo' <= lo -> b <= b' -> moderate lo' b' f.
Proof.
  intros [Hz|(p & e & -> & He & Hp)] Hlo Hb; [by left|right]. exists p, e. split; [done|]. split; [lia|]. assert (0 < 2 ^ (- e)) by lia. nia.
Qed.

Lemma moderate_value lo b f : moderate lo b f -> 0 <= b -> (0 <= fval f <= inject_Z b)%Q.
Proof.
  intros [[s ->]|H] Hb; [|by apply within_value in H]. cbn [fval]. split; [apply Qle_refl|]. change 0%Q with (inject_Z 0). by rewrite <-Zle_Qle.
Qed.

Lemma digits_of_bound m e b k : e < 0 -> Z.pos m <= b * 2 ^ (- e) -> b < 2 ^ k -> 0 <= k -> Z.pos (digits2_pos m) + e <= k.
Proof.
  intros He Hm Hb Hk. assert (Z.pos (digits2_pos m) <= k + - e); [|lia]. apply digits_le; [|lia]. rewrite Z.pow_add_r by lia. assert (0 < 2 ^ (- e)) by lia. nia.
Qed.

Lemma float_mul_error l1 b1 l2 b2 x y :
  moderate l1 b1 x -> moderate l2 b2 y -> -800 <= l1 + l2 -> 0 <= b1 -> 0 <= b2 -> b1 * b2 < 2 ^ 51 ->
  moderate (l1 + l2) (b1 * b2) (float_mul x y) /\
  (Qabs (fval (float_mul x y) - fval x * fval y) <= ulp * (fval x * fval y))%Q.
Proof.
  intros [[s ->]|(mx & ex & -> & Hex & Hx)] Hy Hl Hb1 Hb2 Hb.
  { assert (Hz : exists s', float_mul (S754_zero s) y = S754_zero s') by (destruct Hy as [[s' ->]|(? & ? & -> & _)]; by eexists).
    destruct Hz as [s' ->]. split; [left; by eexists|]. cbn [fval]. apply Qabs_Qle_condition. split; lra. }
  destruct Hy as [[s ->]|(my & ey & -> & Hey & Hy)].
  { split; [left; by eexists|]. change (float_mul _ _) with (S754_zero s). cbn [fval]. apply Qabs_Qle_condition. split; lra. }
  unfold float_mul, SFmul. cbn [xorb fval].
  assert (Hm : Z.pos (mx * my) <= b1 * b2 * 2 ^ (- (ex + ey))).
  { rewrite Pos2Z.inj_mul. replace (- (ex + ey)) with (- ex + - ey) by lia. rewrite Z.pow_add_r by lia. nia. }
  assert (Hd : Z.pos (digits2_pos (mx * my)) + (ex + ey) <= 51) by (apply (digits_of_bound _ _ (b1 * b2)); lia).
  split.
  - right. destruct (round_aux_within 0 (b1 * b2) (Z.pos (mx * my)) (ex + ey) loc_Exact) as (p & e & -> & He & Hp);
      [cbn [Zdigits2]; lia..|by right|]. exists p, e. split_and!; [done|lia..| |]; apply Hp.
  - rewrite Qval_mult, <-Pos2Z.inj_mul. apply round_aux_error; cbn [Zdigits2]; lia.
Qed.

Lemma float_add_error lo b1 b2 x y :
  moderate lo b1 x -> moderate lo b2 y -> -700 <= lo -> 0 <= b1 -> 0 <= b2 -> b1 + b2 < 2 ^ 50 ->
  moderate (lo - 53) (b1 + b2) (float_add x y) /\
  (Qabs (fval (float_add x y) - (fval x + fval y)) <= ulp * (fval x + fval y))%Q.
Proof.
  intros Hx Hy Hlo Hb1 Hb2 Hb.
  destruct Hx as [[s ->]|Hx].
  { assert (Hz : (exists s', float_add (S754_zero s) y = S754_zero s' /\ exists t, y = S754_zero t) \/ float_add (S754_zero s) y = y).
    { destruct Hy as [[s' ->]|(? & ? & -> & _)]; [left; destruct s, s'; (eexists; split; [reflexivity|by eexists])|by right]. }
    destruct Hz as [(s' & -> & t & ->)|Hz].
    - split; [left; by eexists|]. cbn [fval]. apply Qabs_Qle_condition. split; lra.
    - rewrite Hz. split; [by eapply moderate_weaken; [exact Hy|lia|lia]|]. destruct (moderate_value _ _ _ Hy Hb2). cbn [fval]. unfold ulp.
      apply Qabs_Qle_condition. split; lra. }
  destruct Hy as [[s ->]|Hy].
  { assert (Hz : float_add x (S754_zero s) = x) by (destruct Hx as (? & ? & -> & _); done). rewrite Hz.
    split; [eapply moderate_weaken; [right; exact Hx|lia|lia]|]. destruct (moderate_value _ _ _ (or_intror Hx) Hb1). cbn [fval]. unfold ulp.
    apply Qabs_Qle_condition. split; lra. }
  split; [right; by apply (float_add_within lo 0 b1 0 b2)|].
  destruct Hx as (mx & ex & -> & Hex & Hx), Hy as (my & ey & -> & Hey & Hy). unfold float_add, SFadd. cbv zeta.
  destruct (shl_align_spec mx ex (Z.min ex ey)) as (mx' & -> & Hmx). destruct (shl_align_spec my ey (Z.min ex ey)) as (my' & -> & Hmy).
  replace (Z.min ex (Z.min ex ey)) with (Z.min ex ey) in * by lia. replace (Z.min ey (Z.min ex ey)) with (Z.min ex ey) in * by lia.
  set (ez := Z.min ex ey) in *. cbn [fst cond_Zopp fval]. rewrite <-Pos2Z.inj_add. unfold binary_normalize.
  assert (Hsum : (Qval (Z.pos mx) ex + Qval (Z.pos my) ey == Qval (Z.pos (mx' + my')) ez)%Q).
  { rewrite Pos2Z.inj_add. unfold Qval at 3. rewrite inject_Z_plus.
    assert (H1 : (Qval (Z.pos mx') ez == Qval (Z.pos mx) ex)%Q) by (rewrite Hmx, Qval_shift by lia; by replace (ez + (ex - ez)) with ex by lia).
    assert (H2 : (Qval (Z.pos my') ez == Qval (Z.pos my) ey)%Q) by (rewrite Hmy, Qval_shift by lia; by replace (ez + (ey - ez)) with ey by lia).
    rewrite <-H1, <-H2. unfold Qval. ring. }
  rewrite Hsum. apply binary_round_error; [lia|].
  assert (Hsx : 2 ^ (- ez) = 2 ^ (- ex) * 2 ^ (ex - ez)) by (rewrite <-Z.pow_add_r by lia; f_equal; lia).
  assert (Hsy : 2 ^ (- ez) = 2 ^ (- ey) * 2 ^ (ey - ez)) by (rewrite <-Z.pow_add_r by lia; f_equal; lia).
  assert (0 < 2 ^ (ex - ez)) by lia. assert (0 < 2 ^ (ey - ez)) by lia.
  assert (Hbx : Z.pos mx' <= b1 * 2 ^ (- ez)) by (rewrite Hmx, Hsx; nia).
  assert (Hby : Z.pos my' <= b2 * 2 ^ (- ez)) by (rewrite Hmy, Hsy; nia).
  assert (Z.pos (digits2_pos (mx' + my')) + ez <= 50); [|lia]. apply (digits_of_bound _ _ (b1 + b2)); lia.
Qed.

Lemma float_sub_error lo b x y :
  moderate lo b x -> moderate lo b y -> (fval y <= fval x)%Q -> -700 <= lo -> 0 <= b < 2 ^ 50 ->
  moderate (lo - 53) b (float_sub x y) /\
  (Qabs (fval (float_sub x y) - (fval x - fval y)) <= ulp * (fval x - fval y))%Q.
Proof.
  intros Hx Hy Hle Hlo Hb.
  destruct Hy as [[s ->]|Hy].
  { assert (Hz : (exists s', float_sub x (S754_zero s) = S754_zero s' /\ exists t, x = S754_zero t) \/ float_sub x (S754_zero s) = x).
    { destruct Hx as [[s' ->]|(? & ? & -> & _)]; [left; destruct s, s'; (eexists; split; [reflexivity|by eexists])|by right]. }
    destruct Hz as [(s' & -> & t & ->)|Hz].
    - split; [left; by eexists|]. cbn [fval]. apply Qabs_Qle_condition. split; lra.
    - rewrite Hz. split; [by eapply moderate_weaken; [exact Hx|lia|lia]|]. destruct (moderate_value _ _ _ Hx (proj1 Hb)). cbn [fval]. unfold ulp.
      apply Qabs_Qle_condition. split; lra. }
  destruct Hx as [[s ->]|Hx].
  { exfalso. destruct Hy as (p & e & -> & _). cbn [fval] in Hle. unfold Qval in Hle. pose proof (Qpow2_pos e).
    assert (0 < inject_Z (Z.pos p))%Q by (change 0%Q with (inject_Z 0); by rewrite <-Zlt_Qlt). nra. }
  destruct Hx as (mx & ex & -> & Hex & Hx), Hy as (my & ey & -> & Hey & Hy). cbn [fval] in *. unfold float_sub, SFsub. cbv zeta.
  destruct (shl_align_spec mx ex (Z.min ex ey)) as (mx' & -> & Hmx). destruct (shl_align_spec my ey (Z.min ex ey)) as (my' & -> & Hmy).
  replace (Z.min ex (Z.min ex ey)) with (Z.min ex ey) in * by lia. replace (Z.min ey (Z.min ex ey)) with (Z.min ex ey) in * by lia.
  set (ez := Z.min ex ey) in *. cbn [fst cond_Zopp].
  assert (H1 : (Qval (Z.pos mx) ex == Qval (Z.pos mx') ez)%Q) by (rewrite Hmx, Qval_shift by lia; by replace (ez + (ex - ez)) with ex by lia).
  assert (H2 : (Qval (Z.pos my) ey == Qval (Z.pos my') ez)%Q) by (rewrite Hmy, Qval_shift by lia; by replace (ez + (ey - ez)) with ey by lia).
  rewrite H1, H2 in *. assert (Hdiff : (Qval (Z.pos mx') ez - Qval (Z.pos my') ez == Qval (Z.pos mx' - Z.pos my') ez)%Q).
  { unfold Qval at 3. unfold Z.sub. rewrite inject_Z_plus, inject_Z_opp. unfold Qval. ring. }
  assert (Hnonneg : 0 <= Z.pos mx' - Z.pos my').
  { unfold Qval in Hle. apply Qmult_lt_0_le_reg_r in Hle; [|apply Qpow2_pos]. rewrite <-Zle_Qle in Hle. lia. }
  rewrite Hdiff. assert (Hsx : 2 ^ (- ez) = 2 ^ (- ex) * 2 ^ (ex - ez)) by (rewrite <-Z.pow_add_r by lia; f_equal; lia).
  assert (0 < 2 ^ (ex - ez)) by lia. assert (Hbx : Z.pos mx' <= b * 2 ^ (- ez)) by (rewrite Hmx, Hsx; nia).
  set (n := Z.pos mx' - Z.pos my') in *. assert (Hn : n <= b * 2 ^ (- ez)) by lia. clearbody n. unfold binary_normalize.
  destruct n as [|n|n]; [| |lia].
  - split; [left; by eexists|]. cbn [fval]. unfold Qval. apply Qabs_Qle_condition. change (inject_Z 0) with 0%Q. split; lra.
  - assert (Hd : Z.pos (digits2_pos n) + ez <= 50) by (apply (digits_of_bound _ _ b); lia).
    split; [|apply binary_round_error; lia].
    right. destruct (binary_round_within 0 b n ez) as (p & e & -> & He & Hp); [lia..|].
    exists p, e. split_and!; [done|lia..| |]; apply Hp.
Qed.

(** ** Conversions *)

Lemma float_of_Z_value n : 0 <= n < 2 ^ 51 -> moderate (-52) n (float_of_Z n) /\ (fval (float_of_Z n) == inject_Z n)%Q.
Proof.
  intros Hn. destruct (Z.eq_dec n 0) as [->|Hnz]; [split; [left; by eexists|done]|].
  pose proof (float_of_Z_within n ltac:(lia)) as Hw. split.
  - right. eapply (within_weaken _ n n); [exact Hw|lia|lia].
  - apply within_value in Hw. apply Qle_antisym; apply Hw.
Qed.

(** The conversion to an integer drops less than one. *)
Lemma Z_of_float_value lo b f :
  moderate lo b f -> 0 <= b <= max_int64 ->
  exists z, Z_of_float f = Some z /\ (inject_Z z <= fval f < inject_Z z + 1)%Q.
Proof.
  intros [[s ->]|(p & e & -> & He & Hp)] Hb; [by exists 0|]. cbn [Z_of_float fval].
  rewrite (proj2 (Z.leb_gt 0 e)) by lia. assert (HP : 0 < 2 ^ (- e)) by lia.
  set (z := Z.pos p / 2 ^ (- e)). pose proof (Z.div_mod (Z.pos p) (2 ^ (- e)) ltac:(lia)) as Hdiv. fold z in Hdiv.
  pose proof (Z.mod_pos_bound (Z.pos p) (2 ^ (- e)) HP). assert (Hz : 0 <= z <= b) by (split; [by apply Z.div_pos|nia]).
  unfold min_int64, max_int64 in *. rewrite (proj2 (Z.leb_le _ _)), (proj2 (Z.leb_le _ _)) by lia. cbn [andb]. exists z. split; [done|].
  change 1%Q with (inject_Z 1). rewrite <-inject_Z_plus, <-(Qval_0 z e), <-(Qval_0 (z + 1) e) by lia. split; [apply Qval_le; lia|].
  unfold Qval. apply Qmult_lt_compat_r; [apply Qpow2_pos|]. rewrite <-Zlt_Qlt. lia.
Qed.

(** ** Fractions *)

(** A number below one whose quotient was cut off is rounded to within
    [2 ^ -53] of it. *)
Lemma round_aux_near m e loc (v : Q) :
  0 < m -> -160 <= e <= -53 -> Zdigits2 m <= - e -> 0 < Zdigits2 m ->
  (Qval m e <= v <= Qval (m + 1) e)%Q ->
  (Qabs (fval (binary_round_aux 53 1024 false m e loc) - v) <= 1 # 9007199254740992)%Q.
Proof.
  intros Hm He Hd Hd0 [Hlo Hhi]. destruct (round_aux_spec false m e loc) as (p & e'' & -> & He'' & Hr & _); [lia..|]. cbn [fval].
  set (e' := Z.max e (Zdigits2 m + e - 53)) in *. set (q := m / 2 ^ (e' - e)) in *. assert (HK : 0 < 2 ^ (e' - e)) by lia.
  pose proof (Z.div_mod m (2 ^ (e' - e)) ltac:(lia)) as Hq. fold q in Hq. pose proof (Z.mod_pos_bound m (2 ^ (e' - e)) HK).
  assert (Hp : (Qval (Z.pos p) e'' == Qval (Z.pos p * 2 ^ (e'' - e')) e')%Q) by (rewrite Qval_shift by lia; by replace (e' + (e'' - e')) with e'' by lia).
  assert (Hval : forall x, (Qval x e' == Qval (x * 2 ^ (e' - e)) e)%Q) by (intros x; rewrite Qval_shift by lia; by replace (e + (e' - e)) with e' by lia).
  assert (Hv : (Qval q e' <= v <= Qval (q + 1) e')%Q).
  { rewrite (Hval q), (Hval (q + 1)). split; [eapply Qle_trans; [|exact Hlo]|eapply Qle_trans; [exact Hhi|]]; apply Qval_le; lia. }
  assert (Hr' : (Qval q e' <= Qval (Z.pos p) e'' <= Qval (q + 1) e')%Q) by (rewrite Hp; split; apply Qval_le; lia).
  assert (Hgap : (Qval (q + 1) e' - Qval q e' <= 1 # 9007199254740992)%Q).
  { unfold Qval. rewrite inject_Z_plus. change (inject_Z 1) with 1%Q. change (1 # 9007199254740992)%Q with (2 ^ (-53))%Q.
    assert (2 ^ e' <= 2 ^ (-53))%Q by (apply Qpower_le_compat_l; [lia|discriminate]). lra. }
  apply Qabs_Qle_condition. split; lra.
Qed.

Lemma float_div_error n d :
  0 <= n < d -> d < 2 ^ 51 ->
  moderate (-160) 1 (float_div (float_of_Z n) (float_of_Z d)) /\
  (Qabs (fval (float_div (float_of_Z n) (float_of_Z d)) - inject_Z n / inject_Z d) <= 1 # 9007199254740992)%Q.
Proof.
  intros Hn Hd. destruct (Z.eq_dec n 0) as [->|Hnz].
  { destruct (float_of_Z_within d) as (p & e & -> & _); [lia|]. split; [left; by exists false|]. cbn [float_of_Z binary_normalize float_div SFdiv xorb fval].
    apply Qabs_Qle_condition. change (inject_Z 0) with 0%Q. unfold Qdiv. rewrite Qmult_0_l. split; discriminate. }
  split; [right; by apply float_div_within; lia|].
  destruct (float_div_quotient n d) as (q & e & loc & -> & He & Hq & Hdigits & Hlo & Hhi); [lia..|].
  apply round_aux_near; [lia..|]. assert (Hdpos : (0 < inject_Z d)%Q) by (change 0%Q with (inject_Z 0); rewrite <-Zlt_Qlt; lia).
  assert (Hn' : (inject_Z n == Qval (n * 2 ^ (- e)) e)%Q) by (by rewrite Qval_0 by lia).
  assert (Hmul : forall z, (Qval z e * inject_Z d == Qval (z * d) e)%Q) by (intros z; unfold Qval; rewrite inject_Z_mult; ring).
  split; [apply Qle_shift_div_l|apply Qle_shift_div_r]; try done; rewrite Hmul, Hn'; apply Qval_le; lia.
Qed.

Lemma Ceil_bounds lo a b f : within lo a b f -> exists c, Ceil f = Some c /\ (inject_Z c - 1 < fval f <= inject_Z c)%Q.
Proof.
  intros H. destruct (Ceil_value lo a b f H) as (p & e & c & -> & He & -> & Hlo & Hhi). exists c. split; [done|]. cbn [fval].
  change 1%Q with (inject_Z 1). unfold Qminus. rewrite <-inject_Z_opp, <-inject_Z_plus, <-(Qval_0 c e), <-(Qval_0 (c + - (1)) e) by lia. split; [|by apply Qval_le].
  unfold Qval. apply Qmult_lt_compat_r; [apply Qpow2_pos|]. by rewrite <-Zlt_Qlt.
Qed.

Lemma Round_bounds lo a b f : within lo a b f -> exists c, Round f = Some c /\ (2 * inject_Z c - 1 <= 2 * fval f <= 2 * inject_Z c + 1)%Q.
Proof.
  intros H. destruct (Round_value lo a b f H) as (p & e & c & -> & He & -> & Hlo & Hhi). exists c. split; [done|]. cbn [fval].
  assert (Hp : (2 * Qval (Z.pos p) e == Qval (2 * Z.pos p) e)%Q) by (unfold Qval; rewrite inject_Z_mult; change (inject_Z 2) with 2%Q; ring).
  rewrite Hp. change 2%Q with (inject_Z 2). change 1%Q with (inject_Z 1). unfold Qminus.
  rewrite <-inject_Z_opp, <-inject_Z_mult, <-!inject_Z_plus, <-(Qval_0 (2 * c + - (1)) e), <-(Qval_0 (2 * c + 1) e) by lia. split; by apply Qval_le.
Qed.
