(* ===== verification/Strconv.v ===== *)
(** * Parsing and ordering: strconv, time.ParseDuration, strings and sort, as the
      configuration and the commands use them *)
From S2P Require Import Prelude GoLib Float.
From Stdlib Require Import Floats.SpecFloat.
From stdpp Require Import sorting.
#[local] Open Scope string_scope.

(** ** [sort.Strings] *)

Definition string_le (s t : string) : bool := match String.compare s t with Gt => false | _ => true end.

(** [slices.Sorted], of texts. *)
Definition string_order (s t : string) : Prop := string_le s t = true.

#[global] Instance string_order_dec : RelDecision string_order := fun s t => bool_eq_dec (string_le s t) true.

Definition sort_strings (l : list string) : list string := merge_sort string_order l.

Lemma sort_strings_perm l : sort_strings l ≡ₚ l.
Proof. apply merge_sort_Permutation. Qed.

Lemma elem_of_sort_strings s l : s ∈ sort_strings l <-> s ∈ l.
Proof. by rewrite sort_strings_perm. Qed.

Lemma sort_strings_nodup l : NoDup l -> NoDup (sort_strings l).
Proof. by rewrite sort_strings_perm. Qed.

(** ** [strings] *)

(** [strings.Cut] at a character: what is before it, and what is after it, or
    the whole and nothing when it is not there. *)
Fixpoint Cut (s : string) (at_ : Ascii.ascii) : string * option string :=
  match s with
  | "" => ("", None)
  | String.String c s' =>
    if bool_decide (c = at_) then ("", Some s')
    else let (before, after) := Cut s' at_ in (String.String c before, after)
  end.

Definition HasPrefix (s prefix : string) : bool := String.prefix prefix s.

(** ** [strconv] *)

Definition decimal_digit (b : byte) : bool := GoLib.between 48 57 b.
Definition digit_value (b : byte) : Z := (byte_Z b - 48)%Z.

(** [ParseBool]. *)
Definition ParseBool (value : string) : option bool :=
  if bool_decide (value ∈ ["1"; "t"; "T"; "true"; "TRUE"; "True"]) then Some true
  else if bool_decide (value ∈ ["0"; "f"; "F"; "false"; "FALSE"; "False"]) then Some false
  else None.

(** [Atoi]: a sign and decimal digits, of an [int]. *)
Definition Atoi (value : string) : option Z :=
  let '(negative, digits) :=
    match bytes_of_string value with
    | x2d :: rest => (true, rest)
    | x2b :: rest => (false, rest)
    | digits => (false, digits)
    end in
  match digits with
  | [] => None
  | _ =>
    if forallb decimal_digit digits then
      let n := fold_left (fun n b => 10 * n + digit_value b)%Z digits 0%Z in
      let z := if negative : bool then (- n)%Z else n in
      if (min_int64 <=? z)%Z && (z <=? max_int64)%Z then Some z else None
    else None
  end.

(** ** [time.ParseDuration] *)

#[local] Open Scope Z_scope.

(** [leadingInt]: digits, as a [uint64] that is at most 2^63. *)
Fixpoint leadingInt (s : bytes) (x : Z) : option (Z * bytes) :=
  match s with
  | b :: s' =>
    if decimal_digit b then
      if 2 ^ 63 / 10 <? x then None
      else
        let x := x * 10 + digit_value b in
        if 2 ^ 63 <? x then None else leadingInt s' x
    else Some (x, s)
  | [] => Some (x, [])
  end.

(** [leadingFraction]: the digits that fit, and the scale as the number of
    them; digits past an overflow are skipped. *)
Fixpoint leadingFraction (s : bytes) (x : Z) (digits : Z) (overflow : bool) : Z * Z * bytes :=
  match s with
  | b :: s' =>
    if decimal_digit b then
      if overflow then leadingFraction s' x digits true
      else if (2 ^ 63 - 1) / 10 <? x then leadingFraction s' x digits true
      else
        let y := x * 10 + digit_value b in
        if 2 ^ 63 <? y then leadingFraction s' x digits true else leadingFraction s' y (digits + 1) false
    else (x, digits, s)
  | [] => (x, digits, [])
  end.

(** [unitMap]; the micro sign, and the Greek mu. *)
Definition unit_of (u : bytes) : option Z :=
  let is_unit := fun text => bool_decide (u = bytes_of_string text) in
  if is_unit "ns"%string then Some 1
  else if is_unit "us"%string || bool_decide (u = [xc2; xb5; x73]) || bool_decide (u = [xce; xbc; x73]) then Some 1000
  else if is_unit "ms"%string then Some Millisecond
  else if is_unit "s"%string then Some Second
  else if is_unit "m"%string then Some (60 * Second)
  else if is_unit "h"%string then Some (3600 * Second)
  else None.

(** The characters of a unit. *)
Fixpoint take_unit (s : bytes) : bytes * bytes :=
  match s with
  | b :: s' => if (byte_Z b =? 46) || decimal_digit b then ([], s) else let (u, rest) := take_unit s' in (b :: u, rest)
  | [] => ([], [])
  end.

(** [uint64(float64(f) * (float64(unit) / scale))], a value below 2^63. *)
Definition fraction_value (f digits unit : Z) : Z :=
  match float_mul (float_of_Z f) (float_div (float_of_Z unit) (float_of_Z (10 ^ digits))) with
  | S754_finite _ m e => if 0 <=? e then Z.pos m * 2 ^ e else Z.pos m / 2 ^ (- e)
  | _ => 0
  end.

(** A number and its unit, from the loop's body. *)
Definition duration_part (s : bytes) : option (Z * bytes) :=
  match s with
  | [] => None
  | b :: _ =>
    if negb ((byte_Z b =? 46) || decimal_digit b) then None
    else
      '(v, after) ← leadingInt s 0;
      let pre := negb (length after =? length s)%nat in
      let '(f, digits, rest, post) :=
        match after with
        | x2e :: after' =>
          let '(f, digits, rest) := leadingFraction after' 0 0 false in
          (f, digits, rest, negb (length rest =? length after')%nat)
        | _ => (0, 0, after, false)
        end in
      if negb pre && negb post then None
      else
        let (u, rest) := take_unit rest in
        unit ← unit_of u;
        if 2 ^ 63 / unit <? v then None
        else
          let v := v * unit in
          let v := if 0 <? f then v + fraction_value f digits unit else v in
          if 2 ^ 63 <? v then None else Some (v, rest)
  end.

(** The loop; [fuel] is the length of the text, of which every turn takes a
    character at least. *)
Fixpoint duration_parts (fuel : nat) (s : bytes) (d : Z) : option Z :=
  match s with
  | [] => Some d
  | _ =>
    match fuel with
    | O => None
    | S fuel' =>
      '(v, rest) ← duration_part s;
      let d := uint64 (d + v) in
      if 2 ^ 63 <? d then None else duration_parts fuel' rest d
    end
  end.

Definition ParseDuration (text : string) : option duration :=
  let s := bytes_of_string text in
  let '(neg, s) := match s with x2d :: s' => (true, s') | x2b :: s' => (false, s') | _ => (false, s) end in
  if bool_decide (s = [x30]) then Some 0
  else match s with
  | [] => None
  | _ =>
    d ← duration_parts (length s) s 0;
    if neg : bool then Some (int64 (- d))
    else if 2 ^ 63 - 1 <? d then None else Some d
  end.

Example Strconv_examples :
  Atoi "-42" = Some (-42) /\ Atoi "9223372036854775808" = None /\ Atoi "+7" = Some 7 /\ Atoi "1_0" = None /\ Atoi "-" = None /\
  ParseDuration "1.5s" = Some (1500 * Millisecond) /\ ParseDuration "-1h2m3.25s" = Some (- (3723250 * Millisecond)) /\
  ParseDuration "30" = None /\ ParseDuration "0" = Some 0 /\ ParseDuration "200ms" = Some (200 * Millisecond) /\
  ParseDuration "9223372036854775808ns" = None /\ ParseDuration "-9223372036854775808ns" = Some min_int64 /\
  ParseDuration ".s" = None /\ ParseDuration "0.000000001s" = Some 1 /\ Cut "a=b=c" (Ascii.ascii_of_nat 61) = ("a", Some "b=c")%string.
Proof. vm_compute. auto 20. Qed.
