(* ===== verification/Base64.v ===== *)
(** * [encoding/base64]: padded standard base64, strict *)
From S2P Require Import Prelude GoLib.
From Stdlib Require Import List.
#[local] Open Scope Z_scope.

(** ** The alphabet *)

Definition b64_char (v : Z) : byte :=
  byte_of (if v <? 26 then 65 + v
             else if v <? 52 then 97 + (v - 26)
             else if v <? 62 then 48 + (v - 52)
             else if v =? 62 then 43 else 47).

Definition b64_value (c : byte) : option Z :=
  let z := byte_Z c in
  if between 65 90 c then Some (z - 65)
  else if between 97 122 c then Some (z - 97 + 26)
  else if between 48 57 c then Some (z - 48 + 52)
  else if z =? 43 then Some 62
  else if z =? 47 then Some 63
  else None.

Definition b64_pad : byte := x3d.

(** ** [StdEncoding.EncodeToString] *)

Fixpoint b64_encode (data : bytes) : bytes :=
  match data with
  | [] => []
  | [b0] =>
    let n := byte_Z b0 in
    [b64_char (n / 4); b64_char (n mod 4 * 16); b64_pad; b64_pad]
  | [b0; b1] =>
    let n := byte_Z b0 * 256 + byte_Z b1 in
    [b64_char (n / 1024); b64_char (n / 16 mod 64); b64_char (n mod 16 * 4); b64_pad]
  | b0 :: b1 :: b2 :: data' =>
    let n := byte_Z b0 * 65536 + byte_Z b1 * 256 + byte_Z b2 in
    b64_char (n / 262144) :: b64_char (n / 4096 mod 64) :: b64_char (n / 64 mod 64) :: b64_char (n mod 64)
      :: b64_encode data'
  end.

(** ** [StdEncoding.Strict().DecodeString] *)

(** Text without line breaks. The bits a padded group leaves over must be 0. *)
Fixpoint b64_decode_groups (text : bytes) : option bytes :=
  match text with
  | [] => Some []
  | c0 :: c1 :: c2 :: c3 :: text' =>
    v0 ← b64_value c0; v1 ← b64_value c1;
    if bool_decide (c2 = b64_pad) then
      if bool_decide (c3 = b64_pad) && bool_decide (text' = []) && (v1 mod 16 =? 0)
      then Some [byte_of (v0 * 4 + v1 / 16)] else None
    else
      v2 ← b64_value c2;
      if bool_decide (c3 = b64_pad) then
        if bool_decide (text' = []) && (v2 mod 4 =? 0)
        then let n := v0 * 4096 + v1 * 64 + v2 in
             Some [byte_of (n / 1024); byte_of (n / 4 mod 256)]
        else None
      else
        v3 ← b64_value c3;
        data ← b64_decode_groups text';
        let n := v0 * 262144 + v1 * 4096 + v2 * 64 + v3 in
        Some (byte_of (n / 65536) :: byte_of (n / 256 mod 256) :: byte_of (n mod 256) :: data)
  | _ => None
  end.

Definition is_line_break (c : byte) : bool := bool_decide (c = x0d) || bool_decide (c = x0a).

(** Go's decoder skips CR and LF wherever they are. *)
Definition b64_decode (text : bytes) : option bytes :=
  b64_decode_groups (List.filter (fun c => negb (is_line_break c)) text).

(** ** Lemmas *)

Lemma b64_value_char v : 0 <= v < 64 -> b64_value (b64_char v) = Some v.
Proof.
  intros Hv.
  assert (forallb (fun v => bool_decide (b64_value (b64_char v) = Some v)) (map Z.of_nat (seq 0 64)) = true) as Hall
    by (vm_compute; reflexivity).
  rewrite forallb_forall in Hall. eapply bool_decide_eq_true_1, Hall, in_map_iff.
  exists (Z.to_nat v). split; [lia|apply in_seq; lia].
Qed.

(** A property of every byte, checked by computation. *)
Lemma forall_bytes (P : byte -> bool) :
  forallb (fun n => P (byte_of (Z.of_nat n))) (seq 0 256) = true -> forall b, P b = true.
Proof.
  intros Hall b. rewrite forallb_forall in Hall. pose proof (byte_Z_range b).
  rewrite <-(byte_of_byte_Z b). rewrite <-(Z2Nat.id (byte_Z b)) by lia.
  apply Hall, in_seq. lia.
Qed.

Lemma b64_char_value c v : b64_value c = Some v -> b64_char v = c /\ 0 <= v < 64.
Proof.
  intros Hv.
  assert (forall c, match b64_value c with
                    | Some v => bool_decide (b64_char v = c) && (0 <=? v) && (v <? 64)
                    | None => true end = true) as Hall
    by (apply forall_bytes; vm_compute; reflexivity).
  specialize (Hall c). rewrite Hv, !andb_true_iff, bool_decide_eq_true in Hall.
  destruct Hall as [[? ?] ?]. split; [done|lia].
Qed.

Lemma b64_char_not_pad v : 0 <= v < 64 -> b64_char v <> b64_pad.
Proof.
  intros Hv Hc. pose proof (b64_value_char v Hv) as Hval. rewrite Hc in Hval. discriminate.
Qed.

Lemma b64_char_not_break v : 0 <= v < 64 -> is_line_break (b64_char v) = false.
Proof.
  intros Hv. pose proof (b64_value_char v Hv) as Hval. unfold is_line_break.
  rewrite orb_false_iff. split; apply bool_decide_eq_false; intros Hc; rewrite Hc in Hval; discriminate.
Qed.

(** Induction on a list three elements at a time. *)
Lemma list_ind3 {A} (P : list A -> Prop) :
  P [] -> (forall x, P [x]) -> (forall x y, P [x; y]) ->
  (forall x y z l, P l -> P (x :: y :: z :: l)) -> forall l, P l.
Proof.
  intros H0 H1 H2 H3. fix IH 1. intros [|x [|y [|z l]]]; [done..|apply H3, IH].
Qed.

Ltac digits := Z.to_euclidean_division_equations; lia.

Ltac bytes_ranges := repeat
  match goal with
  | b : byte |- _ =>
    lazymatch goal with
    | _ : 0 <= byte_Z b < 256 |- _ => fail
    | _ => pose proof (byte_Z_range b)
    end
  end.

Ltac b64_simpl :=
  repeat (rewrite b64_value_char by digits; simpl);
  repeat (rewrite (bool_decide_eq_false_2 (b64_char _ = b64_pad)) by (apply b64_char_not_pad; digits)).

Lemma b64_groups_encode data : b64_decode_groups (b64_encode data) = Some data.
Proof.
  induction data as [|b0|b0 b1|b0 b1 b2 data IH] using list_ind3; [done|..];
    bytes_ranges; cbn [b64_encode b64_decode_groups]; b64_simpl.
  - replace (_ mod 16 =? 0) with true by digits. simpl. do 2 f_equal.
    rewrite <-(byte_of_byte_Z b0) at 3. f_equal. digits.
  - replace (_ mod 4 =? 0) with true by digits. simpl. do 2 f_equal.
    + rewrite <-(byte_of_byte_Z b0). f_equal. rewrite byte_of_byte_Z. digits.
    + f_equal. rewrite <-(byte_of_byte_Z b1). f_equal. rewrite byte_of_byte_Z. digits.
  - rewrite IH. simpl. do 2 f_equal; [|f_equal; [|f_equal]].
    + rewrite <-(byte_of_byte_Z b0). f_equal. rewrite byte_of_byte_Z. digits.
    + rewrite <-(byte_of_byte_Z b1). f_equal. rewrite byte_of_byte_Z. digits.
    + rewrite <-(byte_of_byte_Z b2). f_equal. rewrite byte_of_byte_Z. digits.
Qed.

Lemma b64_encode_no_break data : List.filter (fun c => negb (is_line_break c)) (b64_encode data) = b64_encode data.
Proof.
  induction data as [|b0|b0 b1|b0 b1 b2 data IH] using list_ind3; [done|..];
    bytes_ranges; cbn [b64_encode List.filter]; repeat (rewrite b64_char_not_break by digits; simpl); [done..|].
  by rewrite IH.
Qed.

(** Induction on a list four elements at a time, with every shorter list. *)
Lemma b64_groups_canonical text data : b64_decode_groups text = Some data -> b64_encode data = text.
Proof.
  revert data. induction text as [text IH] using (induction_ltof1 _ (@length byte)); unfold ltof in IH.
  intros data. destruct text as [|c0 [|c1 [|c2 [|c3 text']]]]; simpl; try discriminate.
  { by intros [= <-]. }
  destruct (b64_value c0) as [v0|] eqn:Hv0; [|discriminate].
  destruct (b64_value c1) as [v1|] eqn:Hv1; [|discriminate].
  apply b64_char_value in Hv0 as [<- ?], Hv1 as [<- ?]. simpl. case_bool_decide; subst.
  { case_bool_decide; subst; [|discriminate]. case_bool_decide; subst; [|discriminate].
    destruct (v1 mod 16 =? 0) eqn:?; [|discriminate]. intros [= <-]. simpl.
    rewrite byte_Z_byte_of by digits. repeat f_equal; digits. }
  destruct (b64_value c2) as [v2|] eqn:Hv2; [|discriminate].
  apply b64_char_value in Hv2 as [<- ?]. simpl. case_bool_decide; subst.
  { case_bool_decide; subst; [|discriminate].
    destruct (v2 mod 4 =? 0) eqn:?; [|discriminate]. intros [= <-]. simpl.
    rewrite !byte_Z_byte_of by digits. repeat f_equal; digits. }
  destruct (b64_value c3) as [v3|] eqn:Hv3; [|discriminate].
  apply b64_char_value in Hv3 as [<- ?]. simpl.
  destruct (b64_decode_groups text') as [data'|] eqn:Ht; [|discriminate].
  apply IH in Ht; [|simpl; lia]. intros [= <-]. simpl.
  rewrite !byte_Z_byte_of by digits. rewrite Ht. repeat f_equal; digits.
Qed.

Lemma b64_decode_encode data : b64_decode (b64_encode data) = Some data.
Proof. unfold b64_decode. by rewrite b64_encode_no_break, b64_groups_encode. Qed.

Lemma b64_decode_canonical text data :
  forallb (fun c => negb (is_line_break c)) text = true ->
  b64_decode text = Some data -> b64_encode data = text.
Proof.
  unfold b64_decode. intros Hb Hd. apply b64_groups_canonical.
  rewrite <-Hd. f_equal. clear Hd. induction text as [|c text IH]; simpl in *; [done|].
  apply andb_true_iff in Hb as [-> Hb]. by rewrite <-IH.
Qed.
