(* ===== verification/Topics.v ===== *)
(** * The agent's topics: internal/wire/topics.go *)
From S2P Require Import Prelude GoLib.
#[local] Open Scope string_scope.

(** ** The segment rule *)

(** A character of [[a-z0-9-]]. *)
Definition segment_char (c : Ascii.ascii) : bool :=
  let n := Ascii.nat_of_ascii c in
  (((97 <=? n) && (n <=? 122)) || ((48 <=? n) && (n <=? 57)) || (n =? 45))%nat.

Fixpoint all_chars (p : Ascii.ascii -> bool) (s : string) : bool :=
  match s with
  | "" => true
  | String.String c s' => p c && all_chars p s'
  end.

(** [^[a-z0-9-]+$]. *)
Definition segmentRule (s : string) : bool := negb (bool_decide (s = "")) && all_chars segment_char s.

Inductive topic_error :=
  | BadSegment (name value : string)
  | ReservedStation (station : string)
  | ReservedDevice (id : string)
  | BadScope (group : string).

Definition checkSegment (name value : string) : result topic_error unit :=
  if segmentRule value then Ok tt else Err (BadSegment name value).

(** ** Levels *)

Definition AgentLevel := "agent".
Definition rootLevel := "skuhus".
Definition rxLevel := "rx".
Definition txLevel := "tx".
Definition statusLevel := "status".
Definition anyLevel := "+".
Definition GroupLevel := "group".

Definition joinLevels (levels : list string) : string := String.concat "/" levels.

(** ** Routes and topics *)

Inductive TxScope := ScopeDevice | ScopeStation | ScopeSite | ScopeProject.

#[global] Instance TxScope_eq_dec : EqDecision TxScope.
Proof. solve_decision. Defined.

Definition TxScope_text (scope : TxScope) : string :=
  match scope with
  | ScopeDevice => "device" | ScopeStation => "station" | ScopeSite => "site" | ScopeProject => "project"
  end.

(** [Group] is empty for a device's own route. *)
Record TxRoute := mkTxRoute { Topic : string; Scope : TxScope; Group : string }.

#[global] Instance TxRoute_eq_dec : EqDecision TxRoute.
Proof. solve_decision. Defined.

Record StationTopics := mkStationTopics { projectPrefix : string; sitePrefix : string; stationPrefix : string }.
Record AgentTopics := mkAgentTopics { agentStatus : string }.
Record DeviceTopics := mkDeviceTopics { rx : string; tx : string; status : string }.

#[local] Open Scope result_scope.

Definition NewStationTopics (project site station : string) : result topic_error StationTopics :=
  let? _ := checkSegment "project" project in
  let? _ := checkSegment "site" site in
  let? _ := checkSegment "station" station in
  if bool_decide (station = GroupLevel) then Err (ReservedStation station)
  else
    let projectPrefix := joinLevels [rootLevel; project] in
    let sitePrefix := joinLevels [projectPrefix; site] in
    Ok (mkStationTopics projectPrefix sitePrefix (joinLevels [sitePrefix; station])).

Definition GroupTx (station : StationTopics) (scope : TxScope) (group : string) : result topic_error TxRoute :=
  let? _ := checkSegment "broadcast group" group in
  let route prefix := Ok (mkTxRoute (joinLevels [prefix; GroupLevel; group; txLevel]) scope group) in
  match scope with
  | ScopeProject => route (projectPrefix station)
  | ScopeSite => route (sitePrefix station)
  | ScopeStation => route (stationPrefix station)
  | ScopeDevice => Err (BadScope group)
  end.

(** [StationTopics.Agent]. *)
Definition AgentTopicsOf (station : StationTopics) (instance : string) : result topic_error AgentTopics :=
  let? _ := checkSegment "instance" instance in
  Ok (mkAgentTopics (joinLevels [stationPrefix station; AgentLevel; instance; statusLevel])).

(** [StationTopics.Device]. *)
Definition DeviceTopicsOf (station : StationTopics) (id : string) : result topic_error DeviceTopics :=
  let? _ := checkSegment "device id" id in
  if bool_decide (id = AgentLevel) then Err (ReservedDevice id)
  else
    let prefix := joinLevels [stationPrefix station; id] in
    Ok (mkDeviceTopics (joinLevels [prefix; rxLevel]) (joinLevels [prefix; txLevel]) (joinLevels [prefix; statusLevel])).

Definition EveryDeviceRx (station : StationTopics) : string :=
  joinLevels [stationPrefix station; anyLevel; rxLevel].
Definition EveryDeviceStatus (station : StationTopics) : string :=
  joinLevels [stationPrefix station; anyLevel; statusLevel].
Definition EveryAgentStatus (station : StationTopics) : string :=
  joinLevels [stationPrefix station; AgentLevel; anyLevel; statusLevel].

(** [DeviceTopics.TxRoute]. *)
Definition OwnTxRoute (device : DeviceTopics) : TxRoute := mkTxRoute (tx device) ScopeDevice "".

(** ** What the topics promise: each says whose it is *)

Definition slash : Ascii.ascii := Ascii.ascii_of_nat 47.
Definition is_slash (c : Ascii.ascii) : bool := Ascii.eqb c slash.

(** The levels of a topic. *)
Fixpoint levels_from (current : string) (s : string) : list string :=
  match s with
  | "" => [current]
  | String.String c s' =>
    if is_slash c then current :: levels_from "" s'
    else levels_from (current +:+ String.String c "") s'
  end.

Definition levels (topic : string) : list string := levels_from "" topic.

Inductive topic_owner :=
  | DeviceRx (project site station device : string)
  | DeviceTx (project site station device : string)
  | DeviceStatus (project site station device : string)
  | AgentStatusOf (project site station instance : string)
  | ProjectGroup (project group : string)
  | SiteGroup (project site group : string)
  | StationGroup (project site station group : string).

(** Whose a topic is, read from its levels: what a consumer, or the owner of an
    access rule, can tell from the topic alone. *)
Definition owner_of (topic : string) : option topic_owner :=
  match levels topic with
  | root :: rest =>
    if negb (bool_decide (root = rootLevel)) then None
    else match rest with
    | [project; level; group; last] =>
      if bool_decide (level = GroupLevel) && bool_decide (last = txLevel) then Some (ProjectGroup project group) else None
    | [project; site; station; device; last] =>
      if bool_decide (station = GroupLevel) then
        if bool_decide (last = txLevel) then Some (SiteGroup project site device) else None
      else if bool_decide (last = rxLevel) then Some (DeviceRx project site station device)
      else if bool_decide (last = txLevel) then Some (DeviceTx project site station device)
      else if bool_decide (last = statusLevel) then Some (DeviceStatus project site station device)
      else None
    | [project; site; station; level; name; last] =>
      if bool_decide (level = GroupLevel) && bool_decide (last = txLevel) then Some (StationGroup project site station name)
      else if bool_decide (level = AgentLevel) && bool_decide (last = statusLevel) then Some (AgentStatusOf project site station name)
      else None
    | _ => None
    end
  | [] => None
  end.

(** MQTT's matching of a topic by a filter whose wildcards are single levels
    (MQTT 5.0, section 4.7.1.3). *)
Fixpoint levels_match (filter topic : list string) : bool :=
  match filter, topic with
  | [], [] => true
  | f :: filter', t :: topic' => (bool_decide (f = anyLevel) || bool_decide (f = t)) && levels_match filter' topic'
  | _, _ => false
  end.

Definition filter_matches (filter topic : string) : bool := levels_match (levels filter) (levels topic).

(** ** Lemmas *)

Definition no_slash (s : string) : Prop := all_chars (fun c => negb (is_slash c)) s = true.

Lemma all_chars_impl (p q : Ascii.ascii -> bool) s :
  (forall c, p c = true -> q c = true) -> all_chars p s = true -> all_chars q s = true.
Proof.
  intros Hpq. induction s as [|c s IH]; simpl; [done|].
  rewrite !andb_true_iff. intros [? ?]. auto.
Qed.

Lemma segment_char_no_slash c : segment_char c = true -> negb (is_slash c) = true.
Proof. unfold is_slash; destruct (Ascii.eqb_spec c slash) as [->|]; done. Qed.

Lemma segmentRule_no_slash s : segmentRule s = true -> no_slash s.
Proof.
  unfold segmentRule. rewrite andb_true_iff. intros [_ Hs].
  eapply all_chars_impl, Hs. apply segment_char_no_slash.
Qed.

Lemma segmentRule_not_any s : segmentRule s = true -> s <> anyLevel.
Proof. intros Hs Heq. by rewrite Heq in Hs. Qed.

Lemma levels_from_app current s t :
  no_slash s -> levels_from current (s +:+ t) = levels_from (current +:+ s) t.
Proof.
  unfold no_slash. revert current. induction s as [|c s IH]; intros current; simpl.
  - intros _. by rewrite str_app_nil_r.
  - rewrite andb_true_iff, negb_true_iff. intros [-> Hs]. rewrite IH by done.
    by rewrite <-str_app_assoc.
Qed.

(** Joining levels and reading them back. *)
Lemma levels_join ls : ls <> [] -> Forall no_slash ls -> levels (joinLevels ls) = ls.
Proof.
  intros Hne Hls. unfold levels. destruct ls as [|s ls]; [done|]. clear Hne.
  assert (forall s, no_slash s -> levels_from "" (joinLevels (s :: ls)) = s :: ls) as Hgo.
  { inversion Hls as [|? ? _ Htl]; subst. clear Hls s. induction Htl as [|t ls Ht Htl IH]; intros s Hs.
    - cbn. rewrite <-(str_app_nil_r s) at 1. by rewrite levels_from_app.
    - change (joinLevels (s :: t :: ls)) with (s +:+ String.String slash (joinLevels (t :: ls))).
      rewrite levels_from_app by done. cbn [levels_from]. unfold is_slash at 1; rewrite Ascii.eqb_refl.
      by rewrite IH. }
  inversion Hls; subst. by apply Hgo.
Qed.

Lemma join_nest a l m : joinLevels (joinLevels (a :: l) :: m) = joinLevels ((a :: l) ++ m).
Proof.
  unfold joinLevels. revert a. induction l as [|b l IH]; intros a; [by destruct m|].
  change (String.concat "/" ((a :: b :: l) ++ m)) with (a +:+ "/" +:+ String.concat "/" ((b :: l) ++ m)).
  rewrite <-IH. destruct m as [|c m]; [done|].
  change ((a +:+ "/" +:+ String.concat "/" (b :: l)) +:+ "/" +:+ String.concat "/" (c :: m) =
          a +:+ "/" +:+ String.concat "/" (b :: l) +:+ "/" +:+ String.concat "/" (c :: m)).
  by rewrite !str_app_assoc.
Qed.

Ltac flatten_levels := repeat (rewrite join_nest; cbn [app]).

Lemma checkSegment_Ok name value u : checkSegment name value = Ok u -> segmentRule value = true.
Proof. unfold checkSegment. by destruct (segmentRule value). Qed.

Lemma NewStationTopics_Ok project site station topics :
  NewStationTopics project site station = Ok topics ->
  segmentRule project = true /\ segmentRule site = true /\ segmentRule station = true /\ station <> GroupLevel /\
  topics = mkStationTopics (joinLevels [rootLevel; project]) (joinLevels [rootLevel; project; site])
             (joinLevels [rootLevel; project; site; station]).
Proof.
  unfold NewStationTopics, checkSegment.
  destruct (segmentRule project); [|done]. destruct (segmentRule site); [|done].
  destruct (segmentRule station); [|done]. case_bool_decide; [done|].
  intros [= <-]. flatten_levels. done.
Qed.

Lemma segment_literals :
  no_slash rootLevel /\ no_slash AgentLevel /\ no_slash GroupLevel /\ no_slash rxLevel /\ no_slash txLevel /\
  no_slash statusLevel /\ no_slash anyLevel.
Proof. done. Qed.

(** Reads the levels of a topic joined from segments and literals. *)
Ltac read_levels :=
  flatten_levels;
  rewrite levels_join by
    (done || (repeat apply Forall_cons_2; try apply Forall_nil_2;
              first [apply segmentRule_no_slash; assumption | apply segment_literals])).

Definition group_owner (scope : TxScope) (project site station group : string) : option topic_owner :=
  match scope with
  | ScopeDevice => None
  | ScopeStation => Some (StationGroup project site station group)
  | ScopeSite => Some (SiteGroup project site group)
  | ScopeProject => Some (ProjectGroup project group)
  end.

Section Owners.
Context (project site station : string) (topics : StationTopics).
Context (Hnew : NewStationTopics project site station = Ok topics).

Lemma device_topics_owner id dev :
  DeviceTopicsOf topics id = Ok dev ->
  owner_of (rx dev) = Some (DeviceRx project site station id) /\
  owner_of (tx dev) = Some (DeviceTx project site station id) /\
  owner_of (status dev) = Some (DeviceStatus project site station id).
Proof using Hnew.
  destruct (NewStationTopics_Ok _ _ _ _ Hnew) as (Hp & Hs & Hst & Hg & ->).
  unfold DeviceTopicsOf, checkSegment. destruct (segmentRule id) eqn:Hid; [|done].
  case_bool_decide; [done|]. intros [= <-]. unfold owner_of; cbn [rx tx status stationPrefix agentStatus].
  repeat split; read_levels; by rewrite (bool_decide_eq_false_2 (station = GroupLevel)).
Qed.

Lemma agent_topics_owner instance agent :
  AgentTopicsOf topics instance = Ok agent ->
  owner_of (agentStatus agent) = Some (AgentStatusOf project site station instance).
Proof using Hnew.
  destruct (NewStationTopics_Ok _ _ _ _ Hnew) as (Hp & Hs & Hst & Hg & ->).
  unfold AgentTopicsOf, checkSegment. destruct (segmentRule instance) eqn:Hid; [|done].
  intros [= <-]. unfold owner_of; cbn [rx tx status stationPrefix agentStatus]. by read_levels.
Qed.

Lemma group_topics_owner scope group route :
  GroupTx topics scope group = Ok route ->
  owner_of (Topic route) = group_owner scope project site station group.
Proof using Hnew.
  destruct (NewStationTopics_Ok _ _ _ _ Hnew) as (Hp & Hs & Hst & Hg & ->).
  unfold GroupTx, checkSegment. destruct (segmentRule group) eqn:Hid; [|done].
  destruct scope; intros [= <-]; unfold owner_of; cbn [Topic projectPrefix sitePrefix stationPrefix]; by read_levels.
Qed.
End Owners.

(** ** Properties *)

(** C22: every topic the agent builds says whose it is: no device's topic is
    another's, a group's or an agent's, at any station of any site, which is
    why a station cannot be called group nor a device agent. *)
Theorem topics_owned project site station topics :
  NewStationTopics project site station = Ok topics ->
  (forall id dev, DeviceTopicsOf topics id = Ok dev ->
     owner_of (rx dev) = Some (DeviceRx project site station id) /\
     owner_of (tx dev) = Some (DeviceTx project site station id) /\
     owner_of (status dev) = Some (DeviceStatus project site station id)) /\
  (forall instance agent, AgentTopicsOf topics instance = Ok agent ->
     owner_of (agentStatus agent) = Some (AgentStatusOf project site station instance)) /\
  (forall scope group route, GroupTx topics scope group = Ok route ->
     owner_of (Topic route) = group_owner scope project site station group).
Proof.
  intros Hnew. split_and!; intros.
  - by eapply device_topics_owner.
  - by eapply agent_topics_owner.
  - by eapply group_topics_owner.
Qed.

(** A consumer's filters take what they name and nothing else: every
    device's readings, every device's status and every agent's status of the
    station, whatever other topics the broker carries. *)
Theorem filters_exact project site station topics topic :
  NewStationTopics project site station = Ok topics ->
  (filter_matches (EveryDeviceRx topics) topic = true <->
     exists device, owner_of topic = Some (DeviceRx project site station device)) /\
  (filter_matches (EveryDeviceStatus topics) topic = true <->
     exists device, owner_of topic = Some (DeviceStatus project site station device)) /\
  (filter_matches (EveryAgentStatus topics) topic = true <->
     exists instance, owner_of topic = Some (AgentStatusOf project site station instance)).
Proof.
  intros Hnew. destruct (NewStationTopics_Ok _ _ _ _ Hnew) as (Hp & Hs & Hst & Hg & ->).
  unfold filter_matches, EveryDeviceRx, EveryDeviceStatus, EveryAgentStatus, owner_of; cbn [stationPrefix].
  assert (forall s, segmentRule s = true -> bool_decide (s = anyLevel) = false) as Hany
    by (intros; by apply bool_decide_eq_false_2, segmentRule_not_any).
  split_and!; read_levels;
    destruct (levels topic) as [|r [|p [|s [|t [|d [|l [|l2 [|? ?]]]]]]]]; simpl;
    rewrite ?Hany by assumption; simpl; rewrite ?andb_false_r, ?andb_true_r;
    repeat (case_bool_decide; subst; simpl); naive_solver.
Qed.

(** ** Witnesses *)

Definition example_station : StationTopics :=
  mkStationTopics "skuhus/acme" "skuhus/acme/lager" "skuhus/acme/lager/pack-1".

Lemma topics_owned_witness :
  NewStationTopics "acme" "lager" "pack-1" = Ok example_station /\
  DeviceTopicsOf example_station "scanner" =
    Ok (mkDeviceTopics "skuhus/acme/lager/pack-1/scanner/rx" "skuhus/acme/lager/pack-1/scanner/tx"
          "skuhus/acme/lager/pack-1/scanner/status") /\
  owner_of "skuhus/acme/lager/group/scales/tx" = Some (SiteGroup "acme" "lager" "scales").
Proof.
  split; [vm_compute; reflexivity|]. split; [vm_compute; reflexivity|].
  exact (proj2 (proj2 (topics_owned "acme" "lager" "pack-1" example_station ltac:(vm_compute; reflexivity)))
    ScopeSite "scales" (mkTxRoute "skuhus/acme/lager/group/scales/tx" ScopeSite "scales") ltac:(vm_compute; reflexivity)).
Defined.

Lemma filters_exact_witness :
  NewStationTopics "acme" "lager" "pack-1" = Ok example_station /\
  filter_matches (EveryDeviceStatus example_station) "skuhus/acme/lager/pack-1/scanner/status" = true /\
  filter_matches (EveryDeviceStatus example_station) "skuhus/acme/lager/pack-1/agent/pack-1/status" = false /\
  (exists device, owner_of "skuhus/acme/lager/pack-1/scanner/status" = Some (DeviceStatus "acme" "lager" "pack-1" device)).
Proof.
  assert (NewStationTopics "acme" "lager" "pack-1" = Ok example_station) as Hnew by (vm_compute; reflexivity).
  split; [exact Hnew|]. split; [vm_compute; reflexivity|]. split; [vm_compute; reflexivity|].
  apply (filters_exact "acme" "lager" "pack-1" example_station "skuhus/acme/lager/pack-1/scanner/status" Hnew).
  vm_compute. reflexivity.
Defined.

(** Without the reservation, the device [scales] of a station called [group]
    would be written by what is sent to the site's group [scales]. *)
Lemma group_station_collides :
  let prefix := joinLevels ["skuhus/acme/lager"; GroupLevel] in
  Ok (mkTxRoute (joinLevels [joinLevels [prefix; "scales"]; txLevel]) ScopeSite "scales") =
  GroupTx example_station ScopeSite "scales".
Proof. vm_compute. reflexivity. Qed.
