(* ===== verification/Wire.v ===== *)
(** * The messages: internal/wire/messages.go

    The data of every message, the counters of the keepalive, and the builder.
    Reading a tx is in ReadTx.v. A Go string type whose values the code compares
    with unknown ones (ErrorClass, DiscardReason) is a string; one whose values
    are only ever its constants is an inductive type. *)
From S2P Require Import Prelude GoLib Base64 Topics.
#[local] Open Scope string_scope.

(** ** Constants *)

Definition Schema : Z := 2.
Definition ProtocolVersion := "2.2.0".
Definition hyphenatedUUIDLength : nat := 36.

Definition KindRx := "rx".
Definition KindEvent := "event".
Definition KindTxResult := "tx_result".
Definition KindKeepalive := "keepalive".
Definition KindOffline := "offline".

(** ** Identity and headers *)

Record Agent := mkAgent {
  Project : string; Site : string; Station : string; InstanceID : string; AgentVersion : string;
}.

(** [DeviceType] is empty when none is configured. *)
Record Device := mkDevice { ID : string; DeviceType : string; Expiry : duration }.

Record header := mkHeader {
  h_Schema : Z; h_Kind : string; h_ID : string;
  h_Project : string; h_Site : string; h_Station : string; h_InstanceID : string; h_AgentVersion : string;
  h_AgentTS : string;
}.

Record deviceHeader := mkDeviceHeader { dh_DeviceID : string; dh_DeviceType : option string }.

(** ** Readings *)

Record Rx := mkRx {
  rx_header : header; rx_device : deviceHeader;
  rx_Seq : Z; rx_RawB64 : string; rx_Text : option string; rx_TextValid : bool;
}.

(** ** Events *)

Inductive EventCode := EventPortOpened | EventPortClosed | EventPortLost | EventPortOpenFailed | EventBytesDiscarded.

Abbreviation ErrorClass := string (only parsing).
Definition ErrorAbsent : ErrorClass := "absent".
Definition ErrorBusy : ErrorClass := "busy".
Definition ErrorPermissionDenied : ErrorClass := "permission_denied".
Definition ErrorReadOnly : ErrorClass := "read_only".
Definition ErrorDisconnected : ErrorClass := "disconnected".
Definition ErrorPortError : ErrorClass := "port_error".
Definition ErrorUnknown : ErrorClass := "unknown".

Definition ErrorClasses : list ErrorClass :=
  [ErrorAbsent; ErrorBusy; ErrorPermissionDenied; ErrorReadOnly; ErrorDisconnected; ErrorPortError; ErrorUnknown].

(** [ErrorClass.Known]. *)
Definition ErrorClass_Known (class : ErrorClass) : bool := bool_decide (class ∈ ErrorClasses).

Abbreviation DiscardReason := string (only parsing).
Definition DiscardOversize : DiscardReason := "oversize".
Definition DiscardInterCharTimeout : DiscardReason := "inter_char_timeout".
Definition DiscardResync : DiscardReason := "resync".
Definition DiscardEmptyFrame : DiscardReason := "empty_frame".

Definition DiscardReasons : list DiscardReason :=
  [DiscardOversize; DiscardInterCharTimeout; DiscardResync; DiscardEmptyFrame].

(** [DiscardReason.Known]. *)
Definition DiscardReason_Known (reason : DiscardReason) : bool := bool_decide (reason ∈ DiscardReasons).

(** A value of a [map[string]any] detail: the code puts strings and ints there. *)
Inductive any := AnyString (s : string) | AnyInt (z : Z).

#[global] Instance any_eq_dec : EqDecision any.
Proof. solve_decision. Defined.

Abbreviation detail := (gmap string any).

Record Event := mkEvent {
  ev_header : header; ev_device : deviceHeader;
  ev_DeviceOpen : bool; ev_MessageExpiryS : Z; ev_Code : EventCode; ev_Text : string; ev_Detail : detail;
}.

(** ** Tx results *)

Inductive TxState := TxAcceptedState | TxWrittenState | TxFailedState | TxRejectedState.

Inductive TxCode :=
  | TxCodeAccepted | TxCodeWritten | TxCodeAlreadyWritten | TxCodeInProgress | TxCodeInvalidMessage
  | TxCodeInvalidID | TxCodePortUnavailable | TxCodeWriteFailed | TxCodeExpired | TxCodeAgentStopping.

#[global] Instance TxState_eq_dec : EqDecision TxState.
Proof. solve_decision. Defined.
#[global] Instance TxCode_eq_dec : EqDecision TxCode.
Proof. solve_decision. Defined.

Definition txCodeStates (code : TxCode) : TxState :=
  match code with
  | TxCodeAccepted => TxAcceptedState
  | TxCodeWritten => TxWrittenState
  | TxCodeAlreadyWritten => TxWrittenState
  | TxCodeInProgress => TxRejectedState
  | TxCodeInvalidMessage => TxFailedState
  | TxCodeInvalidID => TxFailedState
  | TxCodePortUnavailable => TxFailedState
  | TxCodeWriteFailed => TxFailedState
  | TxCodeExpired => TxFailedState
  | TxCodeAgentStopping => TxFailedState
  end.

Inductive TxStage := TxQueued | TxWriting.

#[global] Instance TxStage_eq_dec : EqDecision TxStage.
Proof. solve_decision. Defined.

Definition TxStage_text (stage : TxStage) : string :=
  match stage with TxQueued => "queued" | TxWriting => "writing" end.

(** Both fields are empty when the tx could not be read. *)
Record TxRef := mkTxRef { ref_ID : string; ref_Sender : string }.

Record TxResult := mkTxResult {
  txr_header : header; txr_device : deviceHeader;
  txr_DeviceOpen : bool; txr_MessageExpiryS : Z;
  txr_TxID : option string; txr_Sender : option string;
  txr_State : TxState; txr_Code : TxCode; txr_Text : string; txr_Detail : detail;
}.

(** ** Counters *)

Record DiscardCounts := mkDiscardCounts {
  dc_Oversize : Z; dc_InterCharTimeout : Z; dc_Resync : Z; dc_EmptyFrame : Z;
}.

(** [DiscardCounts.Add]: a reason without a counter is not counted. *)
Definition DiscardCounts_Add (counts : DiscardCounts) (reason : DiscardReason) : DiscardCounts :=
  let 'mkDiscardCounts oversize interChar resync empty := counts in
  if bool_decide (reason = DiscardOversize) then mkDiscardCounts (uint64 (oversize + 1)) interChar resync empty
  else if bool_decide (reason = DiscardInterCharTimeout) then mkDiscardCounts oversize (uint64 (interChar + 1)) resync empty
  else if bool_decide (reason = DiscardResync) then mkDiscardCounts oversize interChar (uint64 (resync + 1)) empty
  else if bool_decide (reason = DiscardEmptyFrame) then mkDiscardCounts oversize interChar resync (uint64 (empty + 1))
  else counts.

Record OpenFailureCounts := mkOpenFailureCounts {
  of_Absent : Z; of_Busy : Z; of_PermissionDenied : Z; of_ReadOnly : Z; of_Disconnected : Z; of_PortError : Z;
  of_Unknown : Z;
}.

(** [OpenFailureCounts.Add]: a class without a counter is counted as unknown. *)
Definition OpenFailureCounts_Add (counts : OpenFailureCounts) (class : ErrorClass) : OpenFailureCounts :=
  let 'mkOpenFailureCounts absent busy denied readOnly disconnected portError unknown := counts in
  if bool_decide (class = ErrorAbsent) then mkOpenFailureCounts (uint64 (absent + 1)) busy denied readOnly disconnected portError unknown
  else if bool_decide (class = ErrorBusy) then mkOpenFailureCounts absent (uint64 (busy + 1)) denied readOnly disconnected portError unknown
  else if bool_decide (class = ErrorPermissionDenied) then mkOpenFailureCounts absent busy (uint64 (denied + 1)) readOnly disconnected portError unknown
  else if bool_decide (class = ErrorReadOnly) then mkOpenFailureCounts absent busy denied (uint64 (readOnly + 1)) disconnected portError unknown
  else if bool_decide (class = ErrorDisconnected) then mkOpenFailureCounts absent busy denied readOnly (uint64 (disconnected + 1)) portError unknown
  else if bool_decide (class = ErrorPortError) then mkOpenFailureCounts absent busy denied readOnly disconnected (uint64 (portError + 1)) unknown
  else mkOpenFailureCounts absent busy denied readOnly disconnected portError (uint64 (unknown + 1)).

Record DeviceCounters := mkDeviceCounters {
  RxFrames : Z; RxBytes : Z; Discards : DiscardCounts; FailedOpens : OpenFailureCounts;
  PublishFailures : Z; TxWrittenCount : Z; TxFailedCount : Z; BufferDepth : Z;
}.

Definition zero_counters : DeviceCounters :=
  mkDeviceCounters 0 0 (mkDiscardCounts 0 0 0 0) (mkOpenFailureCounts 0 0 0 0 0 0 0) 0 0 0 0.

(** ** The keepalive and the offline message *)

(** The broker's SUBACK code for a filter, a byte; [Answered] is false before it. *)
Record SubscribeAnswer := mkSubscribeAnswer { Code : Z; Answered : bool }.
Record TxRouteState := mkTxRouteState { Route : TxRoute; Answer : SubscribeAnswer }.

Record DeviceState := mkDeviceState {
  ds_Device : Device; ds_Open : bool; ds_Counters : DeviceCounters; ds_TxRoutes : list TxRouteState;
}.

Record TxTopic := mkTxTopic { tt_Topic : string; tt_Scope : TxScope; tt_Group : option string; tt_Suback : option Z }.

Record KeepaliveDevice := mkKeepaliveDevice {
  kd_device : deviceHeader; kd_DeviceOpen : bool; kd_MessageExpiryS : Z; kd_TxTopics : list TxTopic;
  kd_Counters : DeviceCounters;
}.

Record Keepalive := mkKeepalive {
  ka_header : header; ka_ProtocolVersion : string; ka_UptimeS : Z; ka_IntervalS : Z; ka_GoneAfterS : Z;
  ka_Devices : list KeepaliveDevice;
}.

Inductive OfflineReason := OfflineShutdown | OfflineWill.

Record Offline := mkOffline { off_header : header; off_Reason : OfflineReason }.

(** ** The builder *)

(** [newID] is a source of ids, a random UUID in the agent and the tests' own in
    a test: the [n]th id it is asked for. A message takes the next one. *)
Record Builder := mkBuilder { agent : Agent; newID : nat -> string }.

(** What a builder call gives: the message, and how many ids were taken so far. *)
Definition drawing (A : Type) : Type := nat -> A * nat.

Definition nilIfEmpty (value : string) : option string := if bool_decide (value = "") then None else Some value.

Definition deviceHeaderOf (device : Device) : deviceHeader := mkDeviceHeader (ID device) (nilIfEmpty (DeviceType device)).

Definition messageExpirySeconds (expiry : duration) : Z := Z.quot expiry Second.

(** [Builder.header]. *)
Definition build_header (builder : Builder) (kind : string) (at_ : time) : drawing header := fun ids =>
  (mkHeader Schema kind (newID builder ids)
     (Project (agent builder)) (Site (agent builder)) (Station (agent builder)) (InstanceID (agent builder))
     (AgentVersion (agent builder)) (format_time at_), S ids).

(** [Builder.Rx]. *)
Definition build_Rx (builder : Builder) (device : Device) (seq : Z) (frame : bytes) (at_ : time) : drawing Rx := fun ids =>
  let (header, ids) := build_header builder KindRx at_ ids in
  let valid := utf8_valid frame in
  (mkRx header (deviceHeaderOf device) seq (string_of_bytes (b64_encode frame))
     (if valid then Some (string_of_bytes frame) else None) valid, ids).

(** [Builder.event]. *)
Definition build_event (builder : Builder) (device : Device) (open : bool) (code : EventCode) (text : string)
    (detail : detail) (at_ : time) : drawing Event := fun ids =>
  let (header, ids) := build_header builder KindEvent at_ ids in
  (mkEvent header (deviceHeaderOf device) open (messageExpirySeconds (Expiry device)) code text detail, ids).

Definition build_PortOpened builder device path at_ : drawing Event :=
  build_event builder device true EventPortOpened ("opened " +:+ path) {["path" := AnyString path]} at_.

Definition build_PortClosed builder device path at_ : drawing Event :=
  build_event builder device false EventPortClosed ("closed " +:+ path) {["path" := AnyString path]} at_.

Definition failure_detail (path : string) (class : ErrorClass) (errText : string) : detail :=
  <["path" := AnyString path]> (<["error_class" := AnyString class]> {["error" := AnyString errText]}).

Definition build_PortLost builder device path (class : ErrorClass) (errText : string) at_ : drawing Event :=
  build_event builder device false EventPortLost ("port lost: " +:+ errText +:+ " (" +:+ class +:+ ")")
    (failure_detail path class errText) at_.

Definition build_PortOpenFailed builder device path (class : ErrorClass) (errText : string) at_ : drawing Event :=
  build_event builder device false EventPortOpenFailed ("could not open the port: " +:+ errText +:+ " (" +:+ class +:+ ")")
    (failure_detail path class errText) at_.

Definition build_BytesDiscarded builder device (reason : DiscardReason) (count : Z) at_ : drawing Event :=
  build_event builder device true EventBytesDiscarded ("discarded " +:+ fmt_d count +:+ " bytes: " +:+ reason)
    (<["reason" := AnyString reason]> {["bytes" := AnyInt count]}) at_.

(** [Builder.txResult]. *)
Definition build_txResult (builder : Builder) (device : Device) (deviceOpen : bool) (tx : TxRef) (code : TxCode)
    (text : string) (detail : detail) (at_ : time) : drawing TxResult := fun ids =>
  let (header, ids) := build_header builder KindTxResult at_ ids in
  (mkTxResult header (deviceHeaderOf device) deviceOpen (messageExpirySeconds (Expiry device))
     (nilIfEmpty (ref_ID tx)) (nilIfEmpty (ref_Sender tx)) (txCodeStates code) code text detail, ids).

Definition build_TxAccepted builder device deviceOpen tx at_ : drawing TxResult :=
  build_txResult builder device deviceOpen tx TxCodeAccepted "received and queued for the port" ∅ at_.

Definition build_TxWritten builder device deviceOpen tx (bytesWritten openAttempts : Z) at_ : drawing TxResult :=
  build_txResult builder device deviceOpen tx TxCodeWritten ("all " +:+ fmt_d bytesWritten +:+ " bytes reached the port")
    (<["bytes_written" := AnyInt bytesWritten]> {["open_attempts" := AnyInt openAttempts]}) at_.

Definition build_TxAlreadyWritten builder device deviceOpen tx (writtenAt at_ : time) : drawing TxResult :=
  let written := format_time writtenAt in
  build_txResult builder device deviceOpen tx TxCodeAlreadyWritten
    ("a tx with this id was written at " +:+ written +:+ ", so this one was not written")
    {["written_at" := AnyString written]} at_.

Definition build_TxInProgress builder device deviceOpen tx (stage : TxStage) (since : time) (bytesWritten : Z) at_ : drawing TxResult :=
  let sinceText := format_time since in
  let text :=
    match stage with
    | TxWriting => "a tx with this id is being written since " +:+ sinceText +:+ ", " +:+ fmt_d bytesWritten
                   +:+ " bytes so far; this one was not taken"
    | TxQueued => "a tx with this id is queued for the port since " +:+ sinceText +:+ "; this one was not taken"
    end in
  build_txResult builder device deviceOpen tx TxCodeInProgress text
    (<["stage" := AnyString (TxStage_text stage)]> (<["since" := AnyString sinceText]> {["bytes_written" := AnyInt bytesWritten]})) at_.

Definition build_TxInvalidMessage builder device deviceOpen tx (errText : string) at_ : drawing TxResult :=
  build_txResult builder device deviceOpen tx TxCodeInvalidMessage ("not a valid tx: " +:+ errText)
    {["error" := AnyString errText]} at_.

Definition build_TxInvalidID builder device deviceOpen tx at_ : drawing TxResult :=
  build_txResult builder device deviceOpen tx TxCodeInvalidID "the id is not a UUID" ∅ at_.

Definition build_TxPortUnavailable builder device deviceOpen tx (class : ErrorClass) (errText : string) (openAttempts : Z) at_ : drawing TxResult :=
  build_txResult builder device deviceOpen tx TxCodePortUnavailable
    ("the port could not be opened in " +:+ fmt_d openAttempts +:+ " attempts: " +:+ errText +:+ " (" +:+ class +:+ ")")
    (<["error_class" := AnyString class]> (<["error" := AnyString errText]> {["open_attempts" := AnyInt openAttempts]})) at_.

Definition build_TxWriteFailed builder device deviceOpen tx (class : ErrorClass) (errText : string) (bytesWritten openAttempts : Z) at_ : drawing TxResult :=
  build_txResult builder device deviceOpen tx TxCodeWriteFailed
    ("writing failed after " +:+ fmt_d bytesWritten +:+ " bytes: " +:+ errText +:+ " (" +:+ class +:+ ")")
    (<["error_class" := AnyString class]> (<["error" := AnyString errText]>
      (<["bytes_written" := AnyInt bytesWritten]> {["open_attempts" := AnyInt openAttempts]}))) at_.

Definition build_TxExpired builder device deviceOpen tx (openAttempts : Z) at_ : drawing TxResult :=
  build_txResult builder device deviceOpen tx TxCodeExpired "the message expiry passed before the port could be written"
    {["open_attempts" := AnyInt openAttempts]} at_.

Definition build_TxAgentStopping builder device deviceOpen tx (bytesWritten : Z) at_ : drawing TxResult :=
  let text :=
    if (0 <? bytesWritten)%Z
    then "the agent stopped while this tx was being written, after " +:+ fmt_d bytesWritten +:+ " bytes"
    else "the agent stopped before this tx was written" in
  build_txResult builder device deviceOpen tx TxCodeAgentStopping text {["bytes_written" := AnyInt bytesWritten]} at_.

Definition txTopicOf (routeState : TxRouteState) : TxTopic :=
  mkTxTopic (Topic (Route routeState)) (Scope (Route routeState)) (nilIfEmpty (Group (Route routeState)))
    (if Answered (Answer routeState) then Some (Code (Answer routeState)) else None).

Definition keepaliveDeviceOf (state : DeviceState) : KeepaliveDevice :=
  mkKeepaliveDevice (deviceHeaderOf (ds_Device state)) (ds_Open state) (messageExpirySeconds (Expiry (ds_Device state)))
    (map txTopicOf (ds_TxRoutes state)) (ds_Counters state).

(** [Builder.Keepalive]. *)
Definition build_Keepalive (builder : Builder) (started at_ : time) (interval : duration) (missed : Z)
    (devices : list DeviceState) : drawing Keepalive := fun ids =>
  let entries := map keepaliveDeviceOf devices in
  let (header, ids) := build_header builder KindKeepalive at_ ids in
  (mkKeepalive header ProtocolVersion (Z.quot (Sub at_ started) Second) (Z.quot interval Second)
     (int64 (Z.quot interval Second * missed)) entries, ids).

(** [Builder.Offline]. *)
Definition build_Offline (builder : Builder) (reason : OfflineReason) (at_ : time) : drawing Offline := fun ids =>
  let (header, ids) := build_header builder KindOffline at_ ids in
  (mkOffline header reason, ids).

(** ** Lemmas *)

Lemma bytes_of_string_of_bytes data : bytes_of_string (string_of_bytes data) = data.
Proof. apply String.list_byte_of_string_of_list_byte. Qed.

Lemma string_of_bytes_of_string s : string_of_bytes (bytes_of_string s) = s.
Proof. apply String.string_of_list_byte_of_string. Qed.

(** The counter of a reason, or of a class. *)
Definition discards_of (counts : DiscardCounts) (reason : DiscardReason) : option Z :=
  if bool_decide (reason = DiscardOversize) then Some (dc_Oversize counts)
  else if bool_decide (reason = DiscardInterCharTimeout) then Some (dc_InterCharTimeout counts)
  else if bool_decide (reason = DiscardResync) then Some (dc_Resync counts)
  else if bool_decide (reason = DiscardEmptyFrame) then Some (dc_EmptyFrame counts)
  else None.

Lemma discards_of_Add counts reason reason' :
  discards_of (DiscardCounts_Add counts reason) reason' =
  (if bool_decide (reason' = reason) then (fun n => uint64 (n + 1)) <$> discards_of counts reason'
   else discards_of counts reason').
Proof.
  destruct counts. unfold DiscardCounts_Add, discards_of.
  repeat (case_bool_decide; subst; simpl; try done).
Qed.

Definition failed_opens_of (counts : OpenFailureCounts) (class : ErrorClass) : option Z :=
  if bool_decide (class = ErrorAbsent) then Some (of_Absent counts)
  else if bool_decide (class = ErrorBusy) then Some (of_Busy counts)
  else if bool_decide (class = ErrorPermissionDenied) then Some (of_PermissionDenied counts)
  else if bool_decide (class = ErrorReadOnly) then Some (of_ReadOnly counts)
  else if bool_decide (class = ErrorDisconnected) then Some (of_Disconnected counts)
  else if bool_decide (class = ErrorPortError) then Some (of_PortError counts)
  else if bool_decide (class = ErrorUnknown) then Some (of_Unknown counts)
  else None.

(** A class without a counter is counted as unknown. *)
Definition counted_class (class : ErrorClass) : ErrorClass := if ErrorClass_Known class then class else ErrorUnknown.

Lemma failed_opens_of_Add counts class class' :
  failed_opens_of (OpenFailureCounts_Add counts class) class' =
  (if bool_decide (class' = counted_class class) then (fun n => uint64 (n + 1)) <$> failed_opens_of counts class'
   else failed_opens_of counts class').
Proof.
  destruct counts. unfold counted_class, ErrorClass_Known, OpenFailureCounts_Add, failed_opens_of.
  destruct (decide (class ∈ ErrorClasses)) as [Hin|Hout].
  - rewrite (bool_decide_eq_true_2 _ Hin). repeat (case_bool_decide; subst; simpl; try done).
    exfalso. unfold ErrorClasses in Hin. set_solver.
  - rewrite (bool_decide_eq_false_2 _ Hout). repeat (case_bool_decide; subst; simpl; try done).
    all: by (exfalso; apply Hout; unfold ErrorClasses; set_solver).
Qed.

(** ** Properties *)

(** A reading is the frame, byte for byte: its base64 decodes to the frame
    and to nothing else, and its text, carried exactly when the frame is valid
    UTF-8, is the frame's bytes. *)
Theorem rx_carries_frame builder device seq frame at_ ids :
  let rx := (build_Rx builder device seq frame at_ ids).1 in
  b64_decode (bytes_of_string (rx_RawB64 rx)) = Some frame /\
  rx_TextValid rx = utf8_valid frame /\
  rx_Text rx = (if utf8_valid frame then Some (string_of_bytes frame) else None) /\
  (forall text, rx_Text rx = Some text -> bytes_of_string text = frame).
Proof.
  simpl. split_and!; [|done|done|].
  - by rewrite bytes_of_string_of_bytes, b64_decode_encode.
  - intros text. destruct (utf8_valid frame); [|done]. intros [= <-]. apply bytes_of_string_of_bytes.
Qed.
