(* ===== verification/Framer.v ===== *)
(** * The framer: a byte stream split into separator-delimited frames *)
From S2P Require Import Prelude GoLib Wire.

(** ** [bytes.Index] of the Go standard library *)

Fixpoint has_prefix (prefix l : bytes) : bool :=
  match prefix, l with
  | [], _ => true
  | _, [] => false
  | x :: prefix', y :: l' => bool_decide (x = y) && has_prefix prefix' l'
  end.

(** The least position of [sep] in [l]. *)
Fixpoint index (l sep : bytes) : option nat :=
  if has_prefix sep l then Some 0
  else match l with
       | [] => None
       | _ :: l' => S <$> index l' sep
       end.

(** ** Data *)

Record Discard := mkDiscard {
  Reason : DiscardReason;
  Bytes : nat;
  (** the discarded bytes when the framer still had them, [nil] otherwise *)
  Data : bytes;
}.

Record Framer := mkFramer {
  separator : bytes;
  maxFrame : Z;
  buf : bytes;
  dropping : bool;
  dropped : nat;
}.

Inductive framer_error := EmptySeparator | MaxFrameTooSmall (got : Z).

(** ** Operations *)

Definition NewFramer (sep : bytes) (max : Z) : result framer_error Framer :=
  if bool_decide (length sep = 0) then Err EmptySeparator
  else if (max <? 1)%Z then Err (MaxFrameTooSmall max)
  else Ok (mkFramer sep max [] false 0).

Definition Pending (framer : Framer) : nat := length (buf framer).
Definition Resyncing (framer : Framer) : bool := dropping framer.

Definition Reset (framer : Framer) : Framer :=
  mkFramer (separator framer) (maxFrame framer) [] false 0.

(** How many trailing bytes can be the start of a separator. *)
Definition carry (framer : Framer) : nat := length (separator framer) - 1.

(** [copy(buf, buf\[consumed:\])] and the re-slice: the first [consumed] bytes
    leave the buffer. *)
Definition consume (framer : Framer) (consumed : nat) : Framer :=
  mkFramer (separator framer) (maxFrame framer) (drop consumed (buf framer))
    (dropping framer) (dropped framer).

Definition trimTo (framer : Framer) (keep : nat) : Framer * nat :=
  if length (buf framer) <=? keep then (framer, 0)
  else let consumed := length (buf framer) - keep in (consume framer consumed, consumed).

(** One turn of [Append]'s loop, with a separator at [separatorAt]: the switch,
    and the [consume] after it. *)
Definition take_separator (framer : Framer) (separatorAt : nat) : Framer * list bytes * list Discard :=
  let len := length (separator framer) in
  let '(framer', frames, discards) :=
    if dropping framer then
      (mkFramer (separator framer) (maxFrame framer) (buf framer) false 0, [],
       [mkDiscard DiscardResync (dropped framer + (separatorAt + len)) []])
    else if separatorAt =? 0 then
      (framer, [], [mkDiscard DiscardEmptyFrame len []])
    else if (maxFrame framer <? Z.of_nat separatorAt)%Z then
      (framer, [], [mkDiscard DiscardOversize separatorAt (take separatorAt (buf framer))])
    else (framer, [take separatorAt (buf framer)], []) in
  (consume framer' (separatorAt + len), frames, discards).

(** The loop, which ends when the buffer holds no separator. Each turn consumes
    one at least, so the buffer's length bounds the turns ([append_loop_frames]). *)
Fixpoint append_loop (fuel : nat) (framer : Framer) : Framer * list bytes * list Discard :=
  match fuel with
  | 0 => (framer, [], [])
  | S fuel' =>
    match index (buf framer) (separator framer) with
    | None => (framer, [], [])
    | Some separatorAt =>
      let '(framer1, frames1, discards1) := take_separator framer separatorAt in
      let '(framer2, frames2, discards2) := append_loop fuel' framer1 in
      (framer2, frames1 ++ frames2, discards1 ++ discards2)
    end
  end.

(** What a buffer without a separator may hold, a sum of Go's [int]s: it wraps
    for a [maxFrame] at the end of their range ([limit_fits], [limit_wraps]). *)
Definition limit (framer : Framer) : Z := int64 (maxFrame framer + Z.of_nat (carry framer)).

(** What [Append] does once the loop has found every separator. *)
Definition settle (framer : Framer) : Framer * list Discard :=
  if dropping framer then
    let (framer', n) := trimTo framer (carry framer) in
    (mkFramer (separator framer') (maxFrame framer') (buf framer') true (dropped framer' + n), [])
  else if (limit framer <? Z.of_nat (length (buf framer)))%Z then
    let (framer', n) := trimTo framer (carry framer) in
    (mkFramer (separator framer') (maxFrame framer') (buf framer') true n,
     [mkDiscard DiscardOversize (length (buf framer)) (buf framer)])
  else (framer, []).

(** [src] joins the buffer and the loop runs. *)
Definition drain (framer : Framer) (src : bytes) : Framer * list bytes * list Discard :=
  let framer0 := mkFramer (separator framer) (maxFrame framer) (buf framer ++ src) (dropping framer) (dropped framer) in
  append_loop (S (length (buf framer0))) framer0.

Definition Append (framer : Framer) (src : bytes) : Framer * list bytes * list Discard :=
  let '(framer1, frames, discards) := drain framer src in
  let (framer2, discards') := settle framer1 in
  (framer2, frames, discards ++ discards').

(** [Timeout]: the discard it returns with [true], or none. *)
Definition Timeout (framer : Framer) : Framer * option Discard :=
  if dropping framer then
    let consumed := dropped framer + length (buf framer) in
    (Reset framer,
     if consumed =? 0 then None else Some (mkDiscard DiscardResync consumed []))
  else if length (buf framer) =? 0 then (framer, None)
  else
    (mkFramer (separator framer) (maxFrame framer) [] true 0,
     Some (mkDiscard DiscardInterCharTimeout (length (buf framer)) (buf framer))).

(** ** What the port does to a framer: reads, and silences between them *)

Inductive input := Read (src : bytes) | Silence.

Definition framer_step (framer : Framer) (i : input) : Framer * list bytes * list Discard :=
  match i with
  | Read src => Append framer src
  | Silence => let (framer', discard) := Timeout framer in (framer', [], option_list discard)
  end.

Fixpoint framer_run (framer : Framer) (inputs : list input) : Framer * list bytes * list Discard :=
  match inputs with
  | [] => (framer, [], [])
  | i :: inputs' =>
    let '(framer1, frames1, discards1) := framer_step framer i in
    let '(framer2, frames2, discards2) := framer_run framer1 inputs' in
    (framer2, frames1 ++ frames2, discards1 ++ discards2)
  end.

(** ** What a framer promises: the abstract framer *)

(** The abstract framer keeps everything since the last separator, without a
    bound, and whether that is already known to be broken. *)
Record stream_state := mkStream { rest : bytes; broken : bool }.

(** [stream] cut at each leftmost separator: the payloads that were ended by
    one, and what follows the last. *)
Fixpoint split_fuel (fuel : nat) (sep stream : bytes) : list bytes * bytes :=
  match fuel with
  | 0 => ([], stream)
  | S fuel' =>
    match index stream sep with
    | None => ([], stream)
    | Some i =>
      let (payloads, tail) := split_fuel fuel' sep (drop (i + length sep) stream) in
      (take i stream :: payloads, tail)
    end
  end.

Definition split_stream (sep stream : bytes) : list bytes * bytes :=
  split_fuel (S (length stream)) sep stream.

(** The payloads that are frames: not empty, and not over the limit. *)
Definition acceptable (max : Z) (payload : bytes) : bool :=
  negb (length payload =? 0) && (Z.of_nat (length payload) <=? max)%Z.

Definition spec_step (sep : bytes) (max : Z) (s : stream_state) (i : input) : stream_state * list bytes :=
  match i with
  | Read src =>
    let (payloads, tail) := split_stream sep (rest s ++ src) in
    let whole := if broken s then List.tl payloads else payloads in
    let still := match payloads with [] => broken s | _ => false end in
    (mkStream tail (still || (max + Z.of_nat (length sep - 1) <? Z.of_nat (length tail))%Z),
     List.filter (acceptable max) whole)
  | Silence =>
    if broken s then (mkStream [] false, [])
    else if length (rest s) =? 0 then (s, [])
    else (mkStream [] true, [])
  end.

Fixpoint spec_run (sep : bytes) (max : Z) (s : stream_state) (inputs : list input) : stream_state * list bytes :=
  match inputs with
  | [] => (s, [])
  | i :: inputs' =>
    let (s1, frames1) := spec_step sep max s i in
    let (s2, frames2) := spec_run sep max s1 inputs' in
    (s2, frames1 ++ frames2)
  end.

(** The bytes a sequence of inputs carries. *)
Definition input_bytes (inputs : list input) : bytes :=
  concat (map (fun i => match i with Read src => src | Silence => [] end) inputs).

(** ** Where each byte read went *)

(** The bytes the framer still answers for: those it holds, and those it has
    dropped since the last discard it reported. *)
Definition held (framer : Framer) : nat :=
  (if dropping framer then dropped framer else 0) + length (buf framer).

(** The bytes of the stream a discard stands for: an oversize payload that was
    ended by a separator leaves the separator out of its count. *)
Definition weight (sep : bytes) (d : Discard) : nat :=
  Bytes d + (if bool_decide (Reason d = DiscardOversize) then length sep else 0).

(** The discards that end a frame or a resynchronisation. An oversize discard
    reported while its frame has not ended is not among them: its bytes are
    counted again by the resync that ends the frame. *)
Definition step_ended (framer : Framer) (i : input) : list Discard :=
  match i with
  | Read src => (drain framer src).2
  | Silence => option_list (Timeout framer).2
  end.

Fixpoint run_ended (framer : Framer) (inputs : list input) : list Discard :=
  match inputs with
  | [] => []
  | i :: inputs' => step_ended framer i ++ run_ended (framer_step framer i).1.1 inputs'
  end.

Definition frames_weight (sep : bytes) (frames : list bytes) : nat :=
  sum_list_with (fun frame => length frame + length sep) frames.

(** ** Lemmas on [index] *)

Lemma has_prefix_spec prefix l : has_prefix prefix l = true <-> exists t, l = prefix ++ t.
Proof.
  revert l. induction prefix as [|x prefix IH]; intros [|y l]; simpl.
  1-2: by split; eauto.
  1: by split; [|intros [? [=]]].
  rewrite andb_true_iff, bool_decide_eq_true, IH. split.
  - intros [-> [t ->]]. by exists t.
  - intros [t [= -> ->]]. eauto.
Qed.

Lemma has_prefix_app_long prefix l m :
  length prefix <= length l -> has_prefix prefix (l ++ m) = has_prefix prefix l.
Proof.
  revert l. induction prefix as [|x prefix IH]; intros [|y l] ?; simpl in *; try done; [lia|].
  rewrite IH; [done|lia].
Qed.

Lemma has_prefix_app prefix l m : has_prefix prefix l = true -> has_prefix prefix (l ++ m) = true.
Proof. rewrite !has_prefix_spec. intros [t ->]. exists (t ++ m). by rewrite (assoc_L (++)). Qed.

Lemma index_Some l sep i :
  index l sep = Some i ->
  i + length sep <= length l /\ l = take i l ++ sep ++ drop (i + length sep) l.
Proof.
  revert i. induction l as [|x l IH]; intros i; simpl; case_match eqn:Hp; intros Hi; simplify_eq/=.
  - apply has_prefix_spec in Hp as [t Ht]. destruct sep; simplify_eq/=. done.
  - apply has_prefix_spec in Hp as [t Ht]. change (S (length l)) with (length (x :: l)).
    rewrite Ht, length_app, drop_app_length. split; [lia|done].
  - apply fmap_Some in Hi as (j & Hj & ->). destruct (IH _ Hj) as [? Hl].
    simpl. split; [lia|]. by rewrite <-Hl.
Qed.

Lemma index_app_Some l m sep i : index l sep = Some i -> index (l ++ m) sep = Some i.
Proof.
  revert i. induction l as [|x l IH]; intros i Hi.
  - simpl in Hi. case_match eqn:Hp; simplify_eq/=.
    apply has_prefix_spec in Hp as [t Ht]. destruct sep; simplify_eq/=.
    destruct m; done.
  - destruct (index_Some _ _ _ Hi) as [Hlen _]. simpl in Hi |- *.
    rewrite app_comm_cons, (has_prefix_app_long sep (x :: l) m) by (simpl in *; lia).
    case_match; simplify_eq/=; [done|].
    apply fmap_Some in Hi as (j & Hj & ->). by rewrite (IH _ Hj).
Qed.

(** A separator that is not in [l] yet starts at most [length sep - 1] bytes
    before its end: dropping all the bytes before those loses none. *)
Lemma index_lastn l m sep :
  sep <> [] -> index l sep = None ->
  index (l ++ m) sep = (fun j => (length l - (length sep - 1)) + j) <$> index (lastn (length sep - 1) l ++ m) sep.
Proof.
  intros Hsep. induction l as [|x l IH]; intros Hn.
  - rewrite lastn_all by (simpl; lia). simpl. by destruct (index m sep).
  - destruct (decide (length (x :: l) <= length sep - 1)) as [Hle|Hgt].
    + rewrite lastn_all by done. 
      replace (length (x :: l) - (length sep - 1)) with 0 by lia.
      exact (eq_sym (option_fmap_id _)).
    + simpl in Hgt. rewrite lastn_cons by lia. simpl in Hn |- *.
      rewrite app_comm_cons, (has_prefix_app_long sep (x :: l) m) by (simpl in *; lia).
      case_match; simplify_eq/=. apply fmap_None in Hn. rewrite (IH Hn).
      destruct (index (lastn _ _ ++ _) _); simpl; f_equal; lia.
Qed.

Lemma index_short l sep : length l < length sep -> index l sep = None.
Proof.
  intros. destruct (index l sep) as [i|] eqn:Hi; [|done].
  destruct (index_Some _ _ _ Hi). lia.
Qed.

(** ** Cutting a stream *)

Section Split.
Context (sep : bytes) (Hsep : sep <> []).

Lemma sep_length : 0 < length sep.
Proof using Hsep. destruct sep; [done|simpl; lia]. Qed.

Lemma split_fuel_enough n m l :
  length l < n -> length l < m -> split_fuel n sep l = split_fuel m sep l.
Proof using Hsep.
  pose proof sep_length. revert m l. induction n as [|n IH]; intros [|m] l ??; try lia. simpl.
  case_match eqn:Hi; [|done]. destruct (index_Some _ _ _ Hi).
  rewrite (IH m); [done|rewrite length_drop; lia..].
Qed.

Lemma split_stream_eq l :
  split_stream sep l =
  match index l sep with
  | None => ([], l)
  | Some i =>
    let (payloads, tail) := split_stream sep (drop (i + length sep) l) in
    (take i l :: payloads, tail)
  end.
Proof using Hsep.
  pose proof sep_length. unfold split_stream at 1. simpl. case_match eqn:Hi; [|done].
  destruct (index_Some _ _ _ Hi).
  rewrite (split_fuel_enough _ (S (length (drop (n + length sep) l)))); [done|rewrite length_drop; lia..].
Qed.

Lemma split_stream_ind (P : bytes -> Prop) :
  (forall l, index l sep = None -> P l) ->
  (forall l i, index l sep = Some i -> P (drop (i + length sep) l) -> P l) ->
  forall l, P l.
Proof using Hsep.
  intros Hnone Hsome l. pose proof sep_length.
  induction l as [l IH] using (induction_ltof1 _ (@length byte)); unfold ltof in IH.
  destruct (index l sep) as [i|] eqn:Hi; [|eauto].
  destruct (index_Some _ _ _ Hi). apply (Hsome _ i Hi), IH. rewrite length_drop. lia.
Qed.

Lemma split_stream_tail l : index (split_stream sep l).2 sep = None.
Proof using Hsep.
  induction l as [l Hi|l i Hi IH] using split_stream_ind; rewrite split_stream_eq, Hi; [done|].
  by destruct (split_stream _ _).
Qed.

(** Bytes appended after what was cut are cut with what was left over. *)
Lemma split_stream_app l m :
  split_stream sep (l ++ m) =
  let (payloads, tail) := split_stream sep l in
  let (payloads', tail') := split_stream sep (tail ++ m) in
  (payloads ++ payloads', tail').
Proof using Hsep.
  induction l as [l Hi|l i Hi IH] using split_stream_ind.
  - rewrite (split_stream_eq l), Hi. simpl. by destruct (split_stream _ _).
  - rewrite (split_stream_eq (l ++ m)), (index_app_Some _ _ _ _ Hi), (split_stream_eq l), Hi.
    destruct (index_Some _ _ _ Hi) as [Hle _].
    rewrite drop_app_le, take_app_le by lia. rewrite IH.
    destruct (split_stream sep (drop _ l)) as [ps t]. by destruct (split_stream sep (t ++ m)).
Qed.
End Split.

(** ** The limit, and the buffer it bounds *)

(** The largest frame and an incomplete separator are within Go's [int]. *)
Definition fits (sep : bytes) (max : Z) : Prop := (max + Z.of_nat (length sep - 1) <= max_int64)%Z.

Lemma limit_fits f :
  (1 <= maxFrame f)%Z -> fits (separator f) (maxFrame f) -> limit f = (maxFrame f + Z.of_nat (carry f))%Z.
Proof. unfold fits, limit, carry, max_int64. intros. apply int64_id. unfold in_int64, min_int64, max_int64. lia. Qed.

(** Wrapped or not, the limit is never more than the sum. *)
Lemma limit_at_most f : (1 <= maxFrame f)%Z -> (limit f <= maxFrame f + Z.of_nat (carry f))%Z.
Proof.
  intros. unfold limit, int64. pose proof (Z.mod_le (maxFrame f + Z.of_nat (carry f) + 2 ^ 63) (2 ^ 64)). lia.
Qed.

Lemma trimTo_fst (f : Framer) n :
  (trimTo f n).1 = mkFramer (separator f) (maxFrame f) (lastn n (buf f)) (dropping f) (dropped f).
Proof.
  unfold trimTo. destruct (length (buf f) <=? n) eqn:?; simpl; [|done].
  rewrite lastn_all by lia. by destruct f.
Qed.

(** What [Append]'s loop leaves as it is. *)
Lemma append_loop_keeps fuel f :
  separator (append_loop fuel f).1.1 = separator f /\ maxFrame (append_loop fuel f).1.1 = maxFrame f.
Proof.
  revert f. induction fuel as [|fuel IH]; intros f; simpl; [done|]. destruct (index _ _) as [i|]; [|done].
  destruct (take_separator f i) as [[f1 frames1] discards1] eqn:Htake.
  assert (separator f1 = separator f /\ maxFrame f1 = maxFrame f) as [<- <-].
  { unfold take_separator in Htake. repeat case_match; simplify_eq/=; done. }
  specialize (IH f1). by destruct (append_loop fuel f1) as [[??]?].
Qed.

Lemma settle_bounded f :
  (1 <= maxFrame f)%Z ->
  separator (settle f).1 = separator f /\ maxFrame (settle f).1 = maxFrame f /\
  (Z.of_nat (Pending (settle f).1) <= maxFrame f + Z.of_nat (carry f))%Z.
Proof.
  intros Hmax. pose proof (limit_at_most f Hmax). pose proof (trimTo_fst f (carry f)) as Ht.
  unfold settle, Pending. destruct (trimTo f (carry f)) as [f' n]; simpl in Ht; subst f'.
  repeat case_match; simpl; rewrite ?lastn_length; split_and!; try done; lia.
Qed.

Lemma framer_step_bounded f i :
  (1 <= maxFrame f)%Z -> (Z.of_nat (Pending f) <= maxFrame f + Z.of_nat (carry f))%Z ->
  separator (framer_step f i).1.1 = separator f /\ maxFrame (framer_step f i).1.1 = maxFrame f /\
  (Z.of_nat (Pending (framer_step f i).1.1) <= maxFrame f + Z.of_nat (carry f))%Z.
Proof.
  intros Hmax Hp. destruct i as [src|]; simpl.
  - unfold Append, drain. set (f0 := mkFramer _ _ _ _ _).
    destruct (append_loop_keeps (S (length (buf f0))) f0) as [Hs Hm].
    destruct (append_loop (S (length (buf f0))) f0) as [[f1 frames] discards]; cbn in Hs, Hm.
    pose proof (settle_bounded f1) as Hb. unfold carry in *. rewrite Hs, Hm in Hb.
    destruct (settle f1); simpl in *. auto.
  - unfold Timeout. destruct (dropping f), (length (buf f) =? 0); simpl; split_and!; try done; unfold Pending; simpl; lia.
Qed.

Lemma framer_run_bounded f inputs :
  (1 <= maxFrame f)%Z -> (Z.of_nat (Pending f) <= maxFrame f + Z.of_nat (carry f))%Z ->
  (Z.of_nat (Pending (framer_run f inputs).1.1) <= maxFrame f + Z.of_nat (carry f))%Z.
Proof.
  revert f. induction inputs as [|i inputs IH]; intros f Hmax Hp; [done|]. simpl.
  destruct (framer_step_bounded f i Hmax Hp) as (Hs & Hm & Hb).
  destruct (framer_step f i) as [[f1 frames1] discards1]; simpl in *. specialize (IH f1).
  unfold carry in *. rewrite Hs, Hm in IH. destruct (framer_run f1 inputs) as [[??]?]; simpl in *. auto.
Qed.

(** ** The framer refines the abstract framer *)

Section Refinement.
Context (sep : bytes) (max : Z) (Hsep : sep <> []).

Let keep := length sep - 1.

(** The framer's buffer is the whole of what follows the last separator, or,
    while it drops, only the end of it. *)
Record simulates (f : Framer) (s : stream_state) : Prop := {
  sim_separator : separator f = sep;
  sim_max : maxFrame f = max;
  sim_dropping : dropping f = broken s;
  sim_buf : buf f = if broken s then lastn keep (rest s) else rest s;
  sim_rest : index (rest s) sep = None;
  sim_bound : broken s = false -> (Z.of_nat (length (rest s)) <= max + Z.of_nat keep)%Z;
}.

Definition idle (f : Framer) (payloads : bytes) : Framer := mkFramer (separator f) (maxFrame f) payloads false 0.

(** The loop of a framer that is not dropping cuts its buffer, and keeps the
    acceptable payloads. *)
Lemma append_loop_frames fuel f :
  separator f = sep -> maxFrame f = max -> dropping f = false ->
  length (buf f) < fuel ->
  let '(f', frames, _) := append_loop fuel f in
  separator f' = sep /\ maxFrame f' = max /\ dropping f' = false /\
  (split_stream sep (buf f)).2 = buf f' /\
  frames = List.filter (acceptable max) (split_stream sep (buf f)).1.
Proof using Hsep.
  pose proof (sep_length sep Hsep). revert f. induction fuel as [|fuel IH]; intros f Hs Hm Hd Hlen; [lia|].
  simpl. rewrite Hs, (split_stream_eq sep Hsep). destruct (index (buf f) sep) as [i|] eqn:Hi; [|by rewrite Hs].
  destruct (index_Some _ _ _ Hi) as [Hle _].
  destruct (take_separator f i) as [[f1 frames1] discards1] eqn:Htake.
  assert (separator f1 = sep /\ maxFrame f1 = max /\ dropping f1 = false /\
          buf f1 = drop (i + length sep) (buf f) /\
          frames1 = List.filter (acceptable max) [take i (buf f)]) as (Hs1 & Hm1 & Hd1 & Hb1 & ->).
  { unfold take_separator in Htake. rewrite Hd, Hs, Hm in Htake. simpl.
    unfold acceptable. rewrite length_take_le by lia.
    destruct (i =? 0) eqn:?, (max <? Z.of_nat i)%Z eqn:?, (Z.of_nat i <=? max)%Z eqn:?;
      try lia; injection Htake as <- <- <-; simpl; auto 10. }
  specialize (IH f1 Hs1 Hm1 Hd1). rewrite Hb1 in IH.
  rewrite length_drop in IH. specialize (IH ltac:(lia)).
  destruct (append_loop fuel f1) as [[f2 frames2] discards2].
  destruct (split_stream sep (drop _ _)) as [payloads tail]; simpl in *.
  destruct IH as (? & ? & ? & ? & ->). by destruct (acceptable max _).
Qed.

Context (Hmax : (1 <= max)%Z) (Hfits : fits sep max).

Lemma settle_simulates f r :
  separator f = sep -> maxFrame f = max -> index r sep = None ->
  (if dropping f then lastn keep (buf f) = lastn keep r else buf f = r) ->
  simulates (settle f).1 (mkStream r (dropping f || (max + Z.of_nat keep <? Z.of_nat (length r))%Z)).
Proof using Hmax Hfits.
  intros Hs Hm Hi Hb. pose proof (trimTo_fst f (carry f)) as Ht. unfold settle.
  rewrite limit_fits by (by rewrite ?Hs, Hm).
  replace (carry f) with keep in * by (unfold carry, keep; by rewrite Hs).
  rewrite Hm. destruct (trimTo f keep) as [f' n]; simpl in Ht; subst f'.
  destruct (dropping f) eqn:Hd; simpl.
  - by constructor.
  - subst r. destruct (_ <? _)%Z eqn:?; constructor; simpl; auto; intros; try done; lia.
Qed.

(** Dropping: the separator found first ends the broken frame, whether the
    whole stream is searched or only what the framer kept of it. *)
Lemma take_separator_dropping f s src j :
  simulates f s -> broken s = true ->
  let off := length (rest s) - keep in
  let framer := mkFramer (separator f) (maxFrame f) (buf f ++ src) (dropping f) (dropped f) in
  take_separator framer j =
  (mkFramer sep max (drop (off + j + length sep) (rest s ++ src)) false 0, [],
   [mkDiscard DiscardResync (dropped f + (j + length sep)) []]).
Proof.
  intros [Hs Hm Hd Hb Hr Hbd] Hbr off framer. unfold take_separator, framer; simpl.
  rewrite Hd, Hbr, Hs, Hm, Hb, Hbr. unfold consume; simpl. do 3 f_equal.
  unfold lastn. fold off. rewrite <-drop_app_le by (unfold off; lia).
  rewrite drop_drop. f_equal. lia.
Qed.

Lemma Append_simulates_dropping f s src :
  simulates f s -> broken s = true ->
  simulates (Append f src).1.1 (spec_step sep max s (Read src)).1 /\
  (Append f src).1.2 = (spec_step sep max s (Read src)).2.
Proof using Hsep Hmax Hfits.
  intros Hsim Hbr. pose proof (take_separator_dropping f s src) as Htake.
  pose proof (sep_length sep Hsep). destruct Hsim as [Hs Hm Hd Hb Hr Hbd] eqn:E; clear E.
  pose proof (index_lastn (rest s) src sep Hsep Hr) as Hidx. fold keep in Hidx.
  rewrite Hbr in Hb, Hd. unfold Append, drain, spec_step. fold keep. simpl.
  rewrite (split_stream_eq sep Hsep), Hidx, Hbr, Hb, Hs.
  destruct (index (lastn keep (rest s) ++ src) sep) as [j|] eqn:Hj; simpl.
  - specialize (Htake j Hsim Hbr). rewrite Hb, Hs in Htake. simpl in Htake. rewrite Htake.
    destruct (index_Some _ _ _ Hj) as [Hjl _].
    rewrite length_app, lastn_length in *.
    set (f1 := mkFramer sep max _ false 0).
    pose proof (append_loop_frames (length (rest s) `min` keep + length src) f1 eq_refl eq_refl eq_refl) as Hloop.
    unfold f1 in Hloop at 1. simpl in Hloop. rewrite length_drop, length_app in Hloop.
    specialize (Hloop ltac:(lia)).
    destruct (append_loop _ f1) as [[f2 frames2] discards2].
    destruct Hloop as (Hs2 & Hm2 & Hd2 & Hb2 & ->). unfold f1 in *; simpl in *.
    rewrite Nat.add_assoc. pose proof (split_stream_tail sep Hsep (drop (length (rest s) - keep + j + length sep) (rest s ++ src))) as Ht.
    destruct (split_stream sep (drop _ _)) as [payloads tail]; simpl in *; subst tail.
    pose proof (settle_simulates f2 (buf f2) Hs2 Hm2 Ht) as Hset. rewrite Hd2 in Hset.
    destruct (settle f2) as [f3 ?]; simpl in *. auto.
  - pose proof (settle_simulates (mkFramer sep (maxFrame f) (lastn keep (rest s) ++ src) (dropping f) (dropped f))
      (rest s ++ src)) as Hset.
    simpl in Hset. rewrite Hd, lastn_lastn_app in Hset. rewrite Hd.
    rewrite Hidx in Hset. specialize (Hset eq_refl Hm eq_refl eq_refl).
    destruct (settle _); simpl in *. auto.
Qed.

Lemma Append_simulates_idle f s src :
  simulates f s -> broken s = false ->
  simulates (Append f src).1.1 (spec_step sep max s (Read src)).1 /\
  (Append f src).1.2 = (spec_step sep max s (Read src)).2.
Proof using Hsep Hmax Hfits.
  intros [Hs Hm Hd Hb Hr Hbd] Hbr. rewrite Hbr in *.
  unfold Append, drain, spec_step. fold keep. rewrite Hb, Hbr.
  set (f0 := mkFramer _ _ _ _ _).
  pose proof (append_loop_frames (S (length (buf f0))) f0 Hs Hm Hd ltac:(lia)) as Hloop.
  destruct (append_loop _ f0) as [[f2 frames2] discards2].
  destruct Hloop as (Hs2 & Hm2 & Hd2 & Hb2 & ->). unfold f0 in *; simpl in *.
  pose proof (split_stream_tail sep Hsep (rest s ++ src)) as Ht.
  destruct (split_stream sep (rest s ++ src)) as [payloads tail]; simpl in *; subst tail.
  pose proof (settle_simulates f2 (buf f2) Hs2 Hm2 Ht) as Hset. rewrite Hd2 in Hset.
  destruct (settle f2) as [f3 ?]; simpl in *. destruct payloads; auto.
Qed.

Lemma Timeout_simulates f s :
  simulates f s -> simulates (Timeout f).1 (spec_step sep max s Silence).1.
Proof using Hsep Hmax Hfits.
  intros [Hs Hm Hd Hb Hr Hbd]. unfold Timeout, spec_step. rewrite Hd, Hb.
  assert (index [] sep = None) by (apply index_short; pose proof (sep_length sep Hsep); simpl; lia).
  destruct (broken s) eqn:Hbr; simpl.
  - constructor; simpl; auto. lia.
  - destruct (length (rest s) =? 0) eqn:Hl; simpl.
    + constructor; rewrite ?Hbr; auto.
    + by constructor.
Qed.

Lemma framer_step_simulates f s i :
  simulates f s ->
  simulates (framer_step f i).1.1 (spec_step sep max s i).1 /\
  (framer_step f i).1.2 = (spec_step sep max s i).2.
Proof using Hsep Hmax Hfits.
  intros Hsim. destruct i as [src|].
  - destruct (broken s) eqn:Hbr; [by apply Append_simulates_dropping|by apply Append_simulates_idle].
  - pose proof (Timeout_simulates f s Hsim) as Ht. simpl in *.
    destruct (Timeout f), (broken s), (length (rest s) =? 0); simpl in *; auto.
Qed.

Lemma framer_run_simulates f s inputs :
  simulates f s ->
  simulates (framer_run f inputs).1.1 (spec_run sep max s inputs).1 /\
  (framer_run f inputs).1.2 = (spec_run sep max s inputs).2.
Proof using Hsep Hmax Hfits.
  revert f s. induction inputs as [|i inputs IH]; intros f s Hsim; [done|].
  destruct (framer_step_simulates f s i Hsim) as [H1 H2]. simpl.
  destruct (framer_step f i) as [[f1 frames1] d1], (spec_step sep max s i) as [s1 frames1']; simpl in *.
  destruct (IH f1 s1 H1) as [H3 H4].
  destruct (framer_run f1 inputs) as [[f2 frames2] d2], (spec_run sep max s1 inputs) as [s2 frames2']; simpl in *.
  by subst.
Qed.

Lemma simulates_fresh : simulates (mkFramer sep max [] false 0) (mkStream [] false).
Proof using Hsep Hmax Hfits.
  intros. pose proof (sep_length sep Hsep).
  assert (index [] sep = None) by (apply index_short; simpl; lia).
  constructor; simpl; auto; lia.
Qed.
End Refinement.

(** ** Conservation *)

Section Conservation.
Context (sep : bytes).

Lemma append_loop_conserves fuel f :
  separator f = sep ->
  let '(f', frames, discards) := append_loop fuel f in
  separator f' = sep /\
  held f = frames_weight sep frames + sum_list_with (weight sep) discards + held f'.
Proof.
  revert f. induction fuel as [|fuel IH]; intros f Hs; [done|]. simpl. rewrite Hs.
  destruct (index (buf f) sep) as [i|] eqn:Hi; [|done].
  destruct (index_Some _ _ _ Hi) as [Hle _].
  destruct (take_separator f i) as [[f1 frames1] discards1] eqn:Htake.
  assert (separator f1 = sep /\
    held f = frames_weight sep frames1 + sum_list_with (weight sep) discards1 + held f1) as [Hs1 Hh1].
  { unfold take_separator in Htake. rewrite Hs in Htake. unfold frames_weight, weight, held in *.
    destruct (dropping f) eqn:Hd, (i =? 0) eqn:?, (maxFrame f <? Z.of_nat i)%Z eqn:?;
      injection Htake as <- <- <-; simpl; rewrite ?Hd, ?Hs, ?length_drop, ?length_take;
      (split; [done|]); simpl; lia. }
  specialize (IH f1 Hs1). destruct (append_loop fuel f1) as [[f2 frames2] discards2].
  destruct IH as [? Hh2]. unfold frames_weight in *. rewrite !sum_list_with_app. split; [done|lia].
Qed.

Lemma settle_held f : separator (settle f).1 = separator f /\ held (settle f).1 = held f.
Proof.
  unfold settle, trimTo, held, carry, consume.
  destruct (dropping f) eqn:Hd, (length (buf f) <=? length (separator f) - 1) eqn:?; simpl;
    try destruct (_ <? _)%Z eqn:?; simpl; rewrite ?Hd, ?length_drop; (split; [done|]); lia.
Qed.

Lemma framer_step_conserves f i :
  separator f = sep ->
  let '(f', frames, _) := framer_step f i in
  separator f' = sep /\
  length (input_bytes [i]) + held f =
    frames_weight sep frames + sum_list_with (weight sep) (step_ended f i) + held f'.
Proof.
  intros Hs. destruct i as [src|]; simpl.
  - unfold Append. pose proof (append_loop_conserves (S (length (buf f ++ src)))
      (mkFramer (separator f) (maxFrame f) (buf f ++ src) (dropping f) (dropped f)) Hs) as Hl.
    fold (drain f src) in Hl. unfold drain; simpl in *.
    destruct (drain f src) as [[f1 frames] discards] eqn:Hd. unfold drain in Hd. simpl in Hd. rewrite Hd in *.
    destruct Hl as [Hs1 Hh]. pose proof (settle_held f1) as [Hs2 Hh2].
    destruct (settle f1) as [f2 ds]; simpl in *. unfold input_bytes; simpl. rewrite app_nil_r, Hs2.
    unfold held in Hh at 1. simpl in Hh. rewrite length_app in Hh. unfold held at 1. split; [done|lia].
  - unfold Timeout, held, weight. destruct (dropping f) eqn:Hd; simpl.
    + destruct (dropped f + length (buf f) =? 0) eqn:?; simpl; (split; [done|]); lia.
    + destruct (length (buf f) =? 0) eqn:?; simpl; rewrite ?Hd; (split; [done|]); simpl; lia.
Qed.

Lemma framer_run_conserves f inputs :
  separator f = sep ->
  let '(f', frames, _) := framer_run f inputs in
  length (input_bytes inputs) + held f =
    frames_weight sep frames + sum_list_with (weight sep) (run_ended f inputs) + held f'.
Proof.
  revert f. induction inputs as [|i inputs IH]; intros f Hs; [done|]. simpl.
  pose proof (framer_step_conserves f i Hs) as H1.
  destruct (framer_step f i) as [[f1 frames1] discards1]; simpl in *. destruct H1 as [Hs1 H1].
  specialize (IH f1 Hs1). destruct (framer_run f1 inputs) as [[f2 frames2] discards2].
  unfold input_bytes, frames_weight in *. simpl in *. rewrite app_nil_r in H1.
  rewrite length_app, !sum_list_with_app. lia.
Qed.

Lemma run_ended_sublist f inputs : run_ended f inputs `sublist_of` (framer_run f inputs).2.
Proof.
  revert f. induction inputs as [|i inputs IH]; intros f; [done|]. simpl.
  specialize (IH (framer_step f i).1.1).
  assert (step_ended f i `sublist_of` (framer_step f i).2) as H1.
  { destruct i; simpl; [|by destruct (Timeout f)]. unfold Append.
    destruct (drain f src) as [[? ?] ds], (settle _). simpl. by apply sublist_inserts_r. }
  destruct (framer_step f i) as [[f1 frames1] discards1]; simpl in *.
  destruct (framer_run f1 inputs) as [[? ?] ?]. simpl in *. by apply sublist_app.
Qed.
End Conservation.

(** ** Reads only *)

Section Reads.
Context (sep : bytes) (max : Z) (Hsep : sep <> []).

(** A state that is broken without a silence is broken by its length: what
    ends it cannot be a frame. *)
Definition oversize_if_broken (s : stream_state) : Prop :=
  index (rest s) sep = None /\
  (broken s = true -> (max + Z.of_nat (length sep - 1) < Z.of_nat (length (rest s)))%Z).

Lemma spec_read_filter s src :
  oversize_if_broken s ->
  oversize_if_broken (spec_step sep max s (Read src)).1 /\
  (spec_step sep max s (Read src)).2 = List.filter (acceptable max) (split_stream sep (rest s ++ src)).1 /\
  rest (spec_step sep max s (Read src)).1 = (split_stream sep (rest s ++ src)).2.
Proof using Hsep.
  intros [Hr Hbr]. unfold spec_step, oversize_if_broken.
  pose proof (split_stream_tail sep Hsep (rest s ++ src)) as Ht.
  pose proof (index_lastn (rest s) src sep Hsep Hr) as Hidx.
  rewrite (split_stream_eq sep Hsep) in *.
  destruct (index (rest s ++ src) sep) as [i|] eqn:Hi; simpl in *.
  - destruct (split_stream sep (drop _ _)) as [payloads tail]; simpl in *.
    split; [split; [done|lia]|split; [|done]].
    destruct (broken s); [|done]. specialize (Hbr eq_refl).
    symmetry in Hidx. apply fmap_Some in Hidx as (j & _ & ->).
    destruct (index_Some _ _ _ Hi) as [? _].
    unfold acceptable at 2. rewrite length_take_le by lia.
    destruct (Z.of_nat _ <=? max)%Z eqn:?; [lia|]. by rewrite andb_false_r.
  - split; [|by destruct (broken s)]. split; [done|].
    rewrite length_app. destruct (broken s); simpl; lia.
Qed.

Lemma spec_reads_filter s chunks :
  oversize_if_broken s ->
  (spec_run sep max s (map Read chunks)).2 =
  List.filter (acceptable max) (split_stream sep (rest s ++ concat chunks)).1.
Proof using Hsep.
  revert s. induction chunks as [|src chunks IH]; intros s Hs; cbn [map spec_run concat].
  - rewrite app_nil_r, (split_stream_eq sep Hsep). destruct Hs as [-> _]. done.
  - destruct (spec_read_filter s src Hs) as (Hs' & Hf & Hr). specialize (IH _ Hs').
    destruct (spec_step sep max s (Read src)) as [s1 frames1]; simpl in *.
    destruct (spec_run sep max s1 _) as [s2 frames2]; simpl in *. subst.
    rewrite (assoc_L (++)), (split_stream_app sep Hsep (rest s ++ src) (concat chunks)).
    destruct (split_stream sep (rest s ++ src)) as [payloads tail]; simpl in *. subst.
    destruct (split_stream sep (rest s1 ++ _)). simpl. by rewrite List.filter_app.
Qed.
End Reads.

Lemma NewFramer_Ok sep max f :
  NewFramer sep max = Ok f -> sep <> [] /\ (1 <= max)%Z /\ f = mkFramer sep max [] false 0.
Proof.
  unfold NewFramer. case_bool_decide as Hl; [done|]. destruct (max <? 1)%Z eqn:?; [done|].
  intros [= <-]. split; [by intros ->|]. split; [lia|done].
Qed.

Lemma index_take l sep i : sep <> [] -> index l sep = Some i -> index (take i l) sep = None.
Proof.
  intros Hsep Hi. pose proof (sep_length sep Hsep).
  destruct (index (take i l) sep) as [k|] eqn:Hk; [|done].
  destruct (index_Some _ _ _ Hk) as [Hle _]. rewrite length_take in Hle.
  pose proof (index_app_Some _ (drop i l) _ _ Hk) as Hk'. rewrite take_drop in Hk'.
  simplify_eq. lia.
Qed.

Lemma split_stream_payloads sep l :
  sep <> [] -> Forall (fun payload => index payload sep = None) (split_stream sep l).1.
Proof.
  intros Hsep. induction l as [l Hi|l i Hi IH] using (split_stream_ind sep Hsep);
    rewrite (split_stream_eq sep Hsep), Hi; [done|].
  destruct (split_stream _ _). constructor; [by apply index_take|done].
Qed.

Lemma split_stream_join sep frames :
  sep <> [] ->
  Forall (fun frame => index (frame ++ sep) sep = Some (length frame)) frames ->
  split_stream sep (concat (map (fun frame => frame ++ sep) frames)) = (frames, []).
Proof.
  intros Hsep. induction 1 as [|frame frames Hf _ IH]; simpl; rewrite (split_stream_eq sep Hsep).
  - by rewrite index_short by (pose proof (sep_length sep Hsep); simpl; lia).
  - rewrite (index_app_Some _ _ _ _ Hf), <-(assoc_L (++)).
    rewrite <-drop_drop, drop_app_length, drop_app_length, IH. by rewrite take_app_length.
Qed.

Lemma new_framer_run_simulates sep max framer inputs :
  NewFramer sep max = Ok framer -> fits sep max ->
  simulates sep max (framer_run framer inputs).1.1 (spec_run sep max (mkStream [] false) inputs).1 /\
  (framer_run framer inputs).1.2 = (spec_run sep max (mkStream [] false) inputs).2.
Proof.
  intros Hnew Hfits. apply NewFramer_Ok in Hnew as (Hsep & Hmax & ->).
  apply framer_run_simulates; [done..|]. by apply simulates_fresh.
Qed.

Lemma new_framer_reads sep max framer chunks :
  NewFramer sep max = Ok framer -> fits sep max ->
  (framer_run framer (map Read chunks)).1.2 = List.filter (acceptable max) (split_stream sep (concat chunks)).1.
Proof.
  intros Hnew Hfits. destruct (new_framer_run_simulates _ _ _ (map Read chunks) Hnew Hfits) as [_ ->].
  destruct (NewFramer_Ok _ _ _ Hnew) as (Hsep & _).
  apply (spec_reads_filter sep max Hsep (mkStream [] false)). split; [|done].
  apply index_short. pose proof (sep_length sep Hsep). simpl. lia.
Qed.

(** Frames joined by their separator, cut anyhow. *)
Lemma joined_frames sep max framer frames chunks :
  NewFramer sep max = Ok framer -> fits sep max ->
  Forall (fun frame => acceptable max frame = true /\ index (frame ++ sep) sep = Some (length frame)) frames ->
  concat chunks = concat (map (fun frame => frame ++ sep) frames) ->
  (framer_run framer (map Read chunks)).1.2 = frames.
Proof.
  intros Hnew Hfits Hf Hc. destruct (NewFramer_Ok _ _ _ Hnew) as (Hsep & _).
  rewrite (new_framer_reads _ _ _ _ Hnew Hfits), Hc, (split_stream_join sep frames Hsep)
    by (eapply Forall_impl; [done|by intros ? [_ ?]]).
  clear Hc. induction Hf as [|frame frames [Ha _] _ IH]; [done|]. simpl in *. by rewrite Ha, IH.
Qed.

(** ** Properties *)

(** C3: as long as the largest frame and an incomplete separator fit Go's [int],
    which every configuration that loads makes sure of: whatever a port sends and however it is cut into reads and silences,
    the framer emits the frames the abstract framer emits, which keeps the
    whole stream since the last separator and decides on that: keeping only
    the end of a broken frame loses no separator and invents no frame. *)
Theorem framer_refines sep max framer inputs :
  NewFramer sep max = Ok framer -> fits sep max ->
  (framer_run framer inputs).1.2 = (spec_run sep max (mkStream [] false) inputs).2.
Proof.
  intros Hnew Hfits. by apply new_framer_run_simulates.
Qed.

(** C4: under the same bound, and without a silence, the frames depend on the bytes and not on the reads
    they came in: they are the payloads between separators that are not empty
    and not over the limit, in order. *)
Theorem framer_chunking sep max framer chunks :
  NewFramer sep max = Ok framer -> fits sep max ->
  (framer_run framer (map Read chunks)).1.2 =
  List.filter (acceptable max) (split_stream sep (concat chunks)).1.
Proof.
  apply new_framer_reads.
Qed.

(** Frames joined by their separator come back, whatever the reads. *)
Theorem framer_roundtrip sep max framer frames chunks :
  NewFramer sep max = Ok framer -> fits sep max ->
  Forall (fun frame => acceptable max frame = true /\ index (frame ++ sep) sep = Some (length frame)) frames ->
  concat chunks = concat (map (fun frame => frame ++ sep) frames) ->
  (framer_run framer (map Read chunks)).1.2 = frames.
Proof. apply joined_frames. Qed.

(** C8: a device that never sends a separator cannot grow the buffer: after any
    read or silence it holds at most a frame and an incomplete separator. *)
Theorem framer_bounded sep max framer inputs :
  NewFramer sep max = Ok framer ->
  (Z.of_nat (Pending (framer_run framer inputs).1.1) <= max + Z.of_nat (length sep - 1))%Z.
Proof.
  intros Hnew. destruct (NewFramer_Ok _ _ _ Hnew) as (_ & Hmax & ->).
  apply (framer_run_bounded (mkFramer sep max [] false 0)); unfold Pending; simpl; lia.
Qed.

(** C9: no byte is lost without a record of it. Every byte read is counted once:
    in a frame and its separator, in a discard, or among those the framer still
    answers for; and the discards counted are among those it returned. *)
Theorem framer_accounts sep max framer inputs :
  NewFramer sep max = Ok framer ->
  let '(framer', frames, discards) := framer_run framer inputs in
  length (input_bytes inputs) =
    frames_weight sep frames + sum_list_with (weight sep) (run_ended framer inputs) + held framer' /\
  run_ended framer inputs `sublist_of` discards.
Proof.
  intros Hnew. apply NewFramer_Ok in Hnew as (Hsep & Hmax & ->).
  pose proof (framer_run_conserves sep (mkFramer sep max [] false 0) inputs eq_refl) as Hc.
  pose proof (run_ended_sublist (mkFramer sep max [] false 0) inputs) as Hs.
  destruct (framer_run _ inputs) as [[f' frames] discards]. simpl in *.
  unfold held in Hc at 1. simpl in Hc. split; [lia|done].
Qed.

(** ** Witnesses *)

Definition ascii_bytes (s : string) : bytes := String.list_byte_of_string s.
Definition crlf : bytes := [x0d; x0a].

Lemma framer_refines_witness :
  NewFramer crlf 4 = Ok (mkFramer crlf 4 [] false 0) /\ fits crlf 4 /\
  let inputs := [Read (ascii_bytes "AB"); Silence; Read (ascii_bytes "CD" ++ crlf ++ ascii_bytes "EF" ++ [x0d]); Read [x0a]] in
  (framer_run (mkFramer crlf 4 [] false 0) inputs).1.2 = [ascii_bytes "EF"] /\
  (framer_run (mkFramer crlf 4 [] false 0) inputs).1.2 = (spec_run crlf 4 (mkStream [] false) inputs).2.
Proof. split; [done|]. split; [done|]. split; [vm_compute; reflexivity|]. by apply framer_refines. Defined.

Lemma framer_chunking_witness :
  NewFramer crlf 4 = Ok (mkFramer crlf 4 [] false 0) /\ fits crlf 4 /\
  let chunks := [ascii_bytes "AB" ++ [x0d]; [x0a] ++ ascii_bytes "TOOLONG"; crlf ++ ascii_bytes "EF" ++ crlf] in
  List.filter (acceptable 4) (split_stream crlf (concat chunks)).1 = [ascii_bytes "AB"; ascii_bytes "EF"] /\
  (framer_run (mkFramer crlf 4 [] false 0) (map Read chunks)).1.2 =
  List.filter (acceptable 4) (split_stream crlf (concat chunks)).1.
Proof. split; [done|]. split; [done|]. split; [vm_compute; reflexivity|]. by apply framer_chunking. Defined.

Lemma framer_roundtrip_witness :
  (framer_run (mkFramer crlf 4 [] false 0)
     (map Read [ascii_bytes "AB" ++ [x0d]; [x0a] ++ ascii_bytes "E"; ascii_bytes "F" ++ crlf])).1.2 =
  [ascii_bytes "AB"; ascii_bytes "EF"].
Proof.
  apply (framer_roundtrip crlf 4); [done|done| |vm_compute; reflexivity].
  repeat constructor.
Defined.

Lemma framer_bounded_witness :
  let inputs := [Read (ascii_bytes "TOOLONG"); Read (ascii_bytes "STILL"); Silence; Read (ascii_bytes "AB")] in
  (Z.of_nat (Pending (framer_run (mkFramer crlf 4 [] false 0) inputs).1.1) <= 4 + Z.of_nat (length crlf - 1))%Z.
Proof. apply framer_bounded. reflexivity. Defined.

Lemma framer_accounts_witness :
  let inputs := [Read (ascii_bytes "TOOLONG"); Read (crlf ++ ascii_bytes "AB" ++ crlf ++ ascii_bytes "C"); Silence] in
  let '(framer', frames, discards) := framer_run (mkFramer crlf 4 [] false 0) inputs in
  length (input_bytes inputs) =
    frames_weight crlf frames + sum_list_with (weight crlf) (run_ended (mkFramer crlf 4 [] false 0) inputs) + held framer' /\
  run_ended (mkFramer crlf 4 [] false 0) inputs `sublist_of` discards.
Proof.
  exact (framer_accounts crlf 4 (mkFramer crlf 4 [] false 0)
    [Read (ascii_bytes "TOOLONG"); Read (crlf ++ ascii_bytes "AB" ++ crlf ++ ascii_bytes "C"); Silence] eq_refl).
Defined.

(** An oversize frame ended by a later read is reported twice: by the oversize
    discard, and again, with its separator, by the resync that ends it. Seven
    bytes were read, and the two discards add up to thirteen. *)
Lemma oversize_counted_again :
  let inputs := [Read (ascii_bytes "ABCDEF"); Read [x0d]] in
  let discards := (framer_run (mkFramer [x0d] 4 [] false 0) inputs).2 in
  map Reason discards = [DiscardOversize; DiscardResync] /\ map Bytes discards = [6; 7] /\
  length (input_bytes inputs) = 7.
Proof. vm_compute. auto. Qed.

(** Without the bound neither C3 nor C4 holds: the largest [int] is accepted as a
    limit, the sum with an incomplete separator wraps below zero, and the framer
    drops from the first read on. A frame that comes in one read is framed, and
    the same bytes in two are not. *)
Lemma limit_wraps :
  let framer := mkFramer crlf max_int64 [] false 0 in
  let whole := [Read (ascii_bytes "AB" ++ crlf)] in
  let halves := [Read (ascii_bytes "A"); Read (ascii_bytes "B" ++ crlf)] in
  NewFramer crlf max_int64 = Ok framer /\ limit framer = min_int64 /\
  (framer_run framer whole).1.2 = [ascii_bytes "AB"] /\ (framer_run framer halves).1.2 = [] /\
  map Reason (framer_run framer halves).2 = [DiscardOversize; DiscardResync; DiscardOversize].
Proof. cbv zeta. split_and!; vm_compute; reflexivity. Qed.
