(* ===== verification/Queue.v ===== *)
(** * The waiting queue and the status queue: internal/core/queue.go

    [waitingQueue] is the queue between many producers and one consumer, and
    [statusQueue] the one that drops its oldest event to make room. The last
    section interleaves the producers with the consumer. *)
From S2P Require Import Prelude.

(** ** The waiting queue *)

(** [ready] is the channel's one place: whether a wake-up is waiting in it. *)
Record waitingQueue (Item : Type) := mkQueue { items : list Item; closed : bool; ready : bool }.
Arguments mkQueue {Item} _ _ _.
Arguments items {Item} _.
Arguments closed {Item} _.
Arguments ready {Item} _.

Section WaitingQueue.
Context {Item : Type}.
Implicit Types queue : waitingQueue Item.

Definition newWaitingQueue : waitingQueue Item := mkQueue [] false false.

(** A send to a full channel takes the [default] branch. *)
Definition signal queue : waitingQueue Item := mkQueue (items queue) (closed queue) true.

(** [evict] gives an index, or [None] for -1. [None] from the operation is the
    panic of an index that is out of range. *)
Definition pushEvicting queue (item : Item) (evict : option (list Item -> option nat)) :
    option (waitingQueue Item * option Item) :=
  match evict ≫= (fun evict => evict (items queue)) with
  | None => Some (signal (mkQueue (items queue ++ [item]) (closed queue) (ready queue)), None)
  | Some index =>
    match items queue !! index with
    | None => None
    | Some evicted =>
      let kept := take index (items queue) ++ drop (S index) (items queue) in
      Some (signal (mkQueue (kept ++ [item]) (closed queue) (ready queue)), Some evicted)
    end
  end.

Definition push queue (item : Item) : waitingQueue Item :=
  match pushEvicting queue item None with Some (queue', _) => queue' | None => queue end.

Definition close queue : waitingQueue Item := signal (mkQueue (items queue) true (ready queue)).

(** One turn of [wait]'s loop, before the receive: the answer, or [None] to
    receive from [ready] and look again. *)
Definition wait queue : option bool :=
  if 0 <? length (items queue) then Some true
  else if closed queue then Some false
  else None.

Definition pop queue : waitingQueue Item * option Item :=
  match items queue with
  | [] => (queue, None)
  | oldest :: newer => (mkQueue newer (closed queue) (ready queue), Some oldest)
  end.

Lemma push_items queue item : items (push queue item) = items queue ++ [item].
Proof. done. Qed.

Lemma push_closed queue item : closed (push queue item) = closed queue.
Proof. done. Qed.
End WaitingQueue.

#[export] Hint Rewrite @push_items @push_closed : agent.

(** ** The status queue *)

(** Which items are events: [item.event != nil]. *)
Class StatusItem (Item : Type) := is_event : Item -> bool.

Record statusQueue (Item : Type) := mkStatusQueue { waiting : waitingQueue Item; eventLimit : Z }.
Arguments mkStatusQueue {Item} _ _.
Arguments waiting {Item} _.
Arguments eventLimit {Item} _.

Section StatusQueue.
Context `{StatusItem Item}.
Implicit Types (queue : statusQueue Item) (l : list Item).

Definition newStatusQueue (limit : Z) : statusQueue Item := mkStatusQueue newWaitingQueue limit.

Definition events l : list Item := List.filter is_event l.
Definition others l : list Item := List.filter (fun item => negb (is_event item)) l.

(** The closure [push] gives to [pushEvicting]: the loop counts the events and
    notes the first one's index. *)
Fixpoint scan_events (index count : nat) (oldest : option nat) (held : list Item) : nat * option nat :=
  match held with
  | [] => (count, oldest)
  | queued :: held' =>
    if is_event queued
    then scan_events (S index) (S count) (match oldest with None => Some index | _ => oldest end) held'
    else scan_events (S index) count oldest held'
  end.

Definition evict_oldest (limit : Z) (held : list Item) : option nat :=
  let (count, oldest) := scan_events 0 0 None held in
  if (Z.of_nat count <? limit)%Z then None else oldest.

Definition statusQueue_push queue (item : Item) : option (statusQueue Item * option Item) :=
  if negb (is_event item) then Some (mkStatusQueue (push (waiting queue) item) (eventLimit queue), None)
  else match pushEvicting (waiting queue) item (Some (evict_oldest (eventLimit queue))) with
       | None => None
       | Some (waiting', dropped) => Some (mkStatusQueue waiting' (eventLimit queue), dropped)
       end.

Definition held queue : list Item := items (waiting queue).

(** *** What the scan finds *)

Lemma scan_events_spec l index count oldest :
  scan_events index count oldest l =
  (count + length (events l),
   match oldest with Some _ => oldest | None => (fun e => index + e.1) <$> list_find is_event l end).
Proof.
  unfold events. revert index count oldest. induction l as [|x l IH]; intros index count oldest; simpl.
  { rewrite Nat.add_0_r. by destruct oldest. }
  destruct (decide (is_event x)) as [Hx|Hx]; destruct (is_event x); try done; simpl; rewrite IH.
  - f_equal; [lia|]. destruct oldest; [done|]. simpl. f_equal. lia.
  - f_equal. destruct oldest; [done|].
    destruct (list_find _ l) as [[j y]|]; simpl; [f_equal; lia|done].
Qed.

Lemma events_none l : list_find is_event l = None -> events l = [].
Proof.
  unfold events. induction l as [|x l IH]; simpl; [done|].
  case_decide as Hx; [done|]. destruct (list_find _ l) as [[]|]; [done|]. intros _.
  destruct (is_event x); [by destruct Hx|auto].
Qed.

Lemma events_app l m : events (l ++ m) = events l ++ events m.
Proof. apply List.filter_app. Qed.
Lemma others_app l m : others (l ++ m) = others l ++ others m.
Proof. apply List.filter_app. Qed.

Lemma others_no_events l : events l = [] -> others l = l.
Proof.
  unfold events, others. induction l as [|x l IH]; simpl; [done|].
  destruct (is_event x); simpl; [done|]. intros. f_equal. auto.
Qed.

(** The first event of a list, with what is on either side of it. *)
Lemma first_event l j x :
  list_find is_event l = Some (j, x) ->
  l = take j l ++ x :: drop (S j) l /\ l !! j = Some x /\ events (take j l) = [] /\ is_event x = true.
Proof.
  intros (Hj & Hx & Hmin)%list_find_Some. split_and!; [by rewrite take_drop_middle|done| |by destruct (is_event x)].
  unfold events.
  destruct (List.filter is_event (take j l)) as [|y m] eqn:Hf; [done|exfalso].
  assert (Hy : In y (List.filter is_event (take j l))) by (rewrite Hf; by left).
  apply filter_In in Hy as [Hy Hev]. apply list_elem_of_In, list_elem_of_lookup in Hy as [k Hk].
  apply lookup_take_Some in Hk as [Hk ?]. by apply (Hmin k y Hk); [|rewrite Hev].
Qed.

(** *** One push *)

(** A push under the limit keeps every item; at the limit it drops the oldest
    event. It never indexes out of range. *)
Lemma statusQueue_push_spec queue item :
  (0 < eventLimit queue)%Z -> (Z.of_nat (length (events (held queue))) <= eventLimit queue)%Z ->
  exists queue' dropped,
    statusQueue_push queue item = Some (queue', dropped) /\
    eventLimit queue' = eventLimit queue /\ closed (waiting queue') = closed (waiting queue) /\
    ready (waiting queue') = true /\
    option_list dropped ++ events (held queue') = events (held queue ++ [item]) /\
    others (held queue') = others (held queue ++ [item]) /\
    held queue' `sublist_of` held queue ++ [item] /\
    option_list dropped ++ held queue' ≡ₚ held queue ++ [item] /\
    (dropped <> None -> (Z.of_nat (length (events (held queue'))) = eventLimit queue)%Z) /\
    (Z.of_nat (length (events (held queue'))) <= eventLimit queue)%Z.
Proof.
  intros Hlimit Hle. unfold statusQueue_push, held.
  destruct (is_event item) eqn:Hitem; simpl.
  2:{ assert (Hev : events [item] = []) by (unfold events; simpl; by rewrite Hitem).
      eexists _, _. split; [done|]. simpl. rewrite !events_app, Hev, app_nil_r. by split_and!. }
  set (l := items (waiting queue)) in *. unfold held in Hle. fold l in Hle.
  unfold pushEvicting. simpl. fold l. unfold evict_oldest. rewrite scan_events_spec. simpl.
  assert (Hev : events [item] = [item]) by (unfold events; simpl; by rewrite Hitem).
  assert (Hot : others [item] = []) by (unfold others; simpl; by rewrite Hitem).
  destruct (_ <? _)%Z eqn:Hcount.
  - eexists _, _. split; [done|]. simpl. rewrite !events_app, Hev, length_app. simpl. split_and!; try done; lia.
  - destruct (list_find is_event l) as [[j x]|] eqn:Hfind.
    2:{ rewrite (events_none _ Hfind) in Hcount. simpl in Hcount. lia. }
    destruct (first_event _ _ _ Hfind) as (Hl & Hj & Hbefore & Hx). simpl. rewrite Hj.
    eexists _, _. split; [done|]. simpl.
    assert (Hevl : events l = x :: events (drop (S j) l)).
    { rewrite Hl at 1. rewrite events_app, Hbefore. unfold events. simpl. by rewrite Hx. }
    assert (Hotl : others l = take j l ++ others (drop (S j) l)).
    { rewrite Hl at 1. rewrite others_app, (others_no_events (take j l)) by done. unfold others. simpl. by rewrite Hx. }
    rewrite Hevl in Hle, Hcount. simpl in Hle, Hcount.
    rewrite !events_app, !others_app, Hbefore, Hevl, Hev, Hot, Hotl, (others_no_events (take j l)) by done.
    rewrite !length_app. simpl. split_and!; try done; try lia.
    + apply sublist_app; [|done]. rewrite Hl at 3. apply sublist_app; [done|by apply sublist_cons].
    + rewrite Hl at 3. rewrite <-!(assoc_L (++)). simpl. by rewrite (Permutation_middle (take j l)).
Qed.

(** *** Any sequence of pushes and pops *)

Inductive queue_op := Push (item : Item) | Pop.

(** What a history has done: the queue, and the items pushed, taken and dropped,
    each oldest first. *)
Record history := mkHistory { now_held : statusQueue Item; pushed : list Item; taken : list Item; lost : list Item }.

Definition queue_step (h : history) (op : queue_op) : option history :=
  match op with
  | Push item =>
    '(queue', dropped) ← statusQueue_push (now_held h) item;
    Some (mkHistory queue' (pushed h ++ [item]) (taken h) (lost h ++ option_list dropped))
  | Pop =>
    let (waiting', popped) := pop (waiting (now_held h)) in
    Some (mkHistory (mkStatusQueue waiting' (eventLimit (now_held h))) (pushed h) (taken h ++ option_list popped) (lost h))
  end.

Definition queue_run (limit : Z) (ops : list queue_op) : option history :=
  foldl (fun h op => h ≫= fun h => queue_step h op) (Some (mkHistory (newStatusQueue limit) [] [] [])) ops.

Record queue_ok (limit : Z) (h : history) : Prop := {
  ok_limit : eventLimit (now_held h) = limit;
  ok_order : taken h ++ held (now_held h) `sublist_of` pushed h;
  ok_all : lost h ++ taken h ++ held (now_held h) ≡ₚ pushed h;
  ok_others : others (taken h ++ held (now_held h)) = others (pushed h);
  ok_lost : others (lost h) = [];
  ok_bound : (Z.of_nat (length (events (held (now_held h)))) <= limit)%Z;
}.

Lemma queue_step_ok limit h op :
  (0 < limit)%Z -> queue_ok limit h -> exists h', queue_step h op = Some h' /\ queue_ok limit h'.
Proof.
  intros Hlimit [Hl Hord Hall Hoth Hlost Hb]. destruct h as [queue pushed taken lost]. simpl in *.
  destruct op as [item|]; simpl.
  - destruct (statusQueue_push_spec queue item) as (queue' & dropped & Hp & Hl' & _ & _ & Hev & Hot & Hsub & Hperm & _ & Hb');
      [congruence..|].
    rewrite Hp. eexists. split; [done|]. split; simpl; [congruence|..|congruence].
    + etrans; [by apply sublist_app|]. rewrite (assoc_L (++)). by apply sublist_app.
    + rewrite <-Hall, <-!(assoc_L (++)), (Permutation_app_swap_app (option_list dropped)), Hperm.
      by rewrite !(assoc_L (++)).
    + rewrite others_app, Hot, !others_app in *. rewrite (assoc_L (++)), Hoth. done.
    + rewrite others_app, Hlost. simpl. destruct dropped as [d|]; [|done]. simpl.
      assert (Hd : d ∈ events (held queue ++ [item])) by (rewrite <-Hev; set_solver).
      unfold events in Hd. apply list_elem_of_In, filter_In in Hd as [_ Hd]. unfold others. simpl. by rewrite Hd.
  - destruct (pop (waiting queue)) as [waiting' popped] eqn:Hpop. eexists. split; [done|].
    unfold pop in Hpop. unfold held in *. destruct (items (waiting queue)) as [|x l] eqn:Hi; simplify_eq/=.
    + rewrite app_nil_r. split; simpl; unfold held; simpl; rewrite ?Hi; done.
    + split; simpl; try done.
      1-3: by rewrite <-!(assoc_L (++)).
      unfold held. simpl. destruct (is_event x); simpl in Hb; lia.
Qed.

Lemma queue_run_ok limit ops : (0 < limit)%Z -> exists h, queue_run limit ops = Some h /\ queue_ok limit h.
Proof.
  intros Hlimit. unfold queue_run. induction ops as [|op ops IH] using rev_ind.
  - eexists. split; [done|]. split; try done. simpl. lia.
  - rewrite foldl_app. destruct IH as (h & -> & Hok). simpl. by apply queue_step_ok.
Qed.
(** Pushes only. *)
Lemma queue_run_pushes limit pushes :
  (0 < limit)%Z ->
  exists h, queue_run limit (map Push pushes) = Some h /\ eventLimit (now_held h) = limit /\
    lost h ++ events (held (now_held h)) = events pushes /\
    others (held (now_held h)) = others pushes /\
    held (now_held h) `sublist_of` pushes /\
    (Z.of_nat (length (events (held (now_held h)))) <= limit)%Z /\
    (lost h <> [] -> Z.of_nat (length (events (held (now_held h)))) = limit).
Proof.
  intros Hlimit. induction pushes as [|item pushes IH] using rev_ind.
  { eexists. split; [done|]. split_and!; try done. simpl. lia. }
  destruct IH as (h & Hrun & Hl & Hev & Hot & Hsub & Hb & Hfull).
  unfold queue_run in *. rewrite map_app, foldl_app, Hrun. simpl.
  destruct (statusQueue_push_spec (now_held h) item) as
    (queue' & dropped & Hp & Hl' & _ & _ & Hev' & Hot' & Hsub' & _ & Hfull' & Hb'); [congruence..|].
  rewrite Hp. eexists. split; [done|]. simpl. rewrite <-(assoc_L (++)), Hev', !events_app, (assoc_L (++)), Hev.
  rewrite Hot', !others_app, Hot. split_and!; try congruence.
  - etrans; [done|]. by apply sublist_app.
  - destruct dropped as [d|]; [intros; rewrite Hfull' by done; congruence|].
    simpl in Hev' |- *. rewrite app_nil_r. intros Hlost. apply Hfull in Hlost.
    rewrite Hev', events_app, length_app in Hb' |- *. lia.
Qed.
End StatusQueue.

(** ** The consumer and its wake-ups

    [ready] keeps one wake-up. A producer holds [mu] for all of a push or a
    close, so each is one step; the consumer's look at the queue and its receive
    from [ready] are two, and a producer's steps can fall between them. *)

Section Wakeups.
Context {Item : Type}.

(** Where the consumer is in [next]: about to look in [wait], blocked in its
    receive, about to [pop], or returned with nothing. *)
Inductive consumer := Looking | Receiving | Popping | Finished.

Record queue_system := mkSystem { queue_of : waitingQueue Item; at_ : consumer; received : list Item }.

Definition system_start : queue_system := mkSystem newWaitingQueue Looking [].

(** A step of a producer, with the push or the eviction it made, or of the one
    that closes the queue. *)
Inductive producer_step : queue_system -> queue_system -> Prop :=
  | step_push s item evict queue' evicted :
      pushEvicting (queue_of s) item evict = Some (queue', evicted) ->
      producer_step s (mkSystem queue' (at_ s) (received s))
  | step_close s : producer_step s (mkSystem (close (queue_of s)) (at_ s) (received s)).

(** A step of the consumer. *)
Definition consumer_step (s : queue_system) : option queue_system :=
  match at_ s with
  | Looking =>
    Some (mkSystem (queue_of s)
            (match wait (queue_of s) with Some true => Popping | Some false => Finished | None => Receiving end)
            (received s))
  | Receiving =>
    if ready (queue_of s)
    then Some (mkSystem (mkQueue (items (queue_of s)) (closed (queue_of s)) false) Looking (received s))
    else None
  | Popping =>
    let (queue', popped) := pop (queue_of s) in
    Some (mkSystem queue' Looking (received s ++ option_list popped))
  | Finished => None
  end.

Definition system_step (s s' : queue_system) : Prop := producer_step s s' \/ consumer_step s = Some s'.

(** The consumer is blocked only when there is nothing to do, or a wake-up is
    waiting for it. *)
Definition wakeup_kept (s : queue_system) : Prop :=
  at_ s = Receiving -> items (queue_of s) <> [] \/ closed (queue_of s) = true -> ready (queue_of s) = true.

Lemma wakeup_kept_step s s' : wakeup_kept s -> system_step s s' -> wakeup_kept s'.
Proof.
  unfold wakeup_kept. intros Hs [Hp|Hc].
  - inversion Hp as [? ? evict queue' ? Hpush|]; subst; simpl; [|done].
    unfold pushEvicting in Hpush. split_match.
  - unfold consumer_step in Hc. destruct s as [queue at_ got]. simpl in *.
    destruct at_; simplify_eq/=; try done.
    + unfold wait. destruct (items queue), (closed queue); simpl; try done. intros _ [?|?]; done.
    + by destruct (ready queue); simplify_eq/=.
    + destruct (pop queue). by simplify_eq/=.
Qed.

Lemma wakeup_kept_reachable s : rtc system_step system_start s -> wakeup_kept s.
Proof.
  intros Hr. assert (Hstart : wakeup_kept system_start) by done. revert Hstart.
  induction Hr as [|? ? ? Hstep _ IH]; [done|]. intros. eapply IH, wakeup_kept_step; eauto.
Qed.

(** The consumer's steps alone, until it takes an item or returns. *)
Fixpoint consumer_steps (n : nat) (s : queue_system) : option queue_system :=
  match n with 0 => Some s | S n' => consumer_step s ≫= consumer_steps n' end.
End Wakeups.

(** ** Properties *)

(** C19: during an outage, when nothing is taken, a device's status queue keeps
    every tx result and the most recent events, in the order they were pushed:
    pushed any number of messages, it holds all the other messages and exactly
    the last [limit] events, and it never indexes out of range. *)
Theorem status_queue_outage `{StatusItem Item} (limit : Z) (pushes : list Item) :
  (0 < limit)%Z ->
  exists h, queue_run limit (map Push pushes) = Some h /\
    events (held (now_held h)) = lastn (Z.to_nat limit) (events pushes) /\
    others (held (now_held h)) = others pushes /\
    held (now_held h) `sublist_of` pushes /\
    lost h ++ events (held (now_held h)) = events pushes.
Proof.
  intros Hlimit. destruct (queue_run_pushes limit pushes Hlimit) as (h & Hrun & _ & Hev & Hot & Hsub & Hb & Hfull).
  exists h. split_and!; try done. rewrite <-Hev. destruct (decide (lost h = [])) as [->|Hlost].
  - simpl. rewrite lastn_all; [done|lia].
  - unfold lastn. rewrite length_app, drop_app_ge by (specialize (Hfull Hlost); lia).
    replace (_ - _ - _) with 0 by (specialize (Hfull Hlost); lia). done.
Qed.

(** Whatever is pushed and taken, and in whatever order, a device's status
    queue loses events only: every message pushed was taken, is held, or is an
    event that was dropped for room; what was taken and what is held are in
    the order of the pushes; and at most [limit] events are held. *)
Theorem status_queue_accounts `{StatusItem Item} (limit : Z) (ops : list queue_op) :
  (0 < limit)%Z ->
  exists h, queue_run limit ops = Some h /\
    lost h ++ taken h ++ held (now_held h) ≡ₚ pushed h /\
    taken h ++ held (now_held h) `sublist_of` pushed h /\
    others (taken h ++ held (now_held h)) = others (pushed h) /\
    others (lost h) = [] /\
    (Z.of_nat (length (events (held (now_held h)))) <= limit)%Z.
Proof.
  intros Hlimit. destruct (queue_run_ok limit ops Hlimit) as (h & Hrun & []). eauto 10.
Qed.

(** C20: no wake-up is lost. Whatever the producers and the consumer did before,
    a consumer of a queue that holds an item takes the oldest one within four
    of its own steps, and one of a queue that is closed and empty returns
    within three. *)
Theorem consumer_woken {Item} (s : queue_system (Item := Item)) :
  rtc system_step system_start s -> at_ s <> Finished ->
  (forall oldest newer, items (queue_of s) = oldest :: newer ->
    exists n s', n <= 4 /\ consumer_steps n s = Some s' /\
      received s' = received s ++ [oldest] /\ items (queue_of s') = newer) /\
  (items (queue_of s) = [] -> closed (queue_of s) = true ->
    exists n s', n <= 3 /\ consumer_steps n s = Some s' /\ at_ s' = Finished /\ received s' = received s).
Proof.
  intros Hr Hat. pose proof (wakeup_kept_reachable s Hr) as Hkept. destruct s as [[queue closed ready] at_ got].
  unfold wakeup_kept in Hkept. simpl in *. split.
  - intros oldest newer ->. destruct at_; try done.
    + exists 2. eexists. split; [lia|done].
    + rewrite Hkept by auto. exists 3. eexists. split; [lia|done].
    + exists 1. eexists. split; [lia|done].
  - intros -> ->. destruct at_; try done.
    + exists 1. eexists. split; [lia|done].
    + rewrite Hkept by auto. exists 2. eexists. split; [lia|done].
    + exists 2. eexists. split; [lia|]. simpl. by rewrite app_nil_r.
Qed.

(** ** Witnesses *)

(** Numbered messages, and whether each is an event. *)
Definition tagged : StatusItem (bool * nat) := fst.

Lemma status_queue_outage_witness :
  (0 < 2)%Z /\
  exists h, queue_run (H := tagged) 2 (map Push [(true, 0); (false, 1); (true, 2); (true, 3)]) = Some h /\
    events (H := tagged) (held (now_held h)) = [(true, 2); (true, 3)] /\
    others (H := tagged) (held (now_held h)) = [(false, 1)].
Proof.
  split; [lia|].
  destruct (status_queue_outage (H := tagged) 2 [(true, 0); (false, 1); (true, 2); (true, 3)] ltac:(lia))
    as (h & Hrun & Hev & Hot & _).
  exists h. by rewrite Hev, Hot.
Defined.

Lemma status_queue_accounts_witness :
  (0 < 1)%Z /\
  exists h, queue_run (H := tagged) 1 [Push (true, 0); Pop; Push (true, 1); Push (true, 2)] = Some h /\
    lost h ++ taken h ++ held (now_held h) ≡ₚ pushed h /\ lost h = [(true, 1)].
Proof.
  split; [lia|].
  destruct (status_queue_accounts (H := tagged) 1 [Push (true, 0); Pop; Push (true, 1); Push (true, 2)] ltac:(lia))
    as (h & Hrun & Hall & _).
  exists h. split_and!; try done. vm_compute in Hrun. injection Hrun as <-. reflexivity.
Defined.

Lemma consumer_woken_witness :
  exists s : queue_system (Item := nat),
    at_ s = Receiving /\ items (queue_of s) = [7] /\
    exists n s', n <= 4 /\ consumer_steps n s = Some s' /\ received s' = [7].
Proof.
  exists (mkSystem (mkQueue [7] false true) Receiving []). split_and!; try done.
  destruct (consumer_woken (mkSystem (mkQueue [7] false true) Receiving [])) as [Hitem _].
  - eapply rtc_l; [right; reflexivity|]. eapply rtc_l; [|apply rtc_refl].
    left. exact (step_push (mkSystem newWaitingQueue Receiving []) 7 None (mkQueue [7] false true) None eq_refl).
  - discriminate.
  - destruct (Hitem 7 [] eq_refl) as (n & s' & ? & ? & ? & ?). by exists n, s'.
Defined.
