(* ===== verification/Backoff.v ===== *)
(** * The wait between attempts: internal/backoff/backoff.go

    The jitter is a [float64] (Float.v). *)
From S2P Require Import Prelude GoLib Float FloatError.
From Stdlib Require Import Floats.SpecFloat QArith Qabs Lqa.
#[local] Open Scope Z_scope.

(** ** The policy *)

Record Policy := mkPolicy { Interval : duration; Grow : bool; Max : duration; Jitter : float64 }.

Inductive policy_problem :=
  | IntervalNotPositive (interval : duration)
  | MaxUnderInterval (max interval : duration)
  | JitterOutOfRange (jitter : float64).

(** [Validate]: the problems its error lists, none when it returns [nil]. *)
Definition Validate (policy : Policy) : list policy_problem :=
  (if Interval policy <=? 0 then [IntervalNotPositive (Interval policy)] else []) ++
  (if Grow policy then
     (if Max policy <? Interval policy then [MaxUnderInterval (Max policy) (Interval policy)] else []) ++
     (if SFltb (Jitter policy) float_zero || SFltb float_one (Jitter policy) then [JitterOutOfRange (Jitter policy)] else [])
   else []).

(** The loop of [Wait], from [doubled] = [retry - turns]. *)
Fixpoint double_up (turns : nat) (wait max : duration) : duration :=
  match turns with
  | O => wait
  | S turns' => if wait <? max then double_up turns' (int64 (wait * 2)) max else wait
  end.

(** [rand.Float64()]'s value is [random]. *)
Definition Wait (policy : Policy) (random : float64) (retry : Z) : option duration :=
  if negb (Grow policy) then Some (Interval policy)
  else
    let wait := Z.min (double_up (Z.to_nat (retry - 1)) (Interval policy) (Max policy)) (Max policy) in
    if SFleb (Jitter policy) float_zero then Some wait
    else
      let spread := float_mul (float_of_Z wait) (Jitter policy) in
      Z_of_float (float_add (float_sub (float_of_Z wait) spread)
                            (float_mul (float_mul random (float_of_Z 2)) spread)).

(** 0.3, as Go reads it, half of it, and one wait of each side. *)
Definition third : float64 := S754_finite false 5404319552844595 (-54).
Definition half : float64 := S754_finite false 4503599627370496 (-53).

Example Wait_examples :
  let policy := mkPolicy Second true (30 * Second) third in
  Wait policy half 1 = Some Second /\ Wait policy half 4 = Some (8 * Second) /\
  Wait policy half 6 = Some (30 * Second) /\ Wait policy half 1000 = Some (30 * Second) /\
  Wait policy float_zero 1 = Some 700000000 /\
  Wait policy float_zero 2 = Some 1400000000.
Proof. vm_compute. auto 10. Qed.

(** ** Lemmas *)

Lemma double_up_spec turns wait max :
  0 < wait -> max <= 2 ^ 62 -> wait <= max ->
  Z.min (double_up turns wait max) max = Z.min (wait * 2 ^ Z.of_nat turns) max.
Proof.
  revert wait. induction turns as [|turns IH]; intros wait Hpos Hmax Hle; cbn [double_up].
  { by rewrite Z.mul_1_r. }
  destruct (wait <? max) eqn:Hlt.
  - rewrite Nat2Z.inj_succ, Z.pow_succ_r by lia.
    rewrite int64_id by (unfold in_int64, min_int64, max_int64; lia).
    replace (wait * (2 * 2 ^ Z.of_nat turns)) with (wait * 2 * 2 ^ Z.of_nat turns) by lia.
    destruct (Z.le_gt_cases (wait * 2) max) as [Hd|Hd]; [apply IH; lia|].
    pose proof (Z.pow_pos_nonneg 2 (Z.of_nat turns) ltac:(lia) ltac:(lia)).
    rewrite (Z.min_r (wait * 2 * _)) by nia.
    destruct turns; cbn [double_up]; [lia|]. destruct (wait * 2 <? max) eqn:?; lia.
  - pose proof (Z.pow_pos_nonneg 2 (Z.of_nat (S turns)) ltac:(lia) ltac:(lia)). nia.
Qed.

(** A jitter that is not a number passes, because neither comparison holds of
    it; every wait that grows is then not a number either. *)
Lemma validate_accepts_nan :
  let policy := mkPolicy Second true (30 * Second) S754_nan in
  Validate policy = [] /\ (forall random retry, Wait policy random retry = None).
Proof.
  split; [reflexivity|]. intros random retry. unfold Wait. simpl.
  generalize (Z.min (double_up (Z.to_nat (retry - 1)) Second (30 * Second)) (30 * Second)). intros wait.
  assert (Hm : forall f, float_mul f S754_nan = S754_nan) by by intros [].
  assert (Hs : forall f, float_sub f S754_nan = S754_nan) by by intros [].
  by rewrite Hm, Hs.
Qed.

(** The wait before it is spread. *)
Lemma wait_base policy retry :
  Validate policy = [] -> Grow policy = true -> Max policy <= 2 ^ 62 -> 1 <= retry ->
  Z.min (double_up (Z.to_nat (retry - 1)) (Interval policy) (Max policy)) (Max policy) = Z.min (Interval policy * 2 ^ (retry - 1)) (Max policy) /\
  0 < Interval policy <= Max policy.
Proof.
  intros Hvalid Hgrow Hmax Hretry. unfold Validate in Hvalid. rewrite Hgrow in Hvalid.
  destruct (Interval policy <=? 0) eqn:?, (Max policy <? Interval policy) eqn:?; simpl in Hvalid; try done.
  split; [|lia]. rewrite double_up_spec by lia. by rewrite Z2Nat.id by lia.
Qed.

(** The spread in exact arithmetic, from the errors of each operation: of the
    product [s] of the wait and the jitter, of the difference [d], of twice the
    random number [t2], of its product [t] with the spread, and of the sum. *)
Lemma spread_within (W J R s d t2 t x z : Q) :
  (0 <= W <= 281474976710656 -> 0 <= J <= 1 -> 0 <= R <= 1 -> 0 <= s <= W ->
   Qabs (s - W * J) <= ulp * (W * J) -> Qabs (d - (W - s)) <= ulp * (W - s) -> Qabs (t2 - R * 2) <= ulp * (R * 2) ->
   Qabs (t - t2 * s) <= ulp * (t2 * s) -> Qabs (x - (d + t)) <= ulp * (d + t) -> z <= x < z + 1 ->
   Qabs (z - W) <= J * W + 2)%Q.
Proof.
  intros [HW0 HW] [HJ0 HJ] [HR0 HR] [Hs0 Hs] H1%Qabs_Qle_condition H2%Qabs_Qle_condition H3%Qabs_Qle_condition H4%Qabs_Qle_condition H5%Qabs_Qle_condition [Hz Hz'].
  assert (HA : (0 <= W * J <= W)%Q) by (split; nra). assert (HC : (0 <= R * s <= s)%Q) by (split; nra).
  assert (HB : (- (ulp * (2 * (R * s))) <= t2 * s - 2 * (R * s) <= ulp * (2 * (R * s)))%Q).
  { destruct H3 as [H3a H3b]. split; [apply (Qmult_le_compat_r _ _ s) in H3a; [lra|done]|apply (Qmult_le_compat_r _ _ s) in H3b; [lra|done]]. }
  rewrite (Qmult_comm J W). set (A := (W * J)%Q) in *. set (B := (t2 * s)%Q) in *. set (C := (R * s)%Q) in *. clearbody A B C. unfold ulp in *.
  apply Qabs_Qle_condition. split; lra.
Qed.

(** ** Properties *)

(** C15: a wait that grows is its interval, doubled after each retry since the
    last success and never over the maximum, spread by at most the jitter's
    fraction of it either way: the binary64 arithmetic adds two nanoseconds at
    most to that for any maximum below three days. It is never negative, and
    always a whole number of nanoseconds. *)
Theorem wait_spread policy random retry :
  Validate policy = [] -> Grow policy = true -> Max policy <= 2 ^ 48 -> 1 <= retry ->
  moderate (-400) 1 (Jitter policy) -> moderate (-105) 1 random ->
  let base := Z.min (Interval policy * 2 ^ (retry - 1)) (Max policy) in
  exists wait, Wait policy random retry = Some wait /\ 0 <= wait /\
    (Qabs (inject_Z wait - inject_Z base) <= fval (Jitter policy) * inject_Z base + 2)%Q.
Proof.
  intros Hvalid Hgrow Hmax Hretry Hjitter Hrandom base. destruct (wait_base policy retry Hvalid Hgrow ltac:(lia) Hretry) as [Hbase Hpos].
  unfold Wait. rewrite Hgrow. cbn [negb]. rewrite Hbase. fold base.
  assert (Hb : 0 < base <= 2 ^ 48) by (unfold base; assert (0 < 2 ^ (retry - 1)) by lia; nia). clearbody base. clear Hbase.
  pose proof (moderate_value _ _ _ Hjitter ltac:(done)) as HJ. pose proof (moderate_value _ _ _ Hrandom ltac:(done)) as HR.
  destruct (float_of_Z_value base ltac:(lia)) as [HbW HvW]. destruct (float_of_Z_value 2 ltac:(done)) as [Hb2 Hv2].
  destruct Hjitter as [[sign Hzero]|Hjitter].
  { rewrite Hzero. cbn [SFleb SFcompare float_zero]. exists base. split; [done|]. split; [lia|]. cbn [fval]. apply Qabs_Qle_condition. split; lra. }
  assert (Hle : SFleb (Jitter policy) float_zero = false) by (by destruct Hjitter as (p & e & -> & _)). rewrite Hle.
  destruct (float_mul_error _ _ _ _ _ _ HbW (or_intror Hjitter)) as [Hbs Hs]; [lia..|]. rewrite Z.mul_1_r in Hbs.
  set (s := float_mul (float_of_Z base) (Jitter policy)) in *. pose proof (moderate_value _ _ _ Hbs ltac:(lia)) as Hsr.
  destruct (float_sub_error (-452) base (float_of_Z base) s) as [Hbd Hd]; [by eapply moderate_weaken; [exact HbW|lia..]|by eapply moderate_weaken; [exact Hbs|lia..]|rewrite HvW; apply Hsr|lia..|].
  destruct (float_mul_error _ _ _ _ _ _ Hrandom Hb2) as [Hbt2 Ht2]; [lia..|]. set (t2 := float_mul random (float_of_Z 2)) in *.
  destruct (float_mul_error _ _ _ _ _ _ Hbt2 Hbs) as [Hbt Ht]; [lia..|]. set (t := float_mul t2 s) in *. set (d := float_sub (float_of_Z base) s) in *.
  destruct (float_add_error (-609) base (2 * base) d t) as [Hbx Hx]; [by eapply moderate_weaken; [exact Hbd|lia..]|by eapply moderate_weaken; [exact Hbt|lia..]|lia..|].
  destruct (Z_of_float_value _ _ _ Hbx) as (z & -> & Hz); [unfold max_int64; lia|]. set (x := float_add d t) in *.
  exists z. split; [done|]. split.
  { destruct (moderate_value _ _ _ Hbx ltac:(lia)) as [Hx0 _]. assert (Hlt : (inject_Z 0 < inject_Z z + inject_Z 1)%Q) by (change (inject_Z 1) with 1%Q; change (inject_Z 0) with 0%Q; lra).
    rewrite <-inject_Z_plus, <-Zlt_Qlt in Hlt. lia. }
  rewrite HvW in Hs, Hd. rewrite Hv2 in Ht2.
  apply (spread_within (inject_Z base) (fval (Jitter policy)) (fval random) (fval s) (fval d) (fval t2) (fval t) (fval x)); try done.
  split; [change 0%Q with (inject_Z 0)|change 281474976710656%Q with (inject_Z 281474976710656)]; rewrite <-Zle_Qle; lia.
Qed.

(** Waits of 8 seconds and 30 % of it either way. *)
Lemma wait_spread_witness :
  exists wait, Wait (mkPolicy Second true (30 * Second) third) half 4 = Some wait /\ 0 <= wait /\
    (Qabs (inject_Z wait - inject_Z (8 * Second)) <= fval third * inject_Z (8 * Second) + 2)%Q.
Proof.
  apply (wait_spread (mkPolicy Second true (30 * Second) third) half 4).
  - reflexivity.
  - reflexivity.
  - vm_compute. discriminate.
  - lia.
  - right. exists 5404319552844595%positive, (-54). split; [reflexivity|]. split; [lia|]. vm_compute. split; discriminate.
  - right. exists 4503599627370496%positive, (-53). split; [reflexivity|]. split; [lia|]. vm_compute. split; discriminate.
Defined.

(** A valid policy without jitter waits its interval, doubled after each
    retry since the last success and never over the maximum, and does not
    overflow on the way; one that does not grow waits its interval exactly. *)
Theorem wait_doubles policy random retry :
  Validate policy = [] -> 1 <= retry ->
  (Grow policy = false -> Wait policy random retry = Some (Interval policy)) /\
  (Grow policy = true -> SFleb (Jitter policy) float_zero = true -> Max policy <= 2 ^ 62 ->
   Wait policy random retry = Some (Z.min (Interval policy * 2 ^ (retry - 1)) (Max policy))).
Proof.
  intros Hvalid Hretry. split; [unfold Wait; by intros ->|]. intros Hgrow Hjitter Hmax.
  destruct (wait_base policy retry Hvalid Hgrow Hmax Hretry) as [Hbase _]. unfold Wait. by rewrite Hgrow, Hjitter, Hbase.
Qed.

Lemma wait_doubles_witness :
  let policy := mkPolicy Second true (30 * Second) float_zero in
  Validate policy = [] /\ Wait policy float_zero 3 = Some (4 * Second).
Proof.
  split; [reflexivity|].
  destruct (wait_doubles (mkPolicy Second true (30 * Second) float_zero) float_zero 3 eq_refl ltac:(lia)) as [_ H].
  exact (H eq_refl eq_refl ltac:(vm_compute; discriminate)).
Defined.
