(* ===== verification/Device.v ===== *)
(** * What the core needs of a device: internal/device/device.go

    The errors a port gives, the events a reader reports, the frames it sends,
    and the interface of a device that can be written. *)
From S2P Require Import Prelude GoLib Wire.
#[local] Open Scope string_scope.

(** ** Errors *)

(** [syscall.Errno], with the numbers the code tells apart. *)
Inductive errno := EIO | ENODEV | ENXIO | ENOENT | EACCES | EPERM | EROFS | EBUSY | OtherErrno (number : Z) (text : string).

#[global] Instance errno_eq_dec : EqDecision errno.
Proof. solve_decision. Defined.

Definition errno_text (e : errno) : string :=
  match e with
  | EIO => "input/output error"
  | ENODEV => "no such device"
  | ENXIO => "no such device or address"
  | ENOENT => "no such file or directory"
  | EACCES => "permission denied"
  | EPERM => "operation not permitted"
  | EROFS => "read-only file system"
  | EBUSY => "device or resource busy"
  | OtherErrno _ text => text
  end.

(** The codes of the serial library's [PortError] the code tells apart. *)
Inductive port_code := PortClosedCode | PortNotFound | PermissionDenied | PortBusy | OtherPortCode (code : Z).

Inductive context_error := Canceled | DeadlineExceeded.

#[global] Instance context_error_eq_dec : EqDecision context_error.
Proof. solve_decision. Defined.

(** An error value, with what it wraps. [Wrapped] is [fmt.Errorf]'s with [%w] at
    the end; [LibraryError] is the serial library's, with the error it unwraps
    to when it has one; [PortError] is this package's. *)
Inductive error :=
  | ErrNotOpen
  | ContextError (e : context_error)
  | Errno (e : errno)
  | LibraryError (code : port_code) (text : string) (cause : option error)
  | PortError (class : ErrorClass) (err : error)
  | Wrapped (prefix : string) (err : error)
  | TextError (text : string).

(** [err.Error()]. *)
Fixpoint Error (err : error) : string :=
  match err with
  | ErrNotOpen => "the port is not open"
  | ContextError Canceled => "context canceled"
  | ContextError DeadlineExceeded => "context deadline exceeded"
  | Errno e => errno_text e
  | LibraryError _ text _ => text
  | PortError _ err => Error err
  | Wrapped prefix err => prefix +:+ Error err
  | TextError text => text
  end.

(** The errors of a chain: the error, and what it unwraps to. *)
Fixpoint chain (err : error) : list error :=
  err :: match err with
         | LibraryError _ _ (Some cause) => chain cause
         | PortError _ err | Wrapped _ err => chain err
         | _ => []
         end.

(** [errors.Is] for the values the code asks about, and [errors.As]. *)
Definition is_ErrNotOpen (err : error) : bool := existsb (fun e => match e with ErrNotOpen => true | _ => false end) (chain err).
Definition is_errno (number : errno) (err : error) : bool :=
  existsb (fun e => match e with Errno n => bool_decide (n = number) | _ => false end) (chain err).
Definition is_context (ended : context_error) (err : error) : bool :=
  existsb (fun e => match e with ContextError c => bool_decide (c = ended) | _ => false end) (chain err).
Definition as_library_error (err : error) : option port_code :=
  head (omap (fun e => match e with LibraryError code _ _ => Some code | _ => None end) (chain err)).
Definition as_port_error (err : error) : option ErrorClass :=
  head (omap (fun e => match e with PortError class _ => Some class | _ => None end) (chain err)).

(** ** Events and frames *)

(** [OtherEvent] is any string that is none of the constants. *)
Inductive EventKind := PortOpened | PortClosed | PortLost | PortOpenFailed | BytesDiscarded | BytesRead | OtherEvent (kind : string).

#[global] Instance EventKind_eq_dec : EqDecision EventKind.
Proof. solve_decision. Defined.

Definition EventKind_text (kind : EventKind) : string :=
  match kind with
  | PortOpened => "opened" | PortClosed => "closed" | PortLost => "lost" | PortOpenFailed => "open_failed"
  | BytesDiscarded => "discarded" | BytesRead => "read" | OtherEvent kind => kind
  end.

Record Event := mkPortEvent {
  DeviceID : string; Kind : EventKind; At : time;
  EvErrorClass : ErrorClass; EvErr : option error; EvReason : DiscardReason; EvBytes : Z;
}.

(** [Event.ErrorText]. *)
Definition ErrorText (event : Event) : string := match EvErr event with None => "" | Some err => Error err end.

Record Frame := mkFrame { FrameDeviceID : string; Raw : bytes; FrameAt : time }.

(** ** A device that can be written *)

(** What [Writer.Write] promises of one call, given the data: the bytes the port
    accepted, the totals [progress] was called with, the count returned and the
    error. Errors are a type of the writer's. *)
Record write_outcome := mkWriteOutcome {
  wo_accepted : bytes; wo_progress : list nat; wo_written : nat; wo_error : option error;
}.

(** The totals after [total], each over the one before. *)
Fixpoint increasing (total : nat) (totals : list nat) : Prop :=
  match totals with
  | [] => True
  | next :: totals' => total < next /\ increasing next totals'
  end.

Class WriterContract (write : bytes -> write_outcome) : Prop := {
  (** what reached the port is the first bytes of the data, in order *)
  writes_prefix data : wo_accepted (write data) = take (wo_written (write data)) data;
  writes_at_most data : wo_written (write data) <= length data;
  (** no error means all of it *)
  writes_all data : wo_error (write data) = None -> wo_written (write data) = length data;
  (** the totals reported grow, and the last is the count returned *)
  writes_progress data : increasing 0 (wo_progress (write data)) /\
    default 0 (last (wo_progress (write data))) = wo_written (write data);
}.
