(* ===== verification/Port.v ===== *)
(** * Writing through a port: the write side of internal/device/serial/serial.go

    [sharedPort]'s write, chunk by chunk, over an operating system that accepts
    what it likes of each call; [Device.Write] and the classes of its errors;
    and the lock that keeps a write from reaching a closed port. *)
From S2P Require Import Prelude GoLib Wire Device.

(** ** The classes of errors *)

Definition classify (err : error) : ErrorClass :=
  if is_errno EIO err || is_errno ENODEV err || is_errno ENXIO err then ErrorDisconnected
  else if is_errno ENOENT err then ErrorAbsent
  else if is_errno EACCES err || is_errno EPERM err then ErrorPermissionDenied
  else if is_errno EROFS err then ErrorReadOnly
  else if is_errno EBUSY err then ErrorBusy
  else match as_library_error err with
       | Some PortClosedCode => ErrorDisconnected
       | Some PortNotFound => ErrorAbsent
       | Some PermissionDenied => ErrorPermissionDenied
       | Some PortBusy => ErrorBusy
       | Some (OtherPortCode _) => ErrorPortError
       | None => ErrorUnknown
       end.

(** ** [sharedPort] *)

(** One call of the library's [Write]: the chunk it belongs to, what was offered,
    and what was accepted. *)
Record port_call := mkCall { in_chunk : nat; offered : bytes; accepted : nat }.

Definition noBytesAccepted : error := TextError "the port accepted no bytes"%string.

Section SharedPort.
(** What the library's [Write] answers to its [n]th call; whether the port was
    closed when the [n]th chunk took the lock; and [ctx.Err()] before it. *)
Context (port_write : nat -> bytes -> nat * option error) (closed_at : nat -> bool) (ctx_err : nat -> option context_error).
Context (chunkBytes : nat).

(** The loop of [writeChunk]. [None] is out of fuel. *)
Fixpoint chunk_loop (fuel : nat) (k : nat) (calls : list port_call) (chunk : bytes) (written : nat) :
    option (list port_call * nat * option error) :=
  match fuel with
  | 0 => None
  | S fuel' =>
    if written <? length chunk then
      let rest := drop written chunk in
      let (n, err) := port_write (length calls) rest in
      let calls := calls ++ [mkCall k rest n] in
      let written := written + n in
      match err with
      | Some err => Some (calls, written, Some err)
      | None => if n =? 0 then Some (calls, written, Some noBytesAccepted) else chunk_loop fuel' k calls chunk written
      end
    else Some (calls, written, None)
  end.

Definition writeChunk (k : nat) (calls : list port_call) (chunk : bytes) : option (list port_call * nat * option error) :=
  if closed_at k then Some (calls, 0, Some ErrNotOpen) else chunk_loop (S (length chunk)) k calls chunk 0.

(** The loop of [sharedPort.write], from chunk [k]: the calls made, the totals
    given to [progress], the count and the error. *)
Fixpoint write_loop (fuel : nat) (k : nat) (calls : list port_call) (progress : list nat) (data : bytes) (written : nat) :
    option (list port_call * list nat * nat * option error) :=
  match fuel with
  | 0 => None
  | S fuel' =>
    if written <? length data then
      match ctx_err k with
      | Some err => Some (calls, progress, written, Some (ContextError err))
      | None =>
        let end_ := Nat.min (written + chunkBytes) (length data) in
        match writeChunk k calls (take (end_ - written) (drop written data)) with
        | None => None
        | Some (calls, chunkWritten, err) =>
          let written := written + chunkWritten in
          let progress := if 0 <? chunkWritten then progress ++ [written] else progress in
          match err with
          | Some err => Some (calls, progress, written, Some err)
          | None => write_loop fuel' (S k) calls progress data written
          end
        end
      end
    else Some (calls, progress, written, None)
  end.

Definition shared_write (data : bytes) : option (list port_call * list nat * nat * option error) :=
  write_loop (S (length data)) 0 [] [] data 0.

(** What the operating system accepted, in order. *)
Definition accepted_bytes (calls : list port_call) : bytes :=
  concat (map (fun c => take (accepted c) (offered c)) calls).

(** *** What a write does *)

(** [Write] of an io.Writer: 0 <= n <= len(p). *)
Context (Hport : forall n data, (port_write n data).1 <= length data).

Lemma accepted_bytes_app calls calls' : accepted_bytes (calls ++ calls') = accepted_bytes calls ++ accepted_bytes calls'.
Proof. unfold accepted_bytes. by rewrite map_app, concat_app. Qed.

(** A call that the port was given while it was writing chunk [k]. *)
Definition call_ok (k : nat) (chunk : bytes) (c : port_call) : Prop :=
  in_chunk c = k /\ length (offered c) <= length chunk /\ accepted c <= length (offered c).

Lemma chunk_loop_spec fuel k calls chunk written :
  written <= length chunk -> length chunk - written < fuel ->
  exists made n err, chunk_loop fuel k calls chunk written = Some (calls ++ made, written + n, err) /\
    accepted_bytes made = take n (drop written chunk) /\ written + n <= length chunk /\
    (err = None -> written + n = length chunk) /\ Forall (call_ok k chunk) made.
Proof using Hport.
  revert calls written. induction fuel as [|fuel IH]; intros calls written Hle Hfuel; [lia|]. simpl.
  destruct (written <? length chunk) eqn:Hlt.
  2:{ exists [], 0, None. rewrite app_nil_r, Nat.add_0_r. split_and!; try done. intros _. lia. }
  pose proof (Hport (length calls) (drop written chunk)) as Hn.
  destruct (port_write (length calls) (drop written chunk)) as [n err]. simpl in Hn. rewrite length_drop in Hn.
  set (call := mkCall k (drop written chunk) n).
  assert (Hok : call_ok k chunk call) by (split_and!; simpl; rewrite ?length_drop; lia).
  assert (Hacc : accepted_bytes [call] = take n (drop written chunk)) by (unfold accepted_bytes; simpl; apply app_nil_r).
  destruct err as [err|]; [exists [call], n, (Some err); split_and!; try done; simpl; auto; lia|].
  destruct (n =? 0) eqn:Hz; [exists [call], n, (Some noBytesAccepted); split_and!; try done; simpl; auto; lia|].
  destruct (IH (calls ++ [call]) (written + n)) as (made & m & err & Hrun & Hbytes & Hbound & Hall & Hcalls); [lia..|].
  exists (call :: made), (n + m), err. rewrite Hrun, <-(assoc_L (++)), Nat.add_assoc. split_and!; try done; [|by constructor].
  change (call :: made) with ([call] ++ made). rewrite accepted_bytes_app, Hacc, Hbytes, <-drop_drop, <-take_take_drop. done.
Qed.

Lemma chunk_loop_writes fuel k calls chunk :
  chunk <> [] -> length chunk < fuel ->
  exists made n err, chunk_loop fuel k calls chunk 0 = Some (calls ++ made, n, err) /\
    accepted_bytes made = take n chunk /\ n <= length chunk /\ (err = None -> n = length chunk /\ 0 < n) /\
    Forall (call_ok k chunk) made.
Proof using Hport.
  intros Hchunk Hfuel. destruct (chunk_loop_spec fuel k calls chunk 0) as (made & n & err & H); [lia..|].
  exists made, n, err. simpl in H. destruct H as (? & ? & ? & Hall & ?). split_and!; try done.
  intros He. specialize (Hall He). destruct chunk; [done|simpl in *; lia].
Qed.

Context (Hchunk : 0 < chunkBytes).

(** A call of a chunk from the [k]th on, made while the port was open and the
    context had not ended. *)
Definition write_call_ok (k : nat) (c : port_call) : Prop :=
  k <= in_chunk c /\ closed_at (in_chunk c) = false /\ ctx_err (in_chunk c) = None /\ length (offered c) <= chunkBytes.

Lemma write_loop_spec fuel k calls progress data written :
  written <= length data -> length data - written < fuel ->
  exists made totals n err,
    write_loop fuel k calls progress data written = Some (calls ++ made, progress ++ totals, written + n, err) /\
    accepted_bytes made = take n (drop written data) /\ written + n <= length data /\
    (err = None -> written + n = length data) /\
    increasing written totals /\ default written (last totals) = written + n /\
    Forall (write_call_ok k) made.
Proof using Hport Hchunk.
  revert k calls progress written. induction fuel as [|fuel IH]; intros k calls progress written Hle Hfuel; [lia|]. simpl.
  destruct (written <? length data) eqn:Hlt.
  2:{ exists [], [], 0, None. rewrite !app_nil_r, Nat.add_0_r. split_and!; try done. intros _. lia. }
  destruct (ctx_err k) as [ended|] eqn:Hctx.
  { exists [], [], 0, (Some (ContextError ended)). rewrite !app_nil_r, Nat.add_0_r. by split_and!. }
  unfold writeChunk. destruct (closed_at k) eqn:Hclosed.
  { exists [], [], 0, (Some ErrNotOpen). simpl. rewrite !app_nil_r, Nat.add_0_r. by split_and!. }
  set (chunk := take _ (drop written data)).
  assert (Hlen : length chunk = Nat.min chunkBytes (length data - written))
    by (unfold chunk; rewrite length_take, length_drop; lia).
  destruct (chunk_loop_writes (S (length chunk)) k calls chunk) as (made & n & err & -> & Hacc & Hn & Hall & Hcalls);
    [intros Hnil; rewrite Hnil in Hlen; simpl in Hlen; lia|lia|].
  assert (Hbytes : accepted_bytes made = take n (drop written data))
    by (rewrite Hacc; unfold chunk; rewrite take_take; f_equal; lia).
  assert (Hok : Forall (write_call_ok k) made).
  { eapply Forall_impl; [exact Hcalls|]. intros c (<- & ? & ?). split_and!; [lia|done..|lia]. }
  assert (Htotals : increasing written (if 0 <? n then [written + n] else []) /\
    default written (last (if 0 <? n then [written + n] else [])) = written + n)
    by (destruct (0 <? n) eqn:?; simpl; lia).
  assert (Hprog : forall more, (if 0 <? n then progress ++ [written + n] else progress) ++ more =
    progress ++ (if 0 <? n then [written + n] else []) ++ more)
    by (intros; destruct (0 <? n); simpl; [by rewrite <-(assoc_L (++))|done]).
  destruct err as [err|].
  { exists made, (if 0 <? n then [written + n] else []), n, (Some err).
    specialize (Hprog []). rewrite !app_nil_r in Hprog. rewrite Hprog. split_and!; try done; [lia|by destruct Htotals..]. }
  destruct (Hall eq_refl) as [_ Hpos].
  destruct (IH (S k) (calls ++ made) (if 0 <? n then progress ++ [written + n] else progress) (written + n)) as
    (made' & totals & m & err & -> & Hacc' & Hm & Hall' & Hinc & Hlast & Hok'); [lia..|].
  exists (made ++ made'), ((if 0 <? n then [written + n] else []) ++ totals), (n + m), err.
  rewrite Hprog, <-(assoc_L (++)), Nat.add_assoc. replace (0 <? n) with true by lia.
  split_and!; try done.
  - rewrite accepted_bytes_app, Hbytes, Hacc', <-drop_drop, <-take_take_drop. done.
  - simpl. split; [lia|done].
  - change ([written + n] ++ totals) with (written + n :: totals). rewrite last_cons. destruct (last totals); simpl in *; lia.
  - apply Forall_app. split; [done|]. eapply Forall_impl; [exact Hok'|]. intros c (? & ? & ? & ?). split_and!; [lia|done..].
Qed.
End SharedPort.

(** ** [Device.Write] *)

Section Write.
Context (port_write : nat -> bytes -> nat * option error) (closed_at : nat -> bool) (ctx_err : nat -> option context_error).
Context (chunkBytes : nat) (path : string).
(** Whether a session holds the port when the call looks, and [ctx.Err()] after
    the write. *)
Context (in_session : bool) (ctx_after : option context_error).

(** The calls the port was given, the totals, the count and the error. *)
Definition Device_Write (data : bytes) : option (list port_call * list nat * nat * option error) :=
  if negb in_session then Some ([], [], 0, Some ErrNotOpen)
  else match shared_write port_write closed_at ctx_err chunkBytes data with
       | None => None
       | Some (calls, progress, written, err) =>
         Some (calls, progress, written,
           match err with
           | Some err =>
             if negb (is_ErrNotOpen err) && bool_decide (ctx_after = None)
             then Some (PortError (classify err) (Wrapped ("write " +:+ path +:+ ": ")%string err))
             else Some err
           | None => None
           end)
       end.

(** The call as its caller sees it. *)
Definition Device_Write_outcome (data : bytes) : write_outcome :=
  match Device_Write data with
  | Some (calls, progress, written, err) => mkWriteOutcome (accepted_bytes calls) progress written err
  | None => mkWriteOutcome [] [] 0 (Some ErrNotOpen)
  end.

Lemma Device_Write_spec data :
  (forall n data, (port_write n data).1 <= length data) -> 0 < chunkBytes ->
  exists calls totals n err, Device_Write data = Some (calls, totals, n, err) /\
    accepted_bytes calls = take n data /\ n <= length data /\ (err = None -> n = length data) /\
    increasing 0 totals /\ default 0 (last totals) = n /\
    Forall (fun c => closed_at (in_chunk c) = false /\ ctx_err (in_chunk c) = None /\ length (offered c) <= chunkBytes) calls /\
    (in_session = false -> calls = [] /\ err = Some ErrNotOpen).
Proof.
  intros Hport Hchunk. unfold Device_Write. destruct in_session; simpl.
  2:{ eexists [], [], 0, _. split; [done|]. split_and!; try done. lia. }
  destruct (write_loop_spec port_write closed_at ctx_err chunkBytes Hport Hchunk (S (length data)) 0 [] [] data 0)
    as (calls & totals & n & err & Hrun & Hacc & Hn & Hall & Hinc & Hlast & Hok); [lia..|].
  unfold shared_write. rewrite Hrun. simpl in *. eexists _, _, _, _. split; [done|]. split_and!; try done.
  - destruct err as [e|]; [by destruct (negb (is_ErrNotOpen e) && bool_decide (ctx_after = None))|auto].
  - eapply Forall_impl; [exact Hok|]. intros c (_ & ? & ? & ?). done.
Qed.
End Write.

(** ** The lock: a write and a close at the same time

    The writer holds [mu] for a chunk, which may take several calls of the
    library's [Write]; the one that closes the port holds it for the close. *)

Inductive lock_owner := HeldByWriter | HeldByCloser.
Inductive os_event := OsWrite | OsClose.

Record lock_state := mkLock {
  owner : option lock_owner;
  port_closed : bool;
  (** the writer found the port open after taking the lock *)
  in_chunk_loop : bool;
  os_events : list os_event;
}.

Definition lock_start : lock_state := mkLock None false false [].

Inductive lock_step : lock_state -> lock_state -> Prop :=
  | writer_locks closed loop es :
      lock_step (mkLock None closed loop es) (mkLock (Some HeldByWriter) closed false es)
  | writer_finds_open loop es :
      lock_step (mkLock (Some HeldByWriter) false loop es) (mkLock (Some HeldByWriter) false true es)
  | writer_writes closed es :
      lock_step (mkLock (Some HeldByWriter) closed true es) (mkLock (Some HeldByWriter) closed true (es ++ [OsWrite]))
  | writer_unlocks closed loop es :
      lock_step (mkLock (Some HeldByWriter) closed loop es) (mkLock None closed false es)
  | closer_locks closed loop es :
      lock_step (mkLock None closed loop es) (mkLock (Some HeldByCloser) closed loop es)
  | closer_marks closed loop es :
      lock_step (mkLock (Some HeldByCloser) closed loop es) (mkLock (Some HeldByCloser) true loop es)
  | closer_closes loop es :
      lock_step (mkLock (Some HeldByCloser) true loop es) (mkLock (Some HeldByCloser) true loop (es ++ [OsClose]))
  | closer_unlocks closed loop es :
      lock_step (mkLock (Some HeldByCloser) closed loop es) (mkLock None closed loop es).

Record lock_ok (s : lock_state) : Prop := {
  lock_loop : in_chunk_loop s = true -> owner s = Some HeldByWriter /\ port_closed s = false;
  lock_closed : OsClose ∈ os_events s -> port_closed s = true;
  lock_order : forall before after, os_events s = before ++ OsClose :: after -> OsWrite ∉ after;
}.

Lemma app_snoc_split {A} (l l1 l2 : list A) (x y : A) :
  l ++ [x] = l1 ++ y :: l2 -> (l2 = [] /\ x = y /\ l = l1) \/ exists l2', l2 = l2' ++ [x] /\ l = l1 ++ y :: l2'.
Proof.
  destruct l2 as [|z l2' _] using rev_ind; intros Heq.
  - apply app_inj_tail in Heq as [-> ->]. auto.
  - right. exists l2'. rewrite app_comm_cons, (assoc_L (++)) in Heq. apply app_inj_tail in Heq as [-> ->]. auto.
Qed.

Lemma lock_step_ok s s' : lock_ok s -> lock_step s s' -> lock_ok s'.
Proof.
  intros [Hloop Hclosed Horder] Hstep. destruct Hstep; simpl in *; split; simpl in *;
    try done; try (intros Hl; by destruct (Hloop Hl)); eauto.
  - intros Hin. apply elem_of_app in Hin as [?|Hin]; [auto|]. set_solver.
  - intros before after [(-> & [=] & _)|(after' & -> & ->)]%app_snoc_split.
    destruct (Hloop eq_refl) as [_ Hf]. rewrite Hclosed in Hf by set_solver. done.
  - intros before after [(-> & _ & _)|(after' & -> & ->)]%app_snoc_split; [set_solver|].
    pose proof (Horder _ _ eq_refl). set_solver.
Qed.

Lemma lock_reachable_ok s : rtc lock_step lock_start s -> lock_ok s.
Proof.
  assert (Hs : lock_ok lock_start) by (split; simpl; [done|set_solver|intros []; done]).
  intros Hr. revert Hs. induction Hr; [done|]. eauto using lock_step_ok.
Qed.

(** ** Properties *)

(** What a write gives to the port is the first bytes of its data, in order
    and none twice, however little the operating system accepts of each call,
    whenever the port is closed and whenever the context ends; the count
    returned is how many, no error means all of them, and the totals reported
    grow up to the count. The write always returns. *)
Theorem write_is_prefix port_write closed_at ctx_err chunkBytes path in_session ctx_after :
  (forall n data, (port_write n data).1 <= length data) -> 0 < chunkBytes ->
  (forall data, Device_Write port_write closed_at ctx_err chunkBytes path in_session ctx_after data <> None) /\
  WriterContract (Device_Write_outcome port_write closed_at ctx_err chunkBytes path in_session ctx_after).
Proof.
  intros Hport Hchunk.
  pose proof (fun data => Device_Write_spec port_write closed_at ctx_err chunkBytes path in_session ctx_after data Hport Hchunk) as H.
  split; [intros data; destruct (H data) as (? & ? & ? & ? & -> & _); done|].
  split; intros data; unfold Device_Write_outcome;
    destruct (H data) as (calls & totals & n & err & -> & ? & ? & ? & ? & ? & _); auto.
Qed.

(** Every call of the port is made for a chunk that found the port open
    and the context not ended, and offers at most a chunk: once the port is
    closed or the context has ended, only the chunk in hand goes on. *)
Theorem write_stops port_write closed_at ctx_err chunkBytes path in_session ctx_after data calls totals n err k :
  (forall n data, (port_write n data).1 <= length data) -> 0 < chunkBytes ->
  Device_Write port_write closed_at ctx_err chunkBytes path in_session ctx_after data = Some (calls, totals, n, err) ->
  (forall j, k <= j -> closed_at j = true \/ ctx_err j <> None) ->
  Forall (fun c => in_chunk c < k /\ length (offered c) <= chunkBytes) calls.
Proof.
  intros Hport Hchunk Hrun Hstopped.
  destruct (Device_Write_spec port_write closed_at ctx_err chunkBytes path in_session ctx_after data Hport Hchunk)
    as (? & ? & ? & ? & Hrun' & _ & _ & _ & _ & _ & Hok & _).
  rewrite Hrun in Hrun'. injection Hrun' as <- <- <- <-.
  eapply Forall_impl; [exact Hok|]. intros c (Hclosed & Hctx & Hlen). split; [|done].
  destruct (le_lt_dec k (in_chunk c)) as [Hk|Hk]; [|done].
  by destruct (Hstopped _ Hk); congruence.
Qed.

(** C16: a write never reaches a closed port: whatever the order in which the
    writer and the one that closes the port take the lock, no call of the
    library's [Write] follows one of its [Close]. *)
Theorem no_write_after_close s before after :
  rtc lock_step lock_start s -> os_events s = before ++ OsClose :: after -> OsWrite ∉ after.
Proof. intros Hr. exact (lock_order s (lock_reachable_ok s Hr) before after). Qed.

(** ** Witnesses *)

(** A port that accepts two bytes of each call, and fails its third. *)
Definition two_at_a_time (n : nat) (data : bytes) : nat * option error :=
  if n =? 2 then (0, Some (Errno EIO)) else (Nat.min 2 (length data), None).

Lemma two_at_a_time_ok n data : (two_at_a_time n data).1 <= length data.
Proof. unfold two_at_a_time. case_match; cbn [fst]; lia. Qed.

Definition never (n : nat) : bool := false.
Definition no_end (n : nat) : option context_error := None.

Lemma write_is_prefix_witness :
  Device_Write_outcome two_at_a_time never no_end 3 "/dev/ttyUSB0" true None [x01; x02; x03; x04; x05] =
    mkWriteOutcome [x01; x02; x03] [3] 3
      (Some (PortError ErrorDisconnected (Wrapped "write /dev/ttyUSB0: "%string (Errno EIO)))) /\
  WriterContract (Device_Write_outcome two_at_a_time never no_end 3 "/dev/ttyUSB0" true None).
Proof.
  split; [reflexivity|].
  exact (proj2 (write_is_prefix two_at_a_time never no_end 3 "/dev/ttyUSB0" true None two_at_a_time_ok ltac:(lia))).
Defined.

Definition from_second (n : nat) : bool := 1 <=? n.

Lemma write_stops_witness :
  Device_Write two_at_a_time from_second no_end 3 "/dev/ttyUSB0" true None [x01; x02; x03; x04; x05] =
    Some ([mkCall 0 [x01; x02; x03] 2; mkCall 0 [x03] 1], [3], 3, Some ErrNotOpen) /\
  Forall (fun c => in_chunk c < 1 /\ length (offered c) <= 3) [mkCall 0 [x01; x02; x03] 2; mkCall 0 [x03] 1].
Proof.
  split; [reflexivity|].
  apply (write_stops two_at_a_time from_second no_end 3 "/dev/ttyUSB0" true None [x01; x02; x03; x04; x05]
    _ [3] 3 (Some ErrNotOpen) 1 two_at_a_time_ok ltac:(lia) eq_refl).
  intros j Hj. left. unfold from_second. lia.
Defined.

Lemma no_write_after_close_witness :
  exists s, rtc lock_step lock_start s /\ os_events s = [OsWrite; OsClose] /\ OsWrite ∉ @nil os_event.
Proof.
  set (s := mkLock (Some HeldByCloser) true false [OsWrite; OsClose]).
  assert (Hr : rtc lock_step lock_start s).
  { eapply rtc_l; [apply writer_locks|]. eapply rtc_l; [apply writer_finds_open|].
    eapply rtc_l; [apply (writer_writes _ [])|]. eapply rtc_l; [apply writer_unlocks|].
    eapply rtc_l; [apply closer_locks|]. eapply rtc_l; [apply closer_marks|]. eapply rtc_l; [apply (closer_closes false [OsWrite])|]. apply rtc_refl. }
  exists s. split_and!; [done|done|]. exact (no_write_after_close s [OsWrite] [] Hr eq_refl).
Defined.

(** A port that fails a write whose context ends meanwhile gives its error
    without a class, so that whoever reports it has to call the class unknown. *)
Lemma write_error_loses_class :
  Device_Write (fun _ _ => (0, Some (Errno EIO))) never no_end 3 "/dev/ttyUSB0" true (Some Canceled) [x01] =
    Some ([mkCall 0 [x01] 0], [], 0, Some (Errno EIO)) /\
  classify (Errno EIO) = ErrorDisconnected /\ as_port_error (Errno EIO) = None.
Proof. done. Qed.
