(* ===== verification/Serial.v ===== *)
(** * A serial device: the reader side of internal/device/serial/serial.go

    [New]'s checks, and [Run]: sessions that open the port, frame what it sends
    and report what happens to it, with the wait between them. What the code
    observes (the port's answers, whether its context has ended, the clock) is
    an input; what it does is a list of actions. The records it logs are not
    modelled here. *)
From S2P Require Import Prelude GoLib Float Wire Framer Backoff Device Port.

(** ** Options *)

(** The values the library has for a parity and for stop bits. *)
Inductive Parity := NoParity | OddParity | EvenParity | MarkParity | SpaceParity.
Inductive StopBits := OneStopBit | OnePointFiveStopBits | TwoStopBits.

Definition ParityByName : gmap string Parity :=
  list_to_map [("none", NoParity); ("odd", OddParity); ("even", EvenParity); ("mark", MarkParity); ("space", SpaceParity)]%string.

Definition StopBitsByName : gmap string StopBits := list_to_map [("1", OneStopBit); ("2", TwoStopBits)]%string.

Definition minDataBits : Z := 5.
Definition maxDataBits : Z := 8.

Record Options := mkOptions {
  opt_ID : string; opt_Path : string; opt_Baud : Z; opt_DataBits : Z; opt_Parity : Parity; opt_StopBits : StopBits;
  opt_Separator : bytes; opt_MaxFrameBytes : Z; opt_InterCharTimeout : duration; opt_LogPayloads : bool;
  opt_TxChunkBytes : Z; opt_Reopen : Policy;
}.

Inductive serial_error :=
  | IDRequired
  | PathRequired
  | BaudNotPositive (id : string) (baud : Z)
  | InterCharTimeoutNotPositive (id : string) (timeout : duration)
  | DataBitsOutOfRange (id : string) (bits : Z)
  | BadFraming (id : string) (err : framer_error)
  | TxChunkTooSmall (id : string) (chunk : Z)
  | BadReopen (id : string) (problems : list policy_problem).

Record Mode := mkMode { BaudRate : Z; DataBits : Z; ModeParity : Parity; ModeStopBits : StopBits }.

(** [retry] is the channel's one place; [inSession] whether a session holds the
    port. *)
Record Device := mkSerial { opts : Options; mode : Mode; readBufferBytes : Z; retry : bool; inSession : bool }.

Definition New (options : Options) : result serial_error Device :=
  let id := opt_ID options in
  if bool_decide (id = ""%string) then Err IDRequired
  else if bool_decide (opt_Path options = ""%string) then Err PathRequired
  else if (opt_Baud options <=? 0)%Z then Err (BaudNotPositive id (opt_Baud options))
  else if (opt_InterCharTimeout options <=? 0)%Z then Err (InterCharTimeoutNotPositive id (opt_InterCharTimeout options))
  else if ((opt_DataBits options <? minDataBits) || (maxDataBits <? opt_DataBits options))%Z
  then Err (DataBitsOutOfRange id (opt_DataBits options))
  else match NewFramer (opt_Separator options) (opt_MaxFrameBytes options) with
  | Err err => Err (BadFraming id err)
  | Ok _ =>
    if (opt_TxChunkBytes options <? 1)%Z then Err (TxChunkTooSmall id (opt_TxChunkBytes options))
    else match Validate (opt_Reopen options) with
    | [] =>
      Ok (mkSerial options
            (mkMode (opt_Baud options) (opt_DataBits options) (opt_Parity options) (opt_StopBits options))
            (int64 (opt_MaxFrameBytes options + Z.of_nat (length (opt_Separator options)))) false false)
    | problems => Err (BadReopen id problems)
    end
  end.

(** [RetryOpen]: a send that does not wait for a full channel. *)
Definition RetryOpen (dev : Device) : Device := mkSerial (opts dev) (mode dev) (readBufferBytes dev) true (inSession dev).

Definition setPortInSession (dev : Device) (held : bool) : Device :=
  mkSerial (opts dev) (mode dev) (readBufferBytes dev) (retry dev) held.

(** ** What a session observes *)

(** A read that fails says whether the context had ended by then. A read of no
    bytes is the read timeout. *)
Inductive read_outcome :=
  | ReadFailed (err : error) (ctx : option context_error)
  | ReadGot (data : bytes).

(** One turn of the read loop: [ctx.Err()] before the read, the read, and for
    each frame whether the context ended before the sink took it. *)
Record turn := mkTurn { before : option context_error; outcome : read_outcome; sink : nat -> option context_error }.

(** A whole session. [end_ctx] is [ctx.Err()] when it ends. When the context
    ended, the goroutine that closes the port may have done so meanwhile:
    [close_at] says after how many of the session's own actions it stopped
    the writes, and then closed. *)
Record session_env := mkEnv {
  open_result : option error; timeout_result : option error; turns : list turn;
  end_ctx : option context_error; close_at : nat * nat;
}.

(** ** What it does *)

Inductive action :=
  | SetPortInSession (held : bool)
  | ClosePort
  | Report (event : Event)
  | Send (frame : Frame).

Section Session.
Context (dev : Device) (now : nat -> time).

(** [Device.event]: the time is that of the [n]th action. *)
Definition event (n : nat) (kind : EventKind) (class : ErrorClass) (err : option error) (reason : DiscardReason) (count : Z) : Event :=
  mkPortEvent (opt_ID (opts dev)) kind (now n) class err reason count.

Definition plain_event (n : nat) (kind : EventKind) : Event := event n kind ""%string None ""%string 0.
Definition failure_event (n : nat) (kind : EventKind) (err : error) : Event :=
  event n kind (classify err) (Some err) ""%string 0.

(** [n0] actions came before the list [acts]. *)
Definition report (n0 : nat) (acts : list action) (make : nat -> Event) : list action :=
  acts ++ [Report (make (n0 + length acts))].

(** [logDiscard], as far as it reports. *)
Definition report_discard (n0 : nat) (acts : list action) (discard : Discard) : list action :=
  report n0 acts (fun n => event n BytesDiscarded ""%string None (Reason discard) (Z.of_nat (Bytes discard))).

(** The loop that sends a read's frames: the actions, and the context's error
    when it ended before a frame was taken. *)
Fixpoint send_frames (n0 : nat) (sink : nat -> option context_error) (j : nat) (frames : list bytes) (acts : list action) :
    list action * option context_error :=
  match frames with
  | [] => (acts, None)
  | raw :: frames' =>
    match sink j with
    | Some ended => (acts, Some ended)
    | None =>
      send_frames n0 sink (S j) frames' (acts ++ [Send (mkFrame (opt_ID (opts dev)) raw (now (n0 + length acts)))])
    end
  end.

(** The read loop over [turns]: the actions, and how the session ended, [None]
    while it goes on: whether it worked, its error, and the context's error
    where that is what ended it. *)
Fixpoint read_loop (n0 : nat) (turns : list turn) (framer : Framer) (worked : bool) (acts : list action) :
    list action * option (bool * error * option context_error) :=
  match turns with
  | [] => (acts, None)
  | turn :: turns' =>
    match before turn with
    | Some ended => (acts, Some (worked, ContextError ended, Some ended))
    | None =>
      match outcome turn with
      | ReadFailed _ (Some ended) => (acts, Some (worked, ContextError ended, Some ended))
      | ReadFailed err None =>
        (acts, Some (worked, Wrapped ("read " +:+ opt_Path (opts dev) +:+ ": ")%string err, None))
      | ReadGot [] =>
        let (framer', discard) := Timeout framer in
        read_loop n0 turns' framer' true (foldl (report_discard n0) acts (option_list discard))
      | ReadGot data =>
        let acts := report n0 acts (fun n => event n BytesRead ""%string None ""%string (Z.of_nat (length data))) in
        let '(framer', frames, discards) := Append framer data in
        let acts := foldl (report_discard n0) acts discards in
        match send_frames n0 (sink turn) 0 frames acts with
        | (acts, Some ended) => (acts, Some (true, ContextError ended, Some ended))
        | (acts, None) => read_loop n0 turns' framer' true acts
        end
      end
    end
  end.

(** The goroutine's two actions among the session's own. *)
Definition with_close (close_at : nat * nat) (acts : list action) : list action :=
  let (i, j) := close_at in
  take i acts ++ [SetPortInSession false] ++ take (j - i) (drop i acts) ++ [ClosePort] ++ drop (j - i) (drop i acts).

(** The deferred function: the port is closed, and then it is reported. A
    context that has ended stays ended. *)
Definition finish (n0 : nat) (env : session_env) (acts : list action) (err : error) (seen : option context_error) :
    list action * option context_error :=
  let ended := match seen with Some _ => seen | None => end_ctx env end in
  let all := length acts in
  let acts := with_close (match ended with Some _ => close_at env | None => (all, all) end) acts in
  (report n0 acts (fun n => match ended with Some _ => plain_event n PortClosed | None => failure_event n PortLost err end), ended).

Definition framer_error_text (err : framer_error) : string :=
  match err with
  | EmptySeparator => "separator must not be empty"
  | MaxFrameTooSmall got => "max frame must be at least 1 byte, got " +:+ fmt_d got
  end.

(** [session], after [n] actions: its actions, and how it ended, [None] while it
    goes on: whether it worked, its error, and [ctx.Err()] then. *)
Definition session (n : nat) (env : session_env) : list action * option (bool * error * option context_error) :=
  match open_result env with
  | Some err =>
    (report n [] (fun n => failure_event n PortOpenFailed err),
     Some (false, Wrapped ("open " +:+ opt_Path (opts dev) +:+ ": ")%string err, end_ctx env))
  | None =>
    let opened := report n [SetPortInSession true] (fun n => plain_event n PortOpened) in
    let n := n + length opened in
    let ends acts worked err seen :=
      let (acts, ended) := finish n env acts err seen in (opened ++ acts, Some (worked, err, ended)) in
    match timeout_result env with
    | Some err => ends [] false (Wrapped ("set read timeout on " +:+ opt_Path (opts dev) +:+ ": ")%string err) None
    | None =>
      match NewFramer (opt_Separator (opts dev)) (opt_MaxFrameBytes (opts dev)) with
      | Err err => ends [] false (TextError (framer_error_text err)) None
      | Ok framer =>
        match read_loop n (turns env) framer false [] with
        | (acts, None) => (opened ++ acts, None)
        | (acts, Some (worked, err, seen)) => ends acts worked err seen
        end
      end
    end
  end.

(** ** [Run] *)

(** How the wait after a session ends. *)
Inductive wait_end := WaitElapsed | WaitRetried | WaitCanceled (ended : context_error).

(** One turn of [Run]'s loop: [ctx.Err()] before it, the session, how long it
    lasted, [ctx.Err()] after it, the random number for the wait, and how the
    wait ends. *)
Record run_turn := mkRunTurn {
  ctx_before : option context_error; env : session_env; lasted : duration; ctx_after : option context_error;
  random : float64; wait_ended : wait_end;
}.

(** What [Run] has done: its actions, its waits with the retry each was for,
    and what it returned, [None] while it goes on. *)
Record run_state := mkRun { done : list action; waits : list (Z * option duration); returned : option context_error }.

Fixpoint Run (run_turns : list run_turn) (acts : list action) (retries : Z) (waits : list (Z * option duration)) : run_state :=
  match run_turns with
  | [] => mkRun acts waits None
  | t :: run_turns' =>
    match ctx_before t with
    | Some ended => mkRun acts waits (Some ended)
    | None =>
      match session (length acts) (env t) with
      | (made, None) => mkRun (acts ++ made) waits None
      | (made, Some (_, _, ended)) =>
        let acts := acts ++ made in
        match (match ended with Some _ => ended | None => ctx_after t end) with
        | Some ended => mkRun acts waits (Some ended)
        | None =>
          let policy := opt_Reopen (opts dev) in
          let retries := if (Max policy <=? lasted t)%Z then 0%Z else retries in
          let retries := int64 (retries + 1) in
          let waits := waits ++ [(retries, Wait policy (random t) retries)] in
          match wait_ended t with
          | WaitCanceled ended => mkRun acts waits (Some ended)
          | _ => Run run_turns' acts retries waits
          end
        end
      end
    end
  end.
End Session.

(** ** The order of a device's actions *)

(** Where a port is: down, taking writes and not yet reported open, up (whether
    it still takes writes, whether it was closed), and closed for good. *)
Inductive phase := Down | Taking | Up (writes closed : bool) | Stopped.

Definition phase_step (p : phase) (a : action) : option phase :=
  match p, a with
  | Down, SetPortInSession true => Some Taking
  | Down, Report e => match Kind e with PortOpenFailed => Some Down | _ => None end
  | Taking, Report e => match Kind e with PortOpened => Some (Up true false) | _ => None end
  | Up true false, SetPortInSession false => Some (Up false false)
  | Up false false, ClosePort => Some (Up false true)
  | Up _ _, Send _ => Some p
  | Up writes closed, Report e =>
    match Kind e with
    | BytesRead | BytesDiscarded => Some p
    | PortLost => if closed then Some Down else None
    | PortClosed => if closed then Some Stopped else None
    | _ => None
    end
  | _, _ => None
  end.

Definition phases (p : phase) (acts : list action) : option phase :=
  foldl (fun p a => p ≫= fun p => phase_step p a) (Some p) acts.

(** What a session does between its opening and its end. *)
Definition reading (a : action) : bool :=
  match a with
  | Report e => match Kind e with BytesRead | BytesDiscarded => true | _ => false end
  | Send _ => true
  | _ => false
  end.

Lemma phases_app p acts acts' : phases p (acts ++ acts') = phases p acts ≫= fun p => phases p acts'.
Proof.
  unfold phases. rewrite foldl_app. destruct (foldl _ (Some p) acts) as [q|]; [done|].
  induction acts' as [|a acts' IH]; [done|exact IH].
Qed.

Lemma phase_step_reading writes closed a : reading a -> phase_step (Up writes closed) a = Some (Up writes closed).
Proof.
  destruct a as [| |e|f]; try done; [|by destruct writes, closed]. simpl. intros Ha.
  destruct (Kind e) eqn:Hk; try done; destruct writes, closed; simpl; rewrite ?Hk; done.
Qed.

Lemma phases_one p a : phases p [a] = phase_step p a.
Proof. done. Qed.

Lemma phases_reading writes closed acts : Forall reading acts -> phases (Up writes closed) acts = Some (Up writes closed).
Proof.
  induction 1 as [|a acts Ha _ IH]; [done|]. change (a :: acts) with ([a] ++ acts).
  rewrite phases_app. change (phases (Up writes closed) [a]) with (phase_step (Up writes closed) a).
  by rewrite phase_step_reading.
Qed.

Section SessionLemmas.
Context (dev : Device) (now : nat -> time).

Lemma report_discards_reading n0 discards acts :
  Forall reading acts -> Forall reading (foldl (report_discard dev now n0) acts discards).
Proof.
  revert acts. induction discards as [|d discards IH]; intros acts Hacts; [done|]. simpl. apply IH.
  apply Forall_app. split; [done|]. by repeat constructor.
Qed.

Lemma send_frames_spec n0 sink j frames acts :
  exists sent, (send_frames dev now n0 sink j frames acts).1 = acts ++ map Send sent /\
    map Raw sent `prefix_of` frames /\
    ((send_frames dev now n0 sink j frames acts).2 = None -> map Raw sent = frames).
Proof.
  revert j acts. induction frames as [|raw frames IH]; intros j acts; simpl.
  - exists []. by rewrite app_nil_r.
  - destruct (sink j) as [ended|].
    + exists []. rewrite app_nil_r. split_and!; [done|apply prefix_nil|done].
    + destruct (IH (S j) (acts ++ [Send (mkFrame (opt_ID (opts dev)) raw (now (n0 + length acts)))])) as (sent & -> & Hpre & Hall).
      exists (mkFrame (opt_ID (opts dev)) raw (now (n0 + length acts)) :: sent). rewrite <-(assoc_L (++)). simpl.
      split_and!; [done|by apply prefix_cons|]. intros Hn. by rewrite Hall.
Qed.

Lemma read_loop_reading n0 turns framer worked acts :
  Forall reading acts -> Forall reading (read_loop dev now n0 turns framer worked acts).1.
Proof.
  revert framer worked acts. induction turns as [|t turns IH]; intros framer worked acts Hacts; [done|]. simpl.
  destruct (before t); [done|]. destruct (outcome t) as [err [|]|[|b data]]; [done..| |].
  - destruct (Timeout framer) as [framer' discard]. apply IH. by apply report_discards_reading.
  - destruct (Append framer (b :: data)) as [[framer' frames] discards].
    set (acts' := foldl _ _ discards).
    assert (Hacts' : Forall reading acts').
    { apply report_discards_reading, Forall_app. split; [done|]. by repeat constructor. }
    destruct (send_frames_spec n0 (sink t) 0 frames acts') as (sent & Heq & _).
    destruct (send_frames dev now n0 (sink t) 0 frames acts') as [acts'' [ended|]]; simpl in Heq; subst acts''; simpl;
      [|apply IH]; apply Forall_app; (split; [done|]); apply Forall_forall; intros a [f [-> _]]%list_elem_of_fmap; done.
Qed.

Lemma with_close_phases close_at acts :
  Forall reading acts -> phases (Up true false) (with_close close_at acts) = Some (Up false true).
Proof.
  intros Hacts. destruct close_at as [i j]. unfold with_close.
  assert (Hbind : forall (p : phase) (k : phase -> option phase), (Some p ≫= k) = k p) by done.
  rewrite phases_app, phases_reading, Hbind by (by apply Forall_take).
  rewrite phases_app, phases_one. cbn [phase_step]. rewrite Hbind.
  rewrite phases_app, phases_reading, Hbind by (by apply Forall_take, Forall_drop).
  rewrite phases_app, phases_one. cbn [phase_step]. rewrite Hbind.
  by rewrite phases_reading by (by apply Forall_drop, Forall_drop).
Qed.

(** A session leaves a port that was down up and taking writes while it goes
    on, and down or stopped when it has ended. *)
Lemma session_phases n env :
  match session dev now n env with
  | (acts, None) => phases Down acts = Some (Up true false)
  | (acts, Some (_, _, ended)) =>
    phases Down acts = Some Down \/ phases Down acts = Some Stopped /\ ended <> None
  end.
Proof.
  set (opened := report n [SetPortInSession true] (fun n => plain_event dev now n PortOpened)).
  assert (Hopened : forall acts, phases Down (opened ++ acts) = phases (Up true false) acts)
    by (intros; by rewrite phases_app).
  assert (Hends : forall n0 acts (worked : bool) err seen, Forall reading acts ->
    match (let (acts, ended) := finish dev now n0 env acts err seen in (opened ++ acts, Some (worked, err, ended))) with
    | (acts, None) => phases Down acts = Some (Up true false)
    | (acts, Some (_, _, ended)) => phases Down acts = Some Down \/ phases Down acts = Some Stopped /\ ended <> None
    end).
  { intros n0 acts worked err seen Hacts. unfold finish, report. rewrite Hopened, phases_app, with_close_phases by done.
    simpl. destruct seen, (end_ctx env); simpl; auto. }
  unfold session. fold opened. destruct (open_result env); [by left|].
  destruct (timeout_result env) as [err|]; [by apply Hends|].
  destruct (NewFramer _ _) as [framer|err]; [|by apply Hends].
  pose proof (read_loop_reading (n + length opened) (turns env) framer false [] (Forall_nil_2 _)) as Hr.
  destruct (read_loop _ _ _ _ _ _ _) as [acts [[[worked err] seen]|]]; [by apply Hends|].
  rewrite Hopened. by apply phases_reading.
Qed.

Lemma Run_phases turns acts retries waits :
  phases Down acts = Some Down ->
  exists p, phases Down (done (Run dev now turns acts retries waits)) = Some p /\
    (returned (Run dev now turns acts retries waits) = None -> p = Down \/ p = Up true false) /\
    (returned (Run dev now turns acts retries waits) <> None -> p = Down \/ p = Stopped).
Proof.
  revert acts retries waits. induction turns as [|t turns IH]; intros acts retries waits Hacts; simpl.
  { exists Down. naive_solver. }
  destruct (ctx_before t); [exists Down; naive_solver|].
  pose proof (session_phases (length acts) (env t)) as Hs.
  destruct (session dev now (length acts) (env t)) as [made [[[worked err] ended]|]]; simpl.
  2:{ exists (Up true false). simpl. rewrite phases_app, Hacts. naive_solver. }
  assert (Hmade : phases Down (acts ++ made) = phases Down made) by (by rewrite phases_app, Hacts).
  destruct Hs as [Hs|[Hs Hended]].
  - destruct (match ended with Some _ => ended | None => ctx_after t end).
    { exists Down. simpl. rewrite Hmade. naive_solver. }
    destruct (wait_ended t); simpl; [apply IH; congruence..|]. exists Down. simpl. rewrite Hmade. naive_solver.
  - destruct ended; [|done]. exists Stopped. simpl. rewrite Hmade. naive_solver.
Qed.
End SessionLemmas.

(** ** What a session reads, and what it sends and reports *)

(** A turn as its framer sees it. *)
Definition turn_input (t : turn) : input :=
  match outcome t with
  | ReadGot (b :: data) => Read (b :: data)
  | _ => Silence
  end.

Definition raw_of (a : action) : option bytes := match a with Send f => Some (Raw f) | _ => None end.
Definition discard_of (a : action) : option (DiscardReason * Z) :=
  match a with
  | Report e => match Kind e with BytesDiscarded => Some (EvReason e, EvBytes e) | _ => None end
  | _ => None
  end.
Definition read_of (a : action) : option Z :=
  match a with Report e => match Kind e with BytesRead => Some (EvBytes e) | _ => None end | _ => None end.

Definition sent_raws : list action -> list bytes := omap raw_of.
Definition discards_reported : list action -> list (DiscardReason * Z) := omap discard_of.
Definition bytes_reported : list action -> list Z := omap read_of.

Definition discard_report (d : Discard) : DiscardReason * Z := (Reason d, Z.of_nat (Bytes d)).

Definition read_lengths (turns : list turn) : list Z :=
  omap (fun t => match outcome t with ReadGot (b :: data) => Some (Z.of_nat (length (b :: data))) | _ => None end) turns.

Section SessionReadings.
Context (dev : Device) (now : nat -> time).

Lemma report_discards_actions n0 discards acts :
  sent_raws (foldl (report_discard dev now n0) acts discards) = sent_raws acts /\
  discards_reported (foldl (report_discard dev now n0) acts discards) = discards_reported acts ++ map discard_report discards /\
  bytes_reported (foldl (report_discard dev now n0) acts discards) = bytes_reported acts.
Proof.
  revert acts. induction discards as [|d discards IH]; intros acts; simpl; [by rewrite app_nil_r|].
  destruct (IH (report_discard dev now n0 acts d)) as (-> & -> & ->).
  unfold report_discard, report, sent_raws, discards_reported, bytes_reported. rewrite !omap_app. simpl.
  by rewrite !app_nil_r, <-(assoc_L (++)).
Qed.

Lemma sends_actions sent acts :
  sent_raws (acts ++ map Send sent) = sent_raws acts ++ map Raw sent /\
  discards_reported (acts ++ map Send sent) = discards_reported acts /\
  bytes_reported (acts ++ map Send sent) = bytes_reported acts.
Proof.
  unfold sent_raws, discards_reported, bytes_reported. rewrite !omap_app.
  assert (Hnone : omap discard_of (map Send sent) = [] /\ omap read_of (map Send sent) = [] /\
    omap raw_of (map Send sent) = map Raw sent).
  { induction sent as [|x sent (IH1 & IH2 & IH3)]; simpl; [done|].
    split_and!; [exact IH1|exact IH2|f_equal; exact IH3]. }
  destruct Hnone as (-> & -> & ->). by rewrite !app_nil_r.
Qed.

Lemma read_loop_readings n0 turns framer worked acts :
  let '(acts', ended) := read_loop dev now n0 turns framer worked acts in
  let '(_, frames, discards) := framer_run framer (map turn_input turns) in
  sent_raws acts' `prefix_of` sent_raws acts ++ frames /\
  (ended = None ->
    sent_raws acts' = sent_raws acts ++ frames /\
    discards_reported acts' = discards_reported acts ++ map discard_report discards /\
    bytes_reported acts' = bytes_reported acts ++ read_lengths turns).
Proof.
  revert framer worked acts. induction turns as [|t turns IH]; intros framer worked acts; simpl.
  { rewrite !app_nil_r. by split_and!. }
  assert (Hstop : forall frames, sent_raws acts `prefix_of` sent_raws acts ++ frames) by (intros; by apply prefix_app_r).
  unfold turn_input at 1.
  destruct (before t).
  { destruct (framer_step _ _) as [[??]?], (framer_run _ _) as [[??]?]. by split. }
  destruct (outcome t) as [err ctx|[|b data]]; simpl.
  - destruct ctx; destruct (Timeout _) as [??], (framer_run _ _) as [[??]?]; by split.
  - destruct (Timeout framer) as [framer' discard].
    specialize (IH framer' true (foldl (report_discard dev now n0) acts (option_list discard))).
    destruct (report_discards_actions n0 (option_list discard) acts) as (Hs & Hd & Hb). rewrite Hs, Hd, Hb in IH.
    destruct (read_loop _ _ _ _ _ _ _) as [acts' ended], (framer_run framer' _) as [[? frames] discards]. simpl.
    by rewrite map_app, (assoc_L (++)).
  - destruct (Append framer (b :: data)) as [[framer' frames] discards]. simpl.
    set (acts1 := report n0 acts _). set (acts2 := foldl _ acts1 discards).
    destruct (report_discards_actions n0 discards acts1) as (Hs & Hd & Hb). fold acts2 in Hs, Hd, Hb.
    assert (Hs1 : sent_raws acts1 = sent_raws acts /\ discards_reported acts1 = discards_reported acts /\
      bytes_reported acts1 = bytes_reported acts ++ [Z.of_nat (length (b :: data))]).
    { unfold acts1, report, sent_raws, discards_reported, bytes_reported. rewrite !omap_app. simpl.
      by rewrite !app_nil_r. }
    destruct Hs1 as (Hs1 & Hd1 & Hb1).
    destruct (send_frames_spec dev now n0 (sink t) 0 frames acts2) as (sent & Hacts & Hpre & Hall).
    destruct (send_frames dev now n0 (sink t) 0 frames acts2) as [acts3 ended]. simpl in Hacts, Hall. subst acts3.
    destruct (sends_actions sent acts2) as (Hs3 & Hd3 & Hb3).
    destruct ended as [ended|].
    + destruct (framer_run framer' _) as [[? frames'] discards']. split; [|done].
      rewrite Hs3, Hs, Hs1, (assoc_L (++)). by apply prefix_app_r, prefix_app.
    + rewrite (Hall eq_refl) in Hs3. specialize (IH framer' true (acts2 ++ map Send sent)).
      rewrite Hs3, Hd3, Hb3, Hs, Hd, Hb, Hs1, Hd1, Hb1 in IH.
      destruct (read_loop _ _ _ _ _ _ _) as [acts' ended], (framer_run framer' _) as [[? frames'] discards'].
      rewrite <-!(assoc_L (++)) in IH. rewrite map_app. exact IH.
Qed.

Lemma finish_raws n0 env acts err seen : sent_raws (finish dev now n0 env acts err seen).1 = sent_raws acts.
Proof.
  unfold finish, report. set (ended := match seen with Some _ => _ | None => _ end). cbn [fst].
  set (at_ := match ended with Some _ => _ | None => _ end). destruct at_ as [i j]. unfold with_close, sent_raws.
  rewrite !omap_app. simpl. rewrite <-(take_drop i acts) at 4. rewrite <-(take_drop (j - i) (drop i acts)) at 3.
  rewrite !omap_app. by destruct ended; rewrite !app_nil_r.
Qed.
End SessionReadings.

(** ** The waits between sessions *)

(** A session that fails and is followed by a whole wait. *)
Definition goes_on (dev : Device) (now : nat -> time) (t : run_turn) : Prop :=
  ctx_before t = None /\ ctx_after t = None /\ (forall ended, wait_ended t <> WaitCanceled ended) /\
  forall n, exists acts worked err, session dev now n (env t) = (acts, Some (worked, err, None)).

(** The waits after sessions in a row, the first the wait of retry [first]. *)
Definition waits_from (dev : Device) (first : Z) (turns : list run_turn) : list (Z * option duration) :=
  imap (fun i t => let retry := (first + Z.of_nat i)%Z in (retry, Wait (opt_Reopen (opts dev)) (random t) retry)) turns.

Lemma Run_short dev now turns acts retries waits0 :
  Forall (fun t => goes_on dev now t /\ (lasted t < Max (opt_Reopen (opts dev)))%Z) turns ->
  (0 <= retries)%Z -> (retries + Z.of_nat (length turns) <= max_int64)%Z ->
  waits (Run dev now turns acts retries waits0) = waits0 ++ waits_from dev (retries + 1) turns /\
  returned (Run dev now turns acts retries waits0) = None.
Proof.
  revert acts retries waits0. induction turns as [|t turns IH]; intros acts retries waits0 Hturns Hr Hmax; simpl.
  { unfold waits_from. simpl. by rewrite app_nil_r. }
  apply Forall_cons in Hturns as [[(-> & -> & Hwait & Hs) Hlasted] Hturns'].
  destruct (Hs (length acts)) as (made & worked & err & ->).
  replace (Max (opt_Reopen (opts dev)) <=? lasted t)%Z with false by lia.
  cbn [length] in Hmax. rewrite int64_id by (unfold in_int64, min_int64, max_int64 in *; lia).
  assert (Hnext : forall w, waits (Run dev now turns (acts ++ made) (retries + 1) (waits0 ++ [w])) =
      waits0 ++ w :: waits_from dev (retries + 1 + 1) turns /\
    returned (Run dev now turns (acts ++ made) (retries + 1) (waits0 ++ [w])) = None).
  { intros w. destruct (IH (acts ++ made) (retries + 1)%Z (waits0 ++ [w]) Hturns') as [-> ->]; [lia..|].
    by rewrite <-(assoc_L (++)). }
  assert (Hfrom : waits_from dev (retries + 1) (t :: turns) =
    ((retries + 1)%Z, Wait (opt_Reopen (opts dev)) (random t) (retries + 1)) :: waits_from dev (retries + 1 + 1) turns).
  { unfold waits_from. simpl. rewrite Z.add_0_r. f_equal. apply imap_ext. intros i ? _. simpl.
    by replace (retries + 1 + Z.of_nat (S i))%Z with (retries + 1 + 1 + Z.of_nat i)%Z by lia. }
  rewrite Hfrom. destruct (wait_ended t) eqn:Hw; [apply Hnext..|]. by destruct (Hwait ended).
Qed.

(** A session that opens its port, on what its framer makes of the reads. *)
Lemma session_framed dev now n env framer :
  NewFramer (opt_Separator (opts dev)) (opt_MaxFrameBytes (opts dev)) = Ok framer ->
  open_result env = None -> timeout_result env = None ->
  let '(_, frames, discards) := framer_run framer (map turn_input (turns env)) in
  sent_raws (session dev now n env).1 `prefix_of` frames /\
  ((session dev now n env).2 = None ->
    sent_raws (session dev now n env).1 = frames /\
    discards_reported (session dev now n env).1 = map discard_report discards /\
    bytes_reported (session dev now n env).1 = read_lengths (turns env)).
Proof.
  intros Hnew Hopen Htimeout. unfold session. rewrite Hopen, Htimeout, Hnew.
  set (opened := report n [SetPortInSession true] (fun n => plain_event dev now n PortOpened)).
  pose proof (read_loop_readings dev now (n + length opened) (turns env) framer false []) as H.
  destruct (framer_run framer _) as [[f' frames'] discards].
  destruct (read_loop _ _ _ _ _ _ _) as [acts [[[worked err] seen]|]]; destruct H as [Hpre Hall].
  - split; [|by destruct (finish _ _ _ _ _ _ _)].
    pose proof (finish_raws dev now (n + length opened) env acts err seen) as Hf.
    destruct (finish _ _ _ _ _ _ _) as [acts' ended]. simpl in Hf |- *. by rewrite Hf.
  - split; [exact Hpre|]. intros _. by destruct (Hall eq_refl).
Qed.

(** ** Properties *)

(** C14: whatever the port, the context and the sink do, a device's actions keep
    their order. The port takes writes before it is reported open, so that a
    write that waited for the report finds it; nothing is read, discarded or
    sent outside an open port; the port stops taking writes before it closes,
    and is closed before it is reported lost or closed; an open is followed by
    one of the two; and nothing at all follows a port reported closed, which
    is reported only when [Run] returns. *)
Theorem run_order dev now turns :
  let s := Run dev now turns [] 0 [] in
  exists p, phases Down (done s) = Some p /\
    (returned s = None -> p = Down \/ p = Up true false) /\
    (returned s <> None -> p = Down \/ p = Stopped).
Proof. by apply Run_phases. Qed.

(** A session's readings are the frames of what the port sent. However it
    ends, the frames sent are the first of those of the abstract framer; while
    it goes on they are all of them, every discard of the framer was reported,
    with its reason and its count, and every read with its length. *)
Theorem session_readings dev now n env framer :
  let sep := opt_Separator (opts dev) in
  let max := opt_MaxFrameBytes (opts dev) in
  let inputs := map turn_input (turns env) in
  NewFramer sep max = Ok framer -> fits sep max -> open_result env = None -> timeout_result env = None ->
  let frames := (spec_run sep max (mkStream [] false) inputs).2 in
  sent_raws (session dev now n env).1 `prefix_of` frames /\
  ((session dev now n env).2 = None ->
    sent_raws (session dev now n env).1 = frames /\
    discards_reported (session dev now n env).1 = map discard_report (framer_run framer inputs).2 /\
    bytes_reported (session dev now n env).1 = read_lengths (turns env)).
Proof.
  intros sep max inputs Hnew Hfits Hopen Htimeout frames.
  destruct (new_framer_run_simulates sep max framer inputs Hnew Hfits) as [_ Hframes]. fold frames in Hframes.
  pose proof (session_framed dev now n env framer Hnew Hopen Htimeout) as H. fold inputs in H.
  destruct (framer_run framer inputs) as [[f' frames'] discards]. simpl in Hframes. by subst frames'.
Qed.

(** The wait before a device's port is opened again starts over after a
    session that lasted as long as the longest wait, and only then: through the
    shorter sessions that follow it, each is followed by the wait of the next
    retry, whatever came before, and [Run] goes on. *)
Theorem reopen_backs_off dev now stable short acts retries waits0 :
  goes_on dev now stable -> (Max (opt_Reopen (opts dev)) <= lasted stable)%Z ->
  Forall (fun t => goes_on dev now t /\ (lasted t < Max (opt_Reopen (opts dev)))%Z) short ->
  (1 + Z.of_nat (length short) <= max_int64)%Z ->
  waits (Run dev now (stable :: short) acts retries waits0) = waits0 ++ waits_from dev 1 (stable :: short) /\
  returned (Run dev now (stable :: short) acts retries waits0) = None.
Proof.
  intros (Hb & Ha & Hw & Hs) Hlasted Hshort Hmax. simpl. rewrite Hb, Ha.
  destruct (Hs (length acts)) as (made & worked & err & ->).
  replace (Max (opt_Reopen (opts dev)) <=? lasted stable)%Z with true by lia.
  change (int64 (0 + 1)) with 1%Z.
  destruct (Run_short dev now short (acts ++ made) 1 (waits0 ++ [(1, Wait (opt_Reopen (opts dev)) (random stable) 1)%Z]) Hshort)
    as [Hwaits Hret]; [lia..|].
  assert (Hfrom : waits_from dev 1 (stable :: short) =
    (1, Wait (opt_Reopen (opts dev)) (random stable) 1)%Z :: waits_from dev (1 + 1) short).
  { unfold waits_from. simpl. f_equal. apply imap_ext. intros i ? _. simpl.
    by replace (1 + Z.of_nat (S i))%Z with (1 + 1 + Z.of_nat i)%Z by lia. }
  rewrite Hfrom. rewrite <-(assoc_L (++)) in Hwaits. destruct (wait_ended stable); [done..|]. by destruct (Hw ended).
Qed.

(** ** Witnesses *)

(** A scanner at 9600 baud, and sessions of its port. *)
Definition scanner_options : Options :=
  mkOptions "scanner" "/dev/ttyACM0" 9600 8 NoParity OneStopBit crlf 64 (50 * Millisecond) false 256
    (mkPolicy Second true (30 * Second) float_zero).

Definition scanner : Device :=
  match New scanner_options with Ok dev => dev | Err _ => mkSerial scanner_options (mkMode 0 0 NoParity OneStopBit) 0 false false end.

Definition by_action (n : nat) : time := Z.of_nat n.
Definition taken (n : nat) : option context_error := None.

Definition two_reads : session_env :=
  mkEnv None None [mkTurn None (ReadGot (ascii_bytes "12")) taken; mkTurn None (ReadGot (ascii_bytes "3" ++ crlf)) taken] None (0, 0).

Lemma session_readings_witness :
  sent_raws (session scanner by_action 0 two_reads).1 = [ascii_bytes "123"] /\ bytes_reported (session scanner by_action 0 two_reads).1 = [2; 3]%Z.
Proof.
  destruct (session_readings scanner by_action 0 two_reads (mkFramer crlf 64 [] false 0) eq_refl ltac:(done) eq_refl eq_refl) as [_ H].
  destruct (H eq_refl) as (Hs & _ & Hb). rewrite Hs, Hb. split; reflexivity.
Defined.

Definition absent : session_env := mkEnv (Some (Errno ENOENT)) None [] None (0, 0).
Definition failed_open (lasted : duration) : run_turn := mkRunTurn None absent lasted None float_zero WaitElapsed.

Lemma failed_open_goes_on lasted : goes_on scanner by_action (failed_open lasted).
Proof. split_and!; [done..|]. intros n. by eexists _, _, _. Qed.

Lemma reopen_backs_off_witness :
  map snd (waits (Run scanner by_action [failed_open (60 * Second); failed_open 0; failed_open 0] [] 5 [])) =
    [Some Second; Some (2 * Second); Some (4 * Second)]%Z.
Proof.
  destruct (reopen_backs_off scanner by_action (failed_open (60 * Second)) [failed_open 0; failed_open 0] [] 5 [])
    as [-> _]; [apply failed_open_goes_on|done| |done|reflexivity].
  repeat constructor; apply failed_open_goes_on.
Defined.
