(* ===== verification/Json.v ===== *)
(** * JSON as Go's encoding/json writes and reads it

    Values, the encoder of [json.Marshal] (which escapes HTML), and the decoder:
    its string escapes, its replacement of what is not UTF-8, and its limit on
    nesting. A number is its literal. *)
From S2P Require Import Prelude GoLib.
#[local] Open Scope Z_scope.

Inductive json :=
  | JNull
  | JBool (b : bool)
  | JNumber (literal : bytes)
  | JString (s : bytes)
  | JArray (elements : list json)
  | JObject (members : list (bytes * json)).

Definition json_bytes (s : string) : bytes := String.list_byte_of_string s.

(** ** Bytes *)

Definition is_byte (z : Z) (b : byte) : bool := byte_Z b =? z.

(** The width of the UTF-8 sequence [l] starts with, 0 when it is none. *)
Definition rune_width (l : bytes) : nat :=
  match l with
  | [] => O
  | b0 :: l1 =>
    if between 0 127 b0 then 1%nat
    else match l1 with
    | [] => O
    | b1 :: l2 =>
      if between 194 223 b0 then (if continuation b1 then 2%nat else O)
      else match l2 with
      | [] => O
      | b2 :: l3 =>
        if between 224 239 b0 then
          (if (if byte_Z b0 =? 224 then between 160 191 b1
               else if byte_Z b0 =? 237 then between 128 159 b1 else continuation b1) &&
              continuation b2 then 3%nat else O)
        else match l3 with
        | [] => O
        | b3 :: _ =>
          if between 240 244 b0 &&
             (if byte_Z b0 =? 240 then between 144 191 b1
              else if byte_Z b0 =? 244 then between 128 143 b1 else continuation b1) &&
             continuation b2 && continuation b3 then 4%nat else O
        end
      end
    end
  end.

(** The UTF-8 sequence of a code point that is no surrogate. *)
Definition rune_bytes (cp : Z) : bytes :=
  if cp <? 128 then [byte_of cp]
  else if cp <? 2048 then [byte_of (192 + cp / 64); byte_of (128 + cp mod 64)]
  else if cp <? 65536 then [byte_of (224 + cp / 4096); byte_of (128 + cp / 64 mod 64); byte_of (128 + cp mod 64)]
  else [byte_of (240 + cp / 262144); byte_of (128 + cp / 4096 mod 64); byte_of (128 + cp / 64 mod 64); byte_of (128 + cp mod 64)].

(** U+FFFD, which stands for what cannot be read. *)
Definition replacement : bytes := [xef; xbf; xbd].

(** ** The encoder *)

Definition u_escape (cp : Z) : bytes :=
  json_bytes "\u" ++
  json_bytes (hex_digit (cp / 4096) +:+ hex_digit (cp / 256 mod 16) +:+ hex_digit (cp / 16 mod 16) +:+ hex_digit (cp mod 16))%string.

(** A byte under 128 in a string. *)
Definition escape_ascii (b : byte) : bytes :=
  if is_byte 34 b || is_byte 92 b then [x5c; b]
  else if is_byte 8 b then json_bytes "\b"
  else if is_byte 12 b then json_bytes "\f"
  else if is_byte 10 b then json_bytes "\n"
  else if is_byte 13 b then json_bytes "\r"
  else if is_byte 9 b then json_bytes "\t"
  else if (byte_Z b <? 32) || is_byte 60 b || is_byte 62 b || is_byte 38 b then u_escape (byte_Z b)
  else [b].

(** What is left of a sequence: bytes to copy, and bytes to drop. *)
Fixpoint encode_chars (copy skip : nat) (s : bytes) : bytes :=
  match s with
  | [] => []
  | b :: s' =>
    match skip, copy with
    | S skip', _ => encode_chars copy skip' s'
    | O, S copy' => b :: encode_chars copy' 0 s'
    | O, O =>
      match rune_width s with
      | O => json_bytes "\ufffd" ++ encode_chars 0 0 s'
      | 1%nat => escape_ascii b ++ encode_chars 0 0 s'
      | S n =>
        (* U+2028 and U+2029, E2 80 A8 and E2 80 A9 *)
        if bool_decide (take 3 s = [xe2; x80; xa8]) then json_bytes "\u2028" ++ encode_chars 0 n s'
        else if bool_decide (take 3 s = [xe2; x80; xa9]) then json_bytes "\u2029" ++ encode_chars 0 n s'
        else b :: encode_chars n 0 s'
      end
    end
  end.

Definition encode_string (s : bytes) : bytes := x22 :: encode_chars 0 0 s ++ [x22].

Fixpoint encode (v : json) : bytes :=
  match v with
  | JNull => json_bytes "null"
  | JBool b => json_bytes (if b then "true" else "false")
  | JNumber literal => literal
  | JString s => encode_string s
  | JArray elements =>
    (x5b :: (fix go (first : bool) l :=
      match l with
      | [] => []
      | e :: l' => (if first then [] else [x2c]) ++ encode e ++ go false l'
      end) true elements) ++ [x5d]
  | JObject members =>
    (x7b :: (fix go (first : bool) l :=
      match l with
      | [] => []
      | (name, e) :: l' => (if first then [] else [x2c]) ++ encode_string name ++ [x3a] ++ encode e ++ go false l'
      end) true members) ++ [x7d]
  end.

(** ** The decoder *)

Definition is_space (b : byte) : bool := is_byte 32 b || is_byte 9 b || is_byte 10 b || is_byte 13 b.

Fixpoint skip_space (l : bytes) : bytes :=
  match l with
  | b :: l' => if is_space b then skip_space l' else l
  | [] => []
  end.

Definition hex_value (b : byte) : option Z :=
  if between 48 57 b then Some (byte_Z b - 48)
  else if between 97 102 b then Some (byte_Z b - 87)
  else if between 65 70 b then Some (byte_Z b - 55)
  else None.

Definition hex4 (h1 h2 h3 h4 : byte) : option Z :=
  a ← hex_value h1; b ← hex_value h2; c ← hex_value h3; d ← hex_value h4;
  Some (4096 * a + 256 * b + 16 * c + d).

Definition simple_escape (b : byte) : option byte :=
  if is_byte 34 b || is_byte 92 b || is_byte 47 b then Some b
  else if is_byte 98 b then Some x08
  else if is_byte 102 b then Some x0c
  else if is_byte 110 b then Some x0a
  else if is_byte 114 b then Some x0d
  else if is_byte 116 b then Some x09
  else None.

Definition prepend (s : bytes) (r : option (bytes * bytes)) : option (bytes * bytes) :=
  '(s', rest) ← r; Some (s ++ s', rest).

(** A string after its opening quote: its bytes, and what follows the closing
    quote. [copy] bytes of a sequence are left to copy. *)
Fixpoint parse_chars (copy : nat) (l : bytes) : option (bytes * bytes) :=
  match l with
  | [] => None
  | b :: l1 =>
    match copy with
    | S copy' => prepend [b] (parse_chars copy' l1)
    | O =>
      if is_byte 34 b then Some ([], l1)
      else if is_byte 92 b then
        match l1 with
        | [] => None
        | e :: l2 =>
          match simple_escape e with
          | Some c => prepend [c] (parse_chars 0 l2)
          | None =>
            if negb (is_byte 117 e) then None
            else match l2 with
            | h1 :: h2 :: h3 :: h4 :: l6 =>
              match hex4 h1 h2 h3 h4 with
              | None => None
              | Some cp =>
                if (55296 <=? cp) && (cp <? 56320) then
                  match l6 with
                  | s1 :: s2 :: g1 :: g2 :: g3 :: g4 :: l12 =>
                    match hex4 g1 g2 g3 g4 with
                    | Some low =>
                      if is_byte 92 s1 && is_byte 117 s2 && (56320 <=? low) && (low <? 57344)
                      then prepend (rune_bytes (65536 + (cp - 55296) * 1024 + (low - 56320))) (parse_chars 0 l12)
                      else prepend replacement (parse_chars 0 l6)
                    | None => prepend replacement (parse_chars 0 l6)
                    end
                  | _ => prepend replacement (parse_chars 0 l6)
                  end
                else if (56320 <=? cp) && (cp <? 57344) then prepend replacement (parse_chars 0 l6)
                else prepend (rune_bytes cp) (parse_chars 0 l6)
              end
            | _ => None
            end
          end
        end
      else if byte_Z b <? 32 then None
      else match rune_width l with
           | O => prepend replacement (parse_chars 0 l1)
           | S n => prepend [b] (parse_chars n l1)
           end
    end
  end.

Definition is_digit (b : byte) : bool := between 48 57 b.

Fixpoint take_digits (l : bytes) : bytes * bytes :=
  match l with
  | b :: l' => if is_digit b then let (ds, rest) := take_digits l' in (b :: ds, rest) else ([], l)
  | [] => ([], [])
  end.

(** One or more digits. *)
Definition digits1 (l : bytes) : option (bytes * bytes) :=
  let (ds, rest) := take_digits l in match ds with [] => None | _ => Some (ds, rest) end.

(** A number after its sign: digits without a leading zero, a fraction and an
    exponent. *)
Definition parse_unsigned (l : bytes) : option (bytes * bytes) :=
  '(whole, l) ← match l with
    | b :: l' => if is_byte 48 b then Some ([b], l') else digits1 l
    | [] => None
    end;
  '(fraction, l) ← match l with
    | b :: l' => if is_byte 46 b then '(ds, rest) ← digits1 l'; Some (b :: ds, rest) else Some ([], l)
    | [] => Some ([], [])
    end;
  '(exponent, l) ← match l with
    | b :: l' =>
      if is_byte 101 b || is_byte 69 b then
        match l' with
        | s :: l'' =>
          if is_byte 43 s || is_byte 45 s then '(ds, rest) ← digits1 l''; Some (b :: s :: ds, rest)
          else '(ds, rest) ← digits1 l'; Some (b :: ds, rest)
        | [] => None
        end
      else Some ([], l)
    | [] => Some ([], [])
    end;
  Some (whole ++ fraction ++ exponent, l).

Definition parse_number (l : bytes) : option (bytes * bytes) :=
  match l with
  | b :: l' => if is_byte 45 b then prepend [b] (parse_unsigned l') else parse_unsigned l
  | [] => None
  end.

Definition maxNestingDepth : Z := 10000.

Definition literal_after (text : string) (v : json) (l : bytes) : option (json * bytes) :=
  let t := json_bytes text in
  if bool_decide (take (length t) l = t) then Some (v, drop (length t) l) else None.

(** A value, the members of an object after its brace or a comma, and the
    elements of an array. [depth] is how many objects and arrays are open. *)
Fixpoint parse_value (fuel : nat) (depth : Z) (l : bytes) : option (json * bytes) :=
  match fuel with
  | O => None
  | S fuel' =>
    match skip_space l with
    | [] => None
    | b :: l' =>
      if is_byte 123 b then
        if maxNestingDepth <=? depth then None
        else match skip_space l' with
             | c :: l'' =>
               if is_byte 125 c then Some (JObject [], l'')
               else '(members, rest) ← parse_members fuel' (depth + 1) l'; Some (JObject members, rest)
             | [] => None
             end
      else if is_byte 91 b then
        if maxNestingDepth <=? depth then None
        else match skip_space l' with
             | c :: l'' =>
               if is_byte 93 c then Some (JArray [], l'')
               else '(elements, rest) ← parse_elements fuel' (depth + 1) l'; Some (JArray elements, rest)
             | [] => None
             end
      else if is_byte 34 b then '(s, rest) ← parse_chars 0 l'; Some (JString s, rest)
      else if is_byte 116 b then literal_after "true" (JBool true) (b :: l')
      else if is_byte 102 b then literal_after "false" (JBool false) (b :: l')
      else if is_byte 110 b then literal_after "null" JNull (b :: l')
      else '(literal, rest) ← parse_number (b :: l'); Some (JNumber literal, rest)
    end
  end
with parse_members (fuel : nat) (depth : Z) (l : bytes) : option (list (bytes * json) * bytes) :=
  match fuel with
  | O => None
  | S fuel' =>
    match skip_space l with
    | q :: l1 =>
      if negb (is_byte 34 q) then None
      else
        '(name, l2) ← parse_chars 0 l1;
        match skip_space l2 with
        | c :: l3 =>
          if negb (is_byte 58 c) then None
          else
            '(v, l4) ← parse_value fuel' depth l3;
            match skip_space l4 with
            | e :: l5 =>
              if is_byte 44 e then '(members, rest) ← parse_members fuel' depth l5; Some ((name, v) :: members, rest)
              else if is_byte 125 e then Some ([(name, v)], l5)
              else None
            | [] => None
            end
        | [] => None
        end
    | [] => None
    end
  end
with parse_elements (fuel : nat) (depth : Z) (l : bytes) : option (list json * bytes) :=
  match fuel with
  | O => None
  | S fuel' =>
    '(v, l1) ← parse_value fuel' depth l;
    match skip_space l1 with
    | e :: l2 =>
      if is_byte 44 e then '(elements, rest) ← parse_elements fuel' depth l2; Some (v :: elements, rest)
      else if is_byte 93 e then Some ([v], l2)
      else None
    | [] => None
    end
  end.

(** [json.Decoder.Decode]: the first value of the input, and what follows it.
    Every call of the parser reads a byte at least, so the length is fuel
    enough. *)
Definition decode (l : bytes) : option (json * bytes) := parse_value (S (length l)) 0 l.

(** JSON text with its double quotes written as single ones. *)
Definition quoted (text : string) : bytes :=
  map (fun b => if is_byte 39 b then x22 else b) (json_bytes text).

Example decode_examples :
  decode (quoted "{ 'a' : [1, -2.5e3, '\u00e5\n\ud83d\ude00'], 'b': null } x") =
    Some (JObject [(json_bytes "a", JArray [JNumber (json_bytes "1"); JNumber (json_bytes "-2.5e3");
                                            JString [xc3; xa5; x0a; xf0; x9f; x98; x80]]);
                   (json_bytes "b", JNull)], json_bytes " x") /\
  decode (quoted "{'a':1,}") = None /\ decode (quoted "01") = Some (JNumber (json_bytes "0"), json_bytes "1") /\
  decode (quoted "'\ud83dx'") = Some (JString (replacement ++ json_bytes "x"), []) /\
  decode (x22 :: [xff; x22]) = Some (JString replacement, []).
Proof. vm_compute. auto 10. Qed.

Example encode_examples :
  encode (JObject [(json_bytes "a", JString [x3c; x22; x5c; x0a; x01; xc3; xa5; xff; xe2; x80; xa8])]) =
    quoted "{'a':'\u003c" ++ [x5c; x22] ++ quoted "\\\n\u0001" ++ [xc3; xa5] ++ quoted "\ufffd\u2028'}".
Proof. vm_compute. reflexivity. Qed.

(** ** Integers *)

(** The digits of [n] before those in [acc]. *)
Fixpoint digits_of (fuel : nat) (n : Z) (acc : bytes) : bytes :=
  match fuel with
  | O => acc
  | S fuel' =>
    let acc := byte_of (48 + n mod 10) :: acc in
    if n <? 10 then acc else digits_of fuel' (n / 10) acc
  end.

(** [strconv.AppendInt] in base 10. A number has no more digits than bits. *)
Definition decimal (z : Z) : bytes :=
  let digits n := digits_of (S (Z.to_nat (Z.log2 n))) n [] in
  if z <? 0 then x2d :: digits (- z) else digits z.

Definition digits_value (ds : bytes) : Z := fold_left (fun n b => 10 * n + (byte_Z b - 48)) ds 0.

(** [strconv.ParseInt] in base 10 and 64 bits, of a JSON number's literal. *)
Definition parse_int (literal : bytes) : option Z :=
  let (negative, ds) := match literal with b :: l => if is_byte 45 b then (true, l) else (false, literal) | [] => (false, []) end in
  if negb (bool_decide (ds = [])) && forallb is_digit ds then
    let z := if negative then - digits_value ds else digits_value ds in
    if (min_int64 <=? z) && (z <=? max_int64) then Some z else None
  else None.

Example decimal_examples :
  decimal 0 = json_bytes "0" /\ decimal (-1205) = json_bytes "-1205" /\ decimal max_int64 = json_bytes "9223372036854775807" /\
  parse_int (json_bytes "-1205") = Some (-1205) /\ parse_int (json_bytes "9223372036854775808") = None /\
  parse_int (json_bytes "2.0") = None.
Proof. vm_compute. auto 10. Qed.

Lemma digit_byte d : 0 <= d < 10 -> is_digit (byte_of (48 + d)) = true.
Proof. intros. unfold is_digit, between. rewrite byte_Z_byte_of; lia. Qed.

(** The digits of [n]: digits, without a leading zero but for 0 itself, and
    their value is [n]. *)
Lemma digits_of_spec fuel n acc :
  0 <= n < 2 ^ Z.of_nat fuel -> (0 < fuel)%nat ->
  exists ds, digits_of fuel n acc = ds ++ acc /\ forallb is_digit ds = true /\ digits_value ds = n /\ ds <> [] /\
    (n = 0 -> ds = [x30]) /\ (0 < n -> forall b, head ds = Some b -> is_byte 48 b = false).
Proof.
  revert n acc. induction fuel as [|fuel IH]; intros n acc Hn Hfuel; [lia|]. cbn [digits_of].
  pose proof (Z.mod_pos_bound n 10 ltac:(lia)) as Hmod.
  destruct (n <? 10) eqn:Hlt.
  - exists [byte_of (48 + n mod 10)]. rewrite Z.mod_small by lia. split_and!; try done.
    + simpl. by rewrite digit_byte by lia.
    + unfold digits_value. cbn [fold_left]. rewrite byte_Z_byte_of; lia.
    + by intros ->.
    + intros Hpos b [= <-]. unfold is_byte. rewrite byte_Z_byte_of; lia.
  - assert (Hdiv : 1 <= n / 10) by (apply Z.div_le_lower_bound; lia).
    assert (Hbound : n / 10 < 2 ^ Z.of_nat fuel).
    { rewrite Nat2Z.inj_succ, Z.pow_succ_r in Hn by lia. apply Z.div_lt_upper_bound; lia. }
    destruct fuel as [|fuel']; [simpl in Hbound; lia|].
    destruct (IH (n / 10) (byte_of (48 + n mod 10) :: acc)) as (ds & -> & Hds & Hval & Hne & _ & Hhead); [lia..|].
    exists (ds ++ [byte_of (48 + n mod 10)]). rewrite <-(assoc_L (++)). split_and!; try done.
    + rewrite forallb_app, Hds. simpl. by rewrite digit_byte by lia.
    + unfold digits_value in *. rewrite fold_left_app, Hval. cbn [fold_left].
      rewrite byte_Z_byte_of by lia. pose proof (Z.div_mod n 10). lia.
    + by destruct ds.
    + lia.
    + intros _ b Hb. apply Hhead; [lia|]. by destruct ds.
Qed.

Lemma digits_spec n :
  0 <= n ->
  exists ds, digits_of (S (Z.to_nat (Z.log2 n))) n [] = ds /\ forallb is_digit ds = true /\ digits_value ds = n /\ ds <> [] /\
    (n = 0 -> ds = [x30]) /\ (0 < n -> forall b, head ds = Some b -> is_byte 48 b = false).
Proof.
  intros Hn. destruct (digits_of_spec (S (Z.to_nat (Z.log2 n))) n []) as (ds & Heq & H); [|lia|].
  - split; [done|]. rewrite Nat2Z.inj_succ, Z2Nat.id by apply Z.log2_nonneg.
    destruct (Z.eq_dec n 0) as [->|]; [done|]. apply Z.log2_spec. lia.
  - exists ds. by rewrite Heq, app_nil_r.
Qed.

Lemma parse_int_decimal z : in_int64 z -> parse_int (decimal z) = Some z.
Proof.
  unfold in_int64. intros Hz. unfold decimal, parse_int.
  destruct (digits_spec (Z.abs z) ltac:(lia)) as (ds & Heq & Hds & Hval & Hne & _).
  assert (Hok : negb (bool_decide (ds = [])) && forallb is_digit ds = true) by (rewrite Hds, bool_decide_eq_false_2; done).
  destruct (z <? 0) eqn:Hneg.
  - replace (- z) with (Z.abs z) by lia. rewrite Heq. cbn. rewrite Hok, Hval. case_match; [f_equal|]; lia.
  - rewrite (Z.abs_eq z) in Heq, Hval by lia. rewrite Heq. destruct ds as [|b ds]; [done|].
    assert (Hb : is_byte 45 b = false).
    { simpl in Hds. unfold is_digit, between in Hds. unfold is_byte. lia. }
    rewrite Hb. cbv beta iota zeta. rewrite Hok, Hval. case_match; [f_equal|]; lia.
Qed.

(** What may follow a number: no character that could go on with it. *)
Definition ends_number (l : bytes) : Prop :=
  forall b, head l = Some b -> is_digit b = false /\ is_byte 46 b = false /\ is_byte 101 b = false /\ is_byte 69 b = false.

Lemma take_digits_app ds rest :
  forallb is_digit ds = true -> ends_number rest -> take_digits (ds ++ rest) = (ds, rest).
Proof.
  intros Hds Hrest. induction ds as [|d ds IH]; simpl in *.
  - destruct rest as [|b rest]; [done|]. simpl. by destruct (Hrest b eq_refl) as [-> _].
  - apply andb_true_iff in Hds as [-> Hds]. by rewrite IH.
Qed.

Lemma parse_unsigned_digits ds rest :
  forallb is_digit ds = true -> ds <> [] ->
  ds = [x30] \/ (forall b, head ds = Some b -> is_byte 48 b = false) -> ends_number rest ->
  parse_unsigned (ds ++ rest) = Some (ds, rest).
Proof.
  intros Hds Hne Hhead Hrest. unfold parse_unsigned. destruct ds as [|b ds]; [done|].
  assert (Hw : (if is_byte 48 b then Some ([b], ds ++ rest) else digits1 ((b :: ds) ++ rest)) = Some (b :: ds, rest)).
  { destruct Hhead as [[= -> ->]|Hhead]; [done|]. rewrite (Hhead b eq_refl).
    unfold digits1. by rewrite take_digits_app. }
  cbn [app] in Hw |- *. rewrite Hw. cbn. destruct rest as [|c rest]; cbn; [by rewrite app_nil_r|].
  destruct (Hrest c eq_refl) as (_ & -> & H101 & H69). cbn. rewrite H101, H69. cbn. by rewrite app_nil_r.
Qed.

Lemma parse_number_decimal z rest : ends_number rest -> parse_number (decimal z ++ rest) = Some (decimal z, rest).
Proof.
  intros Hrest. unfold decimal.
  destruct (digits_spec (Z.abs z) ltac:(lia)) as (ds & Heq & Hds & Hval & Hne & Hzero & Hhead).
  assert (Hfirst : ds = [x30] \/ (forall b, head ds = Some b -> is_byte 48 b = false)).
  { destruct (Z.eq_dec (Z.abs z) 0); [left; auto|right; apply Hhead; lia]. }
  destruct (z <? 0) eqn:Hneg.
  - replace (- z) with (Z.abs z) by lia. rewrite Heq. cbn. by rewrite parse_unsigned_digits.
  - rewrite (Z.abs_eq z) in Heq by lia. rewrite Heq.
    pose proof (parse_unsigned_digits ds rest Hds Hne Hfirst Hrest) as Hparse. destruct ds as [|b ds]; [done|].
    assert (Hb : is_byte 45 b = false).
    { simpl in Hds. unfold is_digit, between in Hds. unfold is_byte. lia. }
    unfold parse_number. cbn [app] in *. by rewrite Hb.
Qed.

(** ** Strings round trip *)

Lemma utf8_rune s :
  utf8_valid s = true -> s <> [] ->
  exists w, rune_width s = S w /\ (S w <= length s)%nat /\ utf8_valid (drop (S w) s) = true.
Proof.
  intros Hs Hne. destruct s as [|b0 s]; [done|]. cbn [utf8_valid] in Hs. unfold rune_width.
  destruct (between 0 127 b0); [exists 0%nat; simpl; split_and!; [done|lia|done]|].
  destruct s as [|b1 s]; [done|]. destruct (between 194 223 b0).
  { apply andb_true_iff in Hs as [-> Hs]. exists 1%nat. simpl. split_and!; [done|lia|done]. }
  destruct s as [|b2 s]; [done|]. destruct (between 224 239 b0).
  { apply andb_true_iff in Hs as [-> Hs]. exists 2%nat. simpl. split_and!; [done|lia|done]. }
  destruct s as [|b3 s]; [done|]. destruct (between 240 244 b0); [|done].
  apply andb_true_iff in Hs as [Hs Hv]. cbn [andb]. rewrite Hs. exists 3%nat. simpl. split_and!; [done|lia|done].
Qed.

(** The width depends on the sequence alone. *)
Lemma rune_width_take s l w : rune_width s = S w -> rune_width (take (S w) s ++ l) = S w.
Proof.
  destruct s as [|b0 s]; [done|]. unfold rune_width. destruct (between 0 127 b0) eqn:H0.
  { intros [= <-]. simpl. by rewrite H0. }
  destruct s as [|b1 s]; [done|]. destruct (between 194 223 b0) eqn:H1.
  { destruct (continuation b1) eqn:?; intros [= <-]. simpl. by rewrite H0, H1, Heqb. }
  destruct s as [|b2 s]; [done|]. destruct (between 224 239 b0) eqn:H2.
  { destruct (_ && continuation b2) eqn:He; intros [= <-]. simpl. by rewrite H0, H1, H2, He. }
  destruct s as [|b3 s]; [done|]. destruct (_ && continuation b3) eqn:He; intros [= <-].
  simpl. by rewrite H0, H1, H2, He.
Qed.

Lemma rune_width_multi b s w : rune_width (b :: s) = S (S w) -> 128 <= byte_Z b.
Proof.
  unfold rune_width. destruct (between 0 127 b) eqn:H; [done|]. intros _. unfold between in H.
  pose proof (N2Z.is_nonneg (Strings.Byte.to_N b)). unfold byte_Z in *. lia.
Qed.

Lemma encode_chars_copy n s :
  (n <= length s)%nat -> encode_chars n 0 s = take n s ++ encode_chars 0 0 (drop n s).
Proof.
  revert s. induction n as [|n IH]; intros [|b s] Hn; simpl in Hn; try lia; try done.
  cbn [encode_chars take drop app]. by rewrite IH by lia.
Qed.

Lemma encode_chars_skip n s :
  (n <= length s)%nat -> encode_chars 0 n s = encode_chars 0 0 (drop n s).
Proof.
  revert s. induction n as [|n IH]; intros [|b s] Hn; simpl in Hn; try lia; try done.
  cbn [encode_chars drop]. by rewrite IH by lia.
Qed.

Lemma prepend_app s t r : prepend s (prepend t r) = prepend (s ++ t) r.
Proof. destruct r as [[u rest]|]; [|done]. simpl. by rewrite (assoc_L (++)). Qed.

Lemma parse_chars_copy t l : parse_chars (length t) (t ++ l) = prepend t (parse_chars 0 l).
Proof.
  induction t as [|b t IH]; simpl; [by destruct (parse_chars 0 l) as [[]|]|].
  by rewrite IH, prepend_app.
Qed.

Lemma parse_chars_ascii b l : between 0 127 b = true -> parse_chars 0 (escape_ascii b ++ l) = prepend [b] (parse_chars 0 l).
Proof. destruct b; try (intros H; vm_compute in H; discriminate H); intros _; reflexivity. Qed.

(** The bytes of a sequence that is not ASCII are read as they are. *)
Lemma parse_chars_rune s l w :
  rune_width s = S (S w) -> (S (S w) <= length s)%nat ->
  parse_chars 0 (take (S (S w)) s ++ l) = prepend (take (S (S w)) s) (parse_chars 0 l).
Proof.
  intros Hw Hlen. destruct s as [|b s]; [done|]. pose proof (rune_width_take _ l _ Hw) as Hrune.
  pose proof (rune_width_multi _ _ _ Hw) as Hb. cbn [take app] in Hrune |- *. cbn [parse_chars].
  unfold is_byte. replace (byte_Z b =? 34) with false by lia. replace (byte_Z b =? 92) with false by lia.
  replace (byte_Z b <? 32) with false by lia. rewrite Hrune.
  assert (Hl : length (take (S w) s) = S w) by (rewrite length_take; simpl in Hlen; lia).
  rewrite <-Hl at 1. rewrite parse_chars_copy, prepend_app. done.
Qed.

Lemma parse_encode_chars n s rest :
  (length s <= n)%nat -> utf8_valid s = true -> parse_chars 0 (encode_chars 0 0 s ++ x22 :: rest) = Some (s, rest).
Proof.
  revert s. induction n as [|n IH]; intros s Hn Hs; [by destruct s; simpl in *; [|lia]|].
  destruct s as [|b s]; [done|]. destruct (utf8_rune (b :: s) Hs ltac:(done)) as (w & Hw & Hlen & Hdrop).
  specialize (IH (drop (S w) (b :: s)) ltac:(rewrite length_drop; simpl in *; lia) Hdrop).
  assert (Hgoal : forall t, parse_chars 0 (t ++ encode_chars 0 0 (drop (S w) (b :: s)) ++ x22 :: rest) =
      prepend t (parse_chars 0 (encode_chars 0 0 (drop (S w) (b :: s)) ++ x22 :: rest)) ->
      t = take (S w) (b :: s) ->
      parse_chars 0 (t ++ encode_chars 0 0 (drop (S w) (b :: s)) ++ x22 :: rest) = Some (b :: s, rest)).
  { intros t -> ->. rewrite IH. cbn [prepend mbind option_bind]. by rewrite take_drop. }
  cbn [encode_chars]. rewrite Hw. destruct w as [|w].
  - rewrite <-(assoc_L (++)), parse_chars_ascii.
    + change (drop 1 (b :: s)) with s in IH. rewrite IH. reflexivity.
    + unfold rune_width in Hw. destruct (between 0 127 b); [done|]. by repeat case_match.
  - cbn [length] in Hlen. case_bool_decide as H8; [|case_bool_decide as H9].
    3: { change (b :: encode_chars (S w) 0 s) with ([b] ++ encode_chars (S w) 0 s).
         rewrite encode_chars_copy by lia.
         rewrite (assoc_L (++)), <-(assoc_L (++) ([b] ++ _)). apply Hgoal; [|done].
         change ([b] ++ take (S w) s) with (take (S (S w)) (b :: s)). apply parse_chars_rune; [done|simpl; lia]. }
    all: assert (Htake : S w = 2%nat /\ take 3 (b :: s) = take (S (S w)) (b :: s))
      by (destruct s as [|b1 [|b2 s]]; try discriminate; first [injection H8 as -> -> ->|injection H9 as -> -> ->];
          vm_compute in Hw; injection Hw as <-; done).
    all: destruct Htake as [Hw2 Htake]; rewrite encode_chars_skip, <-(assoc_L (++)) by lia.
    all: change (drop (S w) s) with (drop (S (S w)) (b :: s)).
    all: match goal with |- context [json_bytes ?e ++ _] =>
      assert (Hesc : parse_chars 0 (json_bytes e ++ encode_chars 0 0 (drop (S (S w)) (b :: s)) ++ x22 :: rest) =
        prepend (take (S (S w)) (b :: s)) (parse_chars 0 (encode_chars 0 0 (drop (S (S w)) (b :: s)) ++ x22 :: rest))) end;
      [rewrite <-Htake; first [rewrite H8|rewrite H9]; reflexivity|].
    all: rewrite Hesc, IH; cbn [prepend mbind option_bind]; by rewrite take_drop.
Qed.

(** ** Values round trip *)

Lemma json_nested_ind (P : json -> Prop) :
  P JNull -> (forall b, P (JBool b)) -> (forall l, P (JNumber l)) -> (forall s, P (JString s)) ->
  (forall l, Forall P l -> P (JArray l)) -> (forall l, Forall (fun m => P m.2) l -> P (JObject l)) ->
  forall v, P v.
Proof.
  intros Hnull Hbool Hnumber Hstring Harray Hobject. fix IH 1. intros [|b|literal|s|l|l].
  - exact Hnull.
  - apply Hbool.
  - apply Hnumber.
  - apply Hstring.
  - apply Harray. induction l as [|e l IHl]; constructor; [apply IH|exact IHl].
  - apply Hobject. induction l as [|[name v] l IHl]; constructor; [apply IH|exact IHl].
Qed.

(** What the agent writes: integers, and strings that are UTF-8. *)
Fixpoint writable (v : json) : Prop :=
  match v with
  | JNumber literal => exists z, literal = decimal z
  | JString s => utf8_valid s = true
  | JArray l => (fix go l := match l with [] => True | e :: l' => writable e /\ go l' end) l
  | JObject l => (fix go l := match l with [] => True | (name, e) :: l' => utf8_valid name = true /\ writable e /\ go l' end) l
  | _ => True
  end.

(** How many objects and arrays are open at most inside a value. *)
Fixpoint height (v : json) : Z :=
  match v with
  | JArray l => 1 + (fix go l := match l with [] => 0 | e :: l' => Z.max (height e) (go l') end) l
  | JObject l => 1 + (fix go l := match l with [] => 0 | (_, e) :: l' => Z.max (height e) (go l') end) l
  | _ => 0
  end.

Lemma height_nonneg v : 0 <= height v.
Proof.
  induction v as [|b|literal|s|l IH|l IH] using json_nested_ind; cbn [height]; try lia.
  - induction IH; lia.
  - induction IH as [|[name v] l ? ? ?]; lia.
Qed.

Definition elements_tail (l : list json) : bytes := concat (map (fun e => x2c :: encode e) l).
Definition member_bytes (m : bytes * json) : bytes := encode_string m.1 ++ x3a :: encode m.2.
Definition members_tail (l : list (bytes * json)) : bytes := concat (map (fun m => x2c :: member_bytes m) l).

Lemma encode_array e l : encode (JArray (e :: l)) = x5b :: encode e ++ elements_tail l ++ [x5d].
Proof.
  cbn [encode].
  match goal with |- context [?go false l] => assert (Hgo : go false l = elements_tail l) end.
  { induction l as [|e' l IH]; [done|]. unfold elements_tail. cbn [map concat]. by rewrite IH. }
  rewrite Hgo. cbn [app]. by rewrite <-!(assoc_L (++)).
Qed.

Lemma encode_object m l : encode (JObject (m :: l)) = x7b :: member_bytes m ++ members_tail l ++ [x7d].
Proof.
  destruct m as [name e]. cbn [encode].
  match goal with |- context [?go false l] => assert (Hgo : go false l = members_tail l) end.
  { induction l as [|[name' e'] l IH]; [done|]. unfold members_tail, member_bytes. cbn [map concat fst snd].
    rewrite IH. cbn [app]. f_equal. rewrite <-(assoc_L (++)). done. }
  rewrite Hgo. unfold member_bytes. cbn [fst snd app]. rewrite <-!(assoc_L (++)). cbn [app]. by rewrite <-(assoc_L (++) (encode e)).
Qed.

Definition opens_value (l : bytes) : Prop :=
  exists b t, l = b :: t /\ is_space b = false /\ is_byte 93 b = false /\ is_byte 125 b = false.

(** A number is none of the other kinds. *)
Lemma decimal_head z :
  exists b t, decimal z = b :: t /\ is_space b = false /\ is_byte 93 b = false /\ is_byte 125 b = false /\
    is_byte 123 b = false /\ is_byte 91 b = false /\ is_byte 34 b = false /\ is_byte 116 b = false /\
    is_byte 102 b = false /\ is_byte 110 b = false.
Proof.
  unfold decimal. destruct (z <? 0) eqn:Hz; [eexists _, _; split; [reflexivity|done]|].
  destruct (digits_spec z ltac:(lia)) as (ds & -> & Hds & _ & Hne & _).
  destruct ds as [|b ds]; [done|]. exists b, ds. simpl in Hds. unfold is_digit, between in Hds.
  unfold is_space, is_byte. split_and!; [done|lia..].
Qed.

Lemma encode_opens v : writable v -> opens_value (encode v).
Proof.
  destruct v as [|[]|literal|s|l|l]; cbn [writable]; try (intros _; eexists _, _; split; [reflexivity|done]).
  intros [z ->]. destruct (decimal_head z) as (b & t & ? & ? & ? & ? & _). by exists b, t.
Qed.

Lemma skip_space_opens l rest : opens_value l -> skip_space (l ++ rest) = l ++ rest.
Proof. intros (b & t & -> & Hb & _). simpl. by rewrite Hb. Qed.

Definition round_trips (v : json) : Prop :=
  forall fuel depth rest,
    (length (encode v) < fuel)%nat -> depth + height v <= maxNestingDepth -> writable v -> ends_number rest ->
    parse_value fuel depth (encode v ++ rest) = Some (v, rest).

Lemma ends_number_after b l :
  is_digit b = false -> is_byte 46 b = false -> is_byte 101 b = false -> is_byte 69 b = false -> ends_number (b :: l).
Proof. intros ???? c [= <-]. auto. Qed.

Lemma elements_round_trip e l fuel depth rest :
  Forall round_trips (e :: l) ->
  (length (encode e ++ elements_tail l) < fuel)%nat -> depth + height (JArray (e :: l)) <= maxNestingDepth + 1 ->
  writable (JArray (e :: l)) ->
  parse_elements (S fuel) depth (encode e ++ elements_tail l ++ x5d :: rest) = Some (e :: l, rest).
Proof.
  revert e fuel. induction l as [|e' l IH]; intros e fuel Hall Hfuel Hdepth Hw; apply Forall_cons in Hall as [He Hall];
    cbn [height writable] in Hdepth, Hw; destruct Hw as [Hwe Hwl]; rewrite length_app in Hfuel.
  - change (parse_elements (S fuel) depth (encode e ++ x5d :: rest) = Some ([e], rest)).
    cbn [parse_elements]. rewrite He; [done|simpl in *; lia|lia|done|by apply ends_number_after].
  - unfold elements_tail in *. cbn [map concat] in *. rewrite length_app in Hfuel. cbn [length] in Hfuel.
    rewrite <-(assoc_L (++)). cbn [app]. cbn [parse_elements].
    rewrite He; [|lia|lia|done|by apply ends_number_after]. cbn [mbind option_bind skip_space is_space].
    destruct fuel as [|fuel]; [lia|].
    change (is_space x2c) with false. cbn iota. change (is_byte 44 x2c) with true. cbn iota.
    rewrite IH; [done|done|rewrite length_app; lia|cbn [height]; lia|done].
Qed.

Lemma encode_string_parse s rest : utf8_valid s = true ->
  exists l, encode_string s ++ rest = x22 :: l /\ parse_chars 0 l = Some (s, rest).
Proof.
  intros Hs. exists (encode_chars 0 0 s ++ x22 :: rest). unfold encode_string. cbn [app]. rewrite <-(assoc_L (++)).
  split; [done|]. by apply (parse_encode_chars (length s)).
Qed.

Lemma members_round_trip m l fuel depth rest :
  Forall (fun m => round_trips m.2) (m :: l) ->
  (length (member_bytes m ++ members_tail l) < fuel)%nat -> depth + height (JObject (m :: l)) <= maxNestingDepth + 1 ->
  writable (JObject (m :: l)) ->
  parse_members (S fuel) depth (member_bytes m ++ members_tail l ++ x7d :: rest) = Some (m :: l, rest).
Proof.
  revert m fuel. induction l as [|m' l IH]; intros [name e] fuel Hall Hfuel Hdepth Hw; apply Forall_cons in Hall as [He Hall];
    cbn [height writable] in Hdepth, Hw; destruct Hw as (Hname & Hwe & Hwl); unfold member_bytes in Hfuel |- *;
    cbn [fst snd] in *; rewrite !length_app in Hfuel; cbn [length] in Hfuel.
  - rewrite <-(assoc_L (++)). destruct (encode_string_parse name ((x3a :: encode e) ++ members_tail [] ++ x7d :: rest) Hname)
      as (t & -> & Hparse).
    cbn [parse_members skip_space]. change (is_space x22) with false. cbn iota. change (is_byte 34 x22) with true. cbn [negb].
    rewrite Hparse. cbn [mbind option_bind app skip_space]. change (is_space x3a) with false. cbn iota.
    change (is_byte 58 x3a) with true. cbn [negb]. change (members_tail []) with (@nil byte). cbn [app].
    rewrite He; [|lia|lia|done|by apply ends_number_after]. done.
  - unfold members_tail in *. cbn [map concat] in *. rewrite length_app in Hfuel. cbn [length] in Hfuel.
    rewrite <-!(assoc_L (++)). destruct (encode_string_parse name ((x3a :: encode e) ++ (x2c :: member_bytes m') ++
      concat (map (fun m => x2c :: member_bytes m) l) ++ x7d :: rest) Hname) as (t & -> & Hparse).
    cbn [parse_members skip_space]. change (is_space x22) with false. cbn iota. change (is_byte 34 x22) with true. cbn [negb].
    rewrite Hparse. cbn [mbind option_bind app skip_space]. change (is_space x3a) with false. cbn iota.
    change (is_byte 58 x3a) with true. cbn [negb].
    rewrite He; [|lia|lia|done|by apply ends_number_after]. cbn [mbind option_bind skip_space].
    change (is_space x2c) with false. cbn iota. change (is_byte 44 x2c) with true. cbn iota.
    destruct fuel as [|fuel]; [lia|].
    rewrite IH; [done|done|rewrite length_app; lia|destruct m'; cbn [height] in *; lia|done].
Qed.

Lemma value_round_trips v : round_trips v.
Proof.
  induction v as [|[]|literal|s|l IH|l IH] using json_nested_ind; intros fuel depth rest Hfuel Hdepth Hw Hrest;
    (destruct fuel as [|fuel]; [lia|]).
  1-3: reflexivity.
  - destruct Hw as [z ->]. cbn [encode]. destruct (decimal_head z) as (b & t & Heq & Hsp & _ & _ & H1 & H2 & H3 & H4 & H5 & H6).
    pose proof (parse_number_decimal z rest Hrest) as Hparse. rewrite Heq in Hparse |- *. cbn [app] in Hparse |- *.
    cbn [parse_value skip_space]. rewrite Hsp, H1, H2, H3, H4, H5, H6, Hparse. done.
  - cbn [encode writable] in *. destruct (encode_string_parse s rest Hw) as (t & -> & Hparse).
    change (parse_value (S fuel) depth (x22 :: t)) with ('(s, rest) ← parse_chars 0 t; Some (JString s, rest)).
    by rewrite Hparse.
  - destruct l as [|e l].
    { change (parse_value (S fuel) depth (encode (JArray []) ++ rest)) with
        (if maxNestingDepth <=? depth then None else Some (JArray [], rest)).
      cbn [height] in Hdepth. by replace (maxNestingDepth <=? depth) with false by lia. }
    rewrite encode_array in Hfuel |- *. cbn [app length] in Hfuel |- *. rewrite <-!(assoc_L (++)). cbn [app].
    assert (Hheight : 1 <= height (JArray (e :: l))).
    { cbn [height]. pose proof (height_nonneg e). lia. }
    destruct Hw as [Hwe Hwl]. pose proof (encode_opens e Hwe) as (b & t & Heq & Hsp & H93 & _).
    rewrite !length_app in Hfuel. cbn [length] in Hfuel. destruct fuel as [|fuel]; [lia|].
    pose proof (elements_round_trip e l fuel (depth + 1) rest IH ltac:(rewrite length_app; lia) ltac:(lia) (conj Hwe Hwl)) as Hparse.
    rewrite Heq in Hparse |- *. cbn [app] in Hparse |- *.
    assert (Hstep : forall fuel l', parse_value (S fuel) depth (x5b :: b :: l') =
      (if maxNestingDepth <=? depth then None
       else '(elements, rest) ← parse_elements fuel (depth + 1) (b :: l'); Some (JArray elements, rest))).
    { intros f l'. cbn [parse_value skip_space]. change (is_space x5b) with false. cbn iota. cbn [skip_space]. rewrite Hsp.
      change (is_byte 123 x5b) with false. change (is_byte 91 x5b) with true. cbn iota. by rewrite H93. }
    rewrite Hstep, Hparse. by replace (maxNestingDepth <=? depth) with false by lia.
  - destruct l as [|m l].
    { change (parse_value (S fuel) depth (encode (JObject []) ++ rest)) with
        (if maxNestingDepth <=? depth then None else Some (JObject [], rest)).
      cbn [height] in Hdepth. by replace (maxNestingDepth <=? depth) with false by lia. }
    rewrite encode_object in Hfuel |- *. cbn [app length] in Hfuel |- *. rewrite <-!(assoc_L (++)). cbn [app].
    assert (Hheight : 1 <= height (JObject (m :: l))).
    { destruct m as [name e]. cbn [height]. pose proof (height_nonneg e). lia. }
    rewrite !length_app in Hfuel. cbn [length] in Hfuel. destruct fuel as [|fuel]; [lia|].
    pose proof (members_round_trip m l fuel (depth + 1) rest IH ltac:(rewrite length_app; lia) ltac:(lia) Hw) as Hparse.
    destruct m as [name e]. unfold member_bytes, encode_string in Hparse |- *. cbn [fst snd app] in Hparse |- *.
    assert (Hstep : forall fuel l', parse_value (S fuel) depth (x7b :: x22 :: l') =
      (if maxNestingDepth <=? depth then None
       else '(members, rest) ← parse_members fuel (depth + 1) (x22 :: l'); Some (JObject members, rest))) by done.
    rewrite Hstep, Hparse. by replace (maxNestingDepth <=? depth) with false by lia.
Qed.

(** What [json.Marshal] writes, [Decode] reads back. *)
Lemma decode_encode v rest :
  writable v -> height v <= maxNestingDepth -> ends_number rest -> decode (encode v ++ rest) = Some (v, rest).
Proof. intros. apply value_round_trips; [rewrite length_app; lia|lia|done|done]. Qed.
