(* ===== verification/Duration.v ===== *)
(** * How time writes a duration, and that time.ParseDuration reads it back

    A configuration is shown, and written, with its durations as text; the same
    text in a file means the same duration. *)
From S2P Require Import Prelude GoLib Float Strconv Json.
From Stdlib Require Import Floats.SpecFloat.
#[local] Open Scope Z_scope.

(** ** [Duration.String]

    The text is written from its end: the operations put bytes before those in
    [acc]. *)

(** [fmtFrac]: the fraction of [v] over 10 to [prec], without trailing zeroes,
    and what is left of [v]. *)
Fixpoint fmtFrac (prec : nat) (v : Z) (print : bool) (acc : bytes) : bytes * Z :=
  match prec with
  | O => (if print then x2e :: acc else acc, v)
  | S prec' =>
    let digit := v mod 10 in
    let print := print || negb (digit =? 0) in
    fmtFrac prec' (v / 10) print (if print then byte_of (48 + digit) :: acc else acc)
  end.

(** [fmtInt]. *)
Definition fmtInt (v : Z) (acc : bytes) : bytes := digits_of (S (Z.to_nat (Z.log2 v))) v acc.

(** The micro sign and an s. *)
Definition micros : bytes := [xc2; xb5; x73].

Definition small_text (prec : nat) (unit : bytes) (u : Z) : bytes :=
  let (acc, u) := fmtFrac prec u false unit in fmtInt u acc.

(** [Duration.format] of the magnitude. *)
Definition magnitude_text (u : Z) : bytes :=
  if u <? Second then
    if u =? 0 then [x30; x73]
    else if u <? 1000 then small_text 0 [x6e; x73] u
    else if u <? Millisecond then small_text 3 micros u
    else small_text 6 [x6d; x73] u
  else
    let (acc, u) := fmtFrac 9 u false [x73] in
    let acc := fmtInt (u mod 60) acc in
    let u := u / 60 in
    if 0 <? u then
      let acc := fmtInt (u mod 60) (x6d :: acc) in
      let u := u / 60 in
      if 0 <? u then fmtInt u (x68 :: acc) else acc
    else acc.

Definition Duration_text (d : duration) : bytes :=
  if d <? 0 then x2d :: magnitude_text (uint64 (- d)) else magnitude_text d.

Definition Duration_String (d : duration) : string := string_of_bytes (Duration_text d).

Example Duration_examples :
  Duration_String 0 = "0s"%string /\ Duration_String (1500 * Millisecond) = "1.5s"%string /\ Duration_String 90000000000 = "1m30s"%string /\
  Duration_String 200000000 = "200ms"%string /\ Duration_String (-1100) = string_of_bytes ([x2d; x31; x2e; x31] ++ micros) /\
  Duration_String min_int64 = "-2562047h47m16.854775808s"%string /\ Duration_String (3600 * Second) = "1h0m0s"%string.
Proof. vm_compute. auto 10. Qed.

(** ** What it writes: digits, a fraction and a unit *)

Lemma decimal_is_digit b : is_digit b = decimal_digit b.
Proof. done. Qed.

Lemma digits_value_app ds ds' : digits_value (ds ++ ds') = digits_value ds * 10 ^ Z.of_nat (length ds') + digits_value ds'.
Proof.
  induction ds' as [|b ds' IH] using rev_ind; [rewrite app_nil_r; cbn; lia|].
  rewrite app_assoc. unfold digits_value in *. rewrite fold_left_app, IH, fold_left_app, length_app. cbn [fold_left length].
  rewrite Nat.add_comm. cbn [Nat.add]. rewrite Nat2Z.inj_succ, Z.pow_succ_r by lia. lia.
Qed.

Lemma digit_range b : decimal_digit b = true -> 0 <= digit_value b < 10.
Proof. unfold decimal_digit, between, digit_value. lia. Qed.

Lemma digits_value_cons b ds : digits_value (b :: ds) = digit_value b * 10 ^ Z.of_nat (length ds) + digits_value ds.
Proof. exact (digits_value_app [b] ds). Qed.

Lemma digits_value_bounds ds : forallb decimal_digit ds = true -> 0 <= digits_value ds < 10 ^ Z.of_nat (length ds).
Proof.
  induction ds as [|b ds IH]; [done|]. cbn [forallb]. intros [Hb Hds]%andb_prop. rewrite digits_value_cons.
  apply IH in Hds. apply digit_range in Hb. cbn [length]. rewrite Nat2Z.inj_succ, Z.pow_succ_r by lia. nia.
Qed.

(** A fraction as it is written, of a unit of 10 to [prec]: its value in
    nanoseconds is [part]. *)
Definition fraction_of (prec : nat) (part : Z) (fraction : bytes) : Prop :=
  (fraction = [] /\ part = 0) \/
  exists ds, fraction = x2e :: ds /\ forallb decimal_digit ds = true /\ (0 < length ds <= prec)%nat /\
    digits_value ds * 10 ^ (Z.of_nat prec - Z.of_nat (length ds)) = part.

Lemma fmtFrac_printing prec v acc :
  0 <= v ->
  exists ds, fmtFrac prec v true acc = (x2e :: ds ++ acc, v / 10 ^ Z.of_nat prec) /\ forallb decimal_digit ds = true /\
    length ds = prec /\ digits_value ds = v mod 10 ^ Z.of_nat prec.
Proof.
  revert v acc. induction prec as [|prec IH]; intros v acc Hv; cbn [fmtFrac orb].
  { exists []. split_and!; [by rewrite Z.div_1_r|done..|by rewrite Z.mod_1_r]. }
  pose proof (Z.mod_pos_bound v 10 ltac:(lia)) as Hmod. assert (Hdiv : 0 <= v / 10) by (apply Z.div_pos; lia).
  destruct (IH (v / 10) (byte_of (48 + v mod 10) :: acc) Hdiv) as (ds & -> & Hds & Hlen & Hval).
  exists (ds ++ [byte_of (48 + v mod 10)]). rewrite Nat2Z.inj_succ, Z.pow_succ_r by lia. split_and!.
  - by rewrite <-app_assoc, Z.div_div by lia.
  - rewrite forallb_app, Hds. cbn [forallb]. by rewrite <-decimal_is_digit, digit_byte by lia.
  - rewrite length_app. cbn. lia.
  - rewrite digits_value_app, Hval. unfold digits_value at 1. cbn [fold_left length]. change (10 ^ Z.of_nat 1) with 10. rewrite byte_Z_byte_of by lia.
    rewrite Z.rem_mul_r by lia. lia.
Qed.

Lemma fmtFrac_spec prec v acc :
  0 <= v ->
  exists fraction, fmtFrac prec v false acc = (fraction ++ acc, v / 10 ^ Z.of_nat prec) /\
    fraction_of prec (v mod 10 ^ Z.of_nat prec) fraction.
Proof.
  intros Hv. enough (H : forall n, (n <= prec)%nat -> forall v, 0 <= v -> exists fraction,
    fmtFrac n v false acc = (fraction ++ acc, v / 10 ^ Z.of_nat n) /\ fraction_of n (v mod 10 ^ Z.of_nat n) fraction) by (by apply H).
  clear v Hv. induction n as [|n IH]; intros Hn v Hv; cbn [fmtFrac orb].
  { exists []. split; [by rewrite Z.div_1_r|]. left. by rewrite Z.mod_1_r. }
  assert (Hdiv : 0 <= v / 10) by (apply Z.div_pos; lia). pose proof (Z.mod_pos_bound v 10 ltac:(lia)) as Hmod.
  rewrite Nat2Z.inj_succ, Z.pow_succ_r, Z.rem_mul_r, <-Z.div_div by lia.
  destruct (v mod 10 =? 0) eqn:Hzero; cbn [negb].
  - destruct (IH ltac:(lia) (v / 10) Hdiv) as (fraction & -> & Hfrac). exists fraction. split; [done|].
    assert (v mod 10 = 0) as -> by lia. destruct Hfrac as [[-> ->]|(ds & -> & Hds & Hlen & Hval)]; [by left|].
    right. exists ds. split_and!; [done..|lia|lia|]. rewrite <-Hval, Nat2Z.inj_succ.
    replace (Z.succ (Z.of_nat n) - Z.of_nat (length ds)) with (Z.succ (Z.of_nat n - Z.of_nat (length ds))) by lia. rewrite Z.pow_succ_r by lia. lia.
  - destruct (fmtFrac_printing n (v / 10) (byte_of (48 + v mod 10) :: acc) Hdiv) as (ds & -> & Hds & Hlen & Hval).
    exists (x2e :: ds ++ [byte_of (48 + v mod 10)]). split; [by rewrite <-app_comm_cons, <-app_assoc|].
    right. exists (ds ++ [byte_of (48 + v mod 10)]). rewrite length_app. cbn [length]. split_and!; [done| |lia..|].
    + rewrite forallb_app, Hds. cbn [forallb]. by rewrite <-decimal_is_digit, digit_byte by lia.
    + rewrite digits_value_app, Hval. unfold digits_value at 1. cbn [fold_left length]. change (10 ^ Z.of_nat 1) with 10. rewrite byte_Z_byte_of by lia.
      rewrite Hlen, Nat2Z.inj_succ. replace (Z.succ (Z.of_nat n) - Z.of_nat (n + 1)) with 0 by lia. lia.
Qed.

(** ** Reading it back *)

Definition starts_with (p : byte -> bool) (l : bytes) : Prop := match l with b :: _ => p b = true | [] => True end.

Definition unit_byte (b : byte) : bool := negb ((byte_Z b =? 46) || decimal_digit b).

Lemma leadingInt_digits ds rest x :
  forallb decimal_digit ds = true -> starts_with (fun b => negb (decimal_digit b)) rest -> 0 <= x ->
  x * 10 ^ Z.of_nat (length ds) + digits_value ds <= 2 ^ 63 ->
  leadingInt (ds ++ rest) x = Some (x * 10 ^ Z.of_nat (length ds) + digits_value ds, rest).
Proof.
  revert x. induction ds as [|b ds IH]; intros x Hds Hrest Hx Hmax.
  { cbn [app length] in *. replace (x * 10 ^ Z.of_nat 0 + digits_value []) with x by (cbn; lia).
    destruct rest as [|b rest]; [done|]. cbn [leadingInt]. cbn in Hrest. by apply negb_true_iff in Hrest as ->. }
  cbn [forallb] in Hds. apply andb_prop in Hds as [Hb Hds]. cbn [app leadingInt]. rewrite Hb.
  pose proof (digits_value_bounds ds Hds). pose proof (digit_range b Hb). assert (0 < 10 ^ Z.of_nat (length ds)) by lia.
  rewrite digits_value_cons in *. cbn [length] in *. rewrite Nat2Z.inj_succ, Z.pow_succ_r in * by lia.
  set (P := 10 ^ Z.of_nat (length ds)) in *. assert (x * 10 + digit_value b <= 2 ^ 63) by nia.
  rewrite (proj2 (Z.ltb_ge _ _)) by (apply Z.div_le_lower_bound; lia). cbv zeta. rewrite (proj2 (Z.ltb_ge _ _)) by lia.
  rewrite IH; [|done..|lia|lia]. do 2 f_equal. lia.
Qed.

Lemma leadingFraction_digits ds rest x digits :
  forallb decimal_digit ds = true -> starts_with (fun b => negb (decimal_digit b)) rest -> 0 <= x ->
  x * 10 ^ Z.of_nat (length ds) + digits_value ds < 2 ^ 63 ->
  leadingFraction (ds ++ rest) x digits false =
    (x * 10 ^ Z.of_nat (length ds) + digits_value ds, digits + Z.of_nat (length ds), rest).
Proof.
  revert x digits. induction ds as [|b ds IH]; intros x digits Hds Hrest Hx Hmax.
  { cbn [app length] in *. replace (x * 10 ^ Z.of_nat 0 + digits_value []) with x by (cbn; lia). rewrite Z.add_0_r.
    destruct rest as [|b rest]; [done|]. cbn [leadingFraction]. cbn in Hrest. by apply negb_true_iff in Hrest as ->. }
  cbn [forallb] in Hds. apply andb_prop in Hds as [Hb Hds]. cbn [app leadingFraction]. rewrite Hb.
  pose proof (digits_value_bounds ds Hds). pose proof (digit_range b Hb). assert (0 < 10 ^ Z.of_nat (length ds)) by lia.
  rewrite digits_value_cons in *. cbn [length] in *. rewrite Nat2Z.inj_succ, Z.pow_succ_r in * by lia.
  set (P := 10 ^ Z.of_nat (length ds)) in *. assert (x * 10 + digit_value b < 2 ^ 63) by nia.
  rewrite (proj2 (Z.ltb_ge _ _)) by (apply Z.div_le_lower_bound; lia). cbv zeta. rewrite (proj2 (Z.ltb_ge _ _)) by lia.
  rewrite IH; [|done..|lia|lia]. do 2 f_equal; lia.
Qed.

Lemma take_unit_app u rest :
  forallb unit_byte u = true -> starts_with decimal_digit rest -> take_unit (u ++ rest) = (u, rest).
Proof.
  intros Hu Hrest. induction u as [|b u IH]; cbn [app take_unit].
  - destruct rest as [|b rest]; [done|]. cbn in *. by rewrite Hrest, orb_true_r.
  - cbn [forallb] in Hu. apply andb_prop in Hu as [Hb Hu]. unfold unit_byte in Hb. apply negb_true_iff in Hb as ->. by rewrite IH.
Qed.

#[local] Instance spec_float_eq_dec : EqDecision spec_float.
Proof. solve_decision. Defined.

(** A unit over a power of ten is the power of ten that is left. *)
Lemma unit_over_scale (prec k : nat) :
  prec ∈ [3; 6; 9]%nat -> (k <= prec)%nat ->
  float_div (float_of_Z (10 ^ Z.of_nat prec)) (float_of_Z (10 ^ Z.of_nat k)) = float_of_Z (10 ^ (Z.of_nat prec - Z.of_nat k)).
Proof.
  intros Hprec Hk. enough (H : forallb (fun p => forallb (fun k => bool_decide (float_div (float_of_Z (10 ^ Z.of_nat p)) (float_of_Z (10 ^ Z.of_nat k)) =
    float_of_Z (10 ^ (Z.of_nat p - Z.of_nat k)))) (seq 0 (S p))) [3; 6; 9]%nat = true).
  { rewrite forallb_forall in H. specialize (H prec ltac:(by apply list_elem_of_In)). rewrite forallb_forall in H.
    apply (bool_decide_eq_true_1 _ (H k (proj2 (in_seq _ _ _) (conj (Nat.le_0_l k) (proj2 (Nat.lt_succ_r _ _) Hk))))). }
  vm_compute. reflexivity.
Qed.

Lemma fraction_value_exact f (prec k : nat) :
  prec ∈ [3; 6; 9]%nat -> (k <= prec)%nat -> 0 < f < 10 ^ Z.of_nat k ->
  fraction_value f (Z.of_nat k) (10 ^ Z.of_nat prec) = f * 10 ^ (Z.of_nat prec - Z.of_nat k).
Proof.
  intros Hprec Hk Hf. unfold fraction_value. rewrite unit_over_scale by done.
  assert (Hp : 10 ^ Z.of_nat k * 10 ^ (Z.of_nat prec - Z.of_nat k) = 10 ^ Z.of_nat prec) by (rewrite <-Z.pow_add_r by lia; f_equal; lia).
  assert (prec = 3 \/ prec = 6 \/ prec = 9)%nat by (clear -Hprec; set_solver).
  assert (10 ^ Z.of_nat prec <= 10 ^ 9) by (apply Z.pow_le_mono_r; lia).
  assert (0 < 10 ^ (Z.of_nat prec - Z.of_nat k)) by lia.
  destruct (float_mul_whole f (10 ^ (Z.of_nat prec - Z.of_nat k))) as (p & e & -> & He & Hlo & Hhi); [lia..|nia|].
  rewrite (proj2 (Z.leb_gt 0 e)) by lia. assert (Z.pos p = f * 10 ^ (Z.of_nat prec - Z.of_nat k) * 2 ^ (- e)) as -> by lia.
  apply Z.div_mul. lia.
Qed.

(** The units as they are written: their nanoseconds, and the digits a fraction
    of them can have. *)
Definition units : list (bytes * Z * nat) :=
  [([x6e; x73], 1, 0%nat); (micros, 1000, 3%nat); ([x6d; x73], Millisecond, 6%nat); ([x73], Second, 9%nat);
   ([x6d], 60 * Second, 0%nat); ([x68], 3600 * Second, 0%nat)].

Lemma units_spec u un prec :
  (u, un, prec) ∈ units ->
  unit_of u = Some un /\ 0 < un /\ forallb unit_byte u = true /\ u <> [] /\
  (prec = 0%nat \/ (prec ∈ [3; 6; 9]%nat /\ un = 10 ^ Z.of_nat prec)).
Proof.
  intros H. enough (Hall : Forall (fun '(u, un, prec) => unit_of u = Some un /\ 0 < un /\ forallb unit_byte u = true /\ u <> [] /\
    (prec = 0%nat \/ (prec ∈ [3; 6; 9]%nat /\ un = 10 ^ Z.of_nat prec))) units) by (by rewrite Forall_forall in Hall; apply (Hall _ H)).
  unfold units. repeat (apply Forall_cons; split; [split_and!; first [done|vm_compute; done|by left|right; split; [set_solver|done]]|]).
  by apply Forall_nil.
Qed.

(** A number of a unit with a fraction, before another or the end. *)
Lemma duration_part_text ds fraction u un prec part rest :
  (u, un, prec) ∈ units -> ds <> [] -> forallb decimal_digit ds = true -> fraction_of prec part fraction ->
  starts_with decimal_digit rest -> 0 <= part -> digits_value ds * un + part <= 2 ^ 63 ->
  duration_part (ds ++ fraction ++ u ++ rest) = Some (digits_value ds * un + part, rest).
Proof.
  intros (Hunit & Hun & Hbytes & Hu & Hprec)%units_spec Hne Hds Hfrac Hrest Hpart Hmax.
  pose proof (digits_value_bounds ds Hds) as Hv.
  assert (Hnodigit : starts_with (fun b => negb (decimal_digit b)) (u ++ rest) /\ starts_with (fun b => negb (bool_decide (b = x2e))) (u ++ rest)).
  { destruct u as [|b u]; [done|]. cbn in Hbytes |- *. apply andb_prop in Hbytes as [Hb _]. apply negb_true_iff, orb_false_iff in Hb as [Hb ->].
    split; [done|]. by case_bool_decide as Heq; [subst b|]. }
  unfold duration_part. destruct ds as [|b ds]; [done|]. set (all := b :: ds) in *. set (text := fraction ++ u ++ rest).
  assert (Hb : decimal_digit b = true) by (cbn in Hds; by apply andb_prop in Hds as [-> _]).
  change (all ++ text) with (b :: (ds ++ text)) at 1. cbv iota beta. rewrite Hb, orb_true_r. cbn [negb].
  assert (Hnd : starts_with (fun b => negb (decimal_digit b)) text).
  { destruct Hfrac as [[-> _]|(fs & -> & _)]; [apply Hnodigit|done]. }
  assert (Hvle : digits_value all <= 2 ^ 63) by nia.
  rewrite leadingInt_digits; [|done..|lia]. cbn [mbind option_bind]. rewrite Z.mul_0_l, Z.add_0_l.
  assert ((length text =? length (all ++ text))%nat = false) as -> by (apply Nat.eqb_neq; rewrite length_app; cbn [all length]; lia).
  cbn [negb andb]. set (v := digits_value all) in *.
  assert (Htail : forall f digits, (let (u, rest) := take_unit (u ++ rest) in unit ← unit_of u;
    if 2 ^ 63 / unit <? v then None
    else let v := v * unit in let v := if 0 <? f then v + fraction_value f digits unit else v in if 2 ^ 63 <? v then None else Some (v, rest)) =
    let v := if 0 <? f then v * un + fraction_value f digits un else v * un in if 2 ^ 63 <? v then None else Some (v, rest)).
  { intros f digits. rewrite take_unit_app, Hunit by done. cbn [mbind option_bind].
    by rewrite (proj2 (Z.ltb_ge _ _)) by (apply Z.div_le_lower_bound; lia). }
  destruct Hfrac as [[-> ->]|(fs & -> & Hfs & Hlen & Hval)].
  - subst text. cbn [app]. rewrite Z.add_0_r in *. destruct Hnodigit as [_ Hdot]. destruct (u ++ rest) as [|b' text] eqn:Htext; [by destruct u|].
    assert (match b' with x2e => False | _ => True end) by (destruct b'; try done; by cbn in Hdot).
    transitivity (if 2 ^ 63 <? v * un then None else Some (v * un, rest)); [|by rewrite (proj2 (Z.ltb_ge _ _)) by lia].
    destruct b'; try done; exact (Htail 0 0).
  - destruct Hprec as [->|[Hprec Hpow]]; [lia|]. subst text. cbn [app].
    pose proof (digits_value_bounds fs Hfs) as Hf.
    assert (10 ^ Z.of_nat (length fs) <= 10 ^ 9).
    { assert (prec = 3 \/ prec = 6 \/ prec = 9)%nat by (clear -Hprec; set_solver). apply Z.pow_le_mono_r; lia. }
    rewrite leadingFraction_digits; [|done|apply Hnodigit|done|lia]. cbv beta iota zeta. rewrite Z.mul_0_l, !Z.add_0_l, Htail. cbv zeta.
    rewrite Hpow in *. destruct (0 <? digits_value fs) eqn:Hpos.
    + rewrite fraction_value_exact by (done || lia). rewrite Hval. by rewrite (proj2 (Z.ltb_ge _ _)) by lia.
    + assert (digits_value fs = 0) as Hzero by lia. rewrite Hzero in Hval. assert (part = 0) as -> by lia.
      rewrite Z.add_0_r in *. by rewrite (proj2 (Z.ltb_ge _ _)) by lia.
Qed.

(** Text that the loop of [ParseDuration] reads as [d], whatever it has read
    before. *)
Definition reads (text : bytes) (d : Z) : Prop :=
  0 <= d /\ starts_with decimal_digit text /\
  forall fuel d0, (length text <= fuel)%nat -> 0 <= d0 -> d0 + d <= 2 ^ 63 -> duration_parts fuel text d0 = Some (d0 + d).

Lemma reads_nil : reads [] 0.
Proof. split_and!; [done..|]. intros [|fuel] d0 _ _ _; cbn; by rewrite Z.add_0_r. Qed.

Lemma reads_number v fraction u un prec part rest d :
  (u, un, prec) ∈ units -> fraction_of prec part fraction -> 0 <= v -> 0 <= part -> reads rest d -> v * un + part + d <= 2 ^ 63 ->
  reads (fmtInt v (fraction ++ u ++ rest)) (v * un + part + d).
Proof.
  intros Hunit Hfrac Hv Hpart (Hd & Hrest & Hreads) Hmax. unfold fmtInt.
  destruct (digits_of_spec (S (Z.to_nat (Z.log2 v))) v (fraction ++ u ++ rest)) as (ds & -> & Hds & Hval & Hne & _); [|lia|].
  { split; [done|]. rewrite Nat2Z.inj_succ, Z2Nat.id by apply Z.log2_nonneg. destruct (Z.eq_dec v 0) as [->|]; [done|]. apply Z.log2_spec. lia. }
  assert (Hun : 0 < un) by apply (units_spec _ _ _ Hunit). split_and!; [nia| |].
  { destruct ds; [done|]. cbn in *. by apply andb_prop in Hds as [? _]. }
  intros fuel d0 Hfuel Hd0 Hmax0. pose proof (duration_part_text ds fraction u un prec part rest) as Hpart1. rewrite Hval in Hpart1.
  destruct ds as [|b ds]; [done|]. destruct fuel as [|fuel]; [cbn in Hfuel; lia|]. cbn [duration_parts app].
  change (b :: (ds ++ fraction ++ u ++ rest)) with ((b :: ds) ++ fraction ++ u ++ rest). rewrite Hpart1 by (done || lia).
  cbn [mbind option_bind]. cbv zeta. unfold uint64. rewrite Z.mod_small by lia. rewrite (proj2 (Z.ltb_ge _ _)) by lia.
  rewrite Hreads; [f_equal; lia| |lia..]. rewrite !length_app in Hfuel. cbn in Hfuel. lia.
Qed.

Lemma small_text_reads prec u un v :
  (u, un, prec) ∈ units -> un = 10 ^ Z.of_nat prec -> 0 <= v <= 2 ^ 63 -> reads (small_text prec u v) v.
Proof.
  intros Hunit -> Hv. unfold small_text. destruct (fmtFrac_spec prec v u ltac:(lia)) as (fraction & -> & Hfrac).
  assert (0 < 10 ^ Z.of_nat prec) by lia. pose proof (Z.div_mod v (10 ^ Z.of_nat prec) ltac:(lia)). pose proof (Z.mod_pos_bound v (10 ^ Z.of_nat prec) ltac:(lia)).
  replace v with (v / 10 ^ Z.of_nat prec * 10 ^ Z.of_nat prec + v mod 10 ^ Z.of_nat prec + 0) at 2 by lia.
  rewrite <-(app_nil_r u). apply (reads_number _ _ _ _ prec); [done..|apply Z.div_pos; lia|lia|apply reads_nil|lia].
Qed.

Lemma magnitude_text_reads u : 0 <= u <= 2 ^ 63 -> reads (magnitude_text u) u.
Proof.
  intros Hu. unfold magnitude_text. destruct (u <? Second) eqn:Hsmall.
  - destruct (u =? 0) eqn:Hzero.
    { assert (u = 0) as -> by lia. apply (reads_number 0 [] [x73] Second 9 0 [] 0); try done; [set_solver|by left|apply reads_nil]. }
    destruct (u <? 1000); [apply (small_text_reads _ _ 1); [set_solver|done..]|].
    destruct (u <? Millisecond); [apply (small_text_reads _ _ 1000); [set_solver|done..]|apply (small_text_reads _ _ Millisecond); [set_solver|done..]].
  - destruct (fmtFrac_spec 9 u [x73] ltac:(lia)) as (fraction & -> & Hfrac). change (10 ^ Z.of_nat 9) with Second in *.
    pose proof (Z.div_mod u Second ltac:(done)). pose proof (Z.mod_pos_bound u Second ltac:(done)).
    set (part := u mod Second) in *. set (s := u / Second) in *. assert (0 <= s) by (apply Z.div_pos; done || lia). clearbody part s.
    pose proof (Z.div_mod s 60 ltac:(done)). pose proof (Z.mod_pos_bound s 60 ltac:(done)).
    set (m := s / 60) in *. assert (0 <= m) by (apply Z.div_pos; lia). clearbody m.
    pose proof (Z.div_mod m 60 ltac:(done)). pose proof (Z.mod_pos_bound m 60 ltac:(done)).
    set (h := m / 60) in *. assert (0 <= h) by (apply Z.div_pos; lia). clearbody h. unfold Second in *.
    assert (Hs : reads (fmtInt (s mod 60) (fraction ++ [x73])) (s mod 60 * Second + part + 0)).
    { apply (reads_number _ fraction [x73] Second 9 part [] 0); [set_solver|done|lia..|apply reads_nil|unfold Second; lia]. }
    set (secs := fmtInt (s mod 60) (fraction ++ [x73])) in *. unfold Second in *. destruct (0 <? m) eqn:Hm.
    + assert (Hmin : reads (fmtInt (m mod 60) (x6d :: secs)) (m mod 60 * (60 * Second) + 0 + (s mod 60 * Second + part + 0))).
      { apply (reads_number _ [] [x6d] (60 * Second) 0 0 secs); [set_solver|by left|lia..|done|unfold Second; lia]. }
      set (mins := fmtInt (m mod 60) (x6d :: secs)) in *. unfold Second in *. destruct (0 <? h) eqn:Hh.
      * replace u with (h * (3600 * Second) + 0 + (m mod 60 * (60 * Second) + 0 + (s mod 60 * Second + part + 0))) by (unfold Second; lia).
        apply (reads_number _ [] [x68] (3600 * Second) 0 0 mins); [set_solver|by left|lia..|done|unfold Second; lia].
      * by replace u with (m mod 60 * (60 * 1000000000) + 0 + (s mod 60 * 1000000000 + part + 0)) by lia.
    + by replace u with (s mod 60 * 1000000000 + part + 0) by lia.
Qed.

(** What the sign leaves of the text. *)
Lemma ParseDuration_magnitude (neg : bool) text u :
  reads text u -> text <> [] -> u <= 2 ^ 63 ->
  ParseDuration (string_of_bytes (if neg then x2d :: text else text)) =
    if neg then Some (int64 (- u)) else if 2 ^ 63 - 1 <? u then None else Some u.
Proof.
  intros (Hu & Hdigit & Hreads) Hne Hmax. unfold ParseDuration, bytes_of_string, string_of_bytes.
  rewrite String.list_byte_of_string_of_list_byte.
  specialize (Hreads (length text) 0 ltac:(lia) ltac:(lia) ltac:(lia)). rewrite Z.add_0_l in Hreads.
  assert (Hzero : bool_decide (text = [x30]) = false) by (apply bool_decide_eq_false; by intros ->).
  destruct neg; cbv iota beta.
  - rewrite Hzero. destruct text as [|b text]; [done|]. by rewrite Hreads.
  - destruct text as [|b text]; [done|]. cbn in Hdigit.
    assert (Hsign : (match b :: text with x2d :: s' => (true, s') | x2b :: s' => (false, s') | _ => (false, b :: text) end) = (false, b :: text))
      by (by destruct b).
    by rewrite Hsign, Hzero, Hreads.
Qed.

(** A text reads as what it was written of. *)
Lemma Duration_String_read d : in_int64 d -> ParseDuration (Duration_String d) = Some d.
Proof.
  intros Hd. pose proof Hd as Hrange. unfold in_int64, min_int64, max_int64 in Hrange. unfold Duration_String, Duration_text.
  destruct (Z.eq_dec d 0) as [->|Hnz]; [vm_compute; reflexivity|].
  assert (Hread : forall u, 0 < u <= 2 ^ 63 -> reads (magnitude_text u) u /\ magnitude_text u <> []).
  { intros u Hu. pose proof (magnitude_text_reads u ltac:(lia)) as Hr. split; [done|]. intros Hnil. rewrite Hnil in Hr.
    destruct Hr as (_ & _ & Hr). specialize (Hr 0%nat 0). cbn in Hr. assert (Some 0 = Some u) as [= <-] by (apply Hr; lia). lia. }
  destruct (d <? 0) eqn:Hneg.
  - unfold uint64. rewrite Z.mod_small by lia. destruct (Hread (- d)) as [Hr Hne]; [lia|].
    rewrite (ParseDuration_magnitude true _ (- d)) by (done || lia). by rewrite Z.opp_involutive, int64_id.
  - destruct (Hread d) as [Hr Hne]; [lia|]. rewrite (ParseDuration_magnitude false _ d) by (done || lia).
    by rewrite (proj2 (Z.ltb_ge _ _)) by lia.
Qed.

(** ** Numbers without a unit *)

Lemma leadingInt_all ds x : forallb decimal_digit ds = true -> leadingInt ds x = None \/ exists v, leadingInt ds x = Some (v, []).
Proof.
  revert x. induction ds as [|b ds IH]; intros x Hds; cbn [leadingInt]; [by right; exists x|].
  cbn [forallb] in Hds. apply andb_prop in Hds as [-> Hds]. cbv zeta. repeat (case_match; [by left|]). by apply IH.
Qed.

Lemma duration_part_no_unit ds : forallb decimal_digit ds = true -> duration_part ds = None.
Proof.
  intros Hds. unfold duration_part. destruct ds as [|b ds]; [done|]. set (all := b :: ds) in *.
  destruct (leadingInt_all all 0 Hds) as [->|[v ->]]; cbn [mbind option_bind]; [by case_match|].
  by repeat (case_match; try done).
Qed.

(** A number without a unit is not a duration, but for a single 0. *)
Lemma ParseDuration_bare ds sign :
  sign ∈ [[]; [x2d]; [x2b]] -> forallb decimal_digit ds = true ->
  ParseDuration (string_of_bytes (sign ++ ds)) = if bool_decide (ds = [x30]) then Some 0 else None.
Proof.
  intros Hsign Hds. unfold ParseDuration, bytes_of_string, string_of_bytes. rewrite String.list_byte_of_string_of_list_byte.
  assert (Hs : exists neg, (match sign ++ ds with x2d :: s' => (true, s') | x2b :: s' => (false, s') | _ => (false, sign ++ ds) end) = (neg, ds)).
  { assert (sign = [] \/ sign = [x2d] \/ sign = [x2b]) as [-> | [-> | -> ]] by set_solver; [|by eexists..].
    exists false. destruct ds as [|b ds]; [done|]. cbn in Hds. by destruct b. }
  destruct Hs as [neg ->]. cbv iota beta. case_bool_decide; [done|]. destruct ds as [|b ds]; [done|].
  cbn [length duration_parts]. by rewrite duration_part_no_unit.
Qed.
