(* ===== verification/Literal.v ===== *)
(** * Go's literals on a command line: [strconv.ParseInt] and [strconv.Unquote]

    What the flag package and the probe command read numbers and separators
    with. *)
From S2P Require Import Prelude GoLib Strconv Json.
#[local] Open Scope Z_scope.

(** ** [strconv.ParseInt] of base 0 and 64 bits *)

(** [lower]: the letter bit set. *)
Definition lower (b : byte) : Z := Z.lor (byte_Z b) 32.

(** The base a prefix names, and the digits after it. *)
Definition base_prefix (s : bytes) : Z * bytes :=
  match s with
  | x30 :: c :: ((_ :: _) as rest) =>
    if lower c =? 98 then (2, rest) else if lower c =? 111 then (8, rest) else if lower c =? 120 then (16, rest) else (8, c :: rest)
  | x30 :: rest => (8, rest)
  | _ => (10, s)
  end.

Definition digit_of (b : byte) : option Z :=
  if GoLib.between 48 57 b then Some (byte_Z b - 48)
  else if (97 <=? lower b) && (lower b <=? 122) then Some (lower b - 97 + 10)
  else None.

(** The digits' value; an underscore is skipped here, and noted. The code gives
    up past 64 bits, which is where [ParseInt] refuses as well. *)
Fixpoint digits_value (base : Z) (s : bytes) (n : Z) (underscores : bool) : option (Z * bool) :=
  match s with
  | [] => Some (n, underscores)
  | x5f :: s' => digits_value base s' n true
  | b :: s' =>
    match digit_of b with
    | Some d => if base <=? d then None else digits_value base s' (n * base + d) underscores
    | None => None
    end
  end.

(** [underscoreOK]: underscores only between digits, or between the prefix and a
    digit. What was seen last: a digit, an underscore, or neither. *)
Inductive seen := SawDigit | SawUnderscore | SawOther.
Definition saw_underscore (s : seen) : bool := match s with SawUnderscore => true | _ => false end.

Fixpoint underscores_ok (hex : bool) (saw : seen) (s : bytes) : bool :=
  match s with
  | [] => negb (saw_underscore saw)
  | b :: s' =>
    if GoLib.between 48 57 b || (hex && (97 <=? lower b) && (lower b <=? 102)) then underscores_ok hex SawDigit s'
    else if byte_Z b =? 95 then match saw with SawDigit => underscores_ok hex SawUnderscore s' | _ => false end
    else if saw_underscore saw then false
    else underscores_ok hex SawOther s'
  end.

Definition underscoreOK (s : bytes) : bool :=
  match s with
  | x30 :: c :: rest =>
    if (lower c =? 98) || (lower c =? 111) || (lower c =? 120) then underscores_ok (lower c =? 120) SawDigit rest
    else underscores_ok false SawOther s
  | _ => underscores_ok false SawOther s
  end.

Definition ParseUint (s : bytes) : option Z :=
  match s with
  | [] => None
  | _ =>
    let (base, digits) := base_prefix s in
    match digits_value base digits 0 false with
    | Some (n, underscores) => if underscores && negb (underscoreOK s) then None else if n <? 2 ^ 64 then Some n else None
    | None => None
    end
  end.

Definition ParseInt (value : string) : option Z :=
  let '(negative, s) :=
    match bytes_of_string value with
    | x2d :: rest => (true, rest)
    | x2b :: rest => (false, rest)
    | s => (false, s)
    end in
  match ParseUint s with
  | Some n =>
    let z := if negative : bool then - n else n in
    if (min_int64 <=? z) && (z <=? max_int64) then Some z else None
  | None => None
  end.

Example ParseInt_examples :
  ParseInt "115200" = Some 115200 /\ ParseInt "0x1_F" = Some 31 /\ ParseInt "-0b101" = Some (-5) /\ ParseInt "017" = Some 15 /\
  ParseInt "0" = Some 0 /\ ParseInt "_1" = None /\ ParseInt "1_" = None /\ ParseInt "1__0" = None /\ ParseInt "0_7" = Some 7 /\
  ParseInt "" = None /\ ParseInt "9.6" = None /\ ParseInt "0x" = None /\ ParseInt "08" = None /\
  ParseInt "9223372036854775808" = None /\ ParseInt "-9223372036854775808" = Some min_int64.
Proof. vm_compute. split_and!; reflexivity. Qed.

(** ** [strconv.Unquote] *)

Definition quote : byte := x22.

(** A hexadecimal digit. *)
Definition unhex (b : byte) : option Z :=
  if GoLib.between 48 57 b then Some (byte_Z b - 48)
  else if GoLib.between 97 102 b then Some (byte_Z b - 97 + 10)
  else if GoLib.between 65 70 b then Some (byte_Z b - 65 + 10)
  else None.

Definition octal (b : byte) : option Z := if GoLib.between 48 55 b then Some (byte_Z b - 48) else None.

(** The value of the first [n] digits, and what follows them. *)
Fixpoint take_digits (digit : byte -> option Z) (base : Z) (n : nat) (v : Z) (s : bytes) : option (Z * bytes) :=
  match n with
  | O => Some (v, s)
  | S n' =>
    match s with
    | b :: s' => match digit b with Some d => take_digits digit base n' (v * base + d) s' | None => None end
    | [] => None
    end
  end.

(** [utf8.ValidRune]. *)
Definition ValidRune (v : Z) : bool := ((0 <=? v) && (v <? 55296)) || ((57343 <? v) && (v <=? 1114111)).

(** The rune of an escape, behind its backslash, as the bytes it adds. *)
Definition unquote_escape (s : bytes) : option (bytes * bytes) :=
  match s with
  | [] => None
  | c :: rest =>
    match c with
    | x61 => Some ([x07], rest)
    | x62 => Some ([x08], rest)
    | x66 => Some ([x0c], rest)
    | x6e => Some ([x0a], rest)
    | x72 => Some ([x0d], rest)
    | x74 => Some ([x09], rest)
    | x76 => Some ([x0b], rest)
    | x78 => match take_digits unhex 16 2 0 rest with Some (v, rest) => Some ([byte_of v], rest) | None => None end
    | x75 => match take_digits unhex 16 4 0 rest with Some (v, rest) => if ValidRune v then Some (rune_bytes v, rest) else None | None => None end
    | x55 => match take_digits unhex 16 8 0 rest with Some (v, rest) => if ValidRune v then Some (rune_bytes v, rest) else None | None => None end
    | x5c => Some ([x5c], rest)
    | x22 => Some ([x22], rest)
    | _ =>
      if GoLib.between 48 55 c then
        match take_digits octal 8 3 0 (c :: rest) with
        | Some (v, rest) => if 255 <? v then None else Some ([byte_of v], rest)
        | None => None
        end
      else None
    end
  end.

(** [UnquoteChar] of text in double quotes. An ill-formed byte reads as
    U+FFFD. *)
Definition UnquoteChar (s : bytes) : option (bytes * bytes) :=
  match s with
  | [] => None
  | c :: rest =>
    if byte_Z c =? 34 then None
    else if 128 <=? byte_Z c then
      match rune_width s with
      | O => Some (replacement, rest)
      | w => Some (take w s, drop w s)
      end
    else if byte_Z c =? 92 then unquote_escape rest
    else Some ([c], rest)
  end.

(** The loop of [unquote], to the closing quote; a newline must be escaped. *)
Fixpoint unquote_loop (fuel : nat) (s : bytes) : option (bytes * bytes) :=
  match fuel with
  | O => None
  | S fuel' =>
    match s with
    | [] => None
    | c :: _ =>
      if byte_Z c =? 34 then Some ([], s)
      else if byte_Z c =? 10 then None
      else match UnquoteChar s with
      | Some (chunk, rest) => match unquote_loop fuel' rest with Some (text, rest) => Some ((chunk ++ text)%list, rest) | None => None end
      | None => None
      end
    end
  end.

(** [Unquote] of text between double quotes: [body] is what stands between the
    first byte and the last. Nothing may follow the closing quote. *)
Definition Unquote (body : bytes) : option bytes :=
  let s := (body ++ [quote])%list in
  match unquote_loop (S (length s)) s with
  | Some (text, rest) => if (length rest =? 1)%nat then Some text else None
  | None => None
  end.

(** *** Bytes written as literals and escapes *)

Definition named_escapes : list (byte * byte) :=
  [(x61, x07); (x62, x08); (x66, x0c); (x6e, x0a); (x72, x0d); (x74, x09); (x76, x0b); (x5c, x5c); (x22, x22)].

(** How one byte can be written between double quotes: as itself, by its name,
    with two hexadecimal digits or with three octal ones. *)
Inductive spelled_byte : byte -> bytes -> Prop :=
  | spelled_itself b : byte_Z b < 128 -> byte_Z b <> 34 -> byte_Z b <> 92 -> byte_Z b <> 10 -> spelled_byte b [b]
  | spelled_named c b : (c, b) ∈ named_escapes -> spelled_byte b [x5c; c]
  | spelled_hex b c1 c0 h l : unhex c1 = Some h -> unhex c0 = Some l -> byte_Z b = 16 * h + l -> spelled_byte b [x5c; x78; c1; c0]
  | spelled_octal b c2 c1 c0 h m l :
      octal c2 = Some h -> octal c1 = Some m -> octal c0 = Some l -> byte_Z b = 64 * h + 8 * m + l -> spelled_byte b [x5c; c2; c1; c0].

Lemma octal_escape c rest h : octal c = Some h ->
  unquote_escape (c :: rest) =
  match take_digits octal 8 3 0 (c :: rest) with
  | Some (v, rest) => if 255 <? v then None else Some ([byte_of v], rest)
  | None => None
  end.
Proof. destruct c; try discriminate; intros _; reflexivity. Qed.

Lemma UnquoteChar_escape rest : UnquoteChar (x5c :: rest) = unquote_escape rest.
Proof. done. Qed.

Lemma UnquoteChar_spelled b s rest : spelled_byte b s -> UnquoteChar (s ++ rest) = Some ([b], rest).
Proof.
  intros [c Hlt Hq Hb Hn|c d Hin|d c1 c0 h l H1 H0 Hd|d c2 c1 c0 h m l H2 H1 H0 Hd]; cbn [app].
  - unfold UnquoteChar. replace (byte_Z c =? 34) with false by lia. replace (128 <=? byte_Z c) with false by lia.
    by replace (byte_Z c =? 92) with false by lia.
  - rewrite UnquoteChar_escape. unfold named_escapes in Hin.
    repeat (apply elem_of_cons in Hin as [[= -> ->]|Hin]; [done|]). by apply elem_of_nil in Hin.
  - rewrite UnquoteChar_escape. cbn [unquote_escape take_digits]. rewrite H1. cbn [take_digits]. rewrite H0. cbn [take_digits].
    replace ((0 * 16 + h) * 16 + l) with (byte_Z d) by lia. by rewrite byte_of_byte_Z.
  - rewrite UnquoteChar_escape, (octal_escape _ _ _ H2). cbn [take_digits]. rewrite H2. cbn [take_digits]. rewrite H1. cbn [take_digits].
    rewrite H0. cbn [take_digits]. replace (((0 * 8 + h) * 8 + m) * 8 + l) with (byte_Z d) by lia.
    pose proof (byte_Z_range d). replace (255 <? byte_Z d) with false by lia. by rewrite byte_of_byte_Z.
Qed.

Lemma spelled_first b s : spelled_byte b s -> exists c s', s = c :: s' /\ byte_Z c <> 34 /\ byte_Z c <> 10.
Proof. intros [c|c d _|d c1 c0|d c2 c1 c0]; do 2 eexists; (split; [reflexivity|]); try done; split; lia. Qed.

Lemma unquote_loop_spelled fuel data spellings rest :
  (length (concat spellings) < fuel)%nat -> Forall2 spelled_byte data spellings ->
  unquote_loop fuel (concat spellings ++ quote :: rest) = Some (data, quote :: rest).
Proof.
  intros Hfuel Hall. revert fuel Hfuel. induction Hall as [|b s data spellings Hs _ IH]; intros [|fuel] Hfuel; try (cbn in Hfuel; lia); [done|].
  cbn [concat] in *. rewrite length_app in Hfuel. destruct (spelled_first _ _ Hs) as (c & s' & Heq & Hq & Hn). subst s. cbn [length app] in Hfuel |- *.
  cbn [unquote_loop]. replace (byte_Z c =? 34) with false by lia. replace (byte_Z c =? 10) with false by lia.
  pose proof (UnquoteChar_spelled _ _ (concat spellings ++ quote :: rest) Hs) as Hchar. cbn [app] in Hchar. rewrite <-app_assoc, Hchar.
  rewrite IH by (cbn in Hfuel; lia). done.
Qed.

Lemma Unquote_spelled data spellings : Forall2 spelled_byte data spellings -> Unquote (concat spellings) = Some data.
Proof.
  intros Hall. unfold Unquote. rewrite (unquote_loop_spelled _ data); [done| |done]. rewrite length_app. cbn. lia.
Qed.

(** Every turn of the loop takes a byte: the fuel is enough. *)
Lemma take_digits_length digit base n v s v' rest : take_digits digit base n v s = Some (v', rest) -> length s = (n + length rest)%nat.
Proof.
  revert v s. induction n as [|n IH]; intros v s; cbn; [by intros [= _ ->]|]. destruct s as [|b s]; [done|].
  destruct (digit b); [|done]. intros H%IH. cbn. lia.
Qed.

Lemma unquote_escape_shorter s chunk rest : unquote_escape s = Some (chunk, rest) -> (length rest < length s)%nat.
Proof.
  destruct s as [|c s]; [done|]. intros H. cbn [unquote_escape] in H.
  repeat case_match; simplify_eq;
    repeat match goal with H : take_digits _ _ _ _ _ = Some _ |- _ => apply take_digits_length in H end; cbn in *; lia.
Qed.

Lemma UnquoteChar_shorter s chunk rest : UnquoteChar s = Some (chunk, rest) -> (length rest < length s)%nat.
Proof.
  destruct s as [|c s]; [done|]. cbn [UnquoteChar]. destruct (_ =? 34); [done|]. destruct (128 <=? _).
  - destruct (rune_width (c :: s)) as [|w]; intros [= _ <-]; [cbn; lia|]. rewrite length_drop. cbn. lia.
  - destruct (_ =? 92); [intros ?%unquote_escape_shorter; cbn; lia|]. intros [= _ <-]. cbn. lia.
Qed.

Lemma unquote_loop_enough f1 f2 s : (length s < f1)%nat -> (length s < f2)%nat -> unquote_loop f1 s = unquote_loop f2 s.
Proof.
  revert f2 s. induction f1 as [|f1 IH]; intros [|f2] s H1 H2; try lia. destruct s as [|c s]; [done|]. cbn [unquote_loop].
  destruct (_ =? 34); [done|]. destruct (_ =? 10); [done|]. destruct (UnquoteChar (c :: s)) as [[chunk rest]|] eqn:H; [|done].
  apply UnquoteChar_shorter in H. cbn in *. by rewrite (IH f2) by lia.
Qed.
