(* ===== verification/ReadTx.v ===== *)
(** * Reading a tx: [ReadTx] of internal/wire/messages.go *)
From S2P Require Import Prelude GoLib Strconv Base64 Topics Wire Json.
#[local] Open Scope string_scope.

(** [Tx], and its JSON by its field tags. *)
Record Tx := mkTx { tx_Schema : Z; tx_ID : string; tx_Sender : string; tx_RawB64 : string }.

Definition tx_json (tx : Tx) : json :=
  JObject [(json_bytes "schema", JNumber (decimal (tx_Schema tx))); (json_bytes "id", JString (bytes_of_string (tx_ID tx)));
           (json_bytes "sender", JString (bytes_of_string (tx_Sender tx)));
           (json_bytes "raw_b64", JString (bytes_of_string (tx_RawB64 tx)))].

(** What is wrong with a tx. The texts the code makes of these quote names and
    the messages of encoding/json and encoding/base64. *)
Inductive tx_reason :=
  | NotAnObject
  | MoreThanOneValue
  | UnknownFields (names : list string)
  | WrongType (name : string)
  | MissingFields (names : list string)
  | WrongSchema (schema : Z)
  | EmptySender
  | LineBreak
  | NotBase64
  | NoBytes
  | NotUUID (id : string).

Record TxProblem := mkTxProblem { problem_Code : TxCode; problem_Reason : tx_reason }.

(** The fields of a message by name; of two with one name, the later. *)
Definition names_of (v : json) : option (gmap string json) :=
  match v with
  | JObject members => Some (list_to_map (reverse (map (fun m => (string_of_bytes m.1, m.2)) members)))
  | JNull => Some ∅
  | _ => None
  end.

(** [json.Unmarshal] into a string and an int, of a value that is not null. *)
Definition string_value (v : json) : option string := match v with JString s => Some (string_of_bytes s) | _ => None end.
Definition int_value (v : json) : option Z := match v with JNumber literal => parse_int literal | _ => None end.

Definition txRefOf (names : gmap string json) : TxRef :=
  mkTxRef (default "" (names !! "id" ≫= string_value)) (default "" (names !! "sender" ≫= string_value)).

Definition field_names : list string := ["schema"; "id"; "sender"; "raw_b64"].

Definition unknown_names (names : gmap string json) : list string :=
  List.filter (fun name => negb (bool_decide (name ∈ field_names)))
    (sort_strings (map fst (map_to_list names))).

(** The loop over the fields: the first of the wrong type, or those that are
    missing. *)
Fixpoint check_fields (names : gmap string json) (fields : list string) (missing : list string) : tx_reason + list string :=
  match fields with
  | [] => inr missing
  | field :: fields' =>
    match names !! field with
    | None | Some JNull => check_fields names fields' (missing ++ [field])
    | Some v =>
      let typed := if bool_decide (field = "schema") then bool_decide (is_Some (int_value v)) else bool_decide (is_Some (string_value v)) in
      if typed then check_fields names fields' missing else inl (WrongType field)
    end
  end.

Section ReadTx.
(** Whether [uuid.Parse] takes a text. *)
Context (uuid_parse : string -> bool).

(** The reference, the bytes to write, and the problem, if any. *)
Definition ReadTx (payload : bytes) : TxRef * bytes * option TxProblem :=
  let invalid ref reason := (ref, [], Some (mkTxProblem TxCodeInvalidMessage reason)) in
  let none := mkTxRef "" "" in
  match '(v, rest) ← decode payload; names ← names_of v; Some (names, rest) with
  | None => invalid none NotAnObject
  | Some (names, rest) =>
    if negb (bool_decide (skip_space rest = [])) then invalid none MoreThanOneValue
    else
      let ref := txRefOf names in
      match unknown_names names with
      | (_ :: _) as unknown => invalid ref (UnknownFields unknown)
      | [] =>
        match check_fields names field_names [] with
        | inl reason => invalid ref reason
        | inr ((_ :: _) as missing) => invalid ref (MissingFields missing)
        | inr [] =>
          let schema := default 0%Z (names !! "schema" ≫= int_value) in
          let rawB64 := default "" (names !! "raw_b64" ≫= string_value) in
          if negb (schema =? Schema)%Z then invalid ref (WrongSchema schema)
          else if bool_decide (ref_Sender ref = "") then invalid ref EmptySender
          else if existsb (fun b => is_byte 13 b || is_byte 10 b) (bytes_of_string rawB64) then invalid ref LineBreak
          else match b64_decode (bytes_of_string rawB64) with
          | None => invalid ref NotBase64
          | Some [] => invalid ref NoBytes
          | Some raw =>
            if negb (uuid_parse (ref_ID ref)) || negb (bool_decide (String.length (ref_ID ref) = hyphenatedUUIDLength))
            then (ref, [], Some (mkTxProblem TxCodeInvalidID (NotUUID (ref_ID ref))))
            else (ref, raw, None)
          end
        end
      end
  end.
End ReadTx.

(** ** Lemmas *)

Lemma utf8_valid_ascii data : forallb (GoLib.between 0 127) data = true -> utf8_valid data = true.
Proof. induction data as [|b data IH]; [done|]. simpl. rewrite andb_true_iff. intros [-> Hd]. auto. Qed.

Lemma b64_char_ascii v : GoLib.between 0 127 (b64_char v) = true.
Proof.
  unfold b64_char. set (z := if (v <? 26)%Z then _ else _).
  assert (Hz : (z <= 122)%Z) by (unfold z; repeat case_match; lia).
  unfold GoLib.between, byte_of. destruct (Strings.Byte.of_N (Z.to_N z)) as [b|] eqn:Hb; [|done].
  apply Strings.Byte.to_of_N in Hb. unfold byte_Z. lia.
Qed.

Lemma b64_encode_ascii data : forallb (GoLib.between 0 127) (b64_encode data) = true.
Proof.
  induction data as [|b0|b0 b1|b0 b1 b2 data IH] using list_ind3; [done|..];
    cbn [b64_encode forallb]; rewrite !b64_char_ascii; done.
Qed.

Lemma b64_encode_no_breaks data : existsb (fun b => is_byte 13 b || is_byte 10 b) (b64_encode data) = false.
Proof.
  rewrite <-b64_encode_no_break. apply not_true_is_false. intros (b & [_ Hb]%filter_In & Hbreak)%existsb_exists.
  destruct b; done.
Qed.

Lemma b64_encode_nil data : b64_encode data = [] -> data = [].
Proof. by destruct data as [|? [|? [|]]]. Qed.

Lemma elem_of_filter_names name names :
  unknown_names names = [] -> is_Some (names !! name) -> name ∈ field_names.
Proof.
  intros Hunknown [v Hv]. apply dec_stable. intros Hname.
  assert (Hin : In name (unknown_names names)).
  { unfold unknown_names. apply filter_In. split; [|by rewrite bool_decide_eq_false_2].
    apply list_elem_of_In. rewrite sort_strings_perm. apply list_elem_of_fmap. exists (name, v).
    split; [done|]. by apply elem_of_map_to_list. }
  by rewrite Hunknown in Hin.
Qed.

Lemma check_fields_ok names fields missing :
  check_fields names fields missing = inr [] ->
  missing = [] /\ forall field, field ∈ fields -> exists v, names !! field = Some v /\
    (if bool_decide (field = "schema") then is_Some (int_value v) else is_Some (string_value v)).
Proof.
  revert missing. induction fields as [|field fields IH]; intros missing; simpl.
  { intros [= ->]. split; [done|]. set_solver. }
  assert (Hmissing : check_fields names fields (missing ++ [field]) = inr [] -> False)
    by (intros [H _]%IH; by destruct missing).
  destruct (names !! field) as [v|] eqn:Hv; [|intros H; destruct (Hmissing H)].
  intros H. assert (Htyped : (if (if bool_decide (field = "schema") then bool_decide (is_Some (int_value v))
      else bool_decide (is_Some (string_value v))) then check_fields names fields missing else inl (WrongType field)) = inr []).
  { destruct v; try exact H. destruct (Hmissing H). }
  destruct (if bool_decide (field = "schema") then _ else _) eqn:Ht; [|done].
  apply IH in Htyped as [-> Hall]. split; [done|]. intros f [->|Hf]%elem_of_cons; [|auto].
  exists v. split; [done|]. case_bool_decide; by apply bool_decide_eq_true_1 in Ht.
Qed.

(** A payload whose fields are these, however they are ordered, is taken. *)
Lemma read_fields uuid_parse payload v rest names id sender raw :
  decode payload = Some (v, rest) -> skip_space rest = [] -> names_of v = Some names -> unknown_names names = [] ->
  names !! "schema" = Some (JNumber (decimal Schema)) -> names !! "id" = Some (JString (bytes_of_string id)) ->
  names !! "sender" = Some (JString (bytes_of_string sender)) -> names !! "raw_b64" = Some (JString (b64_encode raw)) ->
  uuid_parse id = true -> String.length id = hyphenatedUUIDLength -> sender <> "" -> raw <> [] ->
  ReadTx uuid_parse payload = (mkTxRef id sender, raw, None).
Proof.
  intros Hdec Hskip Hnames Hunknown H1 H2 H3 H4 Huuid Hlen Hne Hraw. unfold ReadTx. rewrite Hdec. cbn [mbind option_bind]. rewrite Hnames.
  cbn [mbind option_bind]. rewrite Hskip, bool_decide_eq_true_2 by done. cbn [negb].
  assert (Href : txRefOf names = mkTxRef id sender).
  { unfold txRefOf. rewrite H2, H3. cbn. by rewrite !string_of_bytes_of_string. }
  assert (Hcheck : check_fields names field_names [] = inr []).
  { cbn [check_fields field_names]. by rewrite H1, H2, H3, H4. }
  rewrite Hunknown, Href, Hcheck, H1, H4. cbn [mbind option_bind string_value].
  assert (Hint : int_value (JNumber (decimal Schema)) = Some Schema) by reflexivity.
  rewrite Hint. cbn [from_option Datatypes.id ref_ID ref_Sender].
  change (negb (Schema =? Schema)%Z) with false. cbn iota.
  rewrite !bytes_of_string_of_bytes, bool_decide_eq_false_2 by done.
  rewrite b64_encode_no_breaks, b64_decode_encode. destruct raw as [|b raw]; [exfalso; apply Hraw; reflexivity|].
  rewrite Huuid, bool_decide_eq_true_2 by exact Hlen. reflexivity.
Qed.

(** ** Properties *)

(** A tx that a sender makes with the message's own fields is read as it
    was meant: whatever bytes it carries, and whatever its sender is called,
    the agent reads the same id and sender and exactly those bytes, and takes
    it; white space after it does not matter. *)
Theorem read_sent_tx uuid_parse id sender raw space :
  uuid_parse id = true -> String.length id = hyphenatedUUIDLength ->
  utf8_valid (bytes_of_string id) = true -> utf8_valid (bytes_of_string sender) = true ->
  sender <> "" -> raw <> [] -> forallb is_space space = true ->
  ReadTx uuid_parse (encode (tx_json (mkTx Schema id sender (string_of_bytes (b64_encode raw)))) ++ space) =
    (mkTxRef id sender, raw, None).
Proof.
  intros Huuid Hlen Hid Hsender Hne Hraw Hspace.
  assert (Hskip : skip_space space = []).
  { clear -Hspace. induction space as [|b space IH]; [done|]. simpl in *. apply andb_true_iff in Hspace as [-> ?]. auto. }
  eapply read_fields with (rest := space); try done.
  - apply decode_encode; [|done|].
    + cbn [tx_json writable tx_Schema tx_ID tx_Sender tx_RawB64]. rewrite bytes_of_string_of_bytes. split_and!; try done; [by eexists|].
      apply utf8_valid_ascii, b64_encode_ascii.
    + clear Hskip. destruct space as [|b space]; [done|]. intros c [= <-]. destruct b; done.
  - cbn [tx_json names_of map tx_Schema tx_ID tx_Sender tx_RawB64 fst snd]. rewrite bytes_of_string_of_bytes. reflexivity.
  - generalize (JString (b64_encode raw)), (JString (bytes_of_string sender)), (JString (bytes_of_string id)). intros. vm_compute. reflexivity.
  - reflexivity.
  - reflexivity.
  - reflexivity.
  - reflexivity.
Qed.

(** C21: nothing else is taken. A payload the agent takes is one JSON object
    with exactly the fields schema, id, sender and raw_b64, the schema the
    agent's, the sender not empty, the id a hyphenated UUID; and the bytes to
    write are not empty and are the ones whose base64 the message carries. *)
Theorem read_tx_strict uuid_parse payload ref raw :
  ReadTx uuid_parse payload = (ref, raw, None) ->
  exists names rest, (v ← fst <$> decode payload; names_of v) = Some names /\ snd <$> decode payload = Some rest /\
    skip_space rest = [] /\
    (forall name, is_Some (names !! name) <-> name ∈ field_names) /\
    (names !! "schema" ≫= int_value) = Some Schema /\
    (names !! "id" ≫= string_value) = Some (ref_ID ref) /\
    (names !! "sender" ≫= string_value) = Some (ref_Sender ref) /\
    (names !! "raw_b64" ≫= string_value) = Some (string_of_bytes (b64_encode raw)) /\
    ref_Sender ref <> "" /\ raw <> [] /\ uuid_parse (ref_ID ref) = true /\
    String.length (ref_ID ref) = hyphenatedUUIDLength.
Proof.
  unfold ReadTx. destruct (decode payload) as [[v rest]|]; [|done]. cbn [mbind option_bind fmap option_fmap option_map fst snd].
  destruct (names_of v) as [names|]; [|done]. cbn [mbind option_bind].
  case_bool_decide as Hrest; [|done]. cbn [negb].
  destruct (unknown_names names) as [|] eqn:Hunknown; [|done].
  destruct (check_fields names field_names []) as [|[|]] eqn:Hcheck; [done| |done].
  destruct (check_fields_ok _ _ _ Hcheck) as [_ Hfields].
  destruct (Hfields "schema") as (v1 & Hv1 & Ht1); [by apply (bool_decide_eq_true_1 _)|]. destruct (Hfields "id") as (v2 & Hv2 & Ht2); [by apply (bool_decide_eq_true_1 _)|].
  destruct (Hfields "sender") as (v3 & Hv3 & Ht3); [by apply (bool_decide_eq_true_1 _)|]. destruct (Hfields "raw_b64") as (v4 & Hv4 & Ht4); [by apply (bool_decide_eq_true_1 _)|].
  rewrite bool_decide_eq_true_2 in Ht1 by done. rewrite bool_decide_eq_false_2 in Ht2, Ht3, Ht4 by done.
  destruct Ht1 as [schema Ht1], Ht2 as [id Ht2], Ht3 as [sender Ht3], Ht4 as [b64 Ht4].
  rewrite Hv1, Hv4. cbn [mbind option_bind]. rewrite Ht1, Ht4. cbn [from_option Datatypes.id].
  assert (Href : txRefOf names = mkTxRef id sender).
  { unfold txRefOf. rewrite Hv2, Hv3. cbn [mbind option_bind]. by rewrite Ht2, Ht3. }
  rewrite Href. cbn [ref_ID ref_Sender]. destruct (schema =? Schema)%Z eqn:Hschema; [|done]. cbn [negb].
  case_bool_decide as Hsender; [done|]. destruct (existsb _ _) eqn:Hbreaks; [done|].
  destruct (b64_decode _) as [[|b raw']|] eqn:Hraw; [done| |done].
  destruct (uuid_parse id) eqn:Huuid; [|done]. case_bool_decide as Hlen; [|done]. intros [= <- <-].
  exists names, rest. rewrite Hv1, Hv2, Hv3, Hv4. cbn [mbind option_bind ref_ID ref_Sender]. rewrite Ht1, Ht2, Ht3, Ht4.
  split_and!; try done.
  - intros name. split; [by apply elem_of_filter_names|]. intros Hname. destruct (Hfields name Hname) as (w & Hw & _). eauto.
  - apply Z.eqb_eq in Hschema as ->. done.
  - f_equal. apply b64_decode_canonical in Hraw.
    + by rewrite Hraw, string_of_bytes_of_string.
    + apply forallb_forall. intros c Hc. apply negb_true_iff, not_true_is_false. intros Hb.
      assert (Hx : existsb (fun b => is_byte 13 b || is_byte 10 b) (bytes_of_string b64) = true); [|congruence].
      apply existsb_exists. exists c. split; [done|]. by destruct c.
Qed.

(** ** Witnesses *)

Definition any_uuid (id : string) : bool := true.
Definition an_id := "0b7e4a52-8f1c-4b7e-9c7d-2f6a1c0e5d3b".

Lemma read_sent_tx_witness :
  ReadTx any_uuid (encode (tx_json (mkTx Schema an_id "wms" (string_of_bytes (b64_encode [x1b; x40])))) ++ [x0a]) =
    (mkTxRef an_id "wms", [x1b; x40], None).
Proof. exact (read_sent_tx any_uuid an_id "wms" [x1b; x40] [x0a] eq_refl eq_refl eq_refl eq_refl ltac:(done) ltac:(done) eq_refl). Defined.

Lemma read_tx_strict_witness :
  ReadTx any_uuid (quoted "{'schema':2,'id':'0b7e4a52-8f1c-4b7e-9c7d-2f6a1c0e5d3b','sender':'wms','raw_b64':'G0A='}") =
    (mkTxRef an_id "wms", [x1b; x40], None) /\
  String.length an_id = 36%nat.
Proof.
  assert (H : ReadTx any_uuid (quoted "{'schema':2,'id':'0b7e4a52-8f1c-4b7e-9c7d-2f6a1c0e5d3b','sender':'wms','raw_b64':'G0A='}") =
    (mkTxRef an_id "wms", [x1b; x40], None)) by (vm_compute; reflexivity).
  split; [exact H|].
  destruct (read_tx_strict any_uuid _ _ _ H) as (names & rest & _ & _ & _ & _ & _ & _ & _ & _ & _ & _ & _ & Hlen).
  exact Hlen.
Defined.

(** A name is read as it is written, and of two fields of one name, the later. *)
Example ReadTx_examples :
  (ReadTx any_uuid (quoted "{'schema':2,'ID':'x','sender':'wms','raw_b64':'G0A='}")).2 =
    Some (mkTxProblem TxCodeInvalidMessage (UnknownFields ["ID"])) /\
  (ReadTx any_uuid (quoted "{'schema':2,'id':null,'sender':'wms'}")).2 =
    Some (mkTxProblem TxCodeInvalidMessage (MissingFields ["id"; "raw_b64"])) /\
  (ReadTx any_uuid (quoted "{'schema':2.0,'id':'x','sender':'wms','raw_b64':'G0A='}")).2 =
    Some (mkTxProblem TxCodeInvalidMessage (WrongType "schema")) /\
  (ReadTx any_uuid (quoted "{'schema':2,'id':'x','sender':'a','sender':'b','raw_b64':'G0A='} {}")).2 =
    Some (mkTxProblem TxCodeInvalidMessage MoreThanOneValue) /\
  ReadTx any_uuid (quoted "{'schema':2,'id':'x','sender':'a','sender':'b','raw_b64':'G0A='}") =
    (mkTxRef "x" "b", [], Some (mkTxProblem TxCodeInvalidID (NotUUID "x"))).
Proof. vm_compute. split_and!; reflexivity. Qed.
