(* ===== verification/Logging.v ===== *)
(** * The log: internal/logging/logging.go

    Records as the code makes them, the logger [New] builds, the level that
    filters records and the records no level filters, and the lines that reach
    each destination. A line's JSON is slog's and is left out. *)
From S2P Require Import Prelude GoLib.
#[local] Open Scope string_scope.

Inductive Level := LevelDebug | LevelInfo | LevelWarn | LevelError.

(** slog's numbers. *)
Definition level_number (level : Level) : Z :=
  match level with LevelDebug => -4 | LevelInfo => 0 | LevelWarn => 4 | LevelError => 8 end.

(** An attribute's value. [AttrDuration] is a duration the code prints with
    [String]. *)
Inductive attr :=
  | AttrString (s : string)
  | AttrInt (z : Z)
  | AttrBool (b : bool)
  | AttrStrings (l : list string)
  | AttrDuration (d : duration).

Abbreviation attrs := (list (string * attr)).

(** A record handed to the log; [always] is one given to [Record], which no
    level filters. *)
Record log_record := mkRecord { rec_always : bool; rec_level : Level; rec_message : string; rec_attrs : attrs }.

Definition Record_ (level : Level) (message : string) (a : attrs) : log_record := mkRecord true level message a.
Definition log_at (level : Level) (message : string) (a : attrs) : log_record := mkRecord false level message a.

(** [Payload]. *)
Definition Payload (data : bytes) : attrs :=
  ("data_hex", AttrString (hex_encode data)) ::
  (if utf8_valid data then [("data_text", AttrString (string_of_bytes data))] else []).

(** [ParseLevel]. *)
Definition ParseLevel (level : string) : result string Level :=
  let name := ToLower (TrimSpace level) in
  if bool_decide (name = "debug") then Ok LevelDebug
  else if bool_decide (name = "info") then Ok LevelInfo
  else if bool_decide (name = "warn") then Ok LevelWarn
  else if bool_decide (name = "error") then Ok LevelError
  else Err level.

(** ** slog's handler of JSON lines *)

(** A line: the record's level and message, and the attributes with the groups
    they are in. Its time and its source are left out. *)
Record line := mkLine { ln_level : Level; ln_message : string; ln_attrs : list (list string * (string * attr)) }.

(** [slog.NewJSONHandler], with the attributes and groups added to it. *)
Record json_handler := mkJSONHandler { jh_level : Level; jh_attrs : list (list string * (string * attr)); jh_groups : list string }.

Definition NewJSONHandler (level : Level) : json_handler := mkJSONHandler level [] [].

Definition under (groups : list string) (a : attrs) : list (list string * (string * attr)) := map (pair groups) a.

Definition json_WithAttrs (a : attrs) (h : json_handler) : json_handler :=
  mkJSONHandler (jh_level h) (jh_attrs h ++ under (jh_groups h) a)%list (jh_groups h).
Definition json_WithGroup (name : string) (h : json_handler) : json_handler :=
  if bool_decide (name = "") then h else mkJSONHandler (jh_level h) (jh_attrs h) (jh_groups h ++ [name])%list.
Definition json_Enabled (h : json_handler) (level : Level) : bool := (level_number (jh_level h) <=? level_number level)%Z.
Definition json_line (h : json_handler) (record : log_record) : line :=
  mkLine (rec_level record) (rec_message record) (jh_attrs h ++ under (jh_groups h) (rec_attrs record))%list.

(** ** The logger *)

Inductive destination := ToFile | ToOut.
#[global] Instance destination_eq_dec : EqDecision destination.
Proof. solve_decision. Defined.

(** [flushing]: the handler inside it with the [fanout] it writes to, and
    whether there is a file. *)
Record flushing := mkFlushing { inner : json_handler; destinations : list destination; has_file : bool }.

Definition WithAttrs (a : attrs) (h : flushing) : flushing := mkFlushing (json_WithAttrs a (inner h)) (destinations h) (has_file h).
Definition WithGroup (name : string) (h : flushing) : flushing := mkFlushing (json_WithGroup name (inner h)) (destinations h) (has_file h).
Definition Enabled (h : flushing) (level : Level) : bool := json_Enabled (inner h) level.

(** A [slog.Logger]: none stands for the handler that discards. [With] of no
    attribute keeps the handler. *)
Abbreviation logger := (option flushing).
Definition With (a : attrs) (log : logger) : logger := match a with [] => log | _ => WithAttrs a <$> log end.
Definition log_Enabled (log : logger) (level : Level) : bool := match log with Some h => Enabled h level | None => false end.

(** Whether there is a file and a stream, with the identity. *)
Record LogOptions := mkLogOptions {
  lg_Level : string; lg_Out : bool; lg_File : bool;
  lg_Project : string; lg_Site : string; lg_Station : string; lg_Host : string; lg_Instance : string; lg_AgentVersion : string;
}.

Definition identity_attrs (opts : LogOptions) : attrs :=
  [("project", AttrString (lg_Project opts)); ("site", AttrString (lg_Site opts)); ("station", AttrString (lg_Station opts));
   ("host", AttrString (lg_Host opts)); ("instance_id", AttrString (lg_Instance opts)); ("agent_version", AttrString (lg_AgentVersion opts))].

Definition New (opts : LogOptions) : result string logger :=
  match ParseLevel (lg_Level opts) with
  | Err err => Err err
  | Ok level =>
    let destinations := ((if lg_File opts then [ToFile] else []) ++ (if lg_Out opts then [ToOut] else []))%list in
    let handler := match destinations with [] => None | _ => Some (mkFlushing (NewJSONHandler level) destinations (lg_File opts)) end in
    Ok (With (identity_attrs opts) handler)
  end.

(** ** Where a record goes *)

(** What a record does: the writes, in order; whether the file was flushed; and
    the errors reported on [errors]. *)
Record effects := mkEffects { writes : list (destination * line); flushed : bool; reported : list string }.
Definition no_effects : effects := mkEffects [] false [].

Section Destinations.
(** What each destination answers to a write of the line, [None] for success,
    and what the file answers to a flush. *)
Context (write_error : destination -> line -> option string) (sync_error : option string).

(** [fanout.Write]: the writes, and the errors, which do not stop it. *)
Fixpoint fanout_Write (l : line) (ds : list destination) : list (destination * line) * list string :=
  match ds with
  | [] => ([], [])
  | d :: ds' => let (written, errs) := fanout_Write l ds' in ((d, l) :: written, (option_list (write_error d l) ++ errs)%list)
  end.

(** [flushing.Handle]. *)
Definition flushing_Handle (h : flushing) (record : log_record) : effects :=
  let (written, errs) := fanout_Write (json_line (inner h) record) (destinations h) in
  if has_file h && (level_number LevelInfo <=? level_number (rec_level record))%Z
  then mkEffects written true (errs ++ option_list sync_error)%list
  else mkEffects written false errs.

(** A record on its way through a logger: [Enabled] is asked for all but the
    ones given to [Record]. *)
Definition log_write (log : logger) (record : log_record) : effects :=
  match log with
  | Some h => if rec_always record || Enabled h (rec_level record) then flushing_Handle h record else no_effects
  | None => no_effects
  end.
End Destinations.

(** ** Properties *)

Lemma fanout_spec write_error l ds :
  fanout_Write write_error l ds = (map (fun d => (d, l)) ds, omap (fun d => write_error d l) ds).
Proof. induction ds as [|d ds IH]; [done|]. cbn. rewrite IH. by destruct (write_error d l). Qed.

(** The loggers derived from one by [With], and what they add. *)
Lemma With_spec a log :
  With a log = (fun h => mkFlushing (mkJSONHandler (jh_level (inner h)) (jh_attrs (inner h) ++ under (jh_groups (inner h)) a)%list (jh_groups (inner h)))
    (destinations h) (has_file h)) <$> log.
Proof. destruct a as [|x a]; [|done]. destruct log as [[[? ? ?] ? ?]|]; [|done]. cbn. by rewrite app_nil_r. Qed.

(** What [New] builds, and what [With] makes of it. *)
Definition built (opts : LogOptions) (level : Level) (extra : attrs) : logger :=
  match ((if lg_File opts then [ToFile] else []) ++ (if lg_Out opts then [ToOut] else []))%list with
  | [] => None
  | ds => Some (mkFlushing (mkJSONHandler level (under [] (identity_attrs opts ++ extra)%list) []) ds (lg_File opts))
  end.

Lemma New_ok opts level : ParseLevel (lg_Level opts) = Ok level -> New opts = Ok (built opts level []).
Proof. intros H. unfold New. rewrite H. unfold built. by destruct (lg_File opts), (lg_Out opts). Qed.

Lemma built_With opts level extra a : With a (built opts level extra) = built opts level (extra ++ a)%list.
Proof.
  rewrite With_spec. unfold built. destruct (_ ++ _)%list as [|d ds]; [done|]. cbn [fmap option_fmap option_map inner destinations has_file jh_level jh_attrs jh_groups].
  unfold under. by rewrite <-map_app, app_assoc.
Qed.

Lemma built_derived opts level derived :
  foldl (fun log a => With a log) (built opts level []) derived = built opts level (concat derived).
Proof.
  change (concat derived) with ([] ++ concat derived)%list. generalize (@nil (string * attr)) as extra.
  induction derived as [|a derived IH]; intros extra; cbn [foldl concat]; [by rewrite app_nil_r|].
  rewrite built_With, IH. by rewrite app_assoc.
Qed.

Lemma flushing_Handle_spec write_error sync_error h record :
  let e := flushing_Handle write_error sync_error h record in
  let l := json_line (inner h) record in
  writes e = map (fun d => (d, l)) (destinations h) /\
  flushed e = has_file h && (level_number LevelInfo <=? level_number (rec_level record))%Z /\
  (forall err, err ∈ reported e <->
    (exists d, (d, l) ∈ writes e /\ write_error d l = Some err) \/ (flushed e = true /\ sync_error = Some err)).
Proof.
  unfold flushing_Handle. rewrite fanout_spec. set (l := json_line _ _).
  assert (Hwritten : forall err, err ∈ omap (fun d => write_error d l) (destinations h) <->
    exists d, (d, l) ∈ map (fun d => (d, l)) (destinations h) /\ write_error d l = Some err).
  { intros err. rewrite list_elem_of_omap. split; intros (d & Hd & He); exists d; (split; [|done]).
    - apply list_elem_of_fmap. eauto.
    - by apply list_elem_of_fmap in Hd as (? & [= <-] & ?). }
  destruct (_ && _); cbn [writes flushed reported]; split_and!; try done; intros err; rewrite ?elem_of_app, Hwritten.
  - assert (Hsync : err ∈ option_list sync_error <-> true = true /\ sync_error = Some err)
      by (destruct sync_error as [e|]; [rewrite (list_elem_of_singleton err e)|rewrite elem_of_nil]; intuition congruence).
    by rewrite Hsync.
  - intuition congruence.
Qed.

(** C23: a record the log keeps, by its level or because it is always kept as
    every reading's is, reaches the file when there is one and then the stream
    when there is one, whatever either answered, as the same line: its message
    and level, with the station's identity first, then what was added to the
    logger it was given to, then its own attributes. Every failure is reported,
    and at INFO and above the file is flushed after it. *)
Theorem log_reaches_all write_error sync_error opts level derived log record :
  ParseLevel (lg_Level opts) = Ok level -> New opts = Ok log ->
  let logged := log_write write_error sync_error (foldl (fun log a => With a log) log derived) record in
  let l := mkLine (rec_level record) (rec_message record) (under [] (identity_attrs opts ++ concat derived ++ rec_attrs record)%list) in
  if rec_always record || (level_number level <=? level_number (rec_level record))%Z then
    writes logged = ((if lg_File opts then [(ToFile, l)] else []) ++ (if lg_Out opts then [(ToOut, l)] else []))%list /\
    flushed logged = lg_File opts && (level_number LevelInfo <=? level_number (rec_level record))%Z /\
    (forall err, err ∈ reported logged <->
      (exists d, (d, l) ∈ writes logged /\ write_error d l = Some err) \/ (flushed logged = true /\ sync_error = Some err))
  else logged = no_effects.
Proof.
  intros Hlevel Hnew. rewrite (New_ok _ _ Hlevel) in Hnew. injection Hnew as <-. rewrite built_derived. cbn zeta.
  set (l := mkLine _ _ _). unfold built.
  destruct ((if lg_File opts then [ToFile] else []) ++ _)%list as [|d ds] eqn:Hds.
  - destruct (lg_File opts), (lg_Out opts); try done. cbn [app log_write]. destruct (_ || _); [|done]. split_and!; [done|done|].

    intros err. split; [by intros ?%elem_of_nil|]. by intros [(? & []%elem_of_nil & _)|[? _]].
  - unfold log_write, Enabled, json_Enabled. cbn [inner jh_level]. destruct (_ || _); [|done].
    set (h := mkFlushing _ _ _). pose proof (flushing_Handle_spec write_error sync_error h record) as (Hw & Hf & He).
    replace (json_line (inner h) record) with l in * by
      (unfold l, h, json_line, under; cbn [inner jh_attrs jh_groups]; by rewrite <-map_app, <-!app_assoc).
    split_and!; [|done|exact He]. rewrite Hw. unfold h. cbn [destinations]. rewrite <-Hds. by destruct (lg_File opts), (lg_Out opts).
Qed.

Definition full_disk (d : destination) (l : line) : option string := match d with ToFile => Some "disk full" | ToOut => None end.

Definition two_destinations : LogOptions := mkLogOptions " Error" true true "acme" "vasby" "pack-03" "host" "pack-03" "2.2.0".

Lemma log_reaches_all_witness :
  let l := mkLine LevelInfo "rx published" (under [] (identity_attrs two_destinations ++ [("device_id", AttrString "scan-1")] ++ [("seq", AttrInt 7)])%list) in
  exists log, New two_destinations = Ok log /\
  let logged := log_write full_disk None (With [("device_id", AttrString "scan-1")] log) (Record_ LevelInfo "rx published" [("seq", AttrInt 7)]) in
  writes logged = [(ToFile, l); (ToOut, l)] /\ "disk full" ∈ reported logged.
Proof.
  eexists. split; [reflexivity|].
  destruct (log_reaches_all full_disk None two_destinations LevelError [[("device_id", AttrString "scan-1")]] _
    (Record_ LevelInfo "rx published" [("seq", AttrInt 7)]) eq_refl eq_refl) as (Hw & Hf & He).
  split; [exact Hw|]. apply He. left. exists ToFile. split; [|reflexivity]. cbn [foldl] in *. rewrite Hw. apply list_elem_of_here.
Defined.
