(* ===== verification/PahoLog.v ===== *)
(** * paho's lines in the agent's log: internal/transport/mqtt/paholog.go

    The adapter that makes a record of a line, and the gate that lets lines
    through until the connection is closed, as the steps of paho's goroutines
    and of [Client.Close]. Go's read-write lock is modelled with its rule that a
    writer that waits keeps new readers out. *)
From S2P Require Import Prelude GoLib Logging.

(** ** The adapter *)

Record logAdapter := mkLogAdapter { ad_log : logger; ad_level : Level }.

(** [emit] up to the gate: the record, when the level is enabled. *)
Definition emit (adapter : logAdapter) (msg : string) : option log_record :=
  if log_Enabled (ad_log adapter) (ad_level adapter) then Some (Record_ (ad_level adapter) msg []) else None.

(** The four adapters of [clientConfig] over the connection's log: autopaho's
    and paho's errors, and their debug lines. *)
Definition adapters (log : logger) : list logAdapter :=
  let paho := With [("component", AttrString "paho")]%string log in
  [mkLogAdapter log LevelWarn; mkLogAdapter log LevelDebug; mkLogAdapter paho LevelWarn; mkLogAdapter paho LevelDebug].

(** ** [sync.RWMutex] *)

Record RWMutex := mkRWMutex { readers : nat; waiting : bool; writing : bool }.
Definition unlocked : RWMutex := mkRWMutex 0 false false.

Definition RLock (mu : RWMutex) : option RWMutex :=
  if waiting mu || writing mu then None else Some (mkRWMutex (S (readers mu)) false false).
Definition RUnlock (mu : RWMutex) : RWMutex := mkRWMutex (readers mu - 1) (waiting mu) (writing mu).
(** A call of [Lock] waits from here on. *)
Definition ask (mu : RWMutex) : option RWMutex :=
  if waiting mu || writing mu then None else Some (mkRWMutex (readers mu) true false).
Definition Lock (mu : RWMutex) : option RWMutex :=
  if waiting mu && (readers mu =? 0)%nat then Some (mkRWMutex 0 false true) else None.
Definition Unlock (mu : RWMutex) : RWMutex := mkRWMutex (readers mu) (waiting mu) false.

(** ** The gate *)

Record lineGate := mkGate { mu : RWMutex; closed : bool }.
Definition open_gate : lineGate := mkGate unlocked false.

(** Where a goroutine is in [emit]: before [pass], in it with the lock held
    (about to look, writing, or done), or gone, having written or not. *)
Inductive emitting := Arrived | Looking | Writing | Leaving (wrote : bool) | Gone (wrote : bool).
#[global] Instance emitting_eq_dec : EqDecision emitting.
Proof. solve_decision. Defined.

(** Where the goroutine that stops the agent is: before [gate.close], in it,
    back from [Client.Close], and past the close of the log file that follows. *)
Inductive closing := NotYet | Asked | Held | Set_ | Returned | FileClosed.

Inductive event := Began (i : nat) | Ended (i : nat) | CloseReturned | LogFileClosed.

Record gated := mkGated { gate : lineGate; lines : list emitting; closer : closing; history : list event }.

(** Before a line. *)
Definition quiet : gated := mkGated open_gate [] NotYet [].

Definition set_line (i : nat) (e : emitting) (s : gated) : list emitting := <[i := e]> (lines s).

(** A line that the log's level stops never comes to the gate. *)
Inductive gate_step (s : gated) : gated -> Prop :=
  | line_emitted (adapter : logAdapter) msg record :
      emit adapter msg = Some record ->
      gate_step s (mkGated (gate s) (lines s ++ [Arrived]) (closer s) (history s))
  | line_enters i m :
      lines s !! i = Some Arrived -> RLock (mu (gate s)) = Some m ->
      gate_step s (mkGated (mkGate m (closed (gate s))) (set_line i Looking s) (closer s) (history s))
  | line_starts i :
      lines s !! i = Some Looking -> closed (gate s) = false ->
      gate_step s (mkGated (gate s) (set_line i Writing s) (closer s) (history s ++ [Began i]))
  | line_discarded i :
      lines s !! i = Some Looking -> closed (gate s) = true ->
      gate_step s (mkGated (gate s) (set_line i (Leaving false) s) (closer s) (history s))
  | line_written i :
      lines s !! i = Some Writing ->
      gate_step s (mkGated (gate s) (set_line i (Leaving true) s) (closer s) (history s ++ [Ended i]))
  | line_leaves i wrote :
      lines s !! i = Some (Leaving wrote) ->
      gate_step s (mkGated (mkGate (RUnlock (mu (gate s))) (closed (gate s))) (set_line i (Gone wrote) s) (closer s) (history s))
  | close_asks m :
      closer s = NotYet -> ask (mu (gate s)) = Some m ->
      gate_step s (mkGated (mkGate m (closed (gate s))) (lines s) Asked (history s))
  | close_locks m :
      closer s = Asked -> Lock (mu (gate s)) = Some m ->
      gate_step s (mkGated (mkGate m (closed (gate s))) (lines s) Held (history s))
  | close_sets :
      closer s = Held -> gate_step s (mkGated (mkGate (mu (gate s)) true) (lines s) Set_ (history s))
  | close_returns :
      closer s = Set_ ->
      gate_step s (mkGated (mkGate (Unlock (mu (gate s))) (closed (gate s))) (lines s) Returned (history s ++ [CloseReturned]))
  | file_closes :
      closer s = Returned -> gate_step s (mkGated (gate s) (lines s) FileClosed (history s ++ [LogFileClosed])).

Definition gate_reach : gated -> Prop := rtc gate_step quiet.

(** *** The invariant *)

Definition holds (e : emitting) : nat := match e with Looking | Writing | Leaving _ => 1 | _ => 0 end.
Definition holders (l : list emitting) : nat := sum_list_with holds l.

(** The lock in each state of the closer. *)
Definition lock_of (c : closing) (n : nat) : RWMutex :=
  match c with
  | Asked => mkRWMutex n true false
  | Held | Set_ => mkRWMutex 0 false true
  | _ => mkRWMutex n false false
  end.

Definition closes (c : closing) : bool := match c with Set_ | Returned | FileClosed => true | _ => false end.
Definition back (c : closing) : bool := match c with Returned | FileClosed => true | _ => false end.

(** What the history says of line [i]. *)
Definition line_history (e : option emitting) (i : nat) : list event :=
  match e with
  | Some Writing => [Began i]
  | Some (Leaving true) | Some (Gone true) => [Began i; Ended i]
  | _ => []
  end.

Definition line_event (e : event) : Prop := match e with Began _ | Ended _ => True | _ => False end.
Definition is_line (i : nat) (e : event) : Prop := match e with Began j | Ended j => i = j | _ => False end.
#[global] Instance is_line_dec i e : Decision (is_line i e).
Proof. destruct e; cbn; apply _. Defined.

(** No line after [Close] is back, and it is before the file is closed. *)
Definition in_order (h : list event) : Prop :=
  (forall before after, h = before ++ CloseReturned :: after -> Forall (fun e => ~ line_event e) after) /\
  (forall before after, h = before ++ LogFileClosed :: after -> CloseReturned ∈ before).

Record gated_ok (s : gated) : Prop := {
  go_lock : mu (gate s) = lock_of (closer s) (holders (lines s));
  go_alone : (closer s = Held \/ closer s = Set_) -> holders (lines s) = 0;
  go_closed : closed (gate s) = closes (closer s);
  go_writing i : lines s !! i = Some Writing -> closed (gate s) = false;
  go_discarded i : lines s !! i = Some (Leaving false) \/ lines s !! i = Some (Gone false) -> closed (gate s) = true;
  go_lines i : filter (is_line i) (history s) = line_history (lines s !! i) i;
  go_back : CloseReturned ∈ history s <-> back (closer s) = true;
  go_order : in_order (history s);
}.

Lemma sum_insert {A} (f : A -> nat) (l : list A) i x y :
  l !! i = Some x -> sum_list_with f (<[i := y]> l) + f x = sum_list_with f l + f y.
Proof.
  revert i. induction l as [|z l IH]; intros [|i] Hi; [done|done| |].
  - injection Hi as ->. cbn. lia.
  - change (<[S i := y]> (z :: l)) with (z :: <[i := y]> l). cbn [sum_list_with]. specialize (IH i Hi). lia.
Qed.

Lemma holds_holders l i e : l !! i = Some e -> holds e <= holders l.
Proof.
  unfold holders. revert i. induction l as [|z l IH]; intros [|i] Hi; [done|done| |]; cbn in Hi |- *.
  - injection Hi as ->. lia.
  - specialize (IH i Hi). lia.
Qed.

Lemma in_order_snoc h e :
  in_order h -> (line_event e -> CloseReturned ∉ h) -> (e = LogFileClosed -> CloseReturned ∈ h) -> in_order (h ++ [e]).
Proof.
  intros [Hback Hfile] Hline Hlog. split; intros before after Heq; destruct after as [|x after _] using rev_ind.
  - constructor.
  - change (before ++ CloseReturned :: after ++ [x]) with (before ++ (CloseReturned :: after) ++ [x]) in Heq.
    rewrite app_assoc in Heq. apply app_inj_tail in Heq as [Heq ->]. apply Forall_app_2; [by eapply Hback|].
    apply Forall_cons_2; [|constructor]. intros Hx. apply (Hline Hx). rewrite Heq. apply elem_of_app. right. apply list_elem_of_here.
  - apply app_inj_tail in Heq as [-> ->]. by apply Hlog.
  - change (before ++ LogFileClosed :: after ++ [x]) with (before ++ (LogFileClosed :: after) ++ [x]) in Heq.
    rewrite app_assoc in Heq. apply app_inj_tail in Heq as [Heq ->]. by eapply Hfile.
Qed.

Lemma quiet_ok : gated_ok quiet.
Proof.
  split; cbn; try done.
  - intros i [H|H]; by rewrite lookup_nil in H.
  - split; [by intros ?%elem_of_nil|done].
  - split; intros [] ? [=].
Qed.

(** A line moves on, with the events it makes. *)
Lemma line_moves s i e e' m ev h :
  gated_ok s -> lines s !! i = Some e -> h = history s ++ ev ->
  m = lock_of (closer s) (holders (set_line i e' s)) -> ((closer s = Held \/ closer s = Set_) -> holders (set_line i e' s) = 0) ->
  (e' = Writing -> closed (gate s) = false) -> (e' = Leaving false \/ e' = Gone false -> closed (gate s) = true) ->
  line_history (Some e) i ++ ev = line_history (Some e') i ->
  (ev = [] \/ (exists x, ev = [x] /\ is_line i x /\ closed (gate s) = false)) ->
  gated_ok (mkGated (mkGate m (closed (gate s))) (set_line i e' s) (closer s) h).
Proof.
  intros [Hlock Halone Hclosed Hwriting Hdisc Hlines Hback Horder] Hi -> Hm Ha Hw Hd Hh Hev.
  assert (Hnot : forall x, ev = [x] -> CloseReturned ∉ history s).
  { intros x Hx Hin. apply Hback in Hin. destruct Hev as [->|(y & -> & _ & Hc)]; [done|]. rewrite Hclosed in Hc. by destruct (closer s). }
  assert (Hline : forall j, lines s !! j = set_line i e' s !! j \/ (j = i /\ set_line i e' s !! j = Some e')).
  { intros j. unfold set_line. destruct (decide (i = j)) as [->|Hne]; [right|left]; [|by rewrite list_lookup_insert_ne].
    split; [done|]. apply list_lookup_insert_eq. by eapply lookup_lt_Some. }
  split; cbn [gate mu closed lines closer history]; try done.
  - intros j Hj. destruct (Hline j) as [Heq|[-> Heq]]; [rewrite <-Heq in Hj; by eapply Hwriting|]. rewrite Heq in Hj. apply Hw. congruence.
  - intros j Hj. destruct (Hline j) as [Heq|[-> Heq]]; [rewrite <-Heq in Hj; by eapply Hdisc|]. rewrite Heq in Hj. apply Hd. naive_solver.
  - intros j. rewrite filter_app, Hlines. unfold set_line. destruct (decide (j = i)) as [->|Hne].
    + rewrite list_lookup_insert_eq by (by eapply lookup_lt_Some). rewrite Hi, <-Hh. f_equal.
      destruct Hev as [->|(x & -> & Hx & _)]; [done|]. by rewrite filter_cons_True.
    + rewrite list_lookup_insert_ne by done. destruct Hev as [->|(x & -> & Hx & _)]; [by rewrite app_nil_r|].
      rewrite filter_cons_False; [by rewrite app_nil_r|]. destruct x; cbn in *; congruence.
  - rewrite <-Hback, elem_of_app. destruct Hev as [->|(x & -> & Hx & _)]; [rewrite elem_of_nil; tauto|].
    rewrite list_elem_of_singleton. split; [intros [?|<-]; [done|by destruct Hx]|auto].
  - destruct Hev as [->|(x & -> & Hx & _)]; [by rewrite app_nil_r|]. apply in_order_snoc; [done| |by intros ->].
    intros _. by eapply Hnot.
Qed.

(** The closer moves on, with the event it makes. *)
Lemma closer_moves s c m h :
  gated_ok s -> m = lock_of c (holders (lines s)) -> ((c = Held \/ c = Set_) -> holders (lines s) = 0) ->
  (closes (closer s) = true -> closes c = true) -> (closes c = true -> closes (closer s) = true \/ holders (lines s) = 0) ->
  (h = history s /\ back c = back (closer s)) \/ (h = history s ++ [CloseReturned] /\ back c = true) \/
    (h = history s ++ [LogFileClosed] /\ back c = true /\ back (closer s) = true) ->
  gated_ok (mkGated (mkGate m (closes c)) (lines s) c h).
Proof.
  intros [Hlock Halone Hclosed Hwriting Hdisc Hlines Hback Horder] Hm Ha Hc Ho Hh.
  split; cbn [gate mu closed lines closer history]; try done.
  - intros i Hi. destruct (closes c) eqn:Hcl; [|done]. destruct Ho as [Ho|Ho]; [done| |].
    + rewrite <-Hclosed in Ho. by rewrite (Hwriting i Hi) in Ho.
    + apply holds_holders in Hi. cbn in Hi. lia.
  - intros i Hi. apply Hc. rewrite <-Hclosed. by eapply Hdisc.
  - intros i. rewrite <-Hlines. by destruct Hh as [[-> _]|[[-> _]|[-> _]]]; rewrite ?filter_app, ?app_nil_r.
  - destruct Hh as [[-> ->]|[[-> ->]|(-> & -> & Hb)]]; [done| |]; rewrite elem_of_app, ?Hback, list_elem_of_singleton; intuition.
  - destruct Hh as [[-> _]|[[-> _]|(-> & _ & Hb)]]; [done| |]; apply in_order_snoc; try done. intros _. by apply Hback.
Qed.

Lemma RLock_inv c n m : RLock (lock_of c n) = Some m -> m = lock_of c (S n) /\ c <> Held /\ c <> Set_.
Proof. destruct c; cbn; intros [= <-]; done. Qed.

Lemma gate_same g : mkGate (mu g) (closed g) = g.
Proof. by destruct g. Qed.

Lemma gate_step_ok s s' : gated_ok s -> gate_step s s' -> gated_ok s'.
Proof.
  intros Hs Hstep. pose proof Hs as [Hlock Halone Hclosed Hwriting Hdisc Hlines Hback Horder].
  assert (Hsum : forall i e e', lines s !! i = Some e -> holders (set_line i e' s) + holds e = holders (lines s) + holds e')
    by (intros; by apply sum_insert).
  destruct Hstep as [adapter msg r Hr|i m Hi Hm|i Hi Hc|i Hi Hc|i Hi|i wrote Hi|m Hc Hm|m Hc Hm|Hc|Hc|Hc].
  - assert (Hh : holders (lines s ++ [Arrived]) = holders (lines s)) by (unfold holders; rewrite sum_list_with_app; cbn; lia).
    assert (Hlook : forall i e, (lines s ++ [Arrived]) !! i = Some e -> e = Arrived \/ lines s !! i = Some e).
    { intros i e [?|[_ H]]%lookup_app_Some; [auto|]. apply list_lookup_singleton_Some in H as [_ <-]. auto. }
    split; cbn [gate lines closer history]; rewrite ?Hh; try done.
    + intros i [?|?]%Hlook; [done|eauto].
    + intros i [Hi|Hi]; apply Hlook in Hi as [?|?]; naive_solver.
    + intros i. rewrite Hlines. destruct (decide (i < length (lines s))) as [?|Hge]; [by rewrite lookup_app_l|].
      rewrite (lookup_ge_None_2 (lines s)) by lia. destruct ((lines s ++ [Arrived]) !! i) as [e|] eqn:He; [|done].
      apply Hlook in He as [->|He]; [done|]. apply lookup_lt_Some in He. lia.
  - rewrite Hlock in Hm. apply RLock_inv in Hm as (-> & Hn1 & Hn2). pose proof (Hsum _ _ Looking Hi) as Hh. cbn in Hh.
    eapply (line_moves _ _ _ _ _ []); [exact Hs|exact Hi|by rewrite app_nil_r| |naive_solver|done|naive_solver|done|by left].
    f_equal. lia.
  - pose proof (Hsum _ _ Writing Hi) as Hh. cbn in Hh. rewrite <-(gate_same (gate s)).
    eapply (line_moves _ _ _ _ _ [Began i]); [exact Hs|exact Hi|done| | |done|naive_solver|done|right; by eexists].
    + rewrite Hlock. f_equal. lia.
    + intros H. apply Halone in H. lia.
  - pose proof (Hsum _ _ (Leaving false) Hi) as Hh. cbn in Hh. rewrite <-(gate_same (gate s)).
    eapply (line_moves _ _ _ _ _ []); [exact Hs|exact Hi|by rewrite app_nil_r| | |done|done|done|by left].
    + rewrite Hlock. f_equal. lia.
    + intros H. apply Halone in H. lia.
  - pose proof (Hsum _ _ (Leaving true) Hi) as Hh. cbn in Hh. rewrite <-(gate_same (gate s)).
    eapply (line_moves _ _ _ _ _ [Ended i]); [exact Hs|exact Hi|done| | |done|naive_solver|done|right; exists (Ended i); split_and!; [done|done|by eapply Hwriting]].
    + rewrite Hlock. f_equal. lia.
    + intros H. apply Halone in H. lia.
  - pose proof (Hsum _ _ (Gone wrote) Hi) as Hh. cbn in Hh.
    assert (Hn : closer s <> Held /\ closer s <> Set_) by (split; intros H; rewrite Halone in Hh by auto; lia).
    eapply (line_moves _ _ _ _ _ []); [exact Hs|exact Hi|by rewrite app_nil_r| |by intros [?|?]; destruct Hn|done| |by destruct wrote|by left].
    + rewrite Hlock. unfold RUnlock. destruct Hn. destruct (closer s); try done; cbn; f_equal; lia.
    + intros [|[= ->]]; [done|]. eapply Hdisc. eauto.
  - rewrite Hlock, Hc in Hm. injection Hm as <-. rewrite Hclosed, Hc. change (closes NotYet) with (closes Asked).
    apply closer_moves; rewrite ?Hc; try done; [by intros [?|?]|auto].
  - rewrite Hlock, Hc in Hm. unfold Lock in Hm. cbn in Hm. destruct (_ =? 0)%nat eqn:Hz; [|done]. apply Nat.eqb_eq in Hz. injection Hm as <-.
    rewrite Hclosed, Hc. change (closes Asked) with (closes Held). apply closer_moves; rewrite ?Hc; try done; auto.
  - rewrite Hlock, Hc. change true with (closes Set_). apply closer_moves; try done; rewrite ?Hc; try done; auto.
  - rewrite Hlock, Hclosed, Hc. change (closes Set_) with (closes Returned).
    apply closer_moves; rewrite ?Hc; try done; auto. unfold Unlock. cbn. by rewrite Halone by auto.
  - rewrite <-(gate_same (gate s)), Hlock, Hclosed, Hc. change (closes Returned) with (closes FileClosed).
    apply closer_moves; rewrite ?Hc; try done; auto. by intros [?|?].
Qed.

Lemma gate_reach_ok s : gate_reach s -> gated_ok s.
Proof.
  unfold gate_reach. revert s. refine (rtc_ind_r _ _ _ _); [apply quiet_ok|]. intros s s' _ Hstep Hs. by eapply gate_step_ok.
Qed.

(** *** Progress *)

(** What the lines that hold the lock have still to do. *)
Definition work (e : emitting) : nat := match e with Looking => 3 | Writing => 2 | Leaving _ => 1 | _ => 0 end.

Lemma line_works s i e :
  lines s !! i = Some e -> holds e = 1 ->
  exists e' s', work e' < work e /\ gate_step s s' /\ lines s' = set_line i e' s /\ closer s' = closer s.
Proof.
  intros Hi He. destruct e as [| | |wrote|]; try done.
  - destruct (closed (gate s)) eqn:Hc.
    + do 2 eexists. split; [|split; [by eapply line_discarded|done]]. cbn. lia.
    + do 2 eexists. split; [|split; [by eapply line_starts|done]]. cbn. lia.
  - do 2 eexists. split; [|split; [by eapply line_written|done]]. cbn. lia.
  - do 2 eexists. split; [|split; [by eapply line_leaves|done]]. cbn. lia.
Qed.

Lemma holders_some l : holders l <> 0 -> exists i e, l !! i = Some e /\ holds e = 1.
Proof.
  unfold holders. induction l as [|z l IH]; [done|]. cbn [sum_list_with]. intros H.
  destruct (decide (holds z = 1)); [by exists 0, z|]. destruct IH as (i & e & Hi & He); [destruct z; cbn in *; lia|]. by exists (S i), e.
Qed.

Lemma lines_leave s : exists s', rtc gate_step s s' /\ closer s' = closer s /\ holders (lines s') = 0.
Proof.
  remember (sum_list_with work (lines s)) as n eqn:Hn. revert s Hn. induction n as [n IH] using lt_wf_ind. intros s Hn.
  destruct (decide (holders (lines s) = 0)); [by exists s|].
  destruct (holders_some (lines s)) as (i & e & Hi & He); [done|]. destruct (line_works s i e Hi He) as (e' & s1 & Hlt & Hstep & Hl & Hc).
  pose proof (sum_insert work (lines s) i e e' Hi) as Hsum. fold (set_line i e' s) in Hsum.
  destruct (IH (sum_list_with work (lines s1))) with (s := s1) as (s' & Hsteps & Hc' & Hh); [rewrite Hl; lia|done|].
  exists s'. split; [by eapply rtc_l|]. by rewrite Hc'.
Qed.

Lemma close_can_return s : gated_ok s -> exists s', rtc gate_step s s' /\ back (closer s') = true.
Proof.
  intros Hs. destruct (lines_leave s) as (s0 & H0 & Hc0 & Hh0).
  assert (Hs0 : gated_ok s0) by (clear -Hs H0; induction H0; eauto using gate_step_ok).
  cut (exists s', rtc gate_step s0 s' /\ back (closer s') = true); [intros (s' & ? & ?); exists s'; split; [by etrans|done]|].
  clear s Hs H0 Hc0. rename s0 into s, Hs0 into Hs, Hh0 into Hh.
  assert (Hset : forall s, closer s = Set_ -> exists s', rtc gate_step s s' /\ back (closer s') = true)
    by (intros s1 Hc; eexists; split; [apply rtc_once; by apply close_returns|done]).
  assert (Hheld : forall s, closer s = Held -> exists s', rtc gate_step s s' /\ back (closer s') = true).
  { intros s1 Hc. edestruct Hset as (s' & H' & Hb); [|exists s'; split; [eapply rtc_l; [by apply close_sets|exact H']|done]]. done. }
  assert (Hasked : forall s, closer s = Asked -> mu (gate s) = mkRWMutex 0 true false -> exists s', rtc gate_step s s' /\ back (closer s') = true).
  { intros s1 Hc Hm. edestruct Hheld as (s' & H' & Hb); [|exists s'; split; [eapply rtc_l; [eapply close_locks; [done|by rewrite Hm]|exact H']|done]]. done. }
  pose proof (go_lock s Hs) as Hlock. rewrite Hh in Hlock. destruct (closer s) eqn:Hc; eauto; try (exists s; split; [done|by rewrite Hc]).
  edestruct Hasked as (s' & H' & Hb); [| |exists s'; split; [eapply rtc_l; [eapply close_asks; [done|by rewrite Hlock]|exact H']|done]]; done.
Qed.

(** C36: once [Client.Close] is back, and so before the log file is closed, no
    line of paho's begins or ends; every line that came through before is whole
    by then, and a line is discarded only once the gate is closed. [Close] waits
    for the lines on their way and can always come back, whatever they are
    doing. *)
Theorem gate_closes s :
  gate_reach s ->
  (forall before after, history s = before ++ CloseReturned :: after -> Forall (fun e => ~ line_event e) after) /\
  (forall before after, history s = before ++ LogFileClosed :: after -> CloseReturned ∈ before) /\
  (forall i, CloseReturned ∈ history s -> Began i ∈ history s -> filter (is_line i) (history s) = [Began i; Ended i]) /\
  (forall i, lines s !! i = Some (Gone true) -> filter (is_line i) (history s) = [Began i; Ended i]) /\
  (forall i, lines s !! i = Some (Gone false) -> filter (is_line i) (history s) = [] /\ closed (gate s) = true) /\
  (exists s', rtc gate_step s s' /\ back (closer s') = true).
Proof.
  intros Hs%gate_reach_ok. pose proof Hs as [Hlock Halone Hclosed Hwriting Hdisc Hlines Hback [Hafter Hfile]]. split_and!; [done|done| | | |].
  - intros i Hin Hi. assert (Hf : Began i ∈ filter (is_line i) (history s)) by (by apply list_elem_of_filter).
    rewrite Hlines in Hf |- *. apply Hback in Hin.
    destruct (lines s !! i) as [e|] eqn:He; [|by apply elem_of_nil in Hf].
    destruct e as [| | |[]|[]]; cbn in Hf |- *; try done; try by apply elem_of_nil in Hf.
    apply Hwriting in He. rewrite Hclosed in He. by destruct (closer s).
  - intros i Hi. by rewrite Hlines, Hi.
  - intros i Hi. rewrite Hlines, Hi. split; [done|]. eauto.
  - by apply close_can_return.
Qed.

Definition debug_log : logger := Some (mkFlushing (NewJSONHandler LevelDebug) [ToFile] true).

(** A line under way when [Close] comes, and one that arrives while it waits. *)
Definition one_discarded : gated :=
  mkGated (mkGate unlocked true) [Gone true; Gone false] FileClosed [Began 0; Ended 0; CloseReturned; LogFileClosed].

Ltac gate_move t := eapply rtc_l; [t|match goal with |- rtc _ ?x _ => let y := eval vm_compute in x in change x with y end].

Lemma one_discarded_reached : gate_reach one_discarded.
Proof.
  gate_move ltac:(apply (line_emitted _ (mkLogAdapter debug_log LevelDebug) "connection" _ eq_refl)).
  gate_move ltac:(eapply (line_enters _ 0); reflexivity).
  gate_move ltac:(eapply (line_starts _ 0); reflexivity).
  gate_move ltac:(eapply close_asks; reflexivity).
  gate_move ltac:(apply (line_emitted _ (mkLogAdapter debug_log LevelDebug) "connection" _ eq_refl)).
  gate_move ltac:(eapply (line_written _ 0); reflexivity).
  gate_move ltac:(eapply (line_leaves _ 0); reflexivity).
  gate_move ltac:(eapply close_locks; reflexivity).
  gate_move ltac:(eapply close_sets; reflexivity).
  gate_move ltac:(eapply close_returns; reflexivity).
  gate_move ltac:(eapply (line_enters _ 1); reflexivity).
  gate_move ltac:(eapply (line_discarded _ 1); reflexivity).
  gate_move ltac:(eapply (line_leaves _ 1); reflexivity).
  gate_move ltac:(eapply file_closes; reflexivity).
  reflexivity.
Qed.

Lemma gate_closes_witness :
  filter (is_line 0) (history one_discarded) = [Began 0; Ended 0] /\ filter (is_line 1) (history one_discarded) = [] /\
  Forall (fun e => ~ line_event e) [LogFileClosed].
Proof.
  destruct (gate_closes one_discarded one_discarded_reached) as (Hafter & _ & Hwhole & _ & Hdiscarded & _).
  split; [apply Hwhole; [do 2 apply list_elem_of_further|]; apply list_elem_of_here|].
  split; [by apply (Hdiscarded 1)|by apply (Hafter [Began 0; Ended 0])].
Defined.
