(* ===== verification/LogFile.v ===== *)
(** * The log file: internal/logging/file.go

    The file's directory is a map from the generation of a name (0 for the live
    path, [n] for [path.n]) to a file, and from a file to its bytes: a handle is
    on the file, whatever becomes of its name. What the system answers to each
    call is an argument. The mutex makes each method one step. *)
From S2P Require Import Prelude GoLib.
#[local] Open Scope string_scope.

(** ** The directory *)

Record disk := mkDisk { names : gmap nat nat; contents : gmap nat bytes; fresh : nat }.

(** What the file of a name holds. *)
Definition content (d : disk) (generation : nat) : option bytes := names d !! generation ≫= fun file => contents d !! file.

(** [None] is success; a name that is not there is no fault of its own, and the
    code lets it pass. *)
Abbreviation fault := (option string).

Definition remove (f : fault) (generation : nat) (d : disk) : disk * fault :=
  match f with Some err => (d, Some err) | None => (mkDisk (delete generation (names d)) (contents d) (fresh d), None) end.

Definition rename (f : fault) (from to : nat) (d : disk) : disk * fault :=
  match f with
  | Some err => (d, Some err)
  | None =>
    match names d !! from with
    | None => (d, None)
    | Some file => (mkDisk (<[to := file]> (delete from (names d))) (contents d) (fresh d), None)
    end
  end.

(** The open of the live path, which creates it when it is not there. *)
Definition open_live (d : disk) : nat * disk :=
  match names d !! 0 with
  | Some file => (file, d)
  | None => (fresh d, mkDisk (<[0 := fresh d]> (names d)) (<[fresh d := []]> (contents d)) (S (fresh d)))
  end.

Definition append (file : nat) (data : bytes) (d : disk) : disk :=
  mkDisk (names d) (<[file := (default [] (contents d !! file) ++ data)%list]> (contents d)) (fresh d).

(** ** The log file *)

Record File := mkFile { maxBytes : Z; keep : nat; handle : option nat; size : Z }.

Definition bytesPerMB : Z := 1048576.

(** What the system answers in one call of a method: a rename by the generation
    it moves, and of a write how much of it fails to be written, and why. *)
Record answers := mkAnswers {
  a_close : fault; a_remove : fault; a_rename : nat -> fault; a_open : fault; a_stat : fault;
  a_write : option (nat * string); a_sync : fault;
}.

Definition no_faults : answers := mkAnswers None None (fun _ => None) None None None None.

(** [open]. *)
Definition open_file (a : answers) (file : File) (d : disk) : File * disk * fault :=
  match a_open a with
  | Some err => (file, d, Some err)
  | None =>
    let (live, d) := open_live d in
    match a_stat a with
    | Some err => (file, d, Some err)
    | None => (mkFile (maxBytes file) (keep file) (Some live) (Z.of_nat (length (default [] (contents d !! live)))), d, None)
    end
  end.

Inductive open_file_error :=
  | LogPathRequired | MaxSizeTooSmall (n : Z) | KeepNegative (n : Z) | BadDirectory (why : string) | CannotOpenLog (err : string).

(** [directory] is what is wrong with the path's directory. *)
Definition OpenFile (a : answers) (directory : option string) (path : string) (maxSizeMB keep_ : Z) (d : disk) :
    result open_file_error File * disk :=
  if bool_decide (path = "") then (Err LogPathRequired, d)
  else if (maxSizeMB <? 1)%Z then (Err (MaxSizeTooSmall maxSizeMB), d)
  else if (keep_ <? 0)%Z then (Err (KeepNegative keep_), d)
  else match directory with
  | Some why => (Err (BadDirectory why), d)
  | None =>
    match open_file a (mkFile (int64 (maxSizeMB * bytesPerMB)) (Z.to_nat keep_) None 0) d with
    | (file, d, None) => (Ok file, d)
    | (_, d, Some err) => (Err (CannotOpenLog err), d)
    end
  end.

(** The loop of [shift], from [generation] down. *)
Fixpoint shift_up (a : answers) (generation : nat) (d : disk) : disk * fault :=
  match generation with
  | O => (d, None)
  | S lower =>
    match rename (a_rename a generation) generation (S generation) d with
    | (d, Some err) => (d, Some err)
    | (d, None) => shift_up a lower d
    end
  end.

Definition shift (a : answers) (keep : nat) (d : disk) : disk * fault :=
  if (keep =? 0)%nat then remove (a_remove a) 0 d
  else match remove (a_remove a) keep d with
  | (d, Some err) => (d, Some err)
  | (d, None) =>
    match shift_up a (keep - 1) d with
    | (d, Some err) => (d, Some err)
    | (d, None) => rename (a_rename a 0) 0 1 d
    end
  end.

Definition with_handle (h : option nat) (file : File) : File := mkFile (maxBytes file) (keep file) h (size file).

(** [rotate]: the errors it joins, none for nil. *)
Definition rotate (a : answers) (file : File) (d : disk) : File * disk * list string :=
  let file := with_handle None file in
  let (d, shiftErr) := shift a (keep file) d in
  let '(file, d, openErr) := open_file a file d in
  (file, d, (option_list (a_close a) ++ option_list shiftErr ++ option_list openErr)%list).

(** [Write]: how much was written, and the errors it joins. *)
Definition Write (a : answers) (record : bytes) (file : File) (d : disk) : File * disk * (nat * list string) :=
  match handle file with
  | None => (file, d, (0%nat, ["closed"]))
  | Some _ =>
    let '(file, d, rotateErr) :=
      if (0 <? size file)%Z && (maxBytes file <? int64 (size file + Z.of_nat (length record)))%Z then rotate a file d
      else (file, d, []) in
    match handle file with
    | None => (file, d, (0%nat, rotateErr))
    | Some live =>
      let '(written, writeErr) := match a_write a with None => (length record, []) | Some (n, err) => (Nat.min n (length record), [err]) end in
      (mkFile (maxBytes file) (keep file) (Some live) (int64 (size file + Z.of_nat written)),
       append live (take written record) d, (written, (rotateErr ++ writeErr)%list))
    end
  end.

(** [Sync], and [Close]. *)
Definition Sync (a : answers) (file : File) : list string :=
  match handle file with None => ["closed"] | Some _ => option_list (a_sync a) end.

Definition Close (a : answers) (file : File) : File * list string :=
  match handle file with
  | None => (file, [])
  | Some _ => (with_handle None file, (option_list (a_sync a) ++ option_list (a_close a))%list)
  end.

(** One record after another, without a fault. *)
Definition write_all (file : File) (d : disk) (records : list bytes) : File * disk :=
  foldl (fun st record => (Write no_faults record st.1 st.2).1) (file, d) records.

#[local] Open Scope list_scope.

(** ** What a rotation does to the names *)

Lemma rename_names from to d :
  let d' := (rename None from to d).1 in
  from <> to -> names d !! to = None ->
  (rename None from to d).2 = None /\ contents d' = contents d /\ fresh d' = fresh d /\
  forall i, names d' !! i = if decide (i = from) then None else if decide (i = to) then names d !! from else names d !! i.
Proof.
  intros d' Hne Hto. unfold d', rename. destruct (names d !! from) as [file|] eqn:Hfrom; cbn [fst snd names contents fresh].
  - split_and!; [done..|]. intros i. destruct (decide (i = from)) as [->|?].
    + by rewrite lookup_insert_ne, lookup_delete_eq.
    + destruct (decide (i = to)) as [->|?]; [by rewrite lookup_insert_eq|]. by rewrite lookup_insert_ne, lookup_delete_ne.
  - split_and!; [done..|]. intros i. destruct (decide (i = from)) as [->|?]; [done|]. by destruct (decide (i = to)) as [->|?].
Qed.

Lemma shift_up_names generation d :
  let d' := (shift_up no_faults generation d).1 in
  names d !! S generation = None ->
  (shift_up no_faults generation d).2 = None /\ contents d' = contents d /\ fresh d' = fresh d /\
  forall i, names d' !! i = if decide (i = 1) then None else if decide (2 <= i <= S generation) then names d !! (i - 1) else names d !! i.
Proof.
  cbv zeta. revert d. induction generation as [|lower IH]; intros d Hfree.
  { cbn. split_and!; [done..|]. intros i. destruct (decide (i = 1)) as [->|?]; [done|]. by rewrite decide_False by lia. }
  cbn [shift_up a_rename no_faults].
  destruct (rename_names (S lower) (S (S lower)) d) as (Hok & Hcontents & Hfresh & Hnames); [lia|done|].
  destruct (rename None (S lower) (S (S lower)) d) as [d1 err]. cbn [fst snd] in *. subst err.
  destruct (IH d1) as (-> & Hc & Hf & Hn); [by rewrite Hnames, decide_True by done|]. rewrite Hc, Hf. split_and!; [done..|].
  intros i. rewrite Hn. destruct (decide (i = 1)) as [->|?]; [done|]. rewrite !Hnames.
  repeat (case_decide; [|]); try lia; try done; subst; try (f_equal; lia); by rewrite Nat.sub_succ, Nat.sub_0_r.
Qed.

Lemma shift_names keep d :
  let d' := (shift no_faults keep d).1 in
  (shift no_faults keep d).2 = None /\ contents d' = contents d /\ fresh d' = fresh d /\
  forall i, names d' !! i = if decide (i = 0) then None else if decide (i <= keep) then names d !! (i - 1) else names d !! i.
Proof.
  unfold shift. destruct keep as [|k]; cbn [Nat.eqb a_remove no_faults remove fst snd names contents fresh].
  { split_and!; [done..|]. intros i. destruct (decide (i = 0)) as [->|?]; [by rewrite lookup_delete_eq|].
    by rewrite decide_False, lookup_delete_ne by lia. }
  rewrite Nat.sub_succ, Nat.sub_0_r. set (d1 := mkDisk _ _ _).
  assert (Hd1 : names d1 !! S k = None) by apply lookup_delete_eq.
  destruct (shift_up_names k d1 Hd1) as (Hok & Hc & Hf & Hn). destruct (shift_up no_faults k d1) as [d2 err]. cbn [fst snd] in *. subst err.
  destruct (rename_names 0 1 d2) as (Hok & Hc' & Hf' & Hn'); [done|by rewrite Hn|]. cbn [a_rename no_faults]. rewrite Hc', Hf', Hc, Hf.
  split_and!; [done..|]. intros i. rewrite Hn'. destruct (decide (i = 0)); [done|]. destruct (decide (i = 1)) as [->|?].
  - rewrite decide_True by lia. rewrite Hn. cbn. apply lookup_delete_ne. lia.
  - rewrite Hn. rewrite decide_False by done. cbn [names d1]. repeat case_decide; try lia; apply lookup_delete_ne; lia.
Qed.

(** ** Whatever fails, a rotation loses no file but the oldest *)

(** Every name is of a file that is there, and no file has two names. *)
Record disk_ok (d : disk) : Prop := {
  dk_there : forall g f, names d !! g = Some f -> (f < fresh d)%nat /\ is_Some (contents d !! f);
  dk_once : forall g g' f, names d !! g = Some f -> names d !! g' = Some f -> g = g';
}.

(** Files change their names, those of the generations [lost] aside. *)
Record moved (lost : nat -> Prop) (d d' : disk) : Prop := {
  mv_contents : contents d' = contents d;
  mv_fresh : fresh d' = fresh d;
  mv_from : forall g f, names d' !! g = Some f -> exists g', names d !! g' = Some f;
  mv_kept : forall g f, names d !! g = Some f -> ~ lost g -> exists g', names d' !! g' = Some f;
  mv_once : disk_ok d -> disk_ok d';
  mv_live : names d' !! 0 = names d !! 0 \/ names d' !! 0 = None;
}.

Lemma moved_same lost d : moved lost d d.
Proof. split; eauto. Qed.

Lemma moved_trans lost d d1 d2 : moved lost d d1 -> moved (fun _ => False) d1 d2 -> moved lost d d2.
Proof.
  intros [Hc Hf Hfrom Hkept Honce Hlive] [Hc' Hf' Hfrom' Hkept' Honce' Hlive']. split; [congruence|congruence| | |auto|].
  - intros g f (g1 & H)%Hfrom'. by apply Hfrom in H.
  - intros g f Hg Hnot. destruct (Hkept g f Hg Hnot) as [g1 H]. eapply Hkept'; [exact H|tauto].
  - destruct Hlive' as [->|?], Hlive; auto.
Qed.

Lemma remove_moved a g d : moved (eq g) d (remove a g d).1 /\ ((remove a g d).2 = None -> names (remove a g d).1 !! g = None).
Proof.
  destruct a as [err|]; cbn; [split; [apply moved_same|done]|]. split; [|by rewrite lookup_delete_eq].
  split; cbn; [done|done|by intros g' f [_ ?]%lookup_delete_Some; eauto| | |].
  - intros g' f Hg' Hne. exists g'. by rewrite lookup_delete_ne.
  - intros [Hthere Honce]. split; cbn.
    + intros g' f [_ ?]%lookup_delete_Some. eauto.
    + intros g1 g2 f [_ H1]%lookup_delete_Some [_ H2]%lookup_delete_Some. eauto.
  - destruct (decide (g = 0)) as [->|?]; [right; apply lookup_delete_eq|left; by rewrite lookup_delete_ne].
Qed.

Lemma rename_moved a from to d :
  from <> to -> to <> 0 -> names d !! to = None ->
  moved (fun _ => False) d (rename a from to d).1 /\ ((rename a from to d).2 = None -> names (rename a from to d).1 !! from = None).
Proof.
  intros Hne Hlive Hfree. unfold rename. destruct a as [err|]; cbn; [split; [apply moved_same|done]|].
  destruct (names d !! from) as [file|] eqn:Hfrom; cbn; [|split; [apply moved_same|done]].
  split; [|by rewrite lookup_insert_ne, lookup_delete_eq]. split; cbn; [done|done| | | |].
  - intros g f [[<- <-]|[_ [_ ?]%lookup_delete_Some]]%lookup_insert_Some; eauto.
  - intros g f Hg _. destruct (decide (g = from)) as [->|Hg']; [exists to; rewrite lookup_insert_eq; congruence|].
    exists g. by rewrite lookup_insert_ne, lookup_delete_ne by congruence.
  - intros [Hthere Honce]. split; cbn.
    + intros g f [[<- <-]|[_ [_ ?]%lookup_delete_Some]]%lookup_insert_Some; eauto.
    + intros g1 g2 f [[<- <-]|[? [Hg1 H1]%lookup_delete_Some]]%lookup_insert_Some [[<- ?]|[? [Hg2 H2]%lookup_delete_Some]]%lookup_insert_Some;
        subst; [done|by destruct Hg2; eapply Honce|by destruct Hg1; eapply Honce|by eapply Honce].
  - rewrite lookup_insert_ne by done. destruct (decide (from = 0)) as [->|?]; [right; apply lookup_delete_eq|left; by rewrite lookup_delete_ne].
Qed.

Lemma shift_up_moved a generation d :
  names d !! S generation = None ->
  moved (fun _ => False) d (shift_up a generation d).1 /\ ((shift_up a generation d).2 = None -> names (shift_up a generation d).1 !! 1 = None).
Proof.
  revert d. induction generation as [|lower IH]; intros d Hfree; cbn [shift_up]; [by split; [apply moved_same|]|].
  destruct (rename_moved (a_rename a (S lower)) (S lower) (S (S lower)) d) as [Hone Hnext]; [lia|lia|done|].
  destruct (rename (a_rename a (S lower)) (S lower) (S (S lower)) d) as [d1 [err|]]; cbn [fst snd] in *; [by split|].
  destruct (IH d1 (Hnext eq_refl)) as [Hrest Hlast]. split; [by eapply moved_trans|done].
Qed.

Lemma shift_moved a keep d : moved (eq keep) d (shift a keep d).1.
Proof.
  unfold shift. destruct keep as [|k]; cbn [Nat.eqb]; [apply remove_moved|].
  destruct (remove_moved (a_remove a) (S k) d) as [Hremove Hfree]. destruct (remove (a_remove a) (S k) d) as [d1 [err|]]; cbn [fst snd] in *; [done|].
  rewrite Nat.sub_succ, Nat.sub_0_r. destruct (shift_up_moved a k d1 (Hfree eq_refl)) as [Hshift Hone].
  destruct (shift_up a k d1) as [d2 [err|]]; cbn [fst snd] in *; [by eapply moved_trans|].
  destruct (rename_moved (a_rename a 0) 0 1 d2) as [Hrename _]; [done|done|by apply Hone|].
  eapply moved_trans; [eapply moved_trans; [exact Hremove|exact Hshift]|exact Hrename].
Qed.

(** The log file and the directory as they are between calls. *)
Record log_ok (file : File) (d : disk) (live : bytes) : Prop := {
  lg_disk : disk_ok d;
  lg_handle : exists f, handle file = Some f /\ names d !! 0 = Some f /\ contents d !! f = Some live;
  lg_size : size file = Z.of_nat (length live);
}.

Lemma open_file_ok a file d :
  a_open a = None -> a_stat a = None -> disk_ok d ->
  exists file' d', open_file a file d = (file', d', None) /\ log_ok file' d' (default [] (content d 0)) /\
    maxBytes file' = maxBytes file /\ keep file' = keep file /\
    (forall g f, names d !! g = Some f -> names d' !! g = Some f /\ contents d' !! f = contents d !! f) /\
    (forall g, g <> 0 -> content d' g = content d g).
Proof.
  intros Hopen Hstat Hd. unfold open_file. rewrite Hopen, Hstat. unfold open_live, content. destruct (names d !! 0) as [f|] eqn:Hlive.
  - destruct (dk_there d Hd 0 f Hlive) as [_ [c Hc]]. do 2 eexists. split; [done|]. cbn [default from_option mbind option_bind]. rewrite Hc.
    split_and!; [|done..]. split; [done|by exists f|done].
  - do 2 eexists. split; [done|]. cbn [contents names fresh]. rewrite lookup_insert_eq. split_and!; [|done|done| |].
    + split; cbn; [split; cbn| |done].
      * intros g f [[<- <-]|[_ H]]%lookup_insert_Some; [split; [lia|by rewrite lookup_insert_eq]|].
        destruct (dk_there d Hd g f H) as [? ?]. split; [lia|]. by rewrite lookup_insert_ne by lia.
      * intros g g' f [[<- <-]|[? H]]%lookup_insert_Some [[<- ?]|[? H']]%lookup_insert_Some; [done| | |by eapply (dk_once d Hd)].
        -- destruct (dk_there d Hd _ _ H'). lia.
        -- subst. destruct (dk_there d Hd _ _ H). lia.
      * exists (fresh d). by rewrite !lookup_insert_eq.
    + intros g f Hg. destruct (dk_there d Hd _ _ Hg). split; rewrite lookup_insert_ne; [done|intros <-; congruence|done|lia].
    + intros g Hg. cbn. rewrite lookup_insert_ne by done. destruct (names d !! g) as [f|] eqn:Hf; [|done]. cbn.
      destruct (dk_there d Hd _ _ Hf). by rewrite lookup_insert_ne by lia.
Qed.

Lemma moved_content lost d d' g : moved lost d d' -> names d' !! g = names d !! g -> content d' g = content d g.
Proof. intros Hm Hg. unfold content. by rewrite Hg, (mv_contents _ _ _ Hm). Qed.

(** A rotation: what it closes is renamed or, when something fails, is what it
    opens again. *)
Lemma rotate_ok a file d live :
  a_open a = None -> a_stat a = None -> log_ok file d live ->
  let d1 := (shift a (keep file) d).1 in
  exists file' d', rotate a file d = (file', d', (option_list (a_close a) ++ option_list (shift a (keep file) d).2)%list) /\
    log_ok file' d' (default [] (content d1 0)) /\ (content d1 0 = None \/ content d1 0 = Some live) /\
    maxBytes file' = maxBytes file /\ keep file' = keep file /\
    (forall g f, names d !! g = Some f -> g <> keep file -> exists g', names d' !! g' = Some f /\ contents d' !! f = contents d !! f) /\
    (forall g, g <> 0 -> content d' g = content d1 g).
Proof.
  intros Hopen Hstat [Hd (f & _ & Hlive & Hcontents) _] d1. pose proof (shift_moved a (keep file) d) as Hmoved. fold d1 in Hmoved.
  destruct (open_file_ok a (with_handle None file) d1 Hopen Hstat (mv_once _ _ _ Hmoved Hd)) as (file' & d' & Heq & Hok & Hmax & Hkeep & Hnames & Hrest).
  exists file', d'. unfold rotate. cbn [keep with_handle]. destruct (shift a (keep file) d) as [d1' shiftErr] eqn:Hshift.
  cbn [fst snd] in *. subst d1. rewrite Heq. cbn [option_list]. rewrite app_nil_r. split_and!; [done|done| |done|done| |done].
  - destruct (mv_live _ _ _ Hmoved) as [Hsame|Hnone]; [right|left]; unfold content; [|by rewrite Hnone].
    rewrite Hsame, Hlive. cbn. by rewrite (mv_contents _ _ _ Hmoved).
  - intros g f' Hg Hne. destruct (mv_kept _ _ _ Hmoved g f' Hg) as [g' Hg']; [congruence|]. exists g'. rewrite <-(mv_contents _ _ _ Hmoved). by apply Hnames.
Qed.

Lemma append_ok file d live data :
  log_ok file d live -> (size file + Z.of_nat (length data) < 2 ^ 63)%Z ->
  exists f, handle file = Some f /\
    log_ok (mkFile (maxBytes file) (keep file) (Some f) (int64 (size file + Z.of_nat (length data)))) (append f data d) (live ++ data) /\
    content (append f data d) 0 = Some (live ++ data)%list /\ (forall g, g <> 0 -> content (append f data d) g = content d g) /\
    forall g i, names d !! g = Some i ->
      contents (append f data d) !! i = if decide (g = 0) then (fun old => old ++ data) <$> contents d !! i else contents d !! i.
Proof.
  intros [Hd (f & Hhandle & Hname & Hcontents) Hsize] Hfits. exists f. split; [done|].
  unfold append, content. rewrite Hcontents. cbn [names contents fresh handle size default from_option].
  assert (Hother : forall g, g <> 0 -> names d !! g ≫= (fun i => <[f := (live ++ data)%list]> (contents d) !! i) = names d !! g ≫= (fun i => contents d !! i)).
  { intros g Hg. destruct (names d !! g) as [i|] eqn:Hi; [|done]. cbn. destruct (decide (f = i)) as [<-|?]; [|by rewrite lookup_insert_ne].
    destruct Hg. by apply (dk_once d Hd _ _ f). }
  split_and!; [|by rewrite Hname; cbn; rewrite lookup_insert_eq|done|].
  2: { intros g i Hg. case_decide as Hz; [subst g; assert (i = f) as -> by congruence; by rewrite lookup_insert_eq, Hcontents|].
       rewrite lookup_insert_ne; [done|]. intros <-. destruct Hz. by apply (dk_once d Hd _ _ f). }
  split; cbn [names contents fresh handle size].
  - split; cbn; [|apply (dk_once d Hd)]. intros g i Hi. destruct (dk_there d Hd _ _ Hi). split; [done|].
    destruct (decide (f = i)) as [<-|?]; [by rewrite lookup_insert_eq|by rewrite lookup_insert_ne].
  - exists f. by rewrite lookup_insert_eq.
  - rewrite length_app, Nat2Z.inj_add, Hsize. apply int64_id. unfold in_int64, min_int64, max_int64. lia.
Qed.

Definition rotates (file : File) (record : bytes) : bool :=
  (0 <? size file)%Z && (maxBytes file <? int64 (size file + Z.of_nat (length record)))%Z.

(** A write, when the live file can be opened and written. *)
Lemma Write_ok a record file d live :
  a_open a = None -> a_stat a = None -> a_write a = None -> log_ok file d live ->
  (size file + Z.of_nat (length record) < 2 ^ 63)%Z ->
  let d1 := if rotates file record then (shift a (keep file) d).1 else d in
  let before := if rotates file record then default [] (content d1 0) else live in
  exists file' d' errs, Write a record file d = (file', d', (length record, errs)) /\ log_ok file' d' (before ++ record) /\
    (before = [] \/ before = live) /\ maxBytes file' = maxBytes file /\ keep file' = keep file /\
    (forall g f, names d !! g = Some f -> g <> keep file \/ rotates file record = false -> exists g', names d' !! g' = Some f /\
       contents d' !! f = if decide (g' = 0) then (fun old => old ++ record) <$> contents d !! f else contents d !! f) /\
    content d' 0 = Some (before ++ record)%list /\ (forall g, g <> 0 -> content d' g = content d1 g).
Proof.
  intros Hopen Hstat Hwrite Hok Hfits. pose proof Hok as [_ (f & Hhandle & _) _]. unfold Write, rotates. rewrite Hhandle, Hwrite.
  destruct ((0 <? size file)%Z && _) eqn:Hrotates; cbv zeta.
  - destruct (rotate_ok a file d live Hopen Hstat Hok) as (file1 & d1 & -> & Hok1 & Hbefore & Hmax & Hkeep & Hkept & Hrest).
    destruct (append_ok file1 d1 _ record Hok1) as (f1 & -> & Hok2 & Hlive & Hothers & Hwritten).
    { rewrite (lg_size _ _ _ Hok1). destruct Hbefore as [->| ->]; cbn [default from_option id]; [cbn; pose proof (lg_size _ _ _ Hok); lia|].
      by rewrite <-(lg_size _ _ _ Hok). }
    rewrite take_ge by done. do 3 eexists. split; [done|]. rewrite Hmax, Hkeep in *. split_and!; try done.
    + destruct Hbefore as [->| ->]; auto.
    + intros g i Hg [Hne|?]; [|done]. destruct (Hkept g i Hg Hne) as (g' & Hg' & <-). exists g'. split; [done|]. by apply Hwritten.
    + intros g Hg. by rewrite Hothers, Hrest.
  - destruct (append_ok file d live record Hok Hfits) as (f1 & Heq & Hok2 & Hlive & Hothers & Hwritten). rewrite Hhandle in Heq. injection Heq as <-.
    rewrite Hhandle. rewrite take_ge by done. do 3 eexists. split; [done|]. split_and!; try done; [by auto|]. intros g i Hg _. exists g. split; [done|]. by apply Hwritten.
Qed.

(** A write without a fault, by what the names hold. *)
Lemma Write_content record file d live :
  log_ok file d live -> (size file + Z.of_nat (length record) < 2 ^ 63)%Z ->
  let st := (Write no_faults record file d).1 in
  log_ok st.1 st.2 (if rotates file record then record else live ++ record) /\ maxBytes st.1 = maxBytes file /\ keep st.1 = keep file /\
  forall g, content st.2 g =
    if decide (g = 0) then Some (if rotates file record then record else live ++ record)%list
    else if rotates file record && (g <=? keep file)%nat then content d (g - 1) else content d g.
Proof.
  intros Hok Hfits.
  destruct (Write_ok no_faults record file d live eq_refl eq_refl eq_refl Hok Hfits) as (file' & d' & errs & -> & Hok' & _ & Hmax & Hkeep & _ & Hlive & Hrest).
  cbn [fst snd]. destruct (rotates file record).
  - destruct (shift_names (keep file) d) as (_ & Hc & _ & Hn).
    assert (Hnone : content (shift no_faults (keep file) d).1 0 = None) by (unfold content; by rewrite Hn).
    rewrite Hnone in Hok', Hlive. cbn in Hok', Hlive. split_and!; [done..|]. intros g. case_decide as Hg; [by subst|].
    rewrite Hrest by done. unfold content. rewrite Hc, Hn, decide_False by done. cbn. case_decide as Hle.
    + by rewrite (proj2 (Nat.leb_le _ _) Hle).
    + by rewrite (proj2 (Nat.leb_gt _ _)) by lia.
  - split_and!; [done..|]. intros g. case_decide as Hg; [by subst|]. by rewrite Hrest.
Qed.

(** ** How the records are cut into files *)

(** A file is within the limit, or it is one record. *)
Definition fits (max : Z) (chunk : list bytes) : Prop := (Z.of_nat (length (concat chunk)) <= max)%Z \/ concat chunk ∈ chunk.

(** A file is left for the next only when the next one's first record would have
    taken it past the limit. *)
Definition needed (max : Z) (chunks : list (list bytes)) : Prop :=
  forall k chunk r later, chunks !! k = Some chunk -> chunks !! S k = Some (r :: later) ->
    concat chunk <> [] /\ (max < Z.of_nat (length (concat chunk) + length r))%Z.

(** The names' files: the newest files there are, and what was there before. *)
Definition kept_in (keep : nat) (chunks : list (list bytes)) (d d' : disk) : Prop :=
  forall g, content d' g =
    if decide (g <= keep) then
      if decide (g < length chunks) then @concat byte <$> chunks !! (length chunks - 1 - g) else content d (g - (length chunks - 1))
    else content d g.

Record log_run (file : File) (d : disk) (chunks : list (list bytes)) (file' : File) (d' : disk) : Prop := {
  lr_ok : exists pre chunk, chunks = (pre ++ [chunk])%list /\ log_ok file' d' (concat chunk);
  lr_same : maxBytes file' = maxBytes file /\ keep file' = keep file;
  lr_some : Forall (fun chunk => chunk <> []) chunks;
  lr_fits : Forall (fits (maxBytes file)) chunks;
  lr_needed : needed (maxBytes file) chunks;
  lr_kept : kept_in (keep file) chunks d d';
}.

Lemma fits_one max r : fits max [r].
Proof. right. cbn. rewrite app_nil_r. by left. Qed.

Lemma needed_snoc max pre chunk chunk' :
  needed max (pre ++ [chunk]) -> (exists r later later', chunk = r :: later /\ chunk' = r :: later') -> needed max (pre ++ [chunk']).
Proof.
  intros Hneeded (r0 & later & later' & -> & ->) k c r rest Hk Hnext.
  apply lookup_app_Some in Hnext as [Hnext|[Hge Hnext]].
  - rewrite lookup_app_l in Hk by (apply lookup_lt_Some in Hnext; lia). apply (Hneeded k c r rest); [|]; by apply lookup_app_l_Some.
  - apply list_lookup_singleton_Some in Hnext as [Hlast [= <- <-]]. rewrite lookup_app_l in Hk by lia.
    apply (Hneeded k c r0 later); [by apply lookup_app_l_Some|]. rewrite lookup_app_r by lia. by rewrite Hlast.
Qed.

Lemma needed_rotate max pre chunk r :
  needed max (pre ++ [chunk]) -> concat chunk <> [] -> (max < Z.of_nat (length (concat chunk) + length r))%Z ->
  needed max ((pre ++ [chunk]) ++ [[r]]).
Proof.
  intros Hneeded Hne Hover k c r' later Hk Hnext. apply lookup_app_Some in Hnext as [Hnext|[Hge Hnext]].
  - rewrite lookup_app_l in Hk by (apply lookup_lt_Some in Hnext; lia). by apply (Hneeded k c r' later).
  - apply list_lookup_singleton_Some in Hnext as [Hlast [= <- <-]]. rewrite length_app in Hge, Hlast. cbn in Hge, Hlast.
    rewrite lookup_app_l in Hk by (rewrite length_app; cbn; lia). rewrite lookup_app_r in Hk by lia.
    apply list_lookup_singleton_Some in Hk as [_ <-]. done.
Qed.

Section Step.
Context (file : File) (d : disk) (pre : list (list bytes)) (chunk : list bytes) (file1 : File) (d1 : disk) (record : bytes).
Context (Hrun : log_run file d (pre ++ [chunk]) file1 d1).
Context (file' : File) (d' : disk) (Hsame : maxBytes file' = maxBytes file1 /\ keep file' = keep file1).

Lemma log_run_same : maxBytes file' = maxBytes file /\ keep file' = keep file.
Proof using Hrun Hsame. destruct (lr_same _ _ _ _ _ Hrun), Hsame. split; congruence. Qed.

Lemma log_run_rotated :
  concat chunk <> [] -> (maxBytes file < Z.of_nat (length (concat chunk) + length record))%Z -> log_ok file' d' record ->
  (forall g, content d' g = if decide (g = 0) then Some record else if (g <=? keep file)%nat then content d1 (g - 1) else content d1 g) ->
  log_run file d ((pre ++ [chunk]) ++ [[record]]) file' d'.
Proof using Hrun Hsame.
  intros Hne Hover Hok Hcontent. destruct Hrun as [_ _ Hsome Hfits Hneeded Hkept]. unfold kept_in in Hkept.
  rewrite length_app in Hkept. cbn in Hkept. split; [|apply log_run_same| | |by apply needed_rotate|].
  - exists (pre ++ [chunk])%list, [record]. split; [done|]. cbn. by rewrite app_nil_r.
  - apply Forall_app_2; [done|]. by apply Forall_cons_2.
  - apply Forall_app_2; [done|]. apply Forall_cons_2; [apply fits_one|done].
  - intros g. rewrite Hcontent, !length_app. cbn [length]. destruct (decide (g = 0)) as [->|Hg].
    + rewrite decide_True, decide_True by lia. rewrite lookup_app_r by (rewrite length_app; cbn; lia).
      rewrite length_app. cbn [length]. replace (_ - _) with 0 by lia. cbn. by rewrite app_nil_r.
    + destruct (decide (g <= keep file)) as [Hle|Hle]; [|rewrite (proj2 (Nat.leb_gt _ _)) by lia; rewrite Hkept; by rewrite decide_False].
      rewrite (proj2 (Nat.leb_le _ _) Hle), Hkept, decide_True by lia. destruct (decide (g < length pre + 1 + 1)) as [Hlt|Hlt].
      * rewrite decide_True by lia. rewrite (lookup_app_l (pre ++ [chunk])) by (rewrite length_app; cbn; lia). do 2 f_equal. lia.
      * rewrite decide_False by lia. f_equal. lia.
Qed.

Lemma log_run_appended :
  concat chunk = [] \/ (Z.of_nat (length (concat chunk) + length record) <= maxBytes file)%Z -> log_ok file' d' (concat chunk ++ record) ->
  (forall g, content d' g = if decide (g = 0) then Some (concat chunk ++ record)%list else content d1 g) ->
  log_run file d (pre ++ [chunk ++ [record]]) file' d'.
Proof using Hrun Hsame.
  intros Hroom Hok Hcontent. destruct Hrun as [_ _ Hsome Hfits Hneeded Hkept]. unfold kept_in in Hkept.
  apply Forall_app in Hsome as [Hpre Hchunk]. apply Forall_cons in Hchunk as [Hchunk _]. apply Forall_app in Hfits as [Hfits _].
  rewrite length_app in Hkept. cbn in Hkept.
  assert (Hconcat : concat (chunk ++ [record]) = (concat chunk ++ record)%list) by (rewrite concat_app; cbn; by rewrite app_nil_r).
  split; [|apply log_run_same| | | |].
  - exists pre, (chunk ++ [record])%list. by rewrite Hconcat.
  - apply Forall_app_2; [done|]. apply Forall_cons_2; [by destruct chunk|done].
  - apply Forall_app_2; [done|]. apply Forall_cons_2; [|done]. unfold fits. rewrite Hconcat. destruct Hroom as [Hnil|Hroom].
    + right. rewrite Hnil. apply elem_of_app. right. by left.
    + left. by rewrite length_app.
  - eapply needed_snoc; [exact Hneeded|]. destruct chunk as [|r later]; [done|]. by exists r, later, (later ++ [record])%list.
  - intros g. rewrite Hcontent, length_app. cbn [length]. destruct (decide (g = 0)) as [->|Hg].
    + rewrite decide_True, decide_True by lia. rewrite lookup_app_r by lia. replace (_ - _ - _) with 0 by lia. cbn. by rewrite Hconcat.
    + rewrite Hkept. destruct (decide (g <= keep file)); [|done]. destruct (decide (g < length pre + 1)) as [Hlt|Hlt]; [|done].
      by rewrite !lookup_app_l by lia.
Qed.
End Step.

Lemma log_run_write file d chunks file1 d1 record :
  log_run file d chunks file1 d1 -> (size file1 + Z.of_nat (length record) < 2 ^ 63)%Z ->
  let st := (Write no_faults record file1 d1).1 in
  exists chunks', concat chunks' = (concat chunks ++ [record])%list /\ log_run file d chunks' st.1 st.2.
Proof.
  intros Hrun Hsmall. cbv zeta. pose proof Hrun as [(pre & chunk & -> & Hok) [Hmax Hkeep] _ _ _ _].
  destruct (Write_content record file1 d1 _ Hok Hsmall) as (Hok' & Hmax' & Hkeep' & Hcontent). pose proof (lg_size _ _ _ Hok) as Hsize.
  assert (Hover : rotates file1 record = (0 <? size file1)%Z && (maxBytes file <? size file1 + Z.of_nat (length record))%Z).
  { unfold rotates. rewrite int64_id, Hmax; [done|]. unfold in_int64, min_int64, max_int64. lia. }
  rewrite Hkeep in Hcontent. destruct (rotates file1 record); symmetry in Hover.
  - exists ((pre ++ [chunk]) ++ [[record]])%list. split; [by rewrite (concat_app (pre ++ [chunk]))|].
    apply andb_true_iff in Hover as [Hpos%Z.ltb_lt Hover%Z.ltb_lt].
    apply (log_run_rotated file d pre chunk file1 d1 record Hrun); [done| |lia|done|done].
    intros Hnil. rewrite Hnil in Hsize. cbn in Hsize. lia.
  - exists (pre ++ [chunk ++ [record]])%list. split; [rewrite !concat_app; cbn; by rewrite !app_nil_r, (assoc_L (++)%list)|].
    apply (log_run_appended file d pre chunk file1 d1 record Hrun); [done| |done|done].
    apply andb_false_iff in Hover as [Hzero%Z.ltb_ge|Hin%Z.ltb_ge]; [left; apply length_zero_iff_nil; lia|right; lia].
Qed.

Lemma chunk_length (chunks : list (list bytes)) pre chunk :
  chunks = pre ++ [chunk] -> length (concat chunk) <= length (concat (concat chunks)).
Proof. intros ->. rewrite !concat_app, length_app. cbn. rewrite app_nil_r. lia. Qed.

Lemma write_all_run file d chunks file1 d1 records :
  log_run file d chunks file1 d1 -> (Z.of_nat (length (concat (concat chunks)) + length (concat records)) < 2 ^ 63)%Z ->
  exists chunks', concat chunks' = concat chunks ++ records /\
    log_run file d chunks' (write_all file1 d1 records).1 (write_all file1 d1 records).2.
Proof.
  revert chunks file1 d1. induction records as [|record records IH]; intros chunks file1 d1 Hrun Hsmall.
  { exists chunks. by rewrite app_nil_r. }
  cbn [concat] in Hsmall. rewrite length_app in Hsmall. pose proof Hrun as [(pre & chunk & Heq & Hok) _ _ _ _ _].
  pose proof (chunk_length _ _ _ Heq) as Hchunk. pose proof (lg_size _ _ _ Hok) as Hsize.
  destruct (log_run_write _ _ _ _ _ record Hrun) as (chunks1 & Hconcat & Hrun1); [lia|].
  destruct (IH chunks1 _ _ Hrun1) as (chunks2 & Hconcat2 & Hrun2).
  { rewrite Hconcat, concat_app, length_app. cbn. rewrite app_nil_r. lia. }
  exists chunks2. split; [by rewrite Hconcat2, Hconcat, <-(assoc_L (++))|].
  unfold write_all in *. cbn [foldl fst snd]. by rewrite <-surjective_pairing in Hrun2.
Qed.

Lemma log_run_start file d live : log_ok file d live -> log_run file d [[live]] file d.
Proof.
  intros Hok. split; [|done| | | |].
  - exists [], [live]. split; [done|]. cbn. by rewrite app_nil_r.
  - by apply Forall_cons_2.
  - apply Forall_cons_2; [apply fits_one|done].
  - intros [|k] chunk r later; [|done]. by intros [= <-].
  - intros g. cbn [length]. destruct (decide (g <= keep file)); [|done]. destruct (decide (g < 1)) as [Hlt|Hge].
    + assert (g = 0) as -> by lia. cbn. rewrite app_nil_r. destruct Hok as [_ (f & _ & Hname & Hc) _]. unfold content. by rewrite Hname.
    + by rewrite Nat.sub_0_r.
Qed.

(** C29: the log file keeps the records whole and in order over its rotations.
    Without a fault, what the live file held and the records written to it are
    cut into files between records: a file is within the limit or is one record,
    and is left only for a record that would not have fit; the live file and the
    rotated ones, up to the number kept, are the newest of these files and then
    what the rotated names held before, and the other names are left alone. And
    whatever fails of a rotation, as long as the live path can be opened and
    written, no record is lost: the new one is written whole, at the end of what
    the live file held or of a new file, a new one only when it would not have
    fit; and every file but the oldest kept still has a name, and holds, byte for
    byte, what it held, with the record at its end when it is still the live one. *)
Theorem log_rotates file d live :
  log_ok file d live ->
  (forall records, (Z.of_nat (length live + length (concat records)) < 2 ^ 63)%Z ->
     let st := write_all file d records in
     exists chunks, concat chunks = live :: records /\ Forall (fits (maxBytes file)) chunks /\ needed (maxBytes file) chunks /\
       kept_in (keep file) chunks d st.2) /\
  (forall a record, a_open a = None -> a_stat a = None -> a_write a = None -> (Z.of_nat (length live + length record) < 2 ^ 63)%Z ->
     let full := live <> [] /\ (maxBytes file < Z.of_nat (length live + length record))%Z in
     exists file' d' errs before, Write a record file d = (file', d', (length record, errs)) /\ log_ok file' d' (before ++ record) /\
       (before = live \/ before = [] /\ full) /\
       forall g f old, names d !! g = Some f -> contents d !! f = Some old -> g <> keep file \/ ~ full ->
         exists g', names d' !! g' = Some f /\ contents d' !! f = Some (if decide (g' = 0) then old ++ record else old)).
Proof.
  intros Hok. pose proof (lg_size _ _ _ Hok) as Hsize. split.
  - intros records Hsmall st. destruct (write_all_run file d [[live]] file d records (log_run_start _ _ _ Hok)) as (chunks & Hconcat & Hrun).
    { cbn. by rewrite !app_nil_r. }
    exists chunks. destruct Hrun. by split_and!.
  - intros a record Hopen Hstat Hwrite Hsmall full.
    assert (Hfull : rotates file record = true <-> full).
    { unfold rotates, full. rewrite int64_id by (unfold in_int64, min_int64, max_int64; lia). rewrite andb_true_iff, !Z.ltb_lt, Hsize.
      split; (intros [H1 H2]; split; [|lia]); [by intros ->|]. destruct live; [done|cbn; lia]. }
    destruct (Write_ok a record file d live Hopen Hstat Hwrite Hok) as (file' & d' & errs & Heq & Hok' & Hbefore & _ & _ & Hkept & _); [lia|].
    do 4 eexists. split_and!; [exact Heq|exact Hok'| |].
    + destruct (rotates file record); [|by left]. destruct Hbefore as [->| ->]; [right|by left]. split; [done|]. by apply Hfull.
    + intros g f old Hg Hold Hspared. destruct (Hkept g f Hg) as (g' & Hg' & Hc).
      { destruct Hspared as [?|Hno]; [by left|right]. apply not_true_is_false. by rewrite Hfull. }
      exists g'. split; [done|]. rewrite Hc, Hold. by case_decide.
Qed.

(** ** Witness *)

(** A file of four bytes at most, that keeps one rotated file. *)
Definition small_log : File := mkFile 4 1 (Some 0) 0.
Definition small_disk : disk := mkDisk {[0 := 0]} {[0 := []]} 1.

Lemma small_log_ok : log_ok small_log small_disk [].
Proof.
  split; [split; cbn| |done].
  - intros g f [<- <-]%lookup_singleton_Some. split; [lia|]. rewrite lookup_singleton_eq. by eexists.
  - intros g g' f [<- _]%lookup_singleton_Some [<- _]%lookup_singleton_Some. done.
  - exists 0. cbn. by rewrite !lookup_singleton_eq.
Qed.

Lemma log_rotates_witness :
  log_ok small_log small_disk [] /\
  (exists chunks, concat chunks = [] :: [[x61; x0a]; [x62; x0a]; [x63; x0a]; [x64; x65; x66; x67; x0a]] /\
     kept_in 1 chunks small_disk (write_all small_log small_disk [[x61; x0a]; [x62; x0a]; [x63; x0a]; [x64; x65; x66; x67; x0a]]).2) /\
  content (write_all small_log small_disk [[x61; x0a]; [x62; x0a]; [x63; x0a]; [x64; x65; x66; x67; x0a]]).2 1 = Some [x63; x0a].
Proof.
  split; [exact small_log_ok|]. split; [|vm_compute; reflexivity].
  destruct (log_rotates small_log small_disk [] small_log_ok) as [H _].
  destruct (H [[x61; x0a]; [x62; x0a]; [x63; x0a]; [x64; x65; x66; x67; x0a]]) as (chunks & Hconcat & _ & _ & Hkept); [reflexivity|].
  exists chunks. split; [exact Hconcat|exact Hkept].
Defined.

(** No bound is put on the limit in megabytes: from 2^43 on it wraps, and every
    record is taken to be past it. *)
Example limit_overflows : int64 (2 ^ 43 * bytesPerMB) = min_int64.
Proof. reflexivity. Qed.

(** A rotation whose reopening fails leaves no handle, and every write after it
    fails, though the path could be opened again. *)
Example reopen_failure_ends_the_log :
  let a := mkAnswers None None (fun _ => None) (Some "too many open files") None None None in
  let file := mkFile 4 1 (Some 0) 3 in
  let d := mkDisk {[0 := 0]} {[0 := [x61; x61; x0a]]} 1 in
  let '(file1, d1, (written, _)) := Write a [x62; x62; x0a] file d in
  written = 0 /\ (Write no_faults [x63; x0a] file1 d1).2 = (0, ["closed"%string]).
Proof. vm_compute. auto. Qed.
