(* ===== verification/Encode.v ===== *)
(** * The messages as JSON: the field tags of internal/wire/messages.go *)
From S2P Require Import Prelude GoLib Strconv Base64 Topics Wire Json ReadTx.
#[local] Open Scope string_scope.

(** ** The constants' texts *)

Definition EventCode_text (code : EventCode) : string :=
  match code with
  | EventPortOpened => "port_opened" | EventPortClosed => "port_closed" | EventPortLost => "port_lost"
  | EventPortOpenFailed => "port_open_failed" | EventBytesDiscarded => "bytes_discarded"
  end.

Definition TxState_text (state : TxState) : string :=
  match state with
  | TxAcceptedState => "accepted" | TxWrittenState => "written" | TxFailedState => "failed" | TxRejectedState => "rejected"
  end.

Definition TxCode_text (code : TxCode) : string :=
  match code with
  | TxCodeAccepted => "accepted" | TxCodeWritten => "written" | TxCodeAlreadyWritten => "already_written"
  | TxCodeInProgress => "in_progress" | TxCodeInvalidMessage => "invalid_message" | TxCodeInvalidID => "invalid_id"
  | TxCodePortUnavailable => "port_unavailable" | TxCodeWriteFailed => "write_failed" | TxCodeExpired => "expired"
  | TxCodeAgentStopping => "agent_stopping"
  end.

Definition OfflineReason_text (reason : OfflineReason) : string :=
  match reason with OfflineShutdown => "shutdown" | OfflineWill => "will" end.

(** ** Values *)

(** A string that is not UTF-8 is written with U+FFFD for what cannot be read;
    the encoder does it. *)
Definition jstring (s : string) : json := JString (bytes_of_string s).
Definition jint (z : Z) : json := JNumber (decimal z).
Definition jnullable {A} (f : A -> json) (o : option A) : json := match o with Some x => f x | None => JNull end.
Definition fields (l : list (string * json)) : list (bytes * json) := map (fun m => (json_bytes m.1, m.2)) l.

Definition any_json (v : any) : json := match v with AnyString s => jstring s | AnyInt z => jint z end.

(** A map's keys are written in order. *)
Definition detail_json (d : detail) : json :=
  JObject (map (fun name => (bytes_of_string name, jnullable any_json (d !! name)))
    (sort_strings (map fst (map_to_list d)))).

Definition header_fields (h : header) : list (bytes * json) :=
  fields [("schema", jint (h_Schema h)); ("kind", jstring (h_Kind h)); ("id", jstring (h_ID h));
          ("project", jstring (h_Project h)); ("site", jstring (h_Site h)); ("station", jstring (h_Station h));
          ("instance_id", jstring (h_InstanceID h)); ("agent_version", jstring (h_AgentVersion h));
          ("agent_ts", jstring (h_AgentTS h))].

Definition device_fields (d : deviceHeader) : list (bytes * json) :=
  fields [("device_id", jstring (dh_DeviceID d)); ("device_type", jnullable jstring (dh_DeviceType d))].

Definition rx_json (m : Rx) : json :=
  JObject (header_fields (rx_header m) ++ device_fields (rx_device m) ++
    fields [("seq", jint (rx_Seq m)); ("raw_b64", jstring (rx_RawB64 m)); ("text", jnullable jstring (rx_Text m));
            ("text_valid", JBool (rx_TextValid m))])%list.

Definition event_json (m : Event) : json :=
  JObject (header_fields (ev_header m) ++ device_fields (ev_device m) ++
    fields [("device_open", JBool (ev_DeviceOpen m)); ("message_expiry_s", jint (ev_MessageExpiryS m));
            ("code", jstring (EventCode_text (ev_Code m))); ("text", jstring (ev_Text m));
            ("detail", detail_json (ev_Detail m))])%list.

Definition txResult_json (m : TxResult) : json :=
  JObject (header_fields (txr_header m) ++ device_fields (txr_device m) ++
    fields [("device_open", JBool (txr_DeviceOpen m)); ("message_expiry_s", jint (txr_MessageExpiryS m));
            ("tx_id", jnullable jstring (txr_TxID m)); ("sender", jnullable jstring (txr_Sender m));
            ("state", jstring (TxState_text (txr_State m))); ("code", jstring (TxCode_text (txr_Code m)));
            ("text", jstring (txr_Text m)); ("detail", detail_json (txr_Detail m))])%list.

Definition discards_json (c : DiscardCounts) : json :=
  JObject (fields [("oversize", jint (dc_Oversize c)); ("inter_char_timeout", jint (dc_InterCharTimeout c));
                   ("resync", jint (dc_Resync c)); ("empty_frame", jint (dc_EmptyFrame c))]).

Definition failed_opens_json (c : OpenFailureCounts) : json :=
  JObject (fields [("absent", jint (of_Absent c)); ("busy", jint (of_Busy c));
                   ("permission_denied", jint (of_PermissionDenied c)); ("read_only", jint (of_ReadOnly c));
                   ("disconnected", jint (of_Disconnected c)); ("port_error", jint (of_PortError c));
                   ("unknown", jint (of_Unknown c))]).

Definition counters_fields (c : DeviceCounters) : list (bytes * json) :=
  fields [("rx_frames", jint (RxFrames c)); ("rx_bytes", jint (RxBytes c)); ("discards", discards_json (Discards c));
          ("failed_opens", failed_opens_json (FailedOpens c)); ("publish_failures", jint (PublishFailures c));
          ("tx_written", jint (TxWrittenCount c)); ("tx_failed", jint (TxFailedCount c));
          ("buffer_depth", jint (BufferDepth c))].

Definition tx_topic_json (t : TxTopic) : json :=
  JObject (fields [("topic", jstring (tt_Topic t)); ("scope", jstring (TxScope_text (tt_Scope t)));
                   ("group", jnullable jstring (tt_Group t)); ("suback", jnullable jint (tt_Suback t))]).

Definition keepalive_device_json (d : KeepaliveDevice) : json :=
  JObject (device_fields (kd_device d) ++
    fields [("device_open", JBool (kd_DeviceOpen d)); ("message_expiry_s", jint (kd_MessageExpiryS d));
            ("tx_topics", JArray (map tx_topic_json (kd_TxTopics d)))] ++
    counters_fields (kd_Counters d))%list.

Definition keepalive_json (m : Keepalive) : json :=
  JObject (header_fields (ka_header m) ++
    fields [("protocol_version", jstring (ka_ProtocolVersion m)); ("uptime_s", jint (ka_UptimeS m));
            ("interval_s", jint (ka_IntervalS m)); ("gone_after_s", jint (ka_GoneAfterS m));
            ("devices", JArray (map keepalive_device_json (ka_Devices m)))])%list.

Definition offline_json (m : Offline) : json :=
  JObject (header_fields (off_header m) ++ fields [("reason", jstring (OfflineReason_text (off_Reason m)))])%list.

(** [json.Marshal] of a message: structs of strings, numbers and booleans. *)
Definition Marshal (v : json) : result string bytes := Ok (encode v).

Lemma Marshal_Ok v payload : Marshal v = Ok payload -> payload = encode v.
Proof. unfold Marshal. generalize (encode v). by intros l [= ->]. Qed.

Lemma rx_json_height m : (height (rx_json m) <= maxNestingDepth)%Z.
Proof.
  destruct m as [h [id type] seq raw text valid]. unfold rx_json, header_fields, device_fields, fields, jstring, jint.
  cbn [map app height fst snd rx_device rx_Text dh_DeviceType]. by destruct type, text.
Qed.

(** The texts a header takes from the configuration, and the id and the time. *)
Definition header_texts (h : header) : list string :=
  [h_Kind h; h_ID h; h_Project h; h_Site h; h_Station h; h_InstanceID h; h_AgentVersion h; h_AgentTS h].

Definition is_text (s : string) : Prop := utf8_valid (bytes_of_string s) = true.

(** *** Texts that are ASCII: segments and times *)

Definition is_ascii (c : Ascii.ascii) : bool := (Ascii.nat_of_ascii c <? 128)%nat.

Lemma all_chars_app p s t : all_chars p (s +:+ t) = all_chars p s && all_chars p t.
Proof. induction s as [|c s IH]; [done|]. rewrite str_app_cons. cbn [all_chars]. by rewrite IH, andb_assoc. Qed.

Lemma is_ascii_byte c : is_ascii c = true -> between 0 127 (Ascii.byte_of_ascii c) = true.
Proof. destruct c as [[] [] [] [] [] [] [] []]; vm_compute; auto. Qed.

Lemma ascii_text s : all_chars is_ascii s = true -> is_text s.
Proof.
  intros Hs. apply utf8_valid_ascii. unfold bytes_of_string. induction s as [|c s IH]; [done|]. cbn in Hs |- *.
  apply andb_prop in Hs as [Hc Hs]. rewrite is_ascii_byte by done. by apply IH.
Qed.

Lemma segment_text s : segmentRule s = true -> is_text s.
Proof.
  intros [_ Hs]%andb_prop. apply ascii_text. eapply all_chars_impl, Hs. intros c. unfold segment_char, is_ascii. lia.
Qed.

Lemma pretty_N_go_ascii x s : all_chars is_ascii s = true -> all_chars is_ascii (pretty_N_go x s) = true.
Proof.
  revert s. induction (N.lt_wf_0 x) as [x _ IH]; intros s Hs. destruct (decide (x = 0)%N) as [->|Hx]; [by rewrite pretty_N_go_0|].
  rewrite pretty_N_go_step by lia. apply IH; [by apply N.div_lt; lia|]. cbn [all_chars]. rewrite Hs, andb_true_r.
  unfold pretty_N_char. repeat case_match; done.
Qed.

Lemma pretty_ascii (z : Z) : all_chars is_ascii (pretty z) = true.
Proof.
  assert (HN : forall n : N, all_chars is_ascii (pretty n) = true).
  { intros n. unfold pretty, pretty_N. destruct (decide (n = 0)%N); [done|]. by apply pretty_N_go_ascii. }
  destruct z as [|p|p]; [done|apply HN|]. change (pretty (Z.neg p)) with ("-" +:+ pretty (N.pos p)). by rewrite all_chars_app, HN.
Qed.

Lemma pad_decimal_ascii width z : all_chars is_ascii (pad_decimal width z) = true.
Proof.
  unfold pad_decimal. rewrite all_chars_app, pretty_ascii, andb_true_r. generalize (width - String.length (pretty z))%nat. intros n.
  induction n as [|[|n] IH]; [done|done|exact IH].
Qed.

Lemma format_time_text at_ : is_text (format_time at_).
Proof.
  apply ascii_text. unfold format_time. destruct (civil_of_days _) as [[year month] day]. rewrite !all_chars_app, !pad_decimal_ascii. done.
Qed.

(** ** Properties *)

(** What a consumer decodes from a reading's payload is the frame: the
    payload is one JSON object, the base64 of its raw_b64 is the frame's bytes,
    its seq is the sequence number, its text is the frame when text_valid and
    null otherwise. *)
Theorem reading_on_the_wire builder device seq frame at_ ids payload :
  let m := (build_Rx builder device seq frame at_ ids).1 in
  Forall is_text (header_texts (rx_header m)) -> is_text (ID device) -> is_text (DeviceType device) ->
  in_int64 seq ->
  Marshal (rx_json m) = Ok payload ->
  exists names b64,
    (v ← fst <$> decode payload; names_of v) = Some names /\
    names !! "raw_b64" = Some (JString b64) /\ b64_decode b64 = Some frame /\
    (names !! "seq" ≫= int_value) = Some seq /\
    (names !! "device_id" ≫= string_value) = Some (ID device) /\
    names !! "text_valid" = Some (JBool (utf8_valid frame)) /\
    names !! "text" = Some (if utf8_valid frame then JString frame else JNull).
Proof.
  intros m Hheader Hid Htype Hseq ->%Marshal_Ok.
  assert (Hdev : match nilIfEmpty (DeviceType device) with Some s => is_text s | None => True end)
    by (unfold nilIfEmpty; by case_bool_decide).
  assert (Htext : match rx_Text m with Some s => is_text s | None => True end).
  { subst m. cbn. destruct (utf8_valid frame) eqn:Hf; [|done]. unfold is_text. by rewrite bytes_of_string_of_bytes. }
  assert (Hraw : is_text (rx_RawB64 m)).
  { subst m. cbn. unfold is_text. rewrite bytes_of_string_of_bytes. apply utf8_valid_ascii, b64_encode_ascii. }
  assert (Hw : writable (rx_json m)).
  { unfold header_texts in Hheader. rewrite !Forall_cons in Hheader. destruct Hheader as (?&?&?&?&?&?&?&?&_).
    unfold rx_json, header_fields, device_fields, fields, jstring, jint. cbn [map app writable fst snd].
    subst m. cbn [rx_device build_Rx build_header deviceHeaderOf dh_DeviceID dh_DeviceType fst snd] in *.
    split_and!; try done; try by eexists.
    - by destruct (nilIfEmpty (DeviceType device)).
    - cbn [rx_Text] in *. by destruct (utf8_valid frame). }
  pose proof (decode_encode (rx_json m) [] Hw) as Hdecode. rewrite app_nil_r in Hdecode.
  rewrite Hdecode; [|apply rx_json_height|done].
  eexists _, (bytes_of_string (rx_RawB64 m)). split; [reflexivity|].
  split; [reflexivity|]. subst m. cbn [rx_RawB64 build_Rx build_header fst snd].
  rewrite bytes_of_string_of_bytes, b64_decode_encode. split; [done|].
  assert (Hint : int_value (jint seq) = Some seq) by (apply parse_int_decimal, Hseq).
  split; [exact Hint|]. split.
  { transitivity (Some (string_of_bytes (bytes_of_string (ID device)))); [reflexivity|]. by rewrite string_of_bytes_of_string. }
  split; [reflexivity|].
  destruct (utf8_valid frame) eqn:Hf; [|reflexivity].
  transitivity (Some (JString (bytes_of_string (string_of_bytes frame)))); [reflexivity|]. by rewrite bytes_of_string_of_bytes.
Qed.

Definition an_agent : Agent := mkAgent "skuhus" "cust-a" "packing-01" "gw-01" "2.0.0".
Definition a_builder : Builder := mkBuilder an_agent (fun n => an_id).
Definition a_device : Device := mkDevice "scanner" "" (60 * Second)%Z.

Lemma reading_on_the_wire_witness :
  exists names b64,
    (v ← fst <$> decode (encode (rx_json (build_Rx a_builder a_device 7 [x41; xff] unix_epoch 0).1)); names_of v) = Some names /\
    names !! "raw_b64" = Some (JString b64) /\ b64_decode b64 = Some [x41; xff] /\
    (names !! "seq" ≫= int_value) = Some 7%Z.
Proof.
  destruct (reading_on_the_wire a_builder a_device 7 [x41; xff] unix_epoch 0
    (encode (rx_json (build_Rx a_builder a_device 7 [x41; xff] unix_epoch 0).1))) as (names & b64 & H1 & H2 & H3 & H4 & _).
  - repeat constructor; vm_compute; reflexivity.
  - reflexivity.
  - reflexivity.
  - vm_compute. split; discriminate.
  - reflexivity.
  - exists names, b64. auto.
Defined.
