(* ===== verification/Pipeline.v ===== *)
(** * One device's pipeline: internal/core/pipeline.go, frames.go and status.go

    The state the core keeps of a device, what the keepalive reports of it, and
    the publishing of its readings, events and tx results. A handler is a
    computation over the device's pipeline, the ids drawn from the builder and
    the outputs: log records and publishes. What it observes (the clock, what
    the transport answers, the drain deadline) is its argument. *)
From S2P Require Import Prelude GoLib Topics Wire Json Encode Logging Queue Device.
#[local] Open Scope string_scope.

(** ** The core's view of a device, and its options *)

(** [core.Device]. The reader is its id, kind and path, and whether it is a
    [Writer]. *)
Record CoreDevice := mkCoreDevice {
  reader_id : string; reader_kind : string; reader_path : string; writable : bool;
  WireDevice : Wire.Device; Topics_ : DeviceTopics;
  TxOpenAttempts : Z; TxOpenInterval : duration; TxRememberedIDs : Z;
  BroadcastGroups : list TxRoute;
}.

(** [Device.txRoutes]. *)
Definition device_txRoutes (dev : CoreDevice) : list TxRoute := OwnTxRoute (Topics_ dev) :: BroadcastGroups dev.

(** [core.Options], less the interfaces and channels. *)
Record Options := mkCoreOptions {
  Devices : list CoreDevice; builder : Builder; AgentStatus : string;
  PublishTimeout : duration; BufferSize : Z; DrainTimeout : duration; EventBufferSize : Z;
  KeepaliveInterval : duration; MissedKeepalives : Z; Started : time; LogPayloads : bool;
}.

(** ** State *)

(** [statusItem]: a port event, or a tx result and when it was produced. *)
Inductive statusItem := EventItem (event : Device.Event) | TxItem (result : TxResult) (at_ : time).

#[global] Instance statusItem_is_event : StatusItem statusItem :=
  fun item => match item with EventItem _ => true | TxItem _ _ => false end.

(** The fields of [pipeline] that the readings, the events and the keepalive
    use. [frames] is the channel's contents. The tx of a device are in Tx.v. *)
Record pipeline := mkPipeline {
  device : CoreDevice; frames : list Frame; txRoutes : list TxRoute; status_queue : statusQueue statusItem;
  seq_ : Z; opened : bool;
  open : bool; failureClass : ErrorClass; failure : string; counters : DeviceCounters;
}.

Definition with_frames f line := mkPipeline (device line) f (txRoutes line) (status_queue line) (seq_ line) (opened line) (open line) (failureClass line) (failure line) (counters line).
Definition with_status s line := mkPipeline (device line) (frames line) (txRoutes line) s (seq_ line) (opened line) (open line) (failureClass line) (failure line) (counters line).
Definition with_seq n line := mkPipeline (device line) (frames line) (txRoutes line) (status_queue line) n (opened line) (open line) (failureClass line) (failure line) (counters line).
Definition with_opened b line := mkPipeline (device line) (frames line) (txRoutes line) (status_queue line) (seq_ line) b (open line) (failureClass line) (failure line) (counters line).
Definition with_open b line := mkPipeline (device line) (frames line) (txRoutes line) (status_queue line) (seq_ line) (opened line) b (failureClass line) (failure line) (counters line).
Definition with_failure c t line := mkPipeline (device line) (frames line) (txRoutes line) (status_queue line) (seq_ line) (opened line) (open line) c t (counters line).
Definition with_counters c line := mkPipeline (device line) (frames line) (txRoutes line) (status_queue line) (seq_ line) (opened line) (open line) (failureClass line) (failure line) c.

(** ** Counting *)

Definition add_failed_open c class := mkDeviceCounters (RxFrames c) (RxBytes c) (Discards c) (OpenFailureCounts_Add (FailedOpens c) class) (PublishFailures c) (TxWrittenCount c) (TxFailedCount c) (BufferDepth c).
Definition add_discard c reason := mkDeviceCounters (RxFrames c) (RxBytes c) (DiscardCounts_Add (Discards c) reason) (FailedOpens c) (PublishFailures c) (TxWrittenCount c) (TxFailedCount c) (BufferDepth c).
Definition add_rx_bytes c n := mkDeviceCounters (RxFrames c) (uint64 (RxBytes c + uint64 n)) (Discards c) (FailedOpens c) (PublishFailures c) (TxWrittenCount c) (TxFailedCount c) (BufferDepth c).
Definition add_frame c := mkDeviceCounters (uint64 (RxFrames c + 1)) (RxBytes c) (Discards c) (FailedOpens c) (PublishFailures c) (TxWrittenCount c) (TxFailedCount c) (BufferDepth c).
Definition add_publish_failure c := mkDeviceCounters (RxFrames c) (RxBytes c) (Discards c) (FailedOpens c) (uint64 (PublishFailures c + 1)) (TxWrittenCount c) (TxFailedCount c) (BufferDepth c).
Definition add_tx c written := mkDeviceCounters (RxFrames c) (RxBytes c) (Discards c) (FailedOpens c) (PublishFailures c)
  (if written : bool then uint64 (TxWrittenCount c + 1) else TxWrittenCount c)
  (if written then TxFailedCount c else uint64 (TxFailedCount c + 1)) (BufferDepth c).
Definition set_buffer_depth c n := mkDeviceCounters (RxFrames c) (RxBytes c) (Discards c) (FailedOpens c) (PublishFailures c) (TxWrittenCount c) (TxFailedCount c) n.

Definition count (event : Device.Event) (line : pipeline) : pipeline :=
  match Kind event with
  | PortOpened => with_opened true (with_open true line)
  | PortClosed => with_open false line
  | PortLost => with_failure (EvErrorClass event) (ErrorText event) (with_open false line)
  | PortOpenFailed =>
    with_counters (add_failed_open (counters line) (EvErrorClass event))
      (with_failure (EvErrorClass event) (ErrorText event) (with_open false line))
  | BytesDiscarded => with_counters (add_discard (counters line) (EvReason event)) line
  | BytesRead => with_counters (add_rx_bytes (counters line) (EvBytes event)) line
  | OtherEvent _ => line
  end.

Definition countFrame (line : pipeline) : pipeline := with_counters (add_frame (counters line)) line.
Definition countTx (written : bool) (line : pipeline) : pipeline := with_counters (add_tx (counters line) written) line.
Definition countPublishFailure (line : pipeline) : pipeline := with_counters (add_publish_failure (counters line)) line.
Definition isOpen (line : pipeline) : bool := open line.

Definition lastFailure (line : pipeline) : ErrorClass * string :=
  if bool_decide (failure line = "") then (ErrorUnknown, "the port is not open") else (failureClass line, failure line).

Definition keepaliveState (answers : gmap string Z) (line : pipeline) : DeviceState :=
  let routes := map (fun route =>
    mkTxRouteState route (match answers !! Topic route with
                          | Some code => mkSubscribeAnswer code true
                          | None => mkSubscribeAnswer 0 false
                          end)) (txRoutes line) in
  mkDeviceState (WireDevice (device line)) (open line)
    (set_buffer_depth (counters line) (Z.of_nat (length (frames line)))) routes.

(** ** The computations *)

(** One publish: the method, the topic, the payload and, except for the offline
    message, the expiry. *)
Inductive publish_kind := PublishRx | PublishEvent | PublishKeepalive | PublishOffline.
Record publish := mkPublish { pub_kind : publish_kind; pub_topic : string; pub_payload : bytes; pub_expiry : option duration }.

Inductive output := Log (record : log_record) | Published (p : publish).

(** [ids] is how many ids the builder has drawn. *)
Record world := mkWorld { line_of : pipeline; ids : nat; out : list output }.

Definition core_m (A : Type) : Type := world -> A * world.
Definition ret {A} (x : A) : core_m A := fun w => (x, w).
Definition bind {A B} (m : core_m A) (k : A -> core_m B) : core_m B := fun w => let (x, w) := m w in k x w.

Declare Scope core_scope.
Delimit Scope core_scope with core.
Notation "'let!' x ':=' m 'in' k" := (bind m (fun x => k)) (at level 10, x pattern, m at level 100, k at level 200) : core_scope.
Notation "m ;; k" := (bind m (fun _ => k)) (at level 100, k at level 200, right associativity) : core_scope.
#[local] Open Scope core_scope.

Definition get_line : core_m pipeline := fun w => (line_of w, w).
Definition modify (f : pipeline -> pipeline) : core_m unit := fun w => (tt, mkWorld (f (line_of w)) (ids w) (out w)).
Definition emit (o : output) : core_m unit := fun w => (tt, mkWorld (line_of w) (ids w) (out w ++ [o])).
Definition draw {A} (m : drawing A) : core_m A := fun w => let (x, ids) := m (ids w) in (x, mkWorld (line_of w) ids (out w)).
Definition log (record : log_record) : core_m unit := emit (Log record).

(** A publish, and what the transport answered. *)
Definition do_publish (p : publish) (answer : option string) : core_m (option string) := emit (Published p);; ret answer.

(** The push of a status message: the item dropped, if any. A queue never
    indexes out of range ([status_queue_outage]). *)
Definition push_status (item : statusItem) : core_m (option statusItem) := fun w =>
  match statusQueue_push (status_queue (line_of w)) item with
  | Some (q, dropped) => (dropped, mkWorld (with_status q (line_of w)) (ids w) (out w))
  | None => (None, w)
  end.

Definition pop_status : core_m (option statusItem) := fun w =>
  let (q, item) := pop (waiting (status_queue (line_of w))) in
  (item, mkWorld (with_status (mkStatusQueue q (eventLimit (status_queue (line_of w)))) (line_of w)) (ids w) (out w)).

(** ** Readings *)

Section Handlers.
Context (opts : Options).

(** [deadline] is what [drainDeadlineMS] holds. *)
Definition pastDrainDeadline (deadline : Z) (now : time) : bool := (0 <? deadline)%Z && (deadline <? UnixMilli now)%Z.

Definition rxAttrs (m : Rx) (frame : bytes) (outcome : string) (withData : bool) : attrs :=
  ([("id", AttrString (h_ID (rx_header m))); ("device_id", AttrString (dh_DeviceID (rx_device m)));
    ("seq", AttrInt (rx_Seq m)); ("bytes", AttrInt (Z.of_nat (length frame)));
    ("text_valid", AttrBool (rx_TextValid m)); ("outcome", AttrString outcome)] ++
   (if withData then Payload frame else []))%list.

Definition outcomePublished := "published".
Definition outcomeFailed := "failed".
Definition outcomeDropped := "dropped".

Definition publishRx (m : Rx) (raw : bytes) (answer : option string) : core_m unit :=
  match Marshal (rx_json m) with
  | Err err =>
    modify countPublishFailure;;
    log (Record_ LevelError "rx could not be encoded" (rxAttrs m raw outcomeDropped true ++ [("error", AttrString err)])%list)
  | Ok payload =>
    let! line := get_line in
    let! err := do_publish (mkPublish PublishRx (rx (Topics_ (device line))) payload (Some (Expiry (WireDevice (device line))))) answer in
    match err with
    | Some err =>
      modify countPublishFailure;;
      log (Record_ LevelError "rx publish failed" (rxAttrs m raw outcomeFailed true ++ [("error", AttrString err)])%list)
    | None => log (Record_ LevelInfo "rx published" (rxAttrs m raw outcomePublished (LogPayloads opts)))
    end
  end.

(** What [publishFrames] observes for a frame: the drain deadline, the clock
    when it looks at it, and the transport's answer. *)
Record frame_obs := mkFrameObs { fo_deadline : Z; fo_now : time; fo_answer : option string }.

(** One turn of [publishFrames]: whether the frame was dropped. *)
Definition publishFrame (frame : Frame) (obs : frame_obs) : core_m bool :=
  modify (fun line => countFrame (with_seq (uint64 (seq_ line + 1)) line));;
  let! line := get_line in
  let! m := draw (build_Rx (builder opts) (WireDevice (device line)) (seq_ line) (Raw frame) (FrameAt frame)) in
  if pastDrainDeadline (fo_deadline obs) (fo_now obs) then
    modify countPublishFailure;;
    log (Record_ LevelWarn "rx dropped" (rxAttrs m (Raw frame) outcomeDropped true ++
      [("reason", AttrString "shutdown drain deadline passed")])%list);;
    ret true
  else publishRx m (Raw frame) (fo_answer obs);; ret false.

Fixpoint publish_loop (l : list (Frame * frame_obs)) (dropped : Z) : core_m Z :=
  match l with
  | [] => ret dropped
  | (frame, obs) :: l' =>
    let! d := publishFrame frame obs in
    publish_loop l' (if d then dropped + 1 else dropped)%Z
  end.

(** [publishFrames] over every frame the channel gave until it was closed. *)
Definition publishFrames (l : list (Frame * frame_obs)) : core_m unit :=
  let! dropped := publish_loop l 0 in
  let! line := get_line in
  if (0 <? dropped)%Z
  then log (log_at LevelWarn "rx dropped at shutdown"
    [("device_id", AttrString (ID (WireDevice (device line)))); ("count", AttrInt dropped);
     ("drain_timeout", AttrDuration (DrainTimeout opts))])
  else ret tt.

(** ** Events *)

Definition eventAttrs (event : Device.Event) : attrs :=
  ([("device_id", AttrString (DeviceID event)); ("event", AttrString (EventKind_text (Kind event)));
    ("at", AttrString (format_time (At event)))] ++
   (if bool_decide (EvErrorClass event = "") then [] else [("error_class", AttrString (EvErrorClass event))]) ++
   (match EvErr event with Some err => [("error", AttrString (Error err))] | None => [] end) ++
   (if bool_decide (Kind event = BytesDiscarded)
    then [("reason", AttrString (EvReason event)); ("bytes", AttrInt (EvBytes event))] else []))%list.

Definition stringOrEmpty (value : option string) : string := default "" value.

(** [statusItem.attrs]. *)
Definition item_attrs (item : statusItem) : attrs :=
  match item with
  | TxItem result at_ =>
    [("device_id", AttrString (dh_DeviceID (txr_device result))); ("tx_id", AttrString (stringOrEmpty (txr_TxID result)));
     ("state", AttrString (TxState_text (txr_State result))); ("code", AttrString (TxCode_text (txr_Code result)));
     ("at", AttrString (format_time at_))]
  | EventItem event => eventAttrs event
  end.

Definition with_class (event : Device.Event) (class : ErrorClass) : Device.Event :=
  mkPortEvent (DeviceID event) (Kind event) (At event) class (EvErr event) (EvReason event) (EvBytes event).

Definition report (event : Device.Event) : core_m unit :=
  let! event :=
    if negb (bool_decide (EvErrorClass event = "")) && negb (ErrorClass_Known (EvErrorClass event)) then
      log (log_at LevelError "port event carries an error class the keepalive has no counter for; counted as unknown" (eventAttrs event));;
      ret (with_class event ErrorUnknown)
    else ret event in
  (if bool_decide (Kind event = BytesDiscarded) && negb (DiscardReason_Known (EvReason event))
   then log (log_at LevelError "port event carries a discard reason the keepalive has no counter for; not counted" (eventAttrs event))
   else ret tt);;
  modify (count event);;
  if bool_decide (Kind event = BytesRead) then ret tt
  else
    log (log_at LevelDebug "port event" (eventAttrs event));;
    let! dropped := push_status (EventItem event) in
    match dropped with
    | Some item =>
      log (log_at LevelWarn "device event dropped: queue full, the most recent are kept"
        (item_attrs item ++ [("queue_size", AttrInt (EventBufferSize opts))])%list)
    | None => ret tt
    end.

(** [buildEvent]: [None] is its [false]. *)
Definition buildEvent (event : Device.Event) : core_m (option Wire.Event) :=
  let! line := get_line in
  let dev := WireDevice (device line) in
  let path := reader_path (device line) in
  let at_ := At event in
  let some m := let! m := draw m in ret (Some m) in
  match Kind event with
  | PortOpened => some (build_PortOpened (builder opts) dev path at_)
  | PortClosed => some (build_PortClosed (builder opts) dev path at_)
  | PortLost => some (build_PortLost (builder opts) dev path (EvErrorClass event) (ErrorText event) at_)
  | PortOpenFailed => some (build_PortOpenFailed (builder opts) dev path (EvErrorClass event) (ErrorText event) at_)
  | BytesDiscarded => some (build_BytesDiscarded (builder opts) dev (EvReason event) (EvBytes event) at_)
  | BytesRead | OtherEvent _ =>
    log (log_at LevelError "port event of a kind with no message; not published" (eventAttrs event));; ret None
  end.

(** What a publish of a status message observes: the clock for its age, the
    drain deadline and the clock when it looks at it, the transport's answer. *)
Record status_obs := mkStatusObs { so_now : time; so_deadline : Z; so_later : time; so_answer : option string }.

(** What [publishEvent] and [publishTxResult] share after their attributes. *)
Definition publish_status (noun : string) (a : attrs) (message : json) (at_ : time) (obs : status_obs) : core_m unit :=
  let! line := get_line in
  let age := Sub (so_now obs) at_ in
  let expiry := Expiry (WireDevice (device line)) in
  if pastDrainDeadline (so_deadline obs) (so_later obs) then
    log (log_at LevelWarn (noun +:+ " dropped") (a ++ [("reason", AttrString "shutdown drain deadline passed")])%list)
  else
    let remaining := int64 (expiry - age) in
    if (remaining <=? 0)%Z then
      log (log_at LevelWarn (noun +:+ " dropped") (a ++ [("reason", AttrString "older than its message expiry");
        ("message_expiry", AttrDuration expiry)])%list)
    else
      match Marshal message with
      | Err err => log (log_at LevelError (noun +:+ " could not be encoded") (a ++ [("error", AttrString err)])%list)
      | Ok payload =>
        let! err := do_publish (mkPublish PublishEvent (status (Topics_ (device line))) payload (Some remaining)) (so_answer obs) in
        match err with
        | Some err => log (log_at LevelWarn (noun +:+ " publish failed") (a ++ [("error", AttrString err)])%list)
        | None => log (log_at LevelInfo (noun +:+ " published") (a ++ [("message_expiry_left", AttrDuration remaining)])%list)
        end
      end.

Definition publishEvent (event : Device.Event) (obs : status_obs) : core_m unit :=
  let! message := buildEvent event in
  match message with
  | None => ret tt
  | Some m =>
    publish_status "device event"
      [("id", AttrString (h_ID (ev_header m))); ("device_id", AttrString (dh_DeviceID (ev_device m)));
       ("code", AttrString (EventCode_text (ev_Code m))); ("device_open", AttrBool (ev_DeviceOpen m));
       ("text", AttrString (ev_Text m)); ("agent_ts", AttrString (h_AgentTS (ev_header m)));
       ("age", AttrDuration (Sub (so_now obs) (At event)))]
      (event_json m) (At event) obs
  end.

Definition publishTxResult (result : TxResult) (at_ : time) (obs : status_obs) : core_m unit :=
  publish_status "tx result"
    [("id", AttrString (h_ID (txr_header result))); ("device_id", AttrString (dh_DeviceID (txr_device result)));
     ("tx_id", AttrString (stringOrEmpty (txr_TxID result))); ("state", AttrString (TxState_text (txr_State result)));
     ("code", AttrString (TxCode_text (txr_Code result))); ("age", AttrDuration (Sub (so_now obs) at_))]
    (txResult_json result) at_ obs.

(** [dropStatusMessages]: the loop ends when the queue is empty. *)
Fixpoint drop_loop (fuel : nat) (reason : string) : core_m unit :=
  match fuel with
  | O => ret tt
  | S fuel' =>
    let! item := pop_status in
    match item with
    | None => ret tt
    | Some item =>
      let message := match item with TxItem _ _ => "tx result dropped" | EventItem _ => "device event dropped" end in
      log (log_at LevelWarn message (item_attrs item ++ [("reason", AttrString reason)])%list);;
      drop_loop fuel' reason
    end
  end.

Definition dropStatusMessages (reason : string) : core_m unit :=
  let! line := get_line in drop_loop (S (length (held (status_queue line)))) reason.

(** What is done with a message taken from the queue. *)
Definition publish_item (item : statusItem) (obs : status_obs) : core_m unit :=
  match item with
  | TxItem result at_ => publishTxResult result at_ obs
  | EventItem event => publishEvent event obs
  end.

(** What [publishStatusMessages] observes in a turn once [wait] said true: the
    error of [AwaitConnection], with whether the drain had ended, or what the
    publish of the item observes. *)
Inductive await_obs := AwaitFailed (err : string) (drained : bool) | Connected (obs : status_obs).

(** The turns of [publishStatusMessages] that [wait] let through; [false] when
    it returned because the connection is gone. *)
Fixpoint publishStatusMessages (l : list await_obs) : core_m bool :=
  match l with
  | [] => ret true
  | AwaitFailed err drained :: _ =>
    let! line := get_line in
    let! reason :=
      if drained then ret "the broker connection was still down when the shutdown drain ended"
      else
        log (log_at LevelError "waiting for the broker connection failed; device events and tx results are no longer published"
          [("device_id", AttrString (ID (WireDevice (device line)))); ("error", AttrString err)]);;
        ret ("waiting for the broker connection failed: " +:+ err) in
    dropStatusMessages reason;; ret false
  | Connected obs :: l' =>
    let! item := pop_status in
    match item with None => ret tt | Some item => publish_item item obs end;;
    publishStatusMessages l'
  end.
End Handlers.

(** ** What the handlers do *)

#[local] Arguments encode : simpl never.
#[local] Arguments rx_json : simpl never.
#[local] Arguments event_json : simpl never.
#[local] Arguments txResult_json : simpl never.
#[local] Arguments rxAttrs : simpl never.
#[local] Arguments uint64 : simpl never.
#[local] Arguments int64 : simpl never.
#[local] Arguments Sub : simpl never.
#[local] Arguments pastDrainDeadline : simpl never.

Definition always_records (l : list output) : list log_record :=
  omap (fun o => match o with Log r => if rec_always r then Some r else None | Published _ => None end) l.

Definition publishes (l : list output) : list publish :=
  omap (fun o => match o with Published p => Some p | Log _ => None end) l.

Definition run_out {A} (m : core_m A) (w : world) : list output := drop (length (out w)) (out (m w).2).

Lemma always_records_app l l' : always_records (l ++ l') = (always_records l ++ always_records l')%list.
Proof. apply omap_app. Qed.
Lemma publishes_app l l' : publishes (l ++ l') = (publishes l ++ publishes l')%list.
Proof. apply omap_app. Qed.

(** What became of a frame. *)
Definition outcome_of (obs : frame_obs) : string :=
  if pastDrainDeadline (fo_deadline obs) (fo_now obs) then outcomeDropped
  else match fo_answer obs with Some _ => outcomeFailed | None => outcomePublished end.

(** A reading's record: kept whatever the level, with its sequence number, its
    length and its outcome; and with the data, unless the broker took it and
    log_payloads is off. *)
Definition reading_record (opts : Options) (seq : Z) (frame : Frame) (obs : frame_obs) (r : log_record) : Prop :=
  rec_always r = true /\
  ("seq", AttrInt seq) ∈ rec_attrs r /\
  ("bytes", AttrInt (Z.of_nat (length (Raw frame)))) ∈ rec_attrs r /\
  ("outcome", AttrString (outcome_of obs)) ∈ rec_attrs r /\
  (outcome_of obs <> outcomePublished \/ LogPayloads opts = true ->
    ("data_hex", AttrString (hex_encode (Raw frame))) ∈ rec_attrs r).

(** A reading's publish: its topic, its expiry and its payload. *)
Definition reading_publish (opts : Options) (dev : CoreDevice) (id : nat) (seq : Z) (frame : Frame) : publish :=
  mkPublish PublishRx (rx (Topics_ dev))
    (encode (rx_json (build_Rx (builder opts) (WireDevice dev) seq (Raw frame) (FrameAt frame) id).1))
    (Some (Expiry (WireDevice dev))).

(** Membership in a list whose head is written out. *)
Ltac in_list := solve [cbn [app rxAttrs Payload rec_attrs]; repeat first [apply list_elem_of_here|apply list_elem_of_further]].

Section Readings.
Context (opts : Options).

Lemma rxAttrs_in m frame outcome withData :
  ("seq", AttrInt (rx_Seq m)) ∈ rxAttrs m frame outcome withData /\
  ("bytes", AttrInt (Z.of_nat (length frame))) ∈ rxAttrs m frame outcome withData /\
  ("outcome", AttrString outcome) ∈ rxAttrs m frame outcome withData /\
  (withData = true -> ("data_hex", AttrString (hex_encode frame)) ∈ rxAttrs m frame outcome withData).
Proof.
  unfold rxAttrs, Payload. split_and!; [..|intros ->]; in_list.
Qed.

(** One frame: its record, its publish unless the drain had ended, and the
    counters. *)
Lemma publishFrame_spec frame obs w :
  let line := line_of w in
  let seq := uint64 (seq_ line + 1) in
  let '(dropped, w') := publishFrame opts frame obs w in
  exists made r, out w' = (out w ++ made)%list /\ always_records made = [r] /\
    reading_record opts seq frame obs r /\
    publishes made =
      (if bool_decide (outcome_of obs = outcomeDropped) then [] else [reading_publish opts (device line) (ids w) seq frame]) /\
    dropped = bool_decide (outcome_of obs = outcomeDropped) /\
    ids w' = S (ids w) /\ device (line_of w') = device line /\ seq_ (line_of w') = seq /\
    RxFrames (counters (line_of w')) = uint64 (RxFrames (counters line) + 1) /\
    PublishFailures (counters (line_of w')) =
      (if bool_decide (outcome_of obs = outcomePublished) then PublishFailures (counters line)
       else uint64 (PublishFailures (counters line) + 1)).
Proof.
  destruct w as [line n o]. cbn [line_of ids out].
  unfold publishFrame, bind, modify, get_line, draw, publishRx, do_publish, log, emit, ret, reading_record, outcome_of.
  cbn [line_of ids out seq_ countFrame with_seq with_counters device counters fst snd].
  set (m := (build_Rx (builder opts) (WireDevice (device line)) (uint64 (seq_ line + 1)) (Raw frame) (FrameAt frame) n).1).
  assert (Hseq : rx_Seq m = uint64 (seq_ line + 1)) by done.
  change (build_Rx (builder opts) (WireDevice (device line)) (uint64 (seq_ line + 1)) (Raw frame) (FrameAt frame) n)
    with (m, S n). cbn iota beta.
  destruct (pastDrainDeadline (fo_deadline obs) (fo_now obs)); [|unfold Marshal; destruct (fo_answer obs) as [err|]];
    simpl; rewrite <-?(assoc_L (++)%list);
    (eexists _, _; split; [reflexivity|]; split; [reflexivity|]); rewrite <-Hseq;
    split_and!; try done; unfold Record_; cbn [rec_attrs]; intros;
    first [in_list|apply rxAttrs_in; naive_solver].
Qed.

(** Frames with the sequence numbers they get. *)
Fixpoint numbered (first : Z) (l : list (Frame * frame_obs)) : list (Z * Frame * frame_obs) :=
  match l with
  | [] => []
  | (frame, obs) :: l' => (first, frame, obs) :: numbered (first + 1) l'
  end.

(** The publishes of numbered frames, the first made with the id [id]. *)
Fixpoint frames_publishes (dev : CoreDevice) (id : nat) (l : list (Z * Frame * frame_obs)) : list publish :=
  match l with
  | [] => []
  | (seq, frame, obs) :: l' =>
    (if bool_decide (outcome_of obs = outcomeDropped) then [] else [reading_publish opts dev id seq frame]) ++
    frames_publishes dev (S id) l'
  end.

Definition failures (l : list (Frame * frame_obs)) : Z :=
  Z.of_nat (length (List.filter (fun x => negb (bool_decide (outcome_of x.2 = outcomePublished))) l)).

Lemma publish_loop_spec l dropped w :
  (0 <= seq_ (line_of w))%Z -> (seq_ (line_of w) + Z.of_nat (length l) < 2 ^ 64)%Z ->
  (0 <= RxFrames (counters (line_of w)))%Z -> (RxFrames (counters (line_of w)) + Z.of_nat (length l) < 2 ^ 64)%Z ->
  (0 <= PublishFailures (counters (line_of w)))%Z -> (PublishFailures (counters (line_of w)) + Z.of_nat (length l) < 2 ^ 64)%Z ->
  let w' := (publish_loop opts l dropped w).2 in
  exists made, out w' = (out w ++ made)%list /\
    Forall2 (fun f r => reading_record opts f.1.1 f.1.2 f.2 r) (numbered (seq_ (line_of w) + 1) l) (always_records made) /\
    publishes made = frames_publishes (device (line_of w)) (ids w) (numbered (seq_ (line_of w) + 1) l) /\
    device (line_of w') = device (line_of w) /\
    seq_ (line_of w') = (seq_ (line_of w) + Z.of_nat (length l))%Z /\
    RxFrames (counters (line_of w')) = (RxFrames (counters (line_of w)) + Z.of_nat (length l))%Z /\
    PublishFailures (counters (line_of w')) = (PublishFailures (counters (line_of w)) + failures l)%Z.
Proof.
  revert dropped w. induction l as [|[frame obs] l IH]; intros dropped w Hs Hs' Hr Hr' Hp Hp' w'.
  { exists []. subst w'. unfold failures. cbn. rewrite app_nil_r. split_and!; try done; lia. }
  subst w'. cbn [publish_loop length] in *. unfold bind.
  pose proof (publishFrame_spec frame obs w) as H. destruct (publishFrame opts frame obs w) as [d w1].
  cbv zeta in H. rewrite !uint64_id in H by lia.
  destruct H as (made1 & r & Hout1 & Hrec1 & Hr1 & Hpub1 & _ & Hids & Hdev & Hseq & Hrx & Hpf).
  destruct (IH (if d then dropped + 1 else dropped)%Z w1) as (made2 & Hout2 & Hrec2 & Hpub2 & Hdev2 & Hseq2 & Hrx2 & Hpf2);
    [rewrite ?Hseq, ?Hrx, ?Hpf; repeat case_bool_decide; lia..|].
  cbv beta iota. exists (made1 ++ made2)%list. rewrite Hout2, Hout1, (assoc_L (++)%list), always_records_app, publishes_app, Hrec1, Hpub1, Hpub2.
  rewrite Hseq2, Hrx2, Hpf2, Hseq, Hrx, Hpf, Hids, Hdev. cbn [numbered frames_publishes app].
  rewrite Hdev2, Hdev. rewrite Hseq in Hrec2.
  split_and!; try done; try lia; [by constructor|].
  unfold failures. cbn [List.filter snd]. case_bool_decide; cbn [negb length]; lia.
Qed.
End Readings.

(** *** Events *)

(** The pure part of [report]: what the handlers below do to a pipeline. *)
Definition known_class (event : Device.Event) : Device.Event :=
  if negb (bool_decide (EvErrorClass event = "")) && negb (ErrorClass_Known (EvErrorClass event))
  then with_class event ErrorUnknown else event.

Lemma report_spec opts event w :
  let event' := known_class event in
  let line := line_of w in
  let w' := (report opts event w).2 in
  line_of w' =
    (if bool_decide (Kind event = BytesRead) then count event' line
     else match statusQueue_push (status_queue line) (EventItem event') with
          | Some (q, _) => with_status q (count event' line)
          | None => count event' line
          end) /\
  ids w' = ids w /\ exists made, out w' = (out w ++ made)%list /\ publishes made = [].
Proof.
  destruct w as [line n o]. unfold known_class.
  assert (Hkind : Kind (with_class event ErrorUnknown) = Kind event) by done.
  assert (Hstatus : forall e, status_queue (count e line) = status_queue line) by (intros e; unfold count; by destruct (Kind e)).
  unfold report, push_status, log, emit, bind, ret, modify.
  destruct (negb _ && negb _); cbn [line_of ids out];
    destruct (bool_decide (Kind _ = BytesDiscarded) && _); cbn [line_of ids out]; rewrite ?Hkind;
    (case_bool_decide; cbn [line_of ids out fst snd];
      [|rewrite Hstatus; destruct (statusQueue_push _ _) as [[q [item|]]|]; cbn [line_of ids out fst snd]]);
    rewrite <-?(assoc_L (++)%list); (split_and!; [done|done|]); try (by eexists); try by (exists []; rewrite app_nil_r).
Qed.

(** Events reported one after the other. *)
Definition reports (opts : Options) (events : list Device.Event) (w : world) : world :=
  foldl (fun w event => (report opts event w).2) w events.

(** The status messages of events: all but the reads. *)
Definition event_items (events : list Device.Event) : list statusItem :=
  map (fun event => EventItem (known_class event)) (List.filter (fun event => negb (bool_decide (Kind event = BytesRead))) events).

Definition count_discards (reason : DiscardReason) (events : list Device.Event) : Z :=
  Z.of_nat (length (List.filter (fun event => bool_decide (Kind event = BytesDiscarded) && bool_decide (EvReason event = reason)) events)).

Definition count_read (events : list Device.Event) : Z :=
  foldr (fun event n => (if bool_decide (Kind event = BytesRead) then EvBytes event + n else n)%Z) 0%Z events.

(** Whether the port is open after events. *)
Definition open_after (events : list Device.Event) (before : bool) : bool :=
  foldl (fun b event => match Kind event with PortOpened => true | PortClosed | PortLost | PortOpenFailed => false | _ => b end)
    before events.

(** The failed opens of a class, one without a counter being unknown. *)
Definition count_failed_opens (class : ErrorClass) (events : list Device.Event) : Z :=
  Z.of_nat (length (List.filter (fun event =>
    bool_decide (Kind event = PortOpenFailed) && bool_decide (counted_class (EvErrorClass event) = class)) events)).

(** The last failure of a port after events, and whether one opened it. *)
Definition failure_after (events : list Device.Event) (before : ErrorClass * string) : ErrorClass * string :=
  foldl (fun b event => match Kind event with
                        | PortLost | PortOpenFailed => (EvErrorClass (known_class event), ErrorText event)
                        | _ => b
                        end) before events.

Definition opened_by (events : list Device.Event) : bool := existsb (fun event => bool_decide (Kind event = PortOpened)) events.

Lemma count_fields event line :
  status_queue (count event line) = status_queue line /\ device (count event line) = device line /\
  open (count event line) = open_after [event] (open line) /\
  Discards (counters (count event line)) =
    (if bool_decide (Kind event = BytesDiscarded) then DiscardCounts_Add (Discards (counters line)) (EvReason event)
     else Discards (counters line)) /\
  RxBytes (counters (count event line)) =
    (if bool_decide (Kind event = BytesRead) then uint64 (RxBytes (counters line) + uint64 (EvBytes event))
     else RxBytes (counters line)).
Proof. unfold count, open_after. simpl. destruct (Kind event); by split_and!. Qed.

Lemma known_class_fields event :
  Kind (known_class event) = Kind event /\ EvReason (known_class event) = EvReason event /\ EvBytes (known_class event) = EvBytes event.
Proof. unfold known_class. by destruct (_ && _). Qed.

Lemma count_read_app l event :
  count_read (l ++ [event])%list = (count_read l + count_read [event])%Z.
Proof.
  unfold count_read. induction l as [|e l IH]; [done|]. simpl in *. rewrite IH. repeat case_bool_decide; lia.
Qed.

Lemma count_read_nonneg l : Forall (fun event => 0 <= EvBytes event)%Z l -> (0 <= count_read l)%Z.
Proof. unfold count_read. induction 1; simpl; [lia|]. case_bool_decide; lia. Qed.

Lemma reports_ok opts limit events w :
  (0 < limit)%Z -> status_queue (line_of w) = newStatusQueue limit -> counters (line_of w) = zero_counters ->
  Forall (fun event => 0 <= EvBytes event)%Z events -> (count_read events < 2 ^ 64)%Z -> (Z.of_nat (length events) < 2 ^ 64)%Z ->
  let line := line_of (reports opts events w) in
  (exists h, queue_run limit (map Push (event_items events)) = Some h /\ status_queue line = now_held h) /\
  open line = open_after events (open (line_of w)) /\
  RxBytes (counters line) = count_read events /\
  (forall reason, DiscardReason_Known reason = true -> discards_of (Discards (counters line)) reason = Some (count_discards reason events)).
Proof.
  intros Hlimit Hqueue Hzero. induction events as [|event events IH] using rev_ind; intros Hbytes Hread Hlen; cbv zeta.
  { cbn [reports foldl]. rewrite Hqueue, Hzero. split_and!; [by eexists|done|done|]. intros reason Hknown.
    unfold DiscardReason_Known, DiscardReasons in Hknown. apply bool_decide_eq_true in Hknown.
    unfold discards_of. repeat (case_bool_decide; [done|]). exfalso. set_solver. }
  apply Forall_app in Hbytes as [Hbytes [Hb _]%Forall_cons]. pose proof (count_read_nonneg _ Hbytes) as Hnonneg.
  rewrite count_read_app in Hread |- *. rewrite length_app in Hlen. cbn [length] in Hlen.
  cbv beta in Hb. assert (Hone : (0 <= count_read [event])%Z) by (apply count_read_nonneg; by repeat constructor).
  destruct (IH Hbytes ltac:(lia) ltac:(lia)) as ((h & Hrun & Hheld) & Hopen & Hrx & Hdisc). clear IH. cbv zeta in *.
  unfold reports in *. rewrite foldl_app. cbn [foldl]. set (w1 := foldl _ w events) in *.
  destruct (report_spec opts event w1) as (Hline & _). cbv zeta in Hline.
  destruct (count_fields (known_class event) (line_of w1)) as (Hcq & _ & Hco & Hcd & Hcr).
  destruct (known_class_fields event) as (Hk & Hkr & Hkb). rewrite Hk in Hcd, Hcr. rewrite Hkr in Hcd. rewrite Hkb in Hcr.
  set (line1 := count (known_class event) (line_of w1)) in *.
  assert (Hfields : exists q, line_of (report opts event w1).2 = with_status q line1 /\
    exists h', queue_run limit (map Push (event_items (events ++ [event])%list)) = Some h' /\ q = now_held h').
  { rewrite Hline. unfold event_items. rewrite List.filter_app. cbn [List.filter]. case_bool_decide as Hkind.
    - exists (status_queue line1). split; [by destruct line1|]. cbn [negb app]. rewrite app_nil_r. exists h. split; [done|].
      by rewrite Hcq.
    - cbn [negb]. rewrite map_app. cbn [map]. rewrite Hheld.
      destruct (queue_run_pushes limit (event_items events ++ [EventItem (known_class event)])%list Hlimit) as (h' & Hrun' & _).
      unfold event_items in *. rewrite map_app in Hrun' |- *. exists (now_held h'). rewrite Hrun'.
      unfold queue_run in *. rewrite foldl_app, Hrun in Hrun'. cbn [map foldl queue_step mbind option_bind] in Hrun'.
      destruct (statusQueue_push (now_held h) _) as [[q dropped]|]; [|done]. cbn [mbind option_bind] in Hrun'. injection Hrun' as <-.
      split; [done|]. eauto. }
  destruct Hfields as (q & -> & h' & Hrun' & ->).
  assert (Hof : forall before, open_after (events ++ [event])%list before = open_after [event] (open_after events before))
    by (intros; unfold open_after; by rewrite foldl_app).
  assert (Hoe : open_after [known_class event] = open_after [event]) by (unfold open_after; cbn; by rewrite Hk).
  unfold with_status. cbn [status_queue open counters].
  split; [eauto|]. split; [by rewrite Hco, Hof, Hopen, Hoe|]. rewrite Hcd, Hcr. split.
  - assert (Hcr1 : count_read [event] = if bool_decide (Kind event = BytesRead) then EvBytes event else 0%Z)
      by (cbn; case_bool_decide; lia).
    rewrite Hcr1 in *. rewrite Hrx. case_bool_decide; [|lia]. by rewrite (uint64_id (EvBytes event)), uint64_id by lia.
  - intros reason Hknown. specialize (Hdisc reason Hknown). unfold count_discards in *.
    rewrite List.filter_app, length_app. cbn [List.filter].
    destruct (decide (Kind event = BytesDiscarded)) as [Hdk|Hdk];
      [rewrite !(bool_decide_eq_true_2 (Kind event = BytesDiscarded)) by done|
       rewrite !(bool_decide_eq_false_2 (Kind event = BytesDiscarded)) by done]; cbn [andb];
      [|cbn [length]; rewrite Hdisc; f_equal; lia].
    rewrite discards_of_Add, Hdisc. rewrite (bool_decide_ext (EvReason event = reason) (reason = EvReason event)) by done.
    pose proof (List.filter_length_le (fun event => bool_decide (Kind event = BytesDiscarded) && bool_decide (EvReason event = reason)) events).
    destruct (decide (reason = EvReason event)) as [He|He];
      [rewrite !(bool_decide_eq_true_2 (reason = EvReason event)) by done|
       rewrite !(bool_decide_eq_false_2 (reason = EvReason event)) by done]; cbn [length fmap option_fmap option_map].
    + rewrite uint64_id by lia. f_equal. lia.
    + f_equal. lia.
Qed.

Lemma known_class_counted event : counted_class (EvErrorClass (known_class event)) = counted_class (EvErrorClass event).
Proof.
  unfold known_class, counted_class. destruct (bool_decide (EvErrorClass event = "")), (ErrorClass_Known (EvErrorClass event)) eqn:Hk; cbn; by rewrite ?Hk.
Qed.

Lemma count_failures event line :
  opened (count event line) = opened line || opened_by [event] /\
  (failureClass (count event line), failure (count event line)) =
    match Kind event with PortLost | PortOpenFailed => (EvErrorClass event, ErrorText event) | _ => (failureClass line, failure line) end /\
  FailedOpens (counters (count event line)) =
    (if bool_decide (Kind event = PortOpenFailed) then OpenFailureCounts_Add (FailedOpens (counters line)) (EvErrorClass event)
     else FailedOpens (counters line)) /\
  (RxFrames (counters (count event line)), PublishFailures (counters (count event line)), TxWrittenCount (counters (count event line)),
    TxFailedCount (counters (count event line)), BufferDepth (counters (count event line))) =
  (RxFrames (counters line), PublishFailures (counters line), TxWrittenCount (counters line), TxFailedCount (counters line), BufferDepth (counters line)).
Proof. unfold count, opened_by. cbn. destruct (Kind event); cbn; rewrite ?orb_false_r, ?orb_true_r; by split_and!. Qed.

(** The status queue apart, a report leaves what [count] does. *)
Lemma report_counts opts event w :
  exists q, line_of (report opts event w).2 = with_status q (count (known_class event) (line_of w)).
Proof.
  destruct (report_spec opts event w) as (-> & _). cbv zeta. set (line1 := count _ _).
  assert (Hsame : line1 = with_status (status_queue line1) line1) by (by destruct line1).
  case_bool_decide; [eauto|]. destruct (statusQueue_push _ _) as [[q ?]|]; eauto.
Qed.

Lemma reports_failures opts events w :
  counters (line_of w) = zero_counters -> (Z.of_nat (length events) < 2 ^ 64)%Z ->
  let line := line_of (reports opts events w) in
  opened line = opened (line_of w) || opened_by events /\
  (failureClass line, failure line) = failure_after events (failureClass (line_of w), failure (line_of w)) /\
  (forall class, ErrorClass_Known class = true -> failed_opens_of (FailedOpens (counters line)) class = Some (count_failed_opens class events)) /\
  (RxFrames (counters line), PublishFailures (counters line), TxWrittenCount (counters line), TxFailedCount (counters line), BufferDepth (counters line)) =
    (0, 0, 0, 0, 0)%Z.
Proof.
  intros Hzero. induction events as [|event events IH] using rev_ind; intros Hlen; cbv zeta.
  { cbn. rewrite Hzero, orb_false_r. split_and!; try done. intros class Hknown.
    unfold ErrorClass_Known, ErrorClasses in Hknown. apply bool_decide_eq_true in Hknown.
    unfold failed_opens_of. repeat (case_bool_decide; [done|]). exfalso. set_solver. }
  rewrite length_app in Hlen. cbn [length] in Hlen. destruct (IH ltac:(lia)) as (Ho & Hf & Hc & Hz). clear IH. cbv zeta in *.
  unfold reports, failure_after, opened_by, count_failed_opens in *. rewrite !foldl_app, existsb_app. cbn [foldl].
  set (w1 := foldl _ w events) in *. destruct (report_counts opts event w1) as [q ->].
  destruct (count_failures (known_class event) (line_of w1)) as (Ho1 & Hf1 & Hc1 & Hz1).
  destruct (known_class_fields event) as (Hk & _ & _). unfold opened_by in Ho1. cbn [existsb] in *. rewrite Hk in Ho1, Hf1, Hc1.
  unfold with_status. cbn [opened failureClass failure counters]. split_and!.
  - by rewrite Ho1, Ho, <-!orb_assoc.
  - rewrite Hf1, Hf. unfold known_class, ErrorText. destruct (Kind event); try done; by destruct (_ && _).
  - intros class Hknown. specialize (Hc class Hknown). rewrite Hc1, List.filter_app, length_app. cbn [List.filter].
    pose proof (List.filter_length_le (fun event =>
      bool_decide (Kind event = PortOpenFailed) && bool_decide (counted_class (EvErrorClass event) = class)) events).
    destruct (decide (Kind event = PortOpenFailed)) as [Hkind|Hkind];
      [rewrite !(bool_decide_eq_true_2 _ Hkind)|rewrite !(bool_decide_eq_false_2 _ Hkind)]; cbn [andb];
      [|cbn [length]; rewrite Hc; f_equal; lia].
    rewrite failed_opens_of_Add, known_class_counted, Hc, (bool_decide_ext (class = _) (counted_class (EvErrorClass event) = class)) by done.
    destruct (decide (counted_class (EvErrorClass event) = class)) as [Hclass|Hclass];
      [rewrite !(bool_decide_eq_true_2 _ Hclass)|rewrite !(bool_decide_eq_false_2 _ Hclass)]; cbn [length fmap option_fmap option_map];
      [rewrite uint64_id by lia|]; f_equal; lia.
  - by rewrite Hz1.
Qed.

(** *** Status messages *)

Definition logged (l : list output) : list log_record :=
  omap (fun o => match o with Log r => Some r | Published _ => None end) l.

Definition item_time (item : statusItem) : time := match item with EventItem event => At event | TxItem _ at_ => at_ end.

(** The items that have a message: all but events of an unknown kind, and reads. *)
Definition has_message (item : statusItem) : bool :=
  match item with
  | EventItem event => match Kind event with BytesRead | OtherEvent _ => false | _ => true end
  | TxItem _ _ => true
  end.

(** A message that is sent: on the device's status topic, with what remains of
    its expiry. *)
Definition status_publish_ok (dev : CoreDevice) (item : statusItem) (obs : status_obs) (p : publish) : Prop :=
  pub_kind p = PublishEvent /\ pub_topic p = status (Topics_ dev) /\
  exists remaining, pub_expiry p = Some remaining /\ (0 < remaining <= Expiry (WireDevice dev))%Z /\
    (remaining + (so_now obs - item_time item) = Expiry (WireDevice dev))%Z.

Lemma publish_status_spec noun a message item obs w :
  let dev := device (line_of w) in
  let w' := (publish_status noun a message (item_time item) obs w).2 in
  (0 <= so_now obs - item_time item <= max_int64)%Z -> (0 < Expiry (WireDevice dev) <= max_int64)%Z ->
  line_of w' = line_of w /\
  exists made r, out w' = (out w ++ made)%list /\ logged made = [r] /\
    if pastDrainDeadline (so_deadline obs) (so_later obs) || (Expiry (WireDevice dev) <=? so_now obs - item_time item)%Z
    then publishes made = []
    else exists p, publishes made = [p] /\ pub_payload p = encode message /\ status_publish_ok dev item obs p.
Proof.
  destruct w as [line n o]. cbv zeta. cbn [line_of]. intros Hage Hexp.
  assert (Hsub : Sub (so_now obs) (item_time item) = (so_now obs - item_time item)%Z).
  { unfold Sub, min_int64. unfold max_int64 in *. lia. }
  unfold publish_status, do_publish, log, bind, get_line, emit, ret, Marshal. cbn [line_of ids out]. rewrite Hsub.
  rewrite int64_id by (unfold in_int64, min_int64, max_int64 in *; lia).
  destruct (pastDrainDeadline _ _); cbn [orb line_of ids out snd].
  { split; [done|]. eexists _, _. by split_and!. }
  replace (Expiry (WireDevice (device line)) - (so_now obs - item_time item) <=? 0)%Z
    with (Expiry (WireDevice (device line)) <=? so_now obs - item_time item)%Z by lia.
  destruct (Expiry (WireDevice (device line)) <=? so_now obs - item_time item)%Z eqn:Hold; cbn [line_of ids out snd].
  { split; [done|]. eexists _, _. by split_and!. }
  destruct (so_answer obs) as [err|]; cbn [line_of ids out snd]; (split; [done|]);
    eexists _, _; (split; [by rewrite <-(assoc_L (++)%list)|]); (split; [reflexivity|]);
    eexists; (split; [reflexivity|]); (split; [reflexivity|]); (split_and!; [done|done|]);
    eexists; (split; [reflexivity|]); lia.
Qed.

Lemma buildEvent_spec opts event w :
  let '(m, w') := buildEvent opts event w in
  line_of w' = line_of w /\
  if has_message (EventItem event) then exists e, m = Some e /\ out w' = out w
  else m = None /\ exists r, out w' = (out w ++ [Log r])%list.
Proof.
  destruct w as [line n o]. unfold buildEvent, bind, get_line, draw, ret, log, emit. cbn [line_of ids out].
  destruct event as [id kind t class err reason bytes]. cbn [Kind].
  destruct kind; simpl; (split; [done|]); try (by eexists); (split; [done|by eexists]).
Qed.

Lemma drop_loop_spec fuel reason w :
  (length (held (status_queue (line_of w))) < fuel)%nat ->
  let w' := (drop_loop fuel reason w).2 in
  held (status_queue (line_of w')) = [] /\ exists made, out w' = (out w ++ made)%list /\ publishes made = [] /\
    map rec_attrs (logged made) =
      map (fun item => item_attrs item ++ [("reason", AttrString reason)])%list (held (status_queue (line_of w))).
Proof.
  revert w. induction fuel as [|fuel IH]; intros [line n o] Hfuel; [lia|].
  cbn [drop_loop]. unfold bind, pop_status. cbn [line_of ids out].
  unfold pop, held in *. cbn [line_of] in Hfuel. destruct (items (waiting (status_queue line))) as [|item l] eqn:Hitems.
  - cbn. rewrite Hitems. split; [done|]. exists []. by rewrite app_nil_r.
  - unfold log, emit. cbn [line_of ids out].
    match goal with |- context [drop_loop fuel reason ?w] => destruct (IH w) as (Hempty & made & Hout & Hpub & Hlog) end.
    { cbn in *. lia. }
    split; [exact Hempty|]. cbn [line_of out] in Hout. rewrite Hout, <-(assoc_L (++)%list).
    eexists. split; [done|]. split; [exact Hpub|]. cbn in Hlog |- *. f_equal. exact Hlog.
Qed.

(** What [publishFrames] leaves of its frames. *)
Lemma publishFrames_spec opts l w :
  let line := line_of w in
  (0 <= seq_ line)%Z -> (seq_ line + Z.of_nat (length l) < 2 ^ 64)%Z ->
  (0 <= RxFrames (counters line))%Z -> (RxFrames (counters line) + Z.of_nat (length l) < 2 ^ 64)%Z ->
  (0 <= PublishFailures (counters line))%Z -> (PublishFailures (counters line) + Z.of_nat (length l) < 2 ^ 64)%Z ->
  let w' := (publishFrames opts l w).2 in
  exists made, out w' = (out w ++ made)%list /\
    Forall2 (fun f r => reading_record opts f.1.1 f.1.2 f.2 r) (numbered (seq_ line + 1) l) (always_records made) /\
    publishes made = frames_publishes opts (device line) (ids w) (numbered (seq_ line + 1) l) /\
    seq_ (line_of w') = (seq_ line + Z.of_nat (length l))%Z /\
    RxFrames (counters (line_of w')) = (RxFrames (counters line) + Z.of_nat (length l))%Z /\
    PublishFailures (counters (line_of w')) = (PublishFailures (counters line) + failures l)%Z.
Proof.
  intros line H1 H2 H3 H4 H5 H6 w'. subst line w'. unfold publishFrames, bind.
  destruct (publish_loop_spec opts l 0 w H1 H2 H3 H4 H5 H6) as (made & Hout & Hrec & Hpub & Hdev & Hseq & Hrx & Hpf).
  destruct (publish_loop opts l 0 w) as [dropped w1]. cbn [snd] in *. unfold get_line, log, emit, ret.
  destruct (0 <? dropped)%Z; cbn [snd line_of out].
  - eexists (made ++ [_])%list. split; [rewrite (assoc_L (++)%list), <-Hout; reflexivity|].
    rewrite always_records_app, publishes_app.
    match goal with |- context [always_records [?o]] =>
      change (always_records [o]) with (@nil log_record); change (publishes [o]) with (@nil publish) end.
    rewrite !app_nil_r. by split_and!.
  - exists made. by split_and!.
Qed.

(** ** Properties *)

(** C11: every reading leaves a record and a number. Publishing frames gives
    each the next sequence number, in order and without a gap; each has exactly
    one record that no level filters, which says what became of it and carries
    its data unless the broker took it; the ones before the drain deadline are
    published, in order; and the keepalive's counters count each frame, and
    each that the broker did not take. *)
Theorem readings_accounted opts l w :
  let line := line_of w in
  (0 <= seq_ line)%Z -> (seq_ line + Z.of_nat (length l) < 2 ^ 64)%Z ->
  (0 <= RxFrames (counters line))%Z -> (RxFrames (counters line) + Z.of_nat (length l) < 2 ^ 64)%Z ->
  (0 <= PublishFailures (counters line))%Z -> (PublishFailures (counters line) + Z.of_nat (length l) < 2 ^ 64)%Z ->
  let w' := (publishFrames opts l w).2 in
  exists made, out w' = (out w ++ made)%list /\
    Forall2 (fun f r => reading_record opts f.1.1 f.1.2 f.2 r) (numbered (seq_ line + 1) l) (always_records made) /\
    publishes made = frames_publishes opts (device line) (ids w) (numbered (seq_ line + 1) l) /\
    seq_ (line_of w') = (seq_ line + Z.of_nat (length l))%Z /\
    RxFrames (counters (line_of w')) = (RxFrames (counters line) + Z.of_nat (length l))%Z /\
    PublishFailures (counters (line_of w')) = (PublishFailures (counters line) + failures l)%Z.
Proof. apply publishFrames_spec. Qed.

(** C17: what the reader reports is counted, and queued, whatever becomes of it.
    After any events, the keepalive's discards are the number of discards with
    each reason, its failed opens the number of failed opens of each class, a
    class without a counter being unknown, its bytes the sum of the reads, and no
    other counter has moved; the port is open when the last event of its state
    opened it, a writer that waits is signalled when one did, and the last failure
    a tx is told is the class and the text of the last loss or failed open; and
    the status queue holds what a queue of [EventBufferSize] holds after the
    events other than reads, with the classes the wire does not know as unknown. *)
Theorem events_counted opts limit events w :
  (0 < limit)%Z -> status_queue (line_of w) = newStatusQueue limit -> counters (line_of w) = zero_counters ->
  Forall (fun event => 0 <= EvBytes event)%Z events -> (count_read events < 2 ^ 64)%Z -> (Z.of_nat (length events) < 2 ^ 64)%Z ->
  let line := line_of (reports opts events w) in
  (exists h, queue_run limit (map Push (event_items events)) = Some h /\ status_queue line = now_held h) /\
  open line = open_after events (open (line_of w)) /\
  opened line = opened (line_of w) || opened_by events /\
  (failureClass line, failure line) = failure_after events (failureClass (line_of w), failure (line_of w)) /\
  RxBytes (counters line) = count_read events /\
  (forall reason, DiscardReason_Known reason = true -> discards_of (Discards (counters line)) reason = Some (count_discards reason events)) /\
  (forall class, ErrorClass_Known class = true -> failed_opens_of (FailedOpens (counters line)) class = Some (count_failed_opens class events)) /\
  (RxFrames (counters line), PublishFailures (counters line), TxWrittenCount (counters line), TxFailedCount (counters line), BufferDepth (counters line)) =
    (0, 0, 0, 0, 0)%Z.
Proof.
  intros Hlimit Hqueue Hzero Hbytes Hread Hlen.
  destruct (reports_ok opts limit events w Hlimit Hqueue Hzero Hbytes Hread Hlen) as (? & ? & ? & ?).
  destruct (reports_failures opts events w Hzero Hlen) as (? & ? & ? & ?). by split_and!.
Qed.

(** C18: a status message is never sent past its expiry, and always leaves a
    record. It is published, on the device's status topic, exactly when the
    drain deadline has not passed and the message is younger than the device's
    expiry, with what remains of it; and each message taken from the queue
    leaves exactly one record in the log. *)
Theorem status_expires opts item obs w :
  let dev := device (line_of w) in
  let w' := (publish_item opts item obs w).2 in
  (0 <= so_now obs - item_time item <= max_int64)%Z -> (0 < Expiry (WireDevice dev) <= max_int64)%Z ->
  exists made r, out w' = (out w ++ made)%list /\ logged made = [r] /\
    if pastDrainDeadline (so_deadline obs) (so_later obs) || (Expiry (WireDevice dev) <=? so_now obs - item_time item)%Z
       || negb (has_message item)
    then publishes made = []
    else exists p, publishes made = [p] /\ status_publish_ok dev item obs p.
Proof.
  intros dev w' Hage Hexp. subst dev w'. destruct item as [event|result at_]; cbn [publish_item].
  - unfold publishEvent, bind. pose proof (buildEvent_spec opts event w) as Hb.
    destruct (buildEvent opts event w) as [m w1]. destruct Hb as [Hline Hb]. rewrite <-Hline in *.
    destruct (has_message (EventItem event)); cbn [negb].
    + destruct Hb as (e & -> & Hout). rewrite <-Hout, orb_false_r.
      match goal with |- context [publish_status ?noun ?a ?m _ _ _] =>
        destruct (publish_status_spec noun a m (EventItem event) obs w1 Hage Hexp) as (_ & made & r & Hmade & Hlog & H) end.
      exists made, r. split; [done|]. split; [done|]. destruct (_ || _); [done|]. destruct H as (p & Hp & _ & Hok). eauto.
    + destruct Hb as (-> & r & Hout). rewrite orb_true_r. exists [Log r], r. by split_and!.
  - unfold publishTxResult. cbn [has_message negb]. rewrite orb_false_r.
    match goal with |- context [publish_status ?noun ?a ?m _ _ _] =>
      destruct (publish_status_spec noun a m (TxItem result at_) obs w Hage Hexp) as (_ & made & r & Hmade & Hlog & H) end.
    exists made, r. split; [done|]. split; [done|]. destruct (_ || _); [done|]. destruct H as (p & Hp & _ & Hok). eauto.
Qed.

(** ** Witnesses *)

Definition a_core_device : CoreDevice :=
  mkCoreDevice "scanner" "serial" "/dev/ttyACM0" true (mkDevice "scanner" "" (60 * Second)%Z)
    (mkDeviceTopics "skuhus/p/s/st/scanner/rx" "skuhus/p/s/st/scanner/tx" "skuhus/p/s/st/scanner/status") 3 Second 100 [].

Definition some_options : Options :=
  mkCoreOptions [a_core_device] a_builder "skuhus/p/s/st/agent/gw-01/status" (5 * Second)%Z 16 (10 * Second)%Z 2
    (60 * Second)%Z 3 unix_epoch false.

Definition a_pipeline : pipeline :=
  mkPipeline a_core_device [] (device_txRoutes a_core_device) (newStatusQueue 2) 0 false false "" "" zero_counters.

Definition a_world : world := mkWorld a_pipeline 0 [].

Lemma readings_accounted_witness :
  exists made,
    out (publishFrames some_options
      [(mkFrame "scanner" [x41] unix_epoch, mkFrameObs 0 unix_epoch None);
       (mkFrame "scanner" [x42] unix_epoch, mkFrameObs 0 unix_epoch (Some "timeout"))] a_world).2 = made /\
    length (always_records made) = 2%nat /\ length (publishes made) = 2%nat.
Proof.
  destruct (readings_accounted some_options
    [(mkFrame "scanner" [x41] unix_epoch, mkFrameObs 0 unix_epoch None);
     (mkFrame "scanner" [x42] unix_epoch, mkFrameObs 0 unix_epoch (Some "timeout"))] a_world)
    as (made & Hout & Hrec & Hpub & _); [first [reflexivity|vm_compute; discriminate]..|].
  exists made. split; [exact Hout|]. split; [by rewrite <-(Forall2_length _ _ _ Hrec)|by rewrite Hpub].
Defined.

Definition a_discard : Device.Event := mkPortEvent "scanner" BytesDiscarded unix_epoch "" None DiscardOversize 70.
Definition an_open : Device.Event := mkPortEvent "scanner" PortOpened unix_epoch "" None "" 0.
Definition a_read : Device.Event := mkPortEvent "scanner" BytesRead unix_epoch "" None "" 12.

Definition a_failed_open : Device.Event := mkPortEvent "scanner" PortOpenFailed unix_epoch "stolen" (Some (Errno ENOENT)) "" 0.

Lemma events_counted_witness :
  let line := line_of (reports some_options [a_failed_open; an_open; a_read; a_discard; a_discard] a_world) in
  open line = true /\ opened line = true /\ RxBytes (counters line) = 12%Z /\ discards_of (Discards (counters line)) DiscardOversize = Some 2%Z /\
  failed_opens_of (FailedOpens (counters line)) ErrorUnknown = Some 1%Z /\ failureClass line = ErrorUnknown /\ failure line <> "".
Proof.
  destruct (events_counted some_options 2 [a_failed_open; an_open; a_read; a_discard; a_discard] a_world) as (_ & Ho & Hs & Hf & Hb & Hd & Hc & _);
    [lia|reflexivity|reflexivity|repeat constructor; cbn; lia|reflexivity|reflexivity|].
  cbv zeta. rewrite Ho, Hb, Hs, (Hd DiscardOversize eq_refl), (Hc ErrorUnknown eq_refl). apply pair_equal_spec in Hf as [-> ->].
  split_and!; try reflexivity. discriminate.
Defined.

Lemma status_expires_witness :
  exists made r,
    out (publish_item some_options (EventItem an_open) (mkStatusObs (unix_epoch + 20 * Second)%Z 0 0 None) a_world).2 = made /\
    logged made = [r] /\ map pub_expiry (publishes made) = [Some (40 * Second)%Z].
Proof.
  destruct (status_expires some_options (EventItem an_open) (mkStatusObs (unix_epoch + 20 * Second)%Z 0 0 None) a_world)
    as (made & r & Hout & Hlog & p & Hp & _ & _ & remaining & Hexp & _ & Hsum); [vm_compute; split; discriminate|vm_compute; split; [reflexivity|discriminate]|].
  exists made, r. split; [exact Hout|]. split; [exact Hlog|]. rewrite Hp. cbn [map]. rewrite Hexp. do 2 f_equal.
  change (remaining + (unix_epoch + 20 * Second - unix_epoch) = 60 * Second)%Z in Hsum. unfold Second in *. lia.
Defined.
