(* ===== verification/Tx.v ===== *)
(** * Writing to a device: internal/core/tx.go

    A tx from its arrival to its result: the jobs, the ids that were written,
    the admission of a tx for a device, and the writer with its attempts. The
    goroutines that share this state are interleaved in TxSystem.v. *)
From S2P Require Import Prelude GoLib Topics Wire Json ReadTx Encode Logging Queue Device Pipeline.
#[local] Open Scope string_scope.

Record TxMessage := mkTxMessage {
  msg_Topic : string; msg_Payload : bytes; msg_Expiry : duration; msg_HasExpiry : bool; msg_Received : time;
}.

(** Outcomes of a tx in its log records. *)
Definition txOutcomeAccepted := "accepted".
Definition txOutcomeWritten := "written".
Definition txOutcomeFailed := "failed".
Definition txOutcomeRejected := "rejected".
Definition txOutcomeAlreadyWritten := "already_written".
Definition txOutcomeNotTaken := "not_taken".

(** ** Jobs *)

Record txJob := mkJob {
  job_ref : TxRef; job_data : bytes; job_received : time; job_deadline : time;
  job_stage : TxStage; job_since : time; job_written : Z;
}.

Definition setStage (stage : TxStage) (at_ : time) (job : txJob) : txJob :=
  if bool_decide (job_stage job = stage) then job
  else mkJob (job_ref job) (job_data job) (job_received job) (job_deadline job) stage at_ (job_written job).

Definition progress (written : Z) (job : txJob) : txJob :=
  mkJob (job_ref job) (job_data job) (job_received job) (job_deadline job) (job_stage job) (job_since job) written.

Definition standing (job : txJob) : TxStage * time * Z := (job_stage job, job_since job, job_written job).

Definition expired (job : txJob) (now : time) : bool := negb (IsZero (job_deadline job)) && negb (Before now (job_deadline job)).

(** The job [admitTxTo] makes. *)
Definition newJob (ref : TxRef) (data : bytes) (message : TxMessage) (now : time) : txJob :=
  mkJob ref data (msg_Received message) (if msg_HasExpiry message then Add (msg_Received message) (msg_Expiry message) else 0%Z)
    TxQueued now 0.

(** ** The ids that were written *)

Record writtenIDs := mkWrittenIDs { limit : Z; written_at : gmap string time; order : list string }.

Definition newWrittenIDs (limit : Z) : writtenIDs := mkWrittenIDs limit ∅ [].

(** [None] is the panic of the first of no ids. *)
Definition remember (ids : writtenIDs) (id : string) (at_ : time) : option writtenIDs :=
  match written_at ids !! id with
  | Some _ => Some (mkWrittenIDs (limit ids) (<[id := at_]> (written_at ids)) (order ids))
  | None =>
    if (limit ids <=? Z.of_nat (length (order ids)))%Z then
      match order ids with
      | [] => None
      | oldest :: newer =>
        Some (mkWrittenIDs (limit ids) (<[id := at_]> (delete oldest (written_at ids))) (newer ++ [id])%list)
      end
    else Some (mkWrittenIDs (limit ids) (<[id := at_]> (written_at ids)) (order ids ++ [id])%list)
  end.

Definition lookup_id (ids : writtenIDs) (id : string) : option time := written_at ids !! id.

(** What holds of the ids a device remembers. *)
Record ids_ok (ids : writtenIDs) : Prop := {
  ids_limit : (1 <= limit ids)%Z;
  ids_bound : (Z.of_nat (length (order ids)) <= limit ids)%Z;
  ids_nodup : NoDup (order ids);
  ids_dom : forall id, is_Some (written_at ids !! id) <-> id ∈ order ids;
}.

Lemma newWrittenIDs_ok limit : (1 <= limit)%Z -> ids_ok (newWrittenIDs limit).
Proof.
  intros Hl. split; [done|cbn; lia|constructor|]. intros id. cbn. rewrite lookup_empty. split; [by intros []|set_solver].
Qed.

(** An id that is new joins the window at its end; one that is known keeps its
    place. *)
Lemma remember_ok ids id at_ :
  ids_ok ids ->
  exists ids', remember ids id at_ = Some ids' /\ ids_ok ids' /\ limit ids' = limit ids /\ lookup_id ids' id = Some at_ /\
    order ids' = (if bool_decide (id ∈ order ids) then order ids else lastn (Z.to_nat (limit ids)) (order ids ++ [id])%list) /\
    (forall id', id' <> id -> id' ∈ order ids' -> lookup_id ids' id' = lookup_id ids id').
Proof.
  intros [Hl Hb Hnd Hdom]. unfold remember, lookup_id.
  destruct (written_at ids !! id) as [t|] eqn:Hid.
  { assert (Hin : id ∈ order ids) by (apply Hdom; eauto). rewrite bool_decide_eq_true_2 by done.
    eexists. split; [done|]. cbn. split_and!; try done; [|apply lookup_insert_eq|by intros; rewrite lookup_insert_ne].
    split; cbn; try done. intros id'. rewrite lookup_insert_is_Some', Hdom. naive_solver. }
  assert (Hnot : id ∉ order ids) by (intros Hin%Hdom; rewrite Hid in Hin; by destruct Hin).
  rewrite bool_decide_eq_false_2 by done.
  assert (Hnd' : NoDup (order ids ++ [id])%list).
  { apply NoDup_app. split_and!; [done|set_solver|by apply NoDup_singleton]. }
  destruct (limit ids <=? Z.of_nat (length (order ids)))%Z eqn:Hfull.
  - destruct (order ids) as [|oldest newer] eqn:Ho; [cbn in *; lia|].
    assert (Hlast : lastn (Z.to_nat (limit ids)) ((oldest :: newer) ++ [id])%list = (newer ++ [id])%list).
    { unfold lastn. rewrite length_app. cbn [length app] in *. by replace (_ - _) with 1 by lia. }
    rewrite Hlast. cbn [app] in Hnd'. apply NoDup_cons in Hnd' as [Hold Hnd'].
    eexists. split; [done|]. cbn. split_and!; try done; [|apply lookup_insert_eq|].
    + split; cbn; try done; [rewrite length_app; cbn in *; lia|]. intros id'.
      rewrite lookup_insert_is_Some'. destruct (decide (id' = oldest)) as [->|Hne].
      * rewrite lookup_delete_eq. split; [intros [->|[? ?]]; [set_solver|done]|]. intros Hin. by destruct Hold.
      * rewrite lookup_delete_ne, Hdom by done. set_solver.
    + intros id' Hne Hin. rewrite lookup_insert_ne by done. apply lookup_delete_ne. intros <-. by apply Hold.
  - rewrite lastn_all by (rewrite length_app; cbn; lia). eexists. split; [done|]. cbn.
    split_and!; try done; [|apply lookup_insert_eq|by intros; rewrite lookup_insert_ne].
    split; cbn; try done; [rewrite length_app; cbn; lia|]. intros id'. rewrite lookup_insert_is_Some', Hdom. set_solver.
Qed.

(** ** Recording a result *)

#[local] Open Scope core_scope.

(** A device's tx: [txActive] points at the jobs, which the queue and the writer
    share. [jobs] is the store: a pointer is a job's place in it. *)
Record tx_world := mkTxWorld {
  base : world; txActive : gmap string nat; written_ids : writtenIDs; tx_queue : waitingQueue nat; jobs : list txJob;
}.

Section Tx.
Context (opts : Options) (uuid_parse : string -> bool).
(** The text of a tx's problem, which quotes names and the errors of
    encoding/json and encoding/base64. *)
Context (problem_text : tx_reason -> string).

Definition payloadIfLogged (data : bytes) : attrs := if LogPayloads opts then Payload data else [].

Definition recordTxResult (result : TxResult) (at_ : time) (extra : attrs) : core_m unit :=
  let '(outcome, level, message, counted) :=
    if bool_decide (txr_Code result = TxCodeAlreadyWritten) then (txOutcomeAlreadyWritten, LevelInfo, "tx already written", None)
    else match txr_State result with
         | TxWrittenState => (txOutcomeWritten, LevelInfo, "tx written", Some true)
         | TxFailedState => (txOutcomeFailed, LevelError, "tx failed", Some false)
         | TxRejectedState => (txOutcomeRejected, LevelWarn, "tx rejected", None)
         | TxAcceptedState => (txOutcomeAccepted, LevelInfo, "tx accepted", None)
         end in
  (match counted with Some written => modify (countTx written) | None => ret tt end);;
  log (Record_ level message
    ([("tx_id", AttrString (stringOrEmpty (txr_TxID result))); ("sender", AttrString (stringOrEmpty (txr_Sender result)));
      ("device_id", AttrString (dh_DeviceID (txr_device result))); ("code", AttrString (TxCode_text (txr_Code result)));
      ("text", AttrString (txr_Text result)); ("outcome", AttrString outcome)] ++ extra)%list);;
  let! _ := push_status (TxItem result at_) in
  ret tt.

(** ** Admission *)

(** What [admitTxTo] finds a tx to be, under the locks. *)
Inductive admission :=
  | AdmitProblem (ref : TxRef) (problem : TxProblem)
  | AdmitInProgress (ref : TxRef) (earlier : nat)
  | AdmitAlreadyWritten (ref : TxRef) (writtenAt : time) (data : bytes)
  | AdmitStopping (ref : TxRef) (data : bytes)
  | AdmitClaimed (job : nat) (ref : TxRef) (data : bytes).

(** [admitTxTo] up to the release of [txMu]: a tx that is to be queued becomes
    a job in [txActive], and [intakeMu] stays held. [stopping] is what it
    reads there. *)
Definition admit_claim (message : TxMessage) (now : time) (stopping : bool) (w : tx_world) : admission * tx_world :=
  match ReadTx uuid_parse (msg_Payload message) with
  | (ref, _, Some problem) => (AdmitProblem ref problem, w)
  | (ref, data, None) =>
    match txActive w !! ref_ID ref with
    | Some earlier => (AdmitInProgress ref earlier, w)
    | None =>
      match lookup_id (written_ids w) (ref_ID ref) with
      | Some writtenAt => (AdmitAlreadyWritten ref writtenAt data, w)
      | None =>
        if stopping then (AdmitStopping ref data, w)
        else
          let job := length (jobs w) in
          (AdmitClaimed job ref data,
           mkTxWorld (base w) (<[ref_ID ref := job]> (txActive w)) (written_ids w) (tx_queue w)
             (jobs w ++ [newJob ref data message now])%list)
      end
    end
  end.

(** The result of an admission, its time and its attributes, [jobs] being where
    the earlier job stands when it is asked. *)
Definition admission_result (message : TxMessage) (now : time) (adm : admission) (line : pipeline) (store : list txJob) :
    drawing TxResult * attrs :=
  let dev := WireDevice (device line) in
  let b := builder opts in
  let topicAttrs := [("topic", AttrString (msg_Topic message))] in
  match adm with
  | AdmitProblem ref problem =>
    (match problem_Code problem with
     | TxCodeInvalidID => build_TxInvalidID b dev (isOpen line) ref now
     | _ => build_TxInvalidMessage b dev (isOpen line) ref (problem_text (problem_Reason problem)) now
     end,
     topicAttrs ++ [("error", AttrString (problem_text (problem_Reason problem)))] ++ Payload (msg_Payload message))%list
  | AdmitInProgress ref earlier =>
    let '(stage, since, written) := match store !! earlier with Some job => standing job | None => (TxQueued, 0%Z, 0%Z) end in
    (build_TxInProgress b dev (isOpen line) ref stage since written now, topicAttrs)
  | AdmitAlreadyWritten ref writtenAt data =>
    (build_TxAlreadyWritten b dev (isOpen line) ref writtenAt now,
     topicAttrs ++ [("written_at", AttrString (format_time writtenAt))] ++ Payload data)%list
  | AdmitStopping ref data =>
    (build_TxAgentStopping b dev (isOpen line) ref 0 now, topicAttrs ++ [("bytes_written", AttrInt 0)] ++ Payload data)%list
  | AdmitClaimed _ ref data =>
    (build_TxAccepted b dev (isOpen line) ref now,
     topicAttrs ++ [("bytes", AttrInt (Z.of_nat (length data)));
       ("message_expiry", if msg_HasExpiry message then AttrDuration (msg_Expiry message) else AttrString "none")] ++
     payloadIfLogged data)%list
  end.

Definition with_base (b : world) (w : tx_world) : tx_world := mkTxWorld b (txActive w) (written_ids w) (tx_queue w) (jobs w).
Definition with_jobs (l : list txJob) (w : tx_world) : tx_world := mkTxWorld (base w) (txActive w) (written_ids w) (tx_queue w) l.
Definition with_queue (q : waitingQueue nat) (w : tx_world) : tx_world := mkTxWorld (base w) (txActive w) (written_ids w) q (jobs w).

(** The record of an admission's result; the result is returned. *)
Definition admit_record (message : TxMessage) (now : time) (adm : admission) (w : tx_world) : TxResult * tx_world :=
  let (make, extra) := admission_result message now adm (line_of (base w)) (jobs w) in
  let (result, b) := (let! result := draw make in recordTxResult result now extra;; ret result) (base w) in
  (result, with_base b w).

(** The push of an accepted job, after which [intakeMu] is released. *)
Definition admit_push (adm : admission) (w : tx_world) : tx_world :=
  match adm with
  | AdmitClaimed job _ _ => with_queue (push (tx_queue w) job) w
  | _ => w
  end.

(** [admitTxTo], when nothing else runs. *)
Definition admitTxTo (message : TxMessage) (now : time) (stopping : bool) (w : tx_world) : tx_world :=
  let (adm, w) := admit_claim message now stopping w in
  admit_push adm (admit_record message now adm w).2.

(** ** The writer *)

(** How a tx ends. *)
Inductive verdict :=
  | VStopping (written : Z)
  | VExpired
  | VNotWritable
  | VWritten (written : Z)
  | VUnavailable (class : ErrorClass) (text : string)
  | VWriteFailed (class : ErrorClass) (text : string) (written : Z).

Definition verdict_result (dev : Wire.Device) (open : bool) (ref : TxRef) (attempts : Z) (v : verdict) (now : time) : drawing TxResult :=
  let b := builder opts in
  match v with
  | VStopping written => build_TxAgentStopping b dev open ref written now
  | VExpired => build_TxExpired b dev open ref attempts now
  | VNotWritable => build_TxPortUnavailable b dev open ref ErrorUnknown "this device cannot be written" attempts now
  | VWritten written => build_TxWritten b dev open ref written attempts now
  | VUnavailable class text => build_TxPortUnavailable b dev open ref class text attempts now
  | VWriteFailed class text written => build_TxWriteFailed b dev open ref class text written attempts now
  end.

Definition verdict_attrs (data : bytes) (attempts : Z) (v : verdict) (took : duration) : attrs :=
  let n written := ("bytes_written", AttrInt written) in
  let a := ("open_attempts", AttrInt attempts) in
  match v with
  | VStopping written => n written :: a :: Payload data
  | VExpired => a :: Payload data
  | VNotWritable => Payload data
  | VWritten written => n written :: a :: ("took", AttrDuration took) :: payloadIfLogged data
  | VUnavailable _ _ => a :: Payload data
  | VWriteFailed _ _ written => n written :: a :: Payload data
  end.

(** The checks at the head of [writeTx]'s loop: [None] is that the write goes
    ahead. *)
Definition write_check (writable : bool) (job : txJob) (now : time) (stopping : bool) : option verdict :=
  if stopping then Some (VStopping 0)
  else if expired job now then Some VExpired
  else if negb writable then Some VNotWritable
  else None.

Definition writeFailureClass (err : error) : ErrorClass * string :=
  match as_port_error err with
  | Some class => (class, Error err)
  | None => (ErrorUnknown, Error err)
  end.

(** What comes of a write: [None] is that the reader is asked to open the port
    and the loop goes on. [ctx] is [writeCtx.Err()], and [last] is
    [lastFailure]. *)
Definition write_verdict (openAttempts attempts : Z) (written : Z) (err : option error) (ctx : option context_error)
    (last : ErrorClass * string) : option verdict :=
  match err with
  | None => Some (VWritten written)
  | Some err =>
    if is_ErrNotOpen err && (written =? 0)%Z then
      if (openAttempts <=? attempts)%Z then Some (VUnavailable last.1 last.2) else None
    else if match ctx with Some c => is_context c err | None => false end then Some (VStopping written)
    else
      let (class, text) := if is_ErrNotOpen err then last else writeFailureClass err in
      Some (VWriteFailed class text written)
  end.

(** How long [awaitPort] waits for the port at most. *)
Definition awaitPort_wait (interval : duration) (job : txJob) (now : time) : duration :=
  if IsZero (job_deadline job) then interval else Z.min interval (Z.max (Sub (job_deadline job) now) 0).

(** What [writeTx] observes of one turn of its loop. *)
Record try_obs := mkTry {
  o_now : time; o_stopping : bool; o_write : Z * option error; o_later : time; o_ctx : option context_error;
  o_failure : ErrorClass * string;
}.

(** [writeTx]'s loop, the [n]th turn first: the verdict, the attempts, when it
    was reached, and the writes made, each with its count and error. *)
Fixpoint write_loop (fuel : nat) (openAttempts : Z) (writable : bool) (job : txJob) (obs : nat -> try_obs) (n : nat) (attempts : Z) :
    option (verdict * Z * time * list (Z * option error)) :=
  match fuel with
  | O => None
  | S fuel' =>
    let o := obs n in
    match write_check writable job (o_now o) (o_stopping o) with
    | Some v => Some (v, attempts, o_now o, [])
    | None =>
      let (written, err) := o_write o in
      match write_verdict openAttempts attempts written err (o_ctx o) (o_failure o) with
      | Some v => Some (v, attempts, o_later o, [(written, err)])
      | None =>
        '(v, attempts', at_, writes) ← write_loop fuel' openAttempts writable job obs (S n) (attempts + 1)%Z;
        Some (v, attempts', at_, (written, err) :: writes)
      end
    end
  end.

(** Each turn but the last spends one of the device's attempts. *)
Definition writeTx (dev : CoreDevice) (job : txJob) (obs : nat -> try_obs) : option (verdict * Z * time * list (Z * option error)) :=
  write_loop (S (Z.to_nat (TxOpenAttempts dev))) (TxOpenAttempts dev) (writable dev) job obs 0 0.

(** What [writeTx] returns to [writeTxs]: when the tx was written, if it was. *)
Definition verdict_written (v : verdict) (at_ : time) : option time := match v with VWritten _ => Some at_ | _ => None end.

(** What [writeTxs] does under [txMu] when a job is done. *)
Definition write_done (job : txJob) (written : option time) (w : tx_world) : tx_world :=
  let ids := match written with
             | Some at_ => default (written_ids w) (remember (written_ids w) (ref_ID (job_ref job)) at_)
             | None => written_ids w
             end in
  mkTxWorld (base w) (delete (ref_ID (job_ref job)) (txActive w)) ids (tx_queue w) (jobs w).
End Tx.

(** ** The attempts of a write *)

Section WriteLoop.
Context (openAttempts : Z) (writable : bool) (job : txJob) (obs : nat -> try_obs).

(** A write that found the port closed. *)
Definition not_open (write : Z * option error) : Prop := write.1 = 0%Z /\ exists err, write.2 = Some err /\ is_ErrNotOpen err = true.

(** The turn may write: the agent was not stopping and the tx had not expired. *)
Definition may_write (n : nat) : Prop := o_stopping (obs n) = false /\ expired job (o_now (obs n)) = false /\ writable = true.

Lemma write_check_None now stopping :
  write_check writable job now stopping = None -> stopping = false /\ expired job now = false /\ writable = true.
Proof. unfold write_check. by destruct stopping, (expired job now), writable. Qed.

(** How a loop ended: at its checks, or with the verdict on its last write. *)
Definition ended (n : nat) (attempts : Z) (v : verdict) (at_ : time) (last : list (Z * option error)) : Prop :=
  (last = [] /\ write_check writable job (o_now (obs n)) (o_stopping (obs n)) = Some v /\ at_ = o_now (obs n)) \/
  (last = [o_write (obs n)] /\ at_ = o_later (obs n) /\ may_write n /\
   write_verdict openAttempts attempts (o_write (obs n)).1 (o_write (obs n)).2 (o_ctx (obs n)) (o_failure (obs n)) = Some v).

Lemma writeTx_spec fuel n attempts :
  (0 <= attempts <= openAttempts)%Z -> (openAttempts - attempts < Z.of_nat fuel)%Z ->
  exists v attempts' at_ retries last,
    write_loop fuel openAttempts writable job obs n attempts = Some (v, attempts', at_, retries ++ last)%list /\
    Forall not_open retries /\ (attempts' = attempts + Z.of_nat (length retries))%Z /\ (attempts' <= openAttempts)%Z /\
    (forall i, i < length retries -> may_write (n + i)) /\
    ended (n + length retries) attempts' v at_ last /\
    retries = map (fun i => o_write (obs i)) (seq n (length retries)).
Proof.
  revert n attempts. induction fuel as [|fuel IH]; intros n attempts Hatt Hfuel; [lia|]. cbn [write_loop].
  destruct (write_check _ _ _ _) as [v|] eqn:Hcheck.
  { exists v, attempts, (o_now (obs n)), [], []. cbn. rewrite Nat.add_0_r. split_and!; try done; try lia. by left. }
  pose proof (write_check_None _ _ Hcheck) as Hmay. destruct (o_write (obs n)) as [written err] eqn:Hw.
  destruct (write_verdict _ _ _ _ _ _) as [v|] eqn:Hv.
  { exists v, attempts, (o_later (obs n)), [], [(written, err)]. cbn. rewrite Nat.add_0_r. split_and!; try done; try lia.
    right. rewrite Hw. by split_and!. }
  assert (Hretry : not_open (written, err) /\ (attempts < openAttempts)%Z).
  { unfold write_verdict in Hv. destruct err as [err|]; [|done].
    destruct (is_ErrNotOpen err && (written =? 0)%Z) eqn:Hno.
    - destruct (openAttempts <=? attempts)%Z eqn:?; [done|]. apply andb_true_iff in Hno as [? ?].
      split; [split; [cbn; lia|by exists err]|lia].
    - destruct (match o_ctx (obs n) with Some c => is_context c err | None => false end); [done|].
      by destruct (if is_ErrNotOpen err then _ else _). }
  destruct Hretry as [Hretry Hlt].
  destruct (IH (S n) (attempts + 1)%Z) as (v & attempts' & at_ & retries & last & -> & Hall & Hcount & Hle & Hmays & Hend & Hseq); [lia..|].
  exists v, attempts', at_, ((written, err) :: retries), last. cbn [mbind option_bind app length].
  split_and!; try done; try lia; [by constructor| |by rewrite Nat.add_succ_r|cbn [seq map]; rewrite Hw; by f_equal].
  intros [|i] Hi; [by rewrite Nat.add_0_r|]. rewrite Nat.add_succ_r. apply Hmays. lia.
Qed.
End WriteLoop.

(** ** Recording *)

Lemma recordTxResult_spec result at_ extra w :
  let '(_, w') := recordTxResult result at_ extra w in
  ids w' = ids w /\ device (line_of w') = device (line_of w) /\ open (line_of w') = open (line_of w) /\
  (exists r, out w' = (out w ++ [Log r])%list /\ rec_always r = true) /\
  status_queue (line_of w') =
    match statusQueue_push (status_queue (line_of w)) (TxItem result at_) with Some (q, _) => q | None => status_queue (line_of w) end /\
  TxWrittenCount (counters (line_of w')) =
    (if bool_decide (txr_Code result = TxCodeAlreadyWritten) then TxWrittenCount (counters (line_of w))
     else if bool_decide (txr_State result = TxWrittenState) then uint64 (TxWrittenCount (counters (line_of w)) + 1)
     else TxWrittenCount (counters (line_of w))) /\
  TxFailedCount (counters (line_of w')) =
    (if bool_decide (txr_Code result = TxCodeAlreadyWritten) then TxFailedCount (counters (line_of w))
     else if bool_decide (txr_State result = TxFailedState) then uint64 (TxFailedCount (counters (line_of w)) + 1)
     else TxFailedCount (counters (line_of w))).
Proof.
  destruct w as [line n o]. unfold recordTxResult, log, bind, modify, emit, push_status, ret.
  repeat case_bool_decide; destruct (txr_State result) eqn:Hs; try done; cbn [line_of ids out];
    destruct (statusQueue_push _ _) as [[q d]|] eqn:Hp; cbn in Hp |- *; rewrite ?Hp; split_and!; try done; by eexists.
Qed.

(** ** What an admission answers *)

Definition admission_code (adm : admission) : TxCode :=
  match adm with
  | AdmitProblem _ problem => match problem_Code problem with TxCodeInvalidID => TxCodeInvalidID | _ => TxCodeInvalidMessage end
  | AdmitInProgress _ _ => TxCodeInProgress
  | AdmitAlreadyWritten _ _ _ => TxCodeAlreadyWritten
  | AdmitStopping _ _ => TxCodeAgentStopping
  | AdmitClaimed _ _ _ => TxCodeAccepted
  end.

Definition admission_ref (adm : admission) : TxRef :=
  match adm with
  | AdmitProblem ref _ | AdmitInProgress ref _ | AdmitAlreadyWritten ref _ _ | AdmitStopping ref _ | AdmitClaimed _ ref _ => ref
  end.

Definition admission_job (adm : admission) : option nat := match adm with AdmitClaimed job _ _ => Some job | _ => None end.

(** A result's code and references, which its builder gives it. *)
Lemma admission_result_spec opts problem_text message now adm line store n :
  let result := ((admission_result opts problem_text message now adm line store).1 n).1 in
  txr_Code result = admission_code adm /\ txr_State result = txCodeStates (admission_code adm) /\
  txr_TxID result = nilIfEmpty (ref_ID (admission_ref adm)) /\ txr_Sender result = nilIfEmpty (ref_Sender (admission_ref adm)) /\
  ((admission_result opts problem_text message now adm line store).1 n).2 = S n.
Proof.
  destruct adm as [ref problem|ref earlier|ref at_ data|ref data|job ref data]; try done.
  - cbn. by destruct (problem_Code problem).
  - cbn. by destruct (store !! earlier) as [job|]; [destruct (standing job) as [[stage since] written]|].
Qed.

Definition verdict_code (v : verdict) : TxCode :=
  match v with
  | VStopping _ => TxCodeAgentStopping
  | VExpired => TxCodeExpired
  | VNotWritable | VUnavailable _ _ => TxCodePortUnavailable
  | VWritten _ => TxCodeWritten
  | VWriteFailed _ _ _ => TxCodeWriteFailed
  end.

Lemma verdict_result_spec opts dev open ref attempts v now n :
  let result := (verdict_result opts dev open ref attempts v now n).1 in
  txr_Code result = verdict_code v /\ txr_State result = txCodeStates (verdict_code v) /\
  txr_TxID result = nilIfEmpty (ref_ID ref) /\ txr_Sender result = nilIfEmpty (ref_Sender ref).
Proof. by destruct v. Qed.

(** What a tx is found to be, from the payload and the state alone. *)
Lemma admit_claim_spec uuid_parse message now stopping w :
  let '(adm, w') := admit_claim uuid_parse message now stopping w in
  base w' = base w /\ written_ids w' = written_ids w /\ tx_queue w' = tx_queue w /\
  match adm with
  | AdmitClaimed job ref data =>
    ReadTx uuid_parse (msg_Payload message) = (ref, data, None) /\ txActive w !! ref_ID ref = None /\
    lookup_id (written_ids w) (ref_ID ref) = None /\ stopping = false /\ job = length (jobs w) /\
    txActive w' = <[ref_ID ref := job]> (txActive w) /\ jobs w' = (jobs w ++ [newJob ref data message now])%list
  | AdmitInProgress ref earlier => txActive w !! ref_ID ref = Some earlier /\ w' = w
  | AdmitAlreadyWritten ref at_ _ => lookup_id (written_ids w) (ref_ID ref) = Some at_ /\ w' = w
  | AdmitStopping ref data => stopping = true /\ w' = w
  | AdmitProblem ref problem => (exists data, ReadTx uuid_parse (msg_Payload message) = (ref, data, Some problem)) /\ w' = w
  end.
Proof.
  unfold admit_claim. destruct (ReadTx uuid_parse (msg_Payload message)) as [[ref data] [problem|]]; [by eauto 10|].
  destruct (txActive w !! ref_ID ref) as [earlier|] eqn:Hactive; [by eauto|].
  destruct (lookup_id (written_ids w) (ref_ID ref)) as [at_|] eqn:Hid; [by eauto|].
  destruct stopping; [by eauto|]. cbn. by split_and!.
Qed.

(** ** Properties *)

(** C12: a tx is written at most [1 + tx_open_attempts] times, and tried again
    only while nothing of it was written. The writer always reaches a verdict;
    every write but the last found the port closed and wrote nothing; each is
    made while the agent was not stopping and the tx had not expired; and the
    tx is reported written exactly when the last write had no error. *)
Theorem write_attempts dev job obs :
  (0 <= TxOpenAttempts dev)%Z ->
  exists v attempts at_ retries last,
    writeTx dev job obs = Some (v, attempts, at_, retries ++ last)%list /\
    Forall not_open retries /\ attempts = Z.of_nat (length retries) /\ (attempts <= TxOpenAttempts dev)%Z /\
    (length last <= 1)%nat /\
    (forall i, i < length (retries ++ last) -> may_write (writable dev) job obs i) /\
    (forall n, v = VWritten n <-> last = [(n, None)]) /\
    (forall class text, v = VUnavailable class text -> attempts = TxOpenAttempts dev /\ Forall not_open last).
Proof.
  intros Hatt.
  destruct (writeTx_spec (TxOpenAttempts dev) (writable dev) job obs (S (Z.to_nat (TxOpenAttempts dev))) 0 0)
    as (v & attempts & at_ & retries & last & Hrun & Hall & Hcount & Hle & Hmay & Hend & _); [lia..|].
  exists v, attempts, at_, retries, last. cbn in Hcount, Hmay, Hend. split; [exact Hrun|].
  assert (Hlast : (length last <= 1)%nat) by (destruct Hend as [[-> _]|[-> _]]; cbn; lia).
  split_and!; try done; try lia.
  - intros i Hi. rewrite length_app in Hi. destruct (decide (i < length retries)) as [?|Hge]; [by apply Hmay|].
    destruct Hend as [[-> _]|(-> & _ & Hok & _)]; [cbn in Hi; lia|]. cbn in Hi.
    by replace i with (length retries) by lia.
  - intros n. destruct Hend as [(-> & Hcheck & _)|(-> & _ & _ & Hv)].
    + unfold write_check in Hcheck. split; [intros ->|done]. by repeat case_match.
    + unfold write_verdict in Hv. destruct (o_write _) as [written [err|]]; cbn [fst snd] in Hv.
      * split; [intros ->|done]. destruct (is_ErrNotOpen err && _); [by destruct (_ <=? _)%Z|].
        destruct (match o_ctx _ with Some c => _ | None => _ end); [done|]. by destruct (if is_ErrNotOpen err then _ else _).
      * injection Hv as <-. by split; intros [= ->].
  - intros class text ->. destruct Hend as [(-> & Hcheck & _)|(-> & _ & _ & Hv)].
    + unfold write_check in Hcheck. by repeat case_match.
    + unfold write_verdict in Hv. destruct (o_write _) as [written [err|]] eqn:Hw; cbn [fst snd] in Hv; [|done].
      destruct (is_ErrNotOpen err && (written =? 0)%Z) eqn:Hno.
      * destruct (TxOpenAttempts dev <=? attempts)%Z eqn:?; [|done]. apply andb_true_iff in Hno as [? ?].
        split; [lia|]. constructor; [|constructor]. split; [cbn; lia|by exists err].
      * destruct (match o_ctx _ with Some c => _ | None => _ end); [done|]. by destruct (if is_ErrNotOpen err then _ else _).
Qed.

(** What an admission leaves: one result for the sender, one record, and the
    job in the queue when it is accepted. *)
Lemma admitTxTo_spec opts uuid_parse problem_text message now stopping w :
  let (adm, w1) := admit_claim uuid_parse message now stopping w in
  let w' := admitTxTo opts uuid_parse problem_text message now stopping w in
  let status w := status_queue (line_of (base w)) in
  (exists result,
    held (status w') = (held (status w) ++ [TxItem result now])%list /\
    txr_Code result = admission_code adm /\ txr_TxID result = nilIfEmpty (ref_ID (admission_ref adm)) /\
    txr_Sender result = nilIfEmpty (ref_Sender (admission_ref adm)) /\
    result = ((admission_result opts problem_text message now adm (line_of (base w)) (jobs w1)).1 (ids (base w))).1) /\
  (exists r, out (base w') = (out (base w) ++ [Log r])%list /\ rec_always r = true) /\
  items (tx_queue w') = (items (tx_queue w) ++ option_list (admission_job adm))%list /\
  written_ids w' = written_ids w /\
  txActive w' = txActive w1 /\ jobs w' = jobs w1 /\ (tx_queue w' = match admission_job adm with Some job => push (tx_queue w) job | None => tx_queue w end) /\
  ids (base w') = S (ids (base w)) /\ device (line_of (base w')) = device (line_of (base w)).
Proof.
  pose proof (admit_claim_spec uuid_parse message now stopping w) as Hclaim. unfold admitTxTo.
  destruct (admit_claim uuid_parse message now stopping w) as [adm w1].
  destruct Hclaim as (Hbase & Hids & Hqueue & _). unfold admit_record. rewrite Hbase.
  pose proof (admission_result_spec opts problem_text message now adm (line_of (base w)) (jobs w1) (ids (base w))) as Hres.
  destruct (admission_result opts problem_text message now adm (line_of (base w)) (jobs w1)) as [make extra]. cbn [fst] in Hres |- *.
  unfold bind, draw, ret. destruct (make (ids (base w))) as [result n] eqn:Hmake. cbn [fst snd] in Hres.
  destruct Hres as (Hcode & _ & Hid & Hsender & Hn).
  pose proof (recordTxResult_spec result now extra (mkWorld (line_of (base w)) n (out (base w)))) as Hrec.
  destruct (recordTxResult result now extra _) as [[] b]. destruct Hrec as (Hin & Hdev & _ & (r & Hout & Hr) & Hq & _).
  assert (Hpush : forall w2, base (admit_push adm w2) = base w2 /\ written_ids (admit_push adm w2) = written_ids w2 /\
    items (tx_queue (admit_push adm w2)) = (items (tx_queue w2) ++ option_list (admission_job adm))%list /\
    txActive (admit_push adm w2) = txActive w2 /\ jobs (admit_push adm w2) = jobs w2 /\
    tx_queue (admit_push adm w2) = match admission_job adm with Some job => push (tx_queue w2) job | None => tx_queue w2 end).
  { intros w2. destruct adm; cbn; by rewrite ?app_nil_r. }
  destruct (Hpush (with_base b w1)) as (Hpb & Hpi & Hpq & Hpa & Hpj & Hpush'). cbn [snd]. rewrite Hpb, Hpi, Hpq, Hpa, Hpj, Hpush'. unfold with_base.
  cbn [base written_ids tx_queue txActive jobs]. cbn [line_of out ids] in Hq, Hout, Hin, Hdev.
  rewrite Hq, Hout, Hin, Hdev, Hn, Hids, Hqueue.
  split; [|split; [by eexists|by split_and!]]. exists result. by split_and!.
Qed.

(** The code of a problem is one of two. *)
Lemma ReadTx_code uuid_parse payload ref data problem :
  ReadTx uuid_parse payload = (ref, data, Some problem) ->
  problem_Code problem = TxCodeInvalidID \/ problem_Code problem = TxCodeInvalidMessage.
Proof.
  unfold ReadTx. repeat case_match; intros [= <- <- <-]; auto.
Qed.

(** C13: every tx is answered at once, exactly once, with the answer its case
    calls for. Admitting a tx queues one result for its sender, with the id and
    the sender it named, and keeps one record of it. A tx that cannot be read
    fails for its problem, as an invalid id or as an invalid message with the
    problem's text. One whose id is in hand is rejected as in progress, with the
    stage, the start and the bytes of the earlier; else one whose id is remembered
    is told when it was written, even while the agent stops; else one that finds
    the agent stopping fails, with no byte written. Only a tx in none of these
    cases is accepted: its job, with its data and its deadline, joins those in
    hand and the writer's queue, which nothing else changes. *)
Theorem admit_answers opts uuid_parse problem_text message now stopping w :
  let '(ref, data, problem) := ReadTx uuid_parse (msg_Payload message) in
  let w' := admitTxTo opts uuid_parse problem_text message now stopping w in
  let status w := status_queue (line_of (base w)) in
  let not_taken := txActive w' = txActive w /\ jobs w' = jobs w /\ tx_queue w' = tx_queue w in
  exists result,
  held (status w') = (held (status w) ++ [TxItem result now])%list /\
  (exists r, out (base w') = (out (base w) ++ [Log r])%list /\ rec_always r = true) /\
  written_ids w' = written_ids w /\
  txr_TxID result = nilIfEmpty (ref_ID ref) /\ txr_Sender result = nilIfEmpty (ref_Sender ref) /\
  match problem, txActive w !! ref_ID ref, lookup_id (written_ids w) (ref_ID ref), stopping with
  | Some problem, _, _, _ =>
    txr_State result = TxFailedState /\ not_taken /\
    (txr_Code result = TxCodeInvalidID /\ problem_Code problem = TxCodeInvalidID \/
     txr_Code result = TxCodeInvalidMessage /\ problem_Code problem = TxCodeInvalidMessage /\
     txr_Detail result = {["error" := AnyString (problem_text (problem_Reason problem))]})
  | None, Some earlier, _, _ =>
    txr_Code result = TxCodeInProgress /\ txr_State result = TxRejectedState /\ not_taken /\
    forall job, jobs w !! earlier = Some job ->
      txr_Detail result =
        <["stage" := AnyString (TxStage_text (job_stage job))]> (<["since" := AnyString (format_time (job_since job))]>
          {["bytes_written" := AnyInt (job_written job)]})
  | None, None, Some written_at, _ =>
    txr_Code result = TxCodeAlreadyWritten /\ txr_State result = TxWrittenState /\ not_taken /\
    txr_Detail result = {["written_at" := AnyString (format_time written_at)]}
  | None, None, None, true =>
    txr_Code result = TxCodeAgentStopping /\ txr_State result = TxFailedState /\ not_taken /\
    txr_Detail result = {["bytes_written" := AnyInt 0]}
  | None, None, None, false =>
    let job := length (jobs w) in
    let deadline := if msg_HasExpiry message then Add (msg_Received message) (msg_Expiry message) else 0%Z in
    txr_Code result = TxCodeAccepted /\ txr_State result = TxAcceptedState /\
    txActive w' = <[ref_ID ref := job]> (txActive w) /\
    jobs w' = (jobs w ++ [mkJob ref data (msg_Received message) deadline TxQueued now 0])%list /\
    items (tx_queue w') = (items (tx_queue w) ++ [job])%list
  end.
Proof.
  destruct (ReadTx uuid_parse (msg_Payload message)) as [[ref data] problem] eqn:Hread.
  pose proof (admitTxTo_spec opts uuid_parse problem_text message now stopping w) as Hspec.
  unfold admit_claim in Hspec. rewrite Hread in Hspec. destruct problem as [problem|].
  - destruct (ReadTx_code _ _ _ _ _ Hread) as [Hproblem|Hproblem];
      destruct Hspec as ((result & Hheld & Hcode & Hid & Hsender & Hres) & Hout & _ & Hids & Hactive & Hjobs & Hqueue & _);
      exists result; cbn in Hres; rewrite Hproblem in Hres; split_and!; try done; subst result; cbn; auto.
  - destruct (txActive w !! ref_ID ref) as [earlier|];
      [|destruct (lookup_id (written_ids w) (ref_ID ref)) as [at_|]; [|destruct stopping]];
      destruct Hspec as ((result & Hheld & Hcode & Hid & Hsender & Hres) & Hout & Hitems & Hids & Hactive & Hjobs & Hqueue & _);
      exists result; cbn [admission_result] in Hres; split_and!; try done; subst result; try done.
    + by destruct (jobs w !! earlier) as [[]|].
    + intros [] ->. done.
Qed.

(** The ids a device remembers are a window of the last ones written: after
    remembering any ids, each new when it came, the device knows exactly the
    last [tx_remembered_ids] of them, and when each was written. *)
Theorem remembered_window limit (l : list (string * time)) :
  (1 <= limit)%Z -> NoDup (map fst l) ->
  exists ids, foldl (fun ids x => ids ≫= fun ids => remember ids x.1 x.2) (Some (newWrittenIDs limit)) l = Some ids /\
    order ids = lastn (Z.to_nat limit) (map fst l) /\
    (forall id, is_Some (lookup_id ids id) <-> id ∈ lastn (Z.to_nat limit) (map fst l)) /\
    (forall id at_, (id, at_) ∈ lastn (Z.to_nat limit) l -> lookup_id ids id = Some at_).
Proof.
  intros Hlimit Hnd.
  assert (Hinv : exists ids, foldl (fun ids x => ids ≫= fun ids => remember ids x.1 x.2) (Some (newWrittenIDs limit)) l = Some ids /\
    ids_ok ids /\ Tx.limit ids = limit /\ order ids = lastn (Z.to_nat limit) (map fst l) /\
    (forall id at_, (id, at_) ∈ lastn (Z.to_nat limit) l -> lookup_id ids id = Some at_)).
  { induction l as [|[id at_] l IH] using rev_ind.
    { eexists. split; [done|]. split; [by apply newWrittenIDs_ok|]. split_and!; [done|done|]. intros ? ?. set_solver. }
    rewrite map_app in Hnd. cbn in Hnd. apply NoDup_app in Hnd as (Hnd & Hnew & _).
    destruct (IH Hnd) as (ids & Hrun & Hok & Hl & Ho & Hat). rewrite foldl_app, Hrun. cbn [foldl mbind option_bind fst snd].
    destruct (remember_ok ids id at_ Hok) as (ids' & -> & Hok' & Hl' & Hid & Ho' & Hother).
    assert (Hout : id ∉ order ids).
    { rewrite Ho. intros Hin. apply (Hnew id); [|set_solver]. rewrite (lastn_app_split (Z.to_nat limit) (map fst l)). set_solver. }
    rewrite bool_decide_eq_false_2, Ho, Hl, lastn_lastn_app in Ho' by done.
    exists ids'. split_and!; [done|done|congruence|by rewrite map_app|].
    intros id' at' Hin. destruct (decide (id' = id)) as [->|Hne].
    - assert (Hat' : (id, at') ∈ (l ++ [(id, at_)])%list).
      { rewrite (lastn_app_split (Z.to_nat limit) (l ++ [(id, at_)])). set_solver. }
      apply elem_of_app in Hat' as [Hin'|Hin']; [|set_solver]. exfalso. apply (Hnew id); [|set_solver].
      apply list_elem_of_fmap. by exists (id, at').
    - assert (Hwin : (id', at') ∈ lastn (Z.to_nat limit) l).
      { rewrite <-lastn_lastn_app in Hin. apply lastn_elem in Hin. apply elem_of_app in Hin as [?|Hin]; [done|]. set_solver. }
      rewrite Hother; [by apply Hat|done|]. rewrite Ho'. change [id] with (map fst [(id, at_)]). rewrite <-map_app, <-lastn_fmap.
      apply list_elem_of_fmap. by exists (id', at'). }
  destruct Hinv as (ids & Hrun & Hok & Hl & Ho & Hat). exists ids. split_and!; try done.
  intros id. rewrite <-Ho. apply (ids_dom ids Hok).
Qed.

(** ** Witnesses *)

Definition a_job : txJob := mkJob (mkTxRef an_id "wms") [x1b; x40] unix_epoch 0 TxQueued unix_epoch 0.

(** A port that is closed twice, and then takes the tx. *)
Definition third_try (n : nat) : try_obs :=
  mkTry unix_epoch false (if (n <? 2)%nat then (0%Z, Some ErrNotOpen) else (2%Z, None)) unix_epoch None (ErrorAbsent, "gone").

Lemma write_attempts_witness :
  exists at_, writeTx a_core_device a_job third_try =
    Some (VWritten 2, 2%Z, at_, [(0%Z, Some ErrNotOpen); (0%Z, Some ErrNotOpen); (2%Z, None)]) /\
    (2 <= TxOpenAttempts a_core_device)%Z.
Proof.
  destruct (write_attempts a_core_device a_job third_try) as (v & attempts & at_ & retries & last & Hrun & _ & _ & Hle & _).
  - vm_compute. discriminate.
  - assert (H : writeTx a_core_device a_job third_try = Some (VWritten 2, 2%Z, unix_epoch,
      [(0%Z, Some ErrNotOpen); (0%Z, Some ErrNotOpen); (2%Z, None)])) by reflexivity.
    exists unix_epoch. split; [exact H|]. rewrite Hrun in H. injection H as _ Ha _ _. by rewrite <-Ha.
Defined.

Lemma remembered_window_witness :
  exists ids, order ids = ["b"; "c"] /\ lookup_id ids "a" = None /\ lookup_id ids "c" = Some 3%Z.
Proof.
  destruct (remembered_window 2 [("a", 1%Z); ("b", 2%Z); ("c", 3%Z)]) as (ids & _ & Ho & Hin & Hat).
  - lia.
  - apply (bool_decide_eq_true_1 _). reflexivity.
  - exists ids. split; [exact Ho|]. split.
    + destruct (lookup_id ids "a") as [t|] eqn:Ht; [|reflexivity]. exfalso.
      assert (Hn : "a" ∈ lastn (Z.to_nat 2) (map fst [("a", 1%Z); ("b", 2%Z); ("c", 3%Z)])) by (apply Hin; eauto).
      apply (bool_decide_eq_true_2 _) in Hn. discriminate Hn.
    + apply Hat. apply (bool_decide_eq_true_1 _). reflexivity.
Defined.
