(* ===== verification/Core.v ===== *)
(** * The core: internal/core/core.go, with the keepalive of status.go

    [New] and its checks, the routes [Run] sets up for the tx topics, the intake
    over every device, the keepalive and the offline message. The order in which
    [Run] stops is in Shutdown.v. *)
From S2P Require Import Prelude GoLib Base64 Topics Wire Json ReadTx Encode Logging Queue Device Pipeline Tx.
#[local] Open Scope string_scope.

(** ** [New] *)

(** What [New] refuses, with what its message names. *)
Inductive core_error :=
  | NoTransport | NoBuilder | NoDevices | NoAgentStatus
  | BadPublishTimeout (d : duration) | BadBufferSize (n : Z) | BadDrainTimeout (d : duration)
  | BadEventBufferSize (n : Z) | BadKeepaliveInterval (d : duration) | BadMissedKeepalives (n : Z)
  | NoReader (index : nat) | NoTopics (id : string) | NoExpiry (id : string)
  | NegativeTxOpen (id : string) | NoRememberedIDs (id : string) (n : Z).

(** What of the options may be nil: the transport, the builder, and the reader
    of the device at an index. *)
Record given := mkGiven { has_transport : bool; has_builder : bool; has_reader : nat -> bool }.

Definition check_options (g : given) (opts : Options) : option core_error :=
  if negb (has_transport g) then Some NoTransport
  else if negb (has_builder g) then Some NoBuilder
  else if (length (Devices opts) =? 0)%nat then Some NoDevices
  else if bool_decide (AgentStatus opts = "") then Some NoAgentStatus
  else if (PublishTimeout opts <=? 0)%Z then Some (BadPublishTimeout (PublishTimeout opts))
  else if (BufferSize opts <=? 0)%Z then Some (BadBufferSize (BufferSize opts))
  else if (DrainTimeout opts <=? 0)%Z then Some (BadDrainTimeout (DrainTimeout opts))
  else if (EventBufferSize opts <=? 0)%Z then Some (BadEventBufferSize (EventBufferSize opts))
  else if (KeepaliveInterval opts <=? 0)%Z then Some (BadKeepaliveInterval (KeepaliveInterval opts))
  else if (MissedKeepalives opts <? 1)%Z then Some (BadMissedKeepalives (MissedKeepalives opts))
  else None.

Definition check_device (g : given) (index : nat) (dev : CoreDevice) : option core_error :=
  let id := ID (WireDevice dev) in
  if negb (has_reader g index) then Some (NoReader index)
  else if bool_decide (rx (Topics_ dev) = "") then Some (NoTopics id)
  else if (Expiry (WireDevice dev) <=? 0)%Z then Some (NoExpiry id)
  else if (TxOpenAttempts dev <? 0)%Z || (TxOpenInterval dev <? 0)%Z then Some (NegativeTxOpen id)
  else if (TxRememberedIDs dev <? 1)%Z then Some (NoRememberedIDs id (TxRememberedIDs dev))
  else None.

Fixpoint check_devices (g : given) (index : nat) (devices : list CoreDevice) : option core_error :=
  match devices with
  | [] => None
  | dev :: devices' =>
    match check_device g index dev with Some err => Some err | None => check_devices g (S index) devices' end
  end.

Definition with_Started (started : time) (opts : Options) : Options :=
  mkCoreOptions (Devices opts) (builder opts) (AgentStatus opts) (PublishTimeout opts) (BufferSize opts) (DrainTimeout opts)
    (EventBufferSize opts) (KeepaliveInterval opts) (MissedKeepalives opts) started (LogPayloads opts).

(** [now] is what the clock says, for a start that is not given. *)
Definition New (g : given) (opts : Options) (now : time) : result core_error Options :=
  match check_options g opts with
  | Some err => Err err
  | None =>
    match check_devices g 0 (Devices opts) with
    | Some err => Err err
    | None => Ok (if IsZero (Started opts) then with_Started now opts else opts)
    end
  end.

(** ** The set-up of [Run] *)

(** [txTarget]; a line is the place of its device. *)
Record txTarget := mkTxTarget { route : TxRoute; tgt_lines : list nat }.

Definition add_route (line : nat) (byTxTopic : gmap string txTarget) (r : TxRoute) : gmap string txTarget :=
  match byTxTopic !! Topic r with
  | None => <[Topic r := mkTxTarget r [line]]> byTxTopic
  | Some target => <[Topic r := mkTxTarget (route target) (tgt_lines target ++ [line])]> byTxTopic
  end.

Definition add_line (byTxTopic : gmap string txTarget) (line : nat) (dev : CoreDevice) : gmap string txTarget :=
  foldl (add_route line) byTxTopic (device_txRoutes dev).

Fixpoint add_lines (line : nat) (byTxTopic : gmap string txTarget) (devices : list CoreDevice) : gmap string txTarget :=
  match devices with
  | [] => byTxTopic
  | dev :: devices' => add_lines (S line) (add_line byTxTopic line dev) devices'
  end.

Definition byTxTopic_of (opts : Options) : gmap string txTarget := add_lines 0 ∅ (Devices opts).

Definition newPipeline (opts : Options) (dev : CoreDevice) : pipeline :=
  mkPipeline dev [] (device_txRoutes dev) (newStatusQueue (EventBufferSize opts)) 0 false false "" "" zero_counters.

(** Every device's state, the ids the builder has drawn, and the outputs. A
    line's [ids] and [out] are those of the core while it runs. *)
Record core_world := mkCoreWorld { lines : list tx_world; core_ids : nat; core_out : list output }.

Definition core_start (opts : Options) : core_world :=
  mkCoreWorld (map (fun dev => mkTxWorld (mkWorld (newPipeline opts dev) 0 []) ∅ (newWrittenIDs (TxRememberedIDs dev)) newWaitingQueue [])
    (Devices opts)) 0 [].

Definition pipelines (c : core_world) : list pipeline := map (fun w => line_of (base w)) (lines c).

Definition on_line (line : nat) (f : tx_world -> tx_world) (c : core_world) : core_world :=
  match lines c !! line with
  | None => c
  | Some w =>
    let w' := f (with_base (mkWorld (line_of (base w)) (core_ids c) (core_out c)) w) in
    mkCoreWorld (<[line := w']> (lines c)) (ids (base w')) (out (base w'))
  end.

Definition core_log (record : log_record) (c : core_world) : core_world :=
  mkCoreWorld (lines c) (core_ids c) (core_out c ++ [Log record])%list.

Definition bufferedFrames (c : core_world) : Z := Z.of_nat (sum_list_with (fun line => length (frames line)) (pipelines c)).

Section Core.
Context (opts : Options) (uuid_parse : string -> bool) (problem_text : tx_reason -> string).

(** ** The intake *)

(** What [admitTxTo] observes: the clock, and whether the agent is stopping. *)
Record admit_obs := mkAdmitObs { ao_now : time; ao_stopping : bool }.

(** [admitTx]'s loop over the target's lines; [obs] is by the place in it. *)
Fixpoint admit_lines (targets : list nat) (message : TxMessage) (obs : nat -> admit_obs) (c : core_world) : core_world :=
  match targets with
  | [] => c
  | line :: targets' =>
    admit_lines targets' message (fun n => obs (S n))
      (on_line line (admitTxTo opts uuid_parse problem_text message (ao_now (obs 0)) (ao_stopping (obs 0))) c)
  end.

Definition device_ids (targets : list nat) (c : core_world) : list string :=
  omap (fun line => (fun w => ID (WireDevice (device (line_of (base w))))) <$> lines c !! line) targets.

Definition admitTx (byTxTopic : gmap string txTarget) (message : TxMessage) (obs : nat -> admit_obs) (c : core_world) : core_world :=
  let size := AttrInt (Z.of_nat (length (msg_Payload message))) in
  match byTxTopic !! msg_Topic message with
  | None =>
    core_log (log_at LevelError "tx on a topic that is no device's; not written"
      [("topic", AttrString (msg_Topic message)); ("bytes", size)]) c
  | Some target =>
    let c :=
      if bool_decide (Scope (route target) = ScopeDevice) then c
      else core_log (log_at LevelInfo "tx on a broadcast group's topic; each device in the group takes it"
        [("topic", AttrString (msg_Topic message)); ("scope", AttrString (TxScope_text (Scope (route target))));
         ("group", AttrString (Group (route target))); ("device_ids", AttrStrings (device_ids (tgt_lines target) c));
         ("bytes", size)]) c in
    admit_lines (tgt_lines target) message obs c
  end.

(** [recordUntaken], over the messages the channel still holds. *)
Definition untaken_record (message : TxMessage) : log_record :=
  let '(ref, _, _) := ReadTx uuid_parse (msg_Payload message) in
  Record_ LevelError "tx not taken: the agent had stopped"
    ([("topic", AttrString (msg_Topic message)); ("tx_id", AttrString (ref_ID ref)); ("sender", AttrString (ref_Sender ref));
      ("outcome", AttrString txOutcomeNotTaken)] ++ Payload (msg_Payload message))%list.

Definition recordUntaken (messages : list TxMessage) (c : core_world) : core_world :=
  foldl (fun c message => core_log (untaken_record message) c) c messages.

(** ** The keepalive and the offline message *)

(** What one keepalive observes: what set it off, the broker's answers, the
    clock and the transport's answer. *)
Record keepalive_obs := mkKeepaliveObs {
  ko_trigger : string; ko_answers : gmap string Z; ko_now : time; ko_answer : option string;
}.

Definition core_publish (p : publish) (c : core_world) : core_world :=
  mkCoreWorld (lines c) (core_ids c) (core_out c ++ [Published p])%list.

Definition keepalive_message (obs : keepalive_obs) (c : core_world) : Keepalive * nat :=
  build_Keepalive (builder opts) (Started opts) (ko_now obs) (KeepaliveInterval opts) (MissedKeepalives opts)
    (map (keepaliveState (ko_answers obs)) (pipelines c)) (core_ids c).

Definition publishKeepalive (obs : keepalive_obs) (c : core_world) : core_world :=
  let (message, ids) := keepalive_message obs c in
  let c := mkCoreWorld (lines c) ids (core_out c) in
  let a := [("id", AttrString (h_ID (ka_header message))); ("trigger", AttrString (ko_trigger obs));
            ("uptime_s", AttrInt (ka_UptimeS message)); ("gone_after_s", AttrInt (ka_GoneAfterS message))] in
  match Marshal (keepalive_json message) with
  | Err err => core_log (log_at LevelError "keepalive could not be encoded" (a ++ [("error", AttrString err)])%list) c
  | Ok payload =>
    let goneAfter := int64 (ka_GoneAfterS message * Second) in
    let c := core_publish (mkPublish PublishKeepalive (AgentStatus opts) payload (Some goneAfter)) c in
    match ko_answer obs with
    | Some err =>
      core_log (log_at LevelWarn "keepalive publish failed" (a ++ [("topic", AttrString (AgentStatus opts)); ("error", AttrString err)])%list) c
    | None => core_log (log_at LevelDebug "keepalive published" (a ++ [("payload", AttrString (string_of_bytes payload))])%list) c
    end
  end.

(** [sendKeepalives]: one keepalive for each value of its channels until it is
    stopped. *)
Definition sendKeepalives (l : list keepalive_obs) (c : core_world) : core_world := foldl (fun c obs => publishKeepalive obs c) c l.

Definition publishOffline (now : time) (answer : option string) (c : core_world) : core_world :=
  let (message, ids) := build_Offline (builder opts) OfflineShutdown now (core_ids c) in
  let c := mkCoreWorld (lines c) ids (core_out c) in
  match Marshal (offline_json message) with
  | Err err => core_log (log_at LevelError "offline message could not be encoded" [("error", AttrString err)]) c
  | Ok payload =>
    let c := core_publish (mkPublish PublishOffline (AgentStatus opts) payload None) c in
    match answer with
    | Some err =>
      core_log (log_at LevelWarn "offline message publish failed" [("topic", AttrString (AgentStatus opts)); ("error", AttrString err)]) c
    | None =>
      core_log (log_at LevelInfo "offline message published"
        [("topic", AttrString (AgentStatus opts)); ("reason", AttrString (OfflineReason_text OfflineShutdown))]) c
    end
  end.
End Core.

(** ** What [New] accepts *)

Definition options_ok (g : given) (opts : Options) : Prop :=
  has_transport g = true /\ has_builder g = true /\ Devices opts <> [] /\ AgentStatus opts <> "" /\
  (0 < PublishTimeout opts)%Z /\ (0 < BufferSize opts)%Z /\ (0 < DrainTimeout opts)%Z /\ (0 < EventBufferSize opts)%Z /\
  (0 < KeepaliveInterval opts)%Z /\ (1 <= MissedKeepalives opts)%Z.

Definition device_ok (dev : CoreDevice) : Prop :=
  rx (Topics_ dev) <> "" /\ (0 < Expiry (WireDevice dev))%Z /\ (0 <= TxOpenAttempts dev)%Z /\ (0 <= TxOpenInterval dev)%Z /\
  (1 <= TxRememberedIDs dev)%Z.

Lemma check_options_ok g opts : check_options g opts = None <-> options_ok g opts.
Proof.
  unfold check_options, options_ok.
  destruct (has_transport g), (has_builder g), (Devices opts) as [|dev devices]; cbn; try solve [split; [done|naive_solver]].
  case_bool_decide; [split; [done|naive_solver]|].
  repeat (case_match; [split; [done|lia]|]). split; [intros _|done]. split_and!; try done; lia.
Qed.

Lemma check_devices_ok g devices index :
  check_devices g index devices = None <->
  forall n dev, devices !! n = Some dev -> has_reader g (index + n) = true /\ device_ok dev.
Proof.
  revert index. induction devices as [|dev devices IH]; intros index; cbn [check_devices]; [done|].
  assert (Hdev : check_device g index dev = None <-> has_reader g index = true /\ device_ok dev).
  { unfold check_device, device_ok. destruct (has_reader g index); cbn; [|naive_solver].
    case_bool_decide; [naive_solver|].
    repeat (case_match; [split; [done|lia]|]). split; [intros _|done]. split_and!; try done; lia. }
  destruct (check_device g index dev) as [err|] eqn:Hc.
  - split; [done|]. intros H. apply Hdev. specialize (H 0 dev eq_refl). by rewrite Nat.add_0_r in H.
  - rewrite IH. split.
    + intros H [|n] d; cbn; [intros [= <-]; rewrite Nat.add_0_r; by apply Hdev|]. rewrite <-Nat.add_succ_comm. apply H.
    + intros H n d Hd. rewrite Nat.add_succ_comm. by apply (H (S n)).
Qed.

Lemma New_accepts g opts now :
  options_ok g opts -> (forall n dev, Devices opts !! n = Some dev -> has_reader g n = true /\ device_ok dev) ->
  exists opts', New g opts now = Ok opts'.
Proof.
  unfold New. intros ->%check_options_ok Hd. rewrite (proj2 (check_devices_ok g (Devices opts) 0)) by done. by eexists.
Qed.

Lemma New_devices g opts now opts' : New g opts now = Ok opts' -> Devices opts' = Devices opts.
Proof.
  unfold New. destruct (check_options g opts); [done|]. destruct (check_devices g 0 (Devices opts)); [done|].
  intros [= <-]. by destruct (IsZero (Started opts)).
Qed.

(** [New] takes exactly the options with which [Run] can work: a transport,
    a builder and a device, every timeout, interval and size positive, and of
    each device a reader, a topic, an expiry, no negative tx setting and room for
    one written id; and it changes nothing but a start that was not given. *)
Theorem new_checks g opts now :
  ((exists opts', New g opts now = Ok opts') <->
    options_ok g opts /\ forall n dev, Devices opts !! n = Some dev -> has_reader g n = true /\ device_ok dev) /\
  (forall opts', New g opts now = Ok opts' ->
    opts' = with_Started (if IsZero (Started opts) then now else Started opts) opts).
Proof.
  unfold New. pose proof (check_options_ok g opts) as Ho. pose proof (check_devices_ok g (Devices opts) 0) as Hd.
  cbn [Nat.add] in Hd. destruct (check_options g opts).
  { split; [|done]. split; [by intros []|]. intros [H%Ho _]. done. }
  destruct (check_devices g 0 (Devices opts)).
  { split; [|done]. split; [by intros []|]. intros [_ H%Hd]. done. }
  split; [split; [intros _; split; [by apply Ho|by apply Hd]|intros _; by eexists]|]. intros opts' [= <-]. destruct (IsZero (Started opts)); [done|by destruct opts].
Qed.

(** ** Where a tx goes *)

(** Every route with the place of its device, in the order of the
    configuration. *)
Fixpoint routes_from (line : nat) (devices : list CoreDevice) : list (nat * TxRoute) :=
  match devices with
  | [] => []
  | dev :: devices' => (map (pair line) (device_txRoutes dev) ++ routes_from (S line) devices')%list
  end.

Definition reaching (topic : string) (l : list (nat * TxRoute)) : list (nat * TxRoute) :=
  List.filter (fun x => bool_decide (Topic x.2 = topic)) l.

Definition target_of (l : list (nat * TxRoute)) : option txTarget :=
  match l with [] => None | x :: _ => Some (mkTxTarget x.2 (map fst l)) end.

Lemma add_lines_routes line byTxTopic devices :
  add_lines line byTxTopic devices = foldl (fun m x => add_route x.1 m x.2) byTxTopic (routes_from line devices).
Proof.
  revert line byTxTopic. induction devices as [|dev devices IH]; intros line m; [done|]. cbn [add_lines routes_from].
  rewrite IH, foldl_app. f_equal. unfold add_line. generalize (device_txRoutes dev) as l, m.
  induction l as [|r l IHl]; intros m'; [done|]. cbn. apply IHl.
Qed.

Lemma target_of_snoc l x : target_of (l ++ [x]) =
  match target_of l with None => Some (mkTxTarget x.2 [x.1]) | Some t => Some (mkTxTarget (route t) (tgt_lines t ++ [x.1])%list) end.
Proof. destruct l as [|y l]; [done|]. cbn. by rewrite map_app. Qed.

(** A topic leads to the devices that have it, in order. *)
Lemma byTxTopic_lookup opts topic : byTxTopic_of opts !! topic = target_of (reaching topic (routes_from 0 (Devices opts))).
Proof.
  unfold byTxTopic_of. rewrite add_lines_routes. generalize (routes_from 0 (Devices opts)) as l.
  induction l as [|[line r] l IH] using rev_ind; [apply lookup_empty|].
  rewrite foldl_app. set (m := foldl _ _ l) in *. unfold reaching in *. rewrite List.filter_app.
  cbn [foldl fst snd List.filter]. unfold add_route.
  destruct (decide (Topic r = topic)) as [<-|Hne].
  - rewrite bool_decide_eq_true_2, target_of_snoc, IH by done. by destruct (target_of _); rewrite lookup_insert_eq.
  - rewrite bool_decide_eq_false_2, app_nil_r by done. case_match; by rewrite lookup_insert_ne.
Qed.

Lemma elem_of_routes_from line devices i r :
  (i, r) ∈ routes_from line devices <-> exists n dev, devices !! n = Some dev /\ i = line + n /\ r ∈ device_txRoutes dev.
Proof.
  revert line. induction devices as [|dev devices IH]; intros line; cbn [routes_from].
  { split; [by intros ?%elem_of_nil|by intros (? & ? & ? & _)]. }
  rewrite elem_of_app, IH, list_elem_of_fmap. split.
  - intros [(r' & [= -> ->] & Hr)|(n & d & Hd & -> & Hr)]; [exists 0, dev|exists (S n), d]; split_and!; cbn; auto; lia.
  - intros (n & d & Hd & -> & Hr). destruct n as [|n].
    + injection Hd as ->. left. exists r. by rewrite Nat.add_0_r.
    + right. exists n, d. split_and!; auto; lia.
Qed.

Lemma elem_of_reaching topic devices i :
  i ∈ map fst (reaching topic (routes_from 0 devices)) <->
  exists dev, devices !! i = Some dev /\ topic ∈ map Topic (device_txRoutes dev).
Proof.
  unfold reaching. rewrite list_elem_of_fmap. setoid_rewrite list_elem_of_fmap. split.
  - intros ([j r] & -> & Hin). apply list_elem_of_In, filter_In in Hin as [Hin Ht]. apply list_elem_of_In, elem_of_routes_from in Hin.
    apply bool_decide_eq_true in Ht. destruct Hin as (n & dev & Hd & -> & Hr). exists dev. cbn in *. eauto.
  - intros (dev & Hd & r & -> & Hr). exists (i, r). split; [done|]. apply list_elem_of_In, filter_In.
    split; [|by apply bool_decide_eq_true]. apply list_elem_of_In, elem_of_routes_from. eauto.
Qed.

(** A device with no topic twice is reached once. *)
Lemma reaching_nodup topic line devices :
  Forall (fun dev => NoDup (map Topic (device_txRoutes dev))) devices -> NoDup (map fst (reaching topic (routes_from line devices))).
Proof.
  intros H. revert line. induction H as [|dev devices Hnd _ IH]; intros line; [constructor|].
  unfold reaching. cbn [routes_from]. rewrite List.filter_app, map_app. apply NoDup_app. split_and!; [|intros i Hi Hi'|apply IH].
  - generalize dependent (device_txRoutes dev). induction l as [|r l IHl]; cbn; [constructor|].
    intros [Hr Hl]%NoDup_cons. case_bool_decide as Ht; [|auto]. cbn. apply NoDup_cons. split; [|auto].
    intros (y & _ & Hy)%list_elem_of_fmap. apply list_elem_of_In, filter_In in Hy as [Hy Hty].
    apply list_elem_of_In, list_elem_of_fmap in Hy as (r' & -> & Hr'). apply bool_decide_eq_true in Hty. cbn in Hty.
    apply Hr, list_elem_of_fmap. exists r'. cbn in Ht. split; [congruence|done].
  - apply list_elem_of_fmap in Hi as (x & -> & Hx), Hi' as (y & Hxy & Hy).
    apply list_elem_of_In, filter_In in Hx as [Hx _], Hy as [Hy _]. apply list_elem_of_In in Hx, Hy.
    apply list_elem_of_fmap in Hx as (r & -> & _). destruct y as [j r']. apply elem_of_routes_from in Hy as (n & d & _ & -> & _).
    cbn in Hxy. lia.
Qed.

(** ** What the intake does over the lines *)

(** A line that took one tx: one result is queued for its sender. *)
Definition took_one (w w' : tx_world) : Prop :=
  exists result now, held (status_queue (line_of (base w'))) = (held (status_queue (line_of (base w))) ++ [TxItem result now])%list.

Section Routing.
Context (opts : Options) (uuid_parse : string -> bool) (problem_text : tx_reason -> string).

Lemma on_line_lookup line f c i :
  lines (on_line line f c) !! i =
  (if bool_decide (i = line)
   then (fun w => f (with_base (mkWorld (line_of (base w)) (core_ids c) (core_out c)) w)) <$> lines c !! i
   else lines c !! i).
Proof.
  unfold on_line. destruct (lines c !! line) as [w|] eqn:Hl; cbn.
  - case_bool_decide as Hi; [subst i; rewrite Hl, list_lookup_insert_eq by (by eapply lookup_lt_Some); done|by rewrite list_lookup_insert_ne].
  - case_bool_decide as Hi; [by subst i; rewrite Hl|done].
Qed.

Lemma admit_takes_one message now stopping n o w :
  took_one w (admitTxTo opts uuid_parse problem_text message now stopping (with_base (mkWorld (line_of (base w)) n o) w)).
Proof.
  pose proof (admitTxTo_spec opts uuid_parse problem_text message now stopping (with_base (mkWorld (line_of (base w)) n o) w)) as H.
  destruct (admit_claim _ _ _ _ _) as [adm w1]. destruct H as ((result & Hheld & _) & _). by exists result, now.
Qed.

Lemma admit_lines_spec targets message obs c i w :
  NoDup targets -> lines c !! i = Some w ->
  exists w', lines (admit_lines opts uuid_parse problem_text targets message obs c) !! i = Some w' /\
    (if bool_decide (i ∈ targets) then took_one w w' else w' = w).
Proof.
  intros Hnd. revert obs c w. induction Hnd as [|line targets Hline Hnd IH]; intros obs c w Hw.
  { exists w. split; [done|]. by rewrite bool_decide_eq_false_2 by apply not_elem_of_nil. }
  cbn [admit_lines].
  match goal with |- context [admit_lines _ _ _ targets message _ ?c] => set (c1 := c) end.
  destruct (decide (i = line)) as [->|Hne].
  - pose proof (on_line_lookup line (admitTxTo opts uuid_parse problem_text message (ao_now (obs 0)) (ao_stopping (obs 0))) c line) as Hc1.
    rewrite bool_decide_eq_true_2, Hw in Hc1 by done. cbn [fmap option_fmap option_map] in Hc1.
    destruct (IH (fun n => obs (S n)) c1 _ Hc1) as (w' & Hw' & Hsame). exists w'. split; [exact Hw'|].
    rewrite bool_decide_eq_false_2 in Hsame by done. rewrite bool_decide_eq_true_2 by (by left). subst w'. apply admit_takes_one.
  - pose proof (on_line_lookup line (admitTxTo opts uuid_parse problem_text message (ao_now (obs 0)) (ao_stopping (obs 0))) c i) as Hc1.
    rewrite bool_decide_eq_false_2, Hw in Hc1 by done.
    destruct (IH (fun n => obs (S n)) c1 w Hc1) as (w' & Hw' & Hsame). exists w'. split; [exact Hw'|].
    by rewrite (bool_decide_ext (i ∈ line :: targets) (i ∈ targets)) by (rewrite elem_of_cons; naive_solver).
Qed.

(** C32: a tx goes to the devices its topic names and to no other: on a device's
    own topic, or a broadcast group's, every device that has the topic among its
    routes takes it once and queues one result for its sender, every other device
    is left as it was, and a tx on a topic of no device is recorded and touches
    none. *)
Theorem tx_reaches_its_devices message obs c :
  Forall (fun dev => NoDup (map Topic (device_txRoutes dev))) (Devices opts) ->
  let c' := admitTx opts uuid_parse problem_text (byTxTopic_of opts) message obs c in
  (forall i dev w, Devices opts !! i = Some dev -> lines c !! i = Some w ->
    exists w', lines c' !! i = Some w' /\
      (if bool_decide (msg_Topic message ∈ map Topic (device_txRoutes dev)) then took_one w w' else w' = w)) /\
  ((forall dev, dev ∈ Devices opts -> msg_Topic message ∉ map Topic (device_txRoutes dev)) ->
    exists r, lines c' = lines c /\ core_ids c' = core_ids c /\ core_out c' = (core_out c ++ [Log r])%list /\ rec_level r = LevelError).
Proof.
  intros Hnd. pose proof (byTxTopic_lookup opts (msg_Topic message)) as Hlookup. cbn zeta. unfold admitTx. rewrite Hlookup.
  pose proof (reaching_nodup (msg_Topic message) 0 (Devices opts) Hnd) as Hnodup.
  pose proof (fun i => elem_of_reaching (msg_Topic message) (Devices opts) i) as Hin.
  destruct (reaching (msg_Topic message) (routes_from 0 (Devices opts))) as [|[line r] l] eqn:Hreach; cbn [target_of].
  - split.
    + intros i dev w Hdev Hw. exists w. split; [exact Hw|]. rewrite bool_decide_eq_false_2; [done|]. intros Ht.
      assert (Hnil : i ∈ map fst (@nil (nat * TxRoute))) by (apply Hin; eauto). by apply elem_of_nil in Hnil.
    + intros _. eexists. by split_and!.
  - split.
    + intros i dev w Hdev Hw. cbn [tgt_lines route fst snd].
      rewrite (bool_decide_ext (msg_Topic message ∈ map Topic (device_txRoutes dev)) (i ∈ map fst ((line, r) :: l))).
      * apply admit_lines_spec; [exact Hnodup|]. by case_bool_decide.
      * rewrite Hin. split; [eauto|]. intros (d & Hd & ?). congruence.
    + intros Hnone. exfalso. destruct (proj1 (Hin line)) as (dev & Hdev & Ht); [by left|].
      apply (Hnone dev); [by eapply list_elem_of_lookup_2|done].
Qed.
End Routing.

(** ** What a keepalive tells *)

#[local] Arguments encode : simpl never.
#[local] Arguments int64 : simpl never.

Lemma writable_array l : Forall Json.writable l -> Json.writable (JArray l).
Proof. intros H. cbn. by induction H. Qed.

Lemma writable_object l : Forall (fun m => utf8_valid m.1 = true /\ Json.writable m.2) l -> Json.writable (JObject l).
Proof. intros H. cbn. induction H as [|[name v] l [? ?] ? IH]; by split_and?. Qed.

Lemma height_array n l : (0 <= n)%Z -> Forall (fun v => (height v <= n)%Z) l -> (height (JArray l) <= n + 1)%Z.
Proof. intros Hn H. cbn [height]. induction H as [|v l ? ? IH]; lia. Qed.

(** A list of fields, each of them a text, is one to write. *)
Lemma writable_fields l : Forall (fun m => is_text m.1 /\ Json.writable m.2) l ->
  Forall (fun m => utf8_valid m.1 = true /\ Json.writable m.2) (fields l).
Proof. intros H. unfold fields. induction H as [|[name v] l [? ?] ? IH]; constructor; done. Qed.

Definition route_texts (t : TxTopic) : Prop := is_text (tt_Topic t) /\ (forall g, tt_Group t = Some g -> is_text g).

Definition device_texts (d : KeepaliveDevice) : Prop :=
  is_text (dh_DeviceID (kd_device d)) /\ (forall t, dh_DeviceType (kd_device d) = Some t -> is_text t) /\
  Forall route_texts (kd_TxTopics d).

Ltac write_fields :=
  apply writable_fields; repeat (apply List.Forall_cons; [split; [reflexivity|cbn [snd]]|]); try apply List.Forall_nil;
  try solve [eexists; reflexivity].

Lemma tx_topic_writable t : route_texts t -> Json.writable (tx_topic_json t).
Proof.
  intros [Ht Hg]. apply writable_object. write_fields; [exact Ht|by destruct (tt_Scope t)|..].
  - destruct (tt_Group t); [by apply Hg|done].
  - destruct (tt_Suback t); [by eexists|done].
Qed.

Lemma counters_writable c : Forall (fun m => utf8_valid m.1 = true /\ Json.writable m.2) (counters_fields c).
Proof. unfold counters_fields. write_fields; apply writable_object; write_fields. Qed.

Lemma keepalive_device_writable d : device_texts d -> Json.writable (keepalive_device_json d).
Proof.
  intros (Hid & Htype & Hroutes). apply writable_object. rewrite !Forall_app. split_and!; [| |apply counters_writable].
  - unfold device_fields. write_fields; [exact Hid|]. destruct (dh_DeviceType _); [by apply Htype|done].
  - write_fields. apply writable_array, Forall_fmap. eapply Forall_impl; [exact Hroutes|]. apply tx_topic_writable.
Qed.

Lemma keepalive_writable m :
  Forall is_text (header_texts (ka_header m)) -> is_text (ka_ProtocolVersion m) -> Forall device_texts (ka_Devices m) ->
  Json.writable (keepalive_json m).
Proof.
  intros Hheader Hversion Hdevices. unfold header_texts in Hheader. rewrite !Forall_cons in Hheader.
  destruct Hheader as (?&?&?&?&?&?&?&?&_). apply writable_object, Forall_app. split; unfold header_fields; write_fields; try done.
  apply writable_array, Forall_fmap. eapply Forall_impl; [exact Hdevices|]. apply keepalive_device_writable.
Qed.

Lemma keepalive_height m : (height (keepalive_json m) <= maxNestingDepth)%Z.
Proof.
  assert (Htopic : forall t, (height (tx_topic_json t) <= 1)%Z) by (intros [topic scope [g|] [s|]]; cbn; lia).
  assert (Hdev : forall d, (height (keepalive_device_json d) <= 3)%Z).
  { intros [[id [type|]] open expiry topics c];
      (assert (Ht : (height (JArray (map tx_topic_json topics)) <= 2)%Z)
        by (apply (height_array 1); [lia|]; apply Forall_fmap, Forall_true; intros t; apply Htopic));
      unfold keepalive_device_json, device_fields, fields, counters_fields, discards_json, failed_opens_json, jint, jstring, jnullable;
      cbn [map app fst snd kd_device dh_DeviceID dh_DeviceType kd_TxTopics kd_DeviceOpen kd_Counters];
      generalize dependent (JArray (map tx_topic_json topics)); intros v Hv; cbn [height map app fst snd fields]; pose proof (height_nonneg v); lia. }
  assert (Hd : (height (JArray (map keepalive_device_json (ka_Devices m))) <= 4)%Z)
    by (apply (height_array 3); [lia|]; apply Forall_fmap, Forall_true; intros d; apply Hdev).
  unfold keepalive_json, header_fields, fields, jint, jstring. cbn [map app fst snd].
  generalize dependent (JArray (map keepalive_device_json (ka_Devices m))). intros v Hv. cbn [height].
  pose proof (height_nonneg v). unfold maxNestingDepth. lia.
Qed.

(** A keepalive as a consumer decodes it: what it says of the agent, and of each
    device its fields, its counters with one for each reason and each class, and
    of each topic that reaches it the broker's answer. What has no value is null. *)
Definition or_null (s : string) : json := if bool_decide (s = "") then JNull else jstring s.

Definition tells_route (answers : gmap string Z) (r : TxRoute) (v : json) : Prop :=
  exists names, names_of v = Some names /\
    (names !! "topic" ≫= string_value) = Some (Topic r) /\ (names !! "scope" ≫= string_value) = Some (TxScope_text (Scope r)) /\
    names !! "group" = Some (or_null (Group r)) /\
    names !! "suback" = Some (match answers !! Topic r with Some code => jint code | None => JNull end).

(** [v] has, under its name, each count that there is. *)
Definition tells_counts (count_of : string -> option Z) (v : json) : Prop :=
  exists names, names_of v = Some names /\ forall name n, count_of name = Some n -> names !! name = Some (jint n).

Definition tells_device (answers : gmap string Z) (line : pipeline) (v : json) : Prop :=
  let dev := WireDevice (device line) in
  exists names routes discards failed, names_of v = Some names /\
    (names !! "device_id" ≫= string_value) = Some (ID dev) /\ names !! "device_type" = Some (or_null (DeviceType dev)) /\
    names !! "device_open" = Some (JBool (open line)) /\ names !! "message_expiry_s" = Some (jint (Z.quot (Expiry dev) Second)) /\
    (names !! "tx_topics" = Some (JArray routes)) /\ Forall2 (tells_route answers) (txRoutes line) routes /\
    names !! "rx_frames" = Some (jint (RxFrames (counters line))) /\ names !! "rx_bytes" = Some (jint (RxBytes (counters line))) /\
    names !! "discards" = Some discards /\ tells_counts (discards_of (Discards (counters line))) discards /\
    names !! "failed_opens" = Some failed /\ tells_counts (failed_opens_of (FailedOpens (counters line))) failed /\
    names !! "publish_failures" = Some (jint (PublishFailures (counters line))) /\
    names !! "tx_written" = Some (jint (TxWrittenCount (counters line))) /\
    names !! "tx_failed" = Some (jint (TxFailedCount (counters line))) /\
    names !! "buffer_depth" = Some (jint (Z.of_nat (length (frames line)))).

Definition tells_agent (opts : Options) (now : time) (id : string) (names : gmap string json) : Prop :=
  let a := agent (builder opts) in
  names !! "schema" = Some (jint Schema) /\ names !! "kind" = Some (jstring KindKeepalive) /\ names !! "id" = Some (jstring id) /\
  names !! "project" = Some (jstring (Project a)) /\ names !! "site" = Some (jstring (Site a)) /\ names !! "station" = Some (jstring (Station a)) /\
  names !! "instance_id" = Some (jstring (InstanceID a)) /\ names !! "agent_version" = Some (jstring (AgentVersion a)) /\
  names !! "agent_ts" = Some (jstring (format_time now)) /\ names !! "protocol_version" = Some (jstring ProtocolVersion) /\
  names !! "uptime_s" = Some (jint (Z.quot (Sub now (Started opts)) Second)).

Lemma jstring_value s : string_value (jstring s) = Some s.
Proof. unfold jstring. cbn. by rewrite string_of_bytes_of_string. Qed.

Lemma nullable_or_null s : Some (jnullable jstring (nilIfEmpty s)) = Some (or_null s).
Proof. unfold nilIfEmpty, or_null. by case_bool_decide. Qed.

Lemma discards_tell c : tells_counts (discards_of c) (discards_json c).
Proof.
  eexists. split; [reflexivity|]. intros name n. unfold discards_of. repeat (case_bool_decide; [subst; by intros [= <-]|]). done.
Qed.

Lemma failed_opens_tell c : tells_counts (failed_opens_of c) (failed_opens_json c).
Proof.
  eexists. split; [reflexivity|]. intros name n. unfold failed_opens_of. repeat (case_bool_decide; [subst; by intros [= <-]|]). done.
Qed.

Lemma txTopicOf_tells answers r :
  tells_route answers r (tx_topic_json (txTopicOf (mkTxRouteState r
    (match answers !! Topic r with Some code => mkSubscribeAnswer code true | None => mkSubscribeAnswer 0 false end)))).
Proof.
  eexists. split; [reflexivity|]. split; [apply jstring_value|]. split; [apply jstring_value|]. split; [by apply nullable_or_null|]. by destruct (answers !! Topic r).
Qed.

Lemma keepaliveDeviceOf_tells answers line :
  tells_device answers line (keepalive_device_json (keepaliveDeviceOf (keepaliveState answers line))).
Proof.
  eexists _, _, _, _. split; [reflexivity|]. split; [apply jstring_value|]. split; [apply nullable_or_null|].
  do 3 (split; [reflexivity|]). split; [|do 3 (split; [reflexivity|]); split; [apply discards_tell|]; split; [reflexivity|];
    split; [apply failed_opens_tell|split_and!; reflexivity]].
  unfold keepaliveState, keepaliveDeviceOf. cbn [ds_TxRoutes kd_TxTopics].
  induction (txRoutes line) as [|r l IH]; constructor; [apply txTopicOf_tells|exact IH].
Qed.

(** C33: a keepalive tells what the agent is: it is one publish on the agent's
    topic, and the payload decodes to the agent's identity and uptime, and to one
    entry for each device in order, with its id, type and message expiry, the
    port's state, every counter there is, the discards by reason and the failed
    opens by class, the frames that wait, and of each topic that reaches the
    device its scope and group and the broker's answer or null; and it lives as long as the
    gone_after_s it carries, which is the missed keepalives times the interval. *)
Theorem keepalive_tells opts obs c :
  let m := (keepalive_message opts obs c).1 in
  let gone := (Z.quot (KeepaliveInterval opts) Second * MissedKeepalives opts)%Z in
  Forall is_text (header_texts (ka_header m)) -> Forall device_texts (ka_Devices m) ->
  in_int64 (KeepaliveInterval opts) -> in_int64 (gone * Second) ->
  let c' := publishKeepalive opts obs c in
  lines c' = lines c /\
  exists payload names devices,
    publishes (core_out c') = (publishes (core_out c) ++ [mkPublish PublishKeepalive (AgentStatus opts) payload (Some (gone * Second)%Z)])%list /\
    (v ← fst <$> decode payload; names_of v) = Some names /\
    names !! "devices" = Some (JArray devices) /\ Forall2 (tells_device (ko_answers obs)) (pipelines c) devices /\
    tells_agent opts (ko_now obs) (newID (builder opts) (core_ids c)) names /\
    (names !! "interval_s" ≫= int_value) = Some (Z.quot (KeepaliveInterval opts) Second) /\
    (names !! "gone_after_s" ≫= int_value) = Some gone.
Proof.
  intros m gone Hheader Hdevices Hinterval Hgone.
  assert (Hgone' : in_int64 gone) by (unfold in_int64, min_int64, max_int64, Second in *; lia).
  assert (Hint : in_int64 (Z.quot (KeepaliveInterval opts) Second)).
  { unfold in_int64, min_int64, max_int64, Second in *. pose proof (Z.quot_rem' (KeepaliveInterval opts) 1000000000).
    pose proof (Z.rem_bound_abs (KeepaliveInterval opts) 1000000000). lia. }
  assert (Hm : ka_GoneAfterS m = gone) by (apply int64_id; done).
  pose proof (decode_encode (keepalive_json m) [] (keepalive_writable m Hheader eq_refl Hdevices) (keepalive_height m) ltac:(done)) as Hdecode.
  rewrite app_nil_r in Hdecode. unfold publishKeepalive.
  assert (Hpair : keepalive_message opts obs c = (m, S (core_ids c))) by done. rewrite Hpair, Hm.
  destruct (Marshal (keepalive_json m)) as [payload|] eqn:Hpayload; [|done]. apply Marshal_Ok in Hpayload. subst payload.
  rewrite (int64_id (gone * Second)) by done. cbn zeta. split; [by destruct (ko_answer obs)|].
  exists (encode (keepalive_json m)). rewrite Hdecode. eexists _, _. split.
  { destruct (ko_answer obs); unfold core_log, core_publish; cbn [core_out]; by rewrite !publishes_app, app_nil_r. }
  split; [reflexivity|]. split; [reflexivity|]. split.
  - change (ka_Devices m) with (map keepaliveDeviceOf (map (keepaliveState (ko_answers obs)) (pipelines c))).
    induction (pipelines c) as [|line l IH]; constructor; [apply keepaliveDeviceOf_tells|exact IH].
  - split; [by split_and!|]. split; [|rewrite <-Hm]; apply parse_int_decimal; [exact Hint|by rewrite Hm].
Qed.

(** ** Witnesses *)

Definition a_group : TxRoute := mkTxRoute "skuhus/p/s/st/groups/labels/tx" ScopeStation "labels".

Definition a_printer (name : string) (groups : list TxRoute) : CoreDevice :=
  mkCoreDevice name "serial" "/dev/ttyUSB0" true (mkDevice name "" (60 * Second)%Z)
    (mkDeviceTopics ("skuhus/p/s/st/" +:+ name +:+ "/rx") ("skuhus/p/s/st/" +:+ name +:+ "/tx") ("skuhus/p/s/st/" +:+ name +:+ "/status"))
    3 Second 100 groups.

Definition group_options : Options :=
  mkCoreOptions [a_printer "left" [a_group]; a_printer "scale" []; a_printer "right" [a_group]] a_builder
    "skuhus/p/s/st/agent/gw-01/status" (5 * Second)%Z 16 (10 * Second)%Z 2 (60 * Second)%Z 3 0 false.

Definition everything : given := mkGiven true true (fun _ => true).

Lemma new_checks_witness : exists opts', New everything group_options unix_epoch = Ok opts' /\ Started opts' = unix_epoch.
Proof.
  destruct (new_checks everything group_options unix_epoch) as [[_ Hok] Hstart].
  destruct Hok as [opts' Hnew].
  - split; [vm_compute; split_and!; done|]. intros [|[|[|n]]] dev Hd; [injection Hd as <-; vm_compute; split_and!; done..|discriminate Hd].
  - exists opts'. split; [exact Hnew|]. by rewrite (Hstart opts' Hnew).
Defined.

Definition a_group_tx : TxMessage := mkTxMessage (Topic a_group) (encode (tx_json (mkTx Schema an_id "wms" "G0A="))) 0 false unix_epoch.

Lemma tx_reaches_its_devices_witness :
  let c' := admitTx group_options (fun _ => true) (fun _ => "bad") (byTxTopic_of group_options) a_group_tx
    (fun _ => mkAdmitObs unix_epoch false) (core_start group_options) in
  exists right scale, lines c' !! 2 = Some right /\ length (held (status_queue (line_of (base right)))) = 1 /\
    lines c' !! 1 = Some scale /\ held (status_queue (line_of (base scale))) = [].
Proof.
  destruct (tx_reaches_its_devices group_options (fun _ => true) (fun _ => "bad") a_group_tx
    (fun _ => mkAdmitObs unix_epoch false) (core_start group_options)) as [H _].
  - apply (bool_decide_eq_true_1 _). vm_compute. reflexivity.
  - destruct (H 2 _ _ eq_refl eq_refl) as (right & Hr & Hone). destruct (H 1 _ _ eq_refl eq_refl) as (scale & Hs & Hsame).
    exists right, scale. split; [exact Hr|]. split.
    + match type of Hone with if ?b then _ else _ => change b with true in Hone end. destruct Hone as (result & now & ->). reflexivity.
    + split; [exact Hs|]. match type of Hsame with if ?b then _ else _ => change b with false in Hsame end. rewrite Hsame. reflexivity.
Defined.

Definition a_keepalive : keepalive_obs := mkKeepaliveObs "connected" {["skuhus/p/s/st/left/tx" := 1%Z]} unix_epoch None.

Lemma keepalive_tells_witness :
  exists payload names, publishes (core_out (publishKeepalive group_options a_keepalive (core_start group_options))) =
    [mkPublish PublishKeepalive (AgentStatus group_options) payload (Some (180 * Second)%Z)] /\
    (v ← fst <$> decode payload; names_of v) = Some names /\ (names !! "gone_after_s" ≫= int_value) = Some 180%Z.
Proof.
  destruct (keepalive_tells group_options a_keepalive (core_start group_options))
    as (_ & payload & names & devices & Hpub & Hnames & _ & _ & _ & _ & Hgone).
  - apply (bool_decide_eq_true_1 _). vm_compute. reflexivity.
  - repeat constructor; try (intros ? Hx; vm_compute in Hx; first [discriminate Hx|injection Hx as <-]); vm_compute; reflexivity.
  - vm_compute. split; discriminate.
  - vm_compute. split; discriminate.
  - exists payload, names. split; [exact Hpub|]. split; [exact Hnames|exact Hgone].
Defined.
