(* ===== verification/Shutdown.v ===== *)
(** * The agent's goroutines and the order in which Run stops them:
      internal/core/core.go, Run, with receiveTxs, writeTxs, publishFrames,
      publishStatusMessages and sendKeepalives as the goroutines it waits for

    What the goroutines do to a device is in Pipeline.v, Tx.v and TxSystem.v;
    here a queue is how much it holds, and what counts is who may still add to
    it, who still takes from it, and when [Run] goes on.

    A reader returns once its context is cancelled, a write in progress once it
    is cut, and a status message that waits for the broker is dropped once the
    drain has ended; whether any of it happens earlier, by itself, is what the
    [surroundings] say, so that the end of the agent is shown from [Run]'s own
    statements. *)
From S2P Require Import Prelude GoLib.

(** ** [Run], from the end of its context *)

(** The statements of [Run] from [<-ctx.Done()]. The timers of the drain only
    shorten what the other goroutines do, and its log records are left out. *)
Inductive instr :=
  | AwaitDone
  | SetStopping | CloseStoppingCh | CloseTx (line : nat) | ArmCutWrites | WaitWriters | DisarmCutWrites
  | CloseStopKeepalive | WaitKeepalives | StopReaders | WaitReaders | CloseStopIntake | WaitIntake
  | SetDrainDeadline | ArmEndDrain | CloseFrames (line : nat) | CloseStatus (line : nat) | WaitPublishers
  | SendOffline | CloseTransport | RecordUntaken.

#[global] Instance instr_eq_dec : EqDecision instr.
Proof. solve_decision. Defined.

Definition shutdown_program (n : nat) : list instr :=
  [AwaitDone; SetStopping; CloseStoppingCh] ++ map CloseTx (seq 0 n) ++
  [ArmCutWrites; WaitWriters; DisarmCutWrites; CloseStopKeepalive; WaitKeepalives; StopReaders; WaitReaders;
   CloseStopIntake; WaitIntake; SetDrainDeadline; ArmEndDrain] ++
  flat_map (fun line => [CloseFrames line; CloseStatus line]) (seq 0 n) ++
  [WaitPublishers; SendOffline; CloseTransport; RecordUntaken].

(** ** States *)

(** A device's goroutines, whether each still runs, and what its queues hold:
    the tx, the frames and the status messages. [sent] and [taken] count the
    frames the reader sent and the rx publisher took; [gave_up] is set when the
    status publisher returned because the connection manager was gone. *)
Record line_state := mkLineState {
  writer_on : bool; reader_on : bool; rx_on : bool; status_on : bool;
  tx_held : nat; frames_held : nat; status_held : nat;
  sent : nat; taken : nat; gave_up : bool;
}.

(** What goes to the broker, in order. *)
Inductive sending := KeepaliveSent | RxSent (line : nat) | StatusSent (line : nat) | OfflineSent | Disconnected_.

(** [intake] is [None] when [receiveTxs] returned, and else the lines the tx in
    hand is still to be given to. [arrived] are the tx in the channel, each the
    lines it reaches. *)
Record agent_state := mkAgentState {
  executed : list instr; remaining : list instr; line_states : list line_state;
  intake : option (list nat); arrived : list (list nat); keepalives_on : bool;
  sends : list sending; panicked : bool;
}.

Definition new_line : line_state := mkLineState true true true true 0 0 0 0 0 false.

Definition agent_start (n : nat) : agent_state :=
  mkAgentState [] (shutdown_program n) (replicate n new_line) (Some []) [] true [] false.

(** A device's state, when one goroutine of it took a step. *)
Definition push_status l := mkLineState (writer_on l) (reader_on l) (rx_on l) (status_on l) (tx_held l) (frames_held l) (S (status_held l)) (sent l) (taken l) (gave_up l).
Definition push_tx l := mkLineState (writer_on l) (reader_on l) (rx_on l) (status_on l) (S (tx_held l)) (frames_held l) (status_held l) (sent l) (taken l) (gave_up l).
Definition take_tx l := mkLineState (writer_on l) (reader_on l) (rx_on l) (status_on l) (pred (tx_held l)) (frames_held l) (status_held l) (sent l) (taken l) (gave_up l).
Definition send_frame l := mkLineState (writer_on l) (reader_on l) (rx_on l) (status_on l) (tx_held l) (S (frames_held l)) (status_held l) (S (sent l)) (taken l) (gave_up l).
Definition take_frame l := mkLineState (writer_on l) (reader_on l) (rx_on l) (status_on l) (tx_held l) (pred (frames_held l)) (status_held l) (sent l) (S (taken l)) (gave_up l).
Definition take_status l := mkLineState (writer_on l) (reader_on l) (rx_on l) (status_on l) (tx_held l) (frames_held l) (pred (status_held l)) (sent l) (taken l) (gave_up l).
Definition end_writer l := mkLineState false (reader_on l) (rx_on l) (status_on l) (tx_held l) (frames_held l) (status_held l) (sent l) (taken l) (gave_up l).
Definition end_reader l := mkLineState (writer_on l) false (rx_on l) (status_on l) (tx_held l) (frames_held l) (status_held l) (sent l) (taken l) (gave_up l).
Definition end_rx l := mkLineState (writer_on l) (reader_on l) false (status_on l) (tx_held l) (frames_held l) (status_held l) (sent l) (taken l) (gave_up l).
Definition end_status l := mkLineState (writer_on l) (reader_on l) (rx_on l) false (tx_held l) (frames_held l) (status_held l) (sent l) (taken l) (gave_up l).

(** [dropStatusMessages], and the return. *)
Definition drop_status gone l := mkLineState (writer_on l) (reader_on l) (rx_on l) false (tx_held l) (frames_held l) 0 (sent l) (taken l) gone.

(** What the agent does not decide: whether a reader may return before its
    context ends (a serial device's does not, and [Run] goes on without one that
    did), whether a write comes to its end before it is cut, whether a wait for
    the connection is answered while the broker may be down, and whether one may
    fail because the connection manager is gone. *)
Record surroundings := mkSurroundings {
  readers_return : bool; writes_end : bool; broker_answers : bool; manager_gone : bool;
}.

(** Everything may happen, and nothing comes to an end by itself. *)
Definition anything : surroundings := mkSurroundings true true true true.
Definition nothing : surroundings := mkSurroundings false false false false.

Section Agent.
(** [BufferSize], and whether [TxIn] is given. *)
Context (buffer : nat) (tx_in : bool) (env : surroundings).

(** ** Steps *)

(** Whether [Run] may go on with a statement; the end of its context is not its
    own to say. *)
Definition may_run (i : instr) (s : agent_state) : bool :=
  match i with
  | WaitWriters => forallb (fun l => negb (writer_on l)) (line_states s)
  | WaitKeepalives => negb (keepalives_on s)
  | WaitReaders => forallb (fun l => negb (reader_on l)) (line_states s)
  | WaitIntake => match intake s with None => true | Some _ => false end
  | WaitPublishers => forallb (fun l => negb (rx_on l) && negb (status_on l)) (line_states s)
  | _ => true
  end.

Definition sending_of (i : instr) : list sending :=
  match i with SendOffline => [OfflineSent] | CloseTransport => [Disconnected_] | _ => [] end.

Definition run_instr (i : instr) (rest : list instr) (s : agent_state) : agent_state :=
  mkAgentState (executed s ++ [i]) rest (line_states s) (intake s)
    (match i with RecordUntaken => [] | _ => arrived s end) (keepalives_on s) (sends s ++ sending_of i) (panicked s).

Definition with_lines (ls : list line_state) (s : agent_state) : agent_state :=
  mkAgentState (executed s) (remaining s) ls (intake s) (arrived s) (keepalives_on s) (sends s) (panicked s).
Definition on_line (j : nat) (f : line_state -> line_state) (s : agent_state) : agent_state := with_lines (alter f j (line_states s)) s.
Definition send (x : sending) (s : agent_state) : agent_state :=
  mkAgentState (executed s) (remaining s) (line_states s) (intake s) (arrived s) (keepalives_on s) (sends s ++ [x]) (panicked s).
Definition with_intake (i : option (list nat)) (a : list (list nat)) (s : agent_state) : agent_state :=
  mkAgentState (executed s) (remaining s) (line_states s) i a (keepalives_on s) (sends s) (panicked s).
Definition end_keepalives (s : agent_state) : agent_state :=
  mkAgentState (executed s) (remaining s) (line_states s) (intake s) (arrived s) false (sends s) (panicked s).
Definition panic (s : agent_state) : agent_state :=
  mkAgentState (executed s) (remaining s) (line_states s) (intake s) (arrived s) (keepalives_on s) (sends s) true.

(** A step one goroutine of the device [j] takes, given what [Run] has done:
    what it does to the device, and what it sends. *)
Inductive line_step (done : list instr) (j : nat) (l : line_state) : (line_state -> line_state) -> list sending -> Prop :=
  (** the reader reports an event, sends a frame, or returns *)
  | reader_reports : reader_on l = true -> line_step done j l push_status []
  | reader_sends : reader_on l = true -> frames_held l < buffer -> CloseFrames j ∉ done -> line_step done j l send_frame []
  | reader_ends : reader_on l = true -> readers_return env = true \/ StopReaders ∈ done -> line_step done j l end_reader []
  (** the writer ends a tx, which gives its result, or returns. Once the agent
      stops none is started, a wait for the port is broken off, and a write is cut *)
  | writer_takes : writer_on l = true -> 0 < tx_held l ->
      writes_end env = true \/ (SetStopping ∈ done /\ CloseStoppingCh ∈ done /\ ArmCutWrites ∈ done) ->
      line_step done j l (fun l => push_status (take_tx l)) []
  | writer_ends : writer_on l = true -> tx_held l = 0 -> CloseTx j ∈ done -> line_step done j l end_writer []
  (** the rx publisher *)
  | rx_takes : rx_on l = true -> 0 < frames_held l -> line_step done j l take_frame [RxSent j]
  | rx_ends : rx_on l = true -> frames_held l = 0 -> CloseFrames j ∈ done -> line_step done j l end_rx []
  (** the status publisher, which waits for the connection before it takes a
      message; a failed wait ends it *)
  | status_takes : status_on l = true -> 0 < status_held l -> broker_answers env = true -> line_step done j l take_status [StatusSent j]
  | status_ends : status_on l = true -> status_held l = 0 -> CloseStatus j ∈ done -> line_step done j l end_status []
  | status_drops (gone : bool) : status_on l = true -> 0 < status_held l ->
      (if gone then manager_gone env = true else ArmEndDrain ∈ done) -> line_step done j l (drop_status gone) [].

Inductive agent_step : agent_state -> agent_state -> Prop :=
  | step_run s i rest : remaining s = i :: rest -> may_run i s = true -> agent_step s (run_instr i rest s)
  | step_line s j l f xs : line_states s !! j = Some l -> line_step (executed s) j l f xs ->
      agent_step s (foldl (fun s x => send x s) (on_line j f s) xs)
  (** a send on a closed channel panics *)
  | step_panic s j l : line_states s !! j = Some l -> reader_on l = true -> CloseFrames j ∈ executed s -> agent_step s (panic s)
  (** a tx arrives; the intake takes it, gives it to a device, or returns *)
  | step_arrive s lines : tx_in = true -> agent_step s (with_intake (intake s) (arrived s ++ [lines]) s)
  | step_take s lines rest : intake s = Some [] -> arrived s = lines :: rest -> agent_step s (with_intake (Some lines) rest s)
  | step_admit s j lines queued : intake s = Some (j :: lines) -> (queued = true -> SetStopping ∉ executed s) ->
      agent_step s (with_intake (Some lines) (arrived s)
        (on_line j (fun l => if queued : bool then push_tx (push_status l) else push_status l) s))
  | step_intake_end s : intake s = Some [] -> tx_in = false \/ (CloseStopIntake ∈ executed s /\ arrived s = []) ->
      agent_step s (with_intake None (arrived s) s)
  (** the keepalives *)
  | step_keepalive s : keepalives_on s = true -> agent_step s (send KeepaliveSent s)
  | step_keepalives_end s : keepalives_on s = true -> CloseStopKeepalive ∈ executed s -> agent_step s (end_keepalives s).
End Agent.

(** ** What [Run] has done before a statement *)

Definition rank (i : instr) : nat :=
  match i with
  | AwaitDone => 0 | SetStopping => 1 | CloseStoppingCh => 2 | CloseTx _ => 3 | ArmCutWrites => 4 | WaitWriters => 5
  | DisarmCutWrites => 6 | CloseStopKeepalive => 7 | WaitKeepalives => 8 | StopReaders => 9 | WaitReaders => 10
  | CloseStopIntake => 11 | WaitIntake => 12 | SetDrainDeadline => 13 | ArmEndDrain => 14
  | CloseFrames _ | CloseStatus _ => 15
  | WaitPublishers => 16 | SendOffline => 17 | CloseTransport => 18 | RecordUntaken => 19
  end.

Definition ranked (p : list instr) : Prop := forall a i b, p = a ++ i :: b -> Forall (fun y => rank y <= rank i) a.

Lemma ranked_app p q : ranked p -> ranked q -> (forall x y, x ∈ p -> y ∈ q -> rank x <= rank y) -> ranked (p ++ q).
Proof.
  intros Hp Hq Hpq a i b Heq. apply app_eq_inv in Heq as [(k & -> & Hk)|(k & -> & Hk)].
  - destruct k as [|x k]; cbn in Hk.
    + subst q. rewrite app_nil_r in *. apply Forall_forall. intros y Hy. apply Hpq; [done|by left].
    + injection Hk as <- ->. by eapply Hp.
  - apply Forall_app. split; [|by eapply Hq]. apply Forall_forall. intros y Hy. apply Hpq; [done|]. rewrite Hk. set_solver.
Qed.

Lemma ranked_flat n p : (forall x, x ∈ p -> rank x = n) -> ranked p.
Proof. intros H a i b ->. apply Forall_forall. intros y Hy. rewrite !H; set_solver. Qed.

Lemma shutdown_ranked n : ranked (shutdown_program n).
Proof.
  assert (Htx : forall x, x ∈ map CloseTx (seq 0 n) -> rank x = 3) by (intros x (j & -> & _)%list_elem_of_fmap; done).
  assert (Hcl : forall x, x ∈ flat_map (fun line => [CloseFrames line; CloseStatus line]) (seq 0 n) -> rank x = 15).
  { intros x Hx. apply list_elem_of_In, in_flat_map in Hx as (j & _ & Hx). cbn in Hx. by destruct Hx as [<-|[<-|[]]]. }
  assert (Hcons : forall x p, ranked p -> Forall (fun y => rank x <= rank y) p -> ranked (x :: p)).
  { intros x p Hp Hx [|y a] i b [= <- Heq]; constructor; [|by eapply Hp]. rewrite Forall_forall in Hx. apply Hx. rewrite Heq. set_solver. }
  unfold shutdown_program. rewrite !(assoc_L (++)).
  apply ranked_app; [apply ranked_app; [apply ranked_app; [apply ranked_app|..]|..]|..].
  all: try solve [repeat (apply Hcons; [|repeat (constructor; cbn; [lia|]); constructor]); by intros [|? ?] ? ?].
  all: try (exact (ranked_flat 3 _ Htx)).
  all: try (exact (ranked_flat 15 _ Hcl)).
  all: intros x y Hx Hy; repeat (apply elem_of_app in Hx as [Hx|Hx]);
    try (rewrite (Htx _ Hx)); try (rewrite (Hcl _ Hx)); try (rewrite (Htx _ Hy)); try (rewrite (Hcl _ Hy));
    repeat (apply elem_of_cons in Hx as [->|Hx]); try (by apply elem_of_nil in Hx);
    repeat (apply elem_of_cons in Hy as [->|Hy]); try (by apply elem_of_nil in Hy); cbn; lia.
Qed.

(** A statement of the program that comes before one that was run was run. *)
Lemma run_before n done rest x y :
  done ++ rest = shutdown_program n -> y ∈ done -> x ∈ shutdown_program n -> rank x < rank y -> x ∈ done.
Proof.
  intros Heq Hy Hx Hlt. rewrite <-Heq in Hx. apply elem_of_app in Hx as [?|Hx]; [done|]. exfalso.
  apply list_elem_of_split in Hx as (a & b & ->). pose proof (shutdown_ranked n (done ++ a) x b) as Hr.
  rewrite <-(assoc_L (++)) in Hr. specialize (Hr (eq_sym Heq)). apply Forall_app in Hr as [Hr _].
  rewrite Forall_forall in Hr. specialize (Hr y Hy). lia.
Qed.

Lemma flat_map_nil {A B} (f : A -> list B) l : (forall x, x ∈ l -> f x = []) -> flat_map f l = [].
Proof. induction l as [|x l IH]; intros H; [done|]. cbn. rewrite (H x), IH; [done|set_solver|by left]. Qed.

Lemma program_sends n : flat_map sending_of (shutdown_program n) = [OfflineSent; Disconnected_].
Proof.
  unfold shutdown_program. rewrite !flat_map_app, (flat_map_nil sending_of (map _ _)).
  - rewrite (flat_map_nil sending_of (flat_map _ _)); [done|]. intros x Hx.
    apply list_elem_of_In, in_flat_map in Hx as (j & _ & Hx). cbn in Hx. by destruct Hx as [<-|[<-|[]]].
  - intros x (j & -> & _)%list_elem_of_fmap. done.
Qed.

Lemma close_in_program n j :
  j < n -> CloseTx j ∈ shutdown_program n /\ CloseFrames j ∈ shutdown_program n /\ CloseStatus j ∈ shutdown_program n.
Proof.
  intros Hj. unfold shutdown_program. rewrite !elem_of_app.
  assert (Hin : List.In j (seq 0 n)) by (apply in_seq; lia).
  assert (Hf : forall x, x ∈ [CloseFrames j; CloseStatus j] -> x ∈ flat_map (fun line => [CloseFrames line; CloseStatus line]) (seq 0 n)).
  { intros x Hx. apply list_elem_of_In, in_flat_map. exists j. split; [done|by apply list_elem_of_In]. }
  split_and!.
  - right. left. apply list_elem_of_fmap. exists j. split; [done|by apply list_elem_of_In].
  - do 3 right. left. apply Hf. by left.
  - do 3 right. left. apply Hf. right. by left.
Qed.

(** ** The invariant *)

#[local] Arguments shutdown_program : simpl never.

Record line_ok (done : list instr) (j : nat) (l : line_state) : Prop := {
  lo_writers : WaitWriters ∈ done -> writer_on l = false;
  lo_readers : WaitReaders ∈ done -> reader_on l = false;
  lo_publishers : WaitPublishers ∈ done -> rx_on l = false /\ status_on l = false;
  lo_writer : writer_on l = false -> tx_held l = 0 /\ CloseTx j ∈ done;
  lo_rx : rx_on l = false -> frames_held l = 0 /\ CloseFrames j ∈ done;
  lo_status : status_on l = false -> gave_up l = true \/ (status_held l = 0 /\ ArmEndDrain ∈ done);
  lo_frames : sent l = taken l + frames_held l;
}.

Definition ordinary (x : sending) : Prop := x <> OfflineSent /\ x <> Disconnected_.

Record agent_ok (n : nat) (s : agent_state) : Prop := {
  ok_program : executed s ++ remaining s = shutdown_program n;
  ok_lines : length (line_states s) = n;
  ok_line : forall j l, line_states s !! j = Some l -> line_ok (executed s) j l;
  ok_intake : WaitIntake ∈ executed s -> intake s = None;
  ok_keepalives : WaitKeepalives ∈ executed s -> keepalives_on s = false;
  ok_panic : panicked s = false;
  ok_sends : exists pre, sends s = pre ++ flat_map sending_of (executed s) /\ Forall ordinary pre;
}.

Ltac in_program := solve [unfold shutdown_program; rewrite !elem_of_app, !elem_of_cons; tauto].

(** [x] comes before [y], which was run. *)
Ltac run_before Hok y := eapply (run_before _ _ _ _ y (ok_program _ _ Hok)); [eassumption|in_program|cbn; lia].

(** What was run last may be any statement, and what holds of a device once a
    statement was run still holds. *)
Lemma line_ok_mono done i j l :
  line_ok done j l ->
  (i = WaitWriters -> writer_on l = false) -> (i = WaitReaders -> reader_on l = false) ->
  (i = WaitPublishers -> rx_on l = false /\ status_on l = false) -> line_ok (done ++ [i]) j l.
Proof.
  intros [] Hw Hr Hp. split; try done.
  - intros [?|<-%list_elem_of_singleton]%elem_of_app; auto.
  - intros [?|<-%list_elem_of_singleton]%elem_of_app; auto.
  - intros [?|<-%list_elem_of_singleton]%elem_of_app; auto.
  - intros H. destruct lo_writer0; [done|]. split; [done|]. apply elem_of_app. by left.
  - intros H. destruct lo_rx0; [done|]. split; [done|]. apply elem_of_app. by left.
  - intros H. destruct (lo_status0 H) as [?|[? ?]]; [by left|right]. split; [done|]. apply elem_of_app. by left.
Qed.

Lemma forallb_lookup {A} (p : A -> bool) l j x : forallb p l = true -> l !! j = Some x -> p x = true.
Proof. intros H Hx. eapply forallb_forall; [exact H|]. by eapply list_elem_of_In, list_elem_of_lookup_2. Qed.

Lemma run_instr_ok n i rest s :
  agent_ok n s -> remaining s = i :: rest -> may_run i s = true -> agent_ok n (run_instr i rest s).
Proof.
  intros [Hprog Hlen Hline Hin Hka Hpan Hsends] Hrem Hmay. split; cbn; try done.
  - by rewrite <-Hprog, Hrem, <-(assoc_L (++)).
  - intros j l Hl. apply line_ok_mono; [by apply Hline|..]; intros ->; cbn in Hmay; eapply forallb_lookup in Hmay; try exact Hl;
      cbn in Hmay; destruct (writer_on l), (reader_on l), (rx_on l), (status_on l); done.
  - intros [?|<-%list_elem_of_singleton]%elem_of_app; [by apply Hin|]. cbn in Hmay. by destruct (intake s).
  - intros [?|<-%list_elem_of_singleton]%elem_of_app; [by apply Hka|]. cbn in Hmay. by destruct (keepalives_on s).
  - destruct Hsends as (pre & -> & Hpre). exists pre. split; [|done]. rewrite flat_map_app. cbn. by rewrite app_nil_r, (assoc_L (++)).
Qed.

(** While a publisher, or the keepalive, still runs, the offline message is not
    sent. *)
Lemma not_offline n s (i : instr) :
  agent_ok n s -> i ∈ shutdown_program n -> rank i <= 16 -> i ∉ executed s -> flat_map sending_of (executed s) = [].
Proof.
  intros Hok Hi Hrank Hnot. apply flat_map_nil. intros y Hy. destruct y; try done; exfalso; apply Hnot;
    (eapply (run_before _ _ _ _ _ (ok_program _ _ Hok)); [exact Hy|exact Hi|cbn; lia]).
Qed.

Lemma send_ok n s x :
  agent_ok n s -> flat_map sending_of (executed s) = [] -> ordinary x -> agent_ok n (send x s).
Proof.
  intros [] Hquiet Hx. split; try done. destruct ok_sends0 as (pre & Hs & Hpre). exists (pre ++ [x]). cbn. rewrite Hs, Hquiet, !app_nil_r.
  split; [done|]. by apply Forall_app; split; [|constructor].
Qed.

Lemma on_line_ok n s j l f :
  agent_ok n s -> line_states s !! j = Some l -> line_ok (executed s) j (f l) -> agent_ok n (on_line j f s).
Proof.
  intros [] Hl Hf. split; try done; cbn; [by rewrite length_alter|].
  intros i l' Hl'. destruct (decide (i = j)) as [->|Hne].
  - rewrite list_lookup_alter_eq, Hl in Hl'. injection Hl' as <-. done.
  - rewrite list_lookup_alter_ne in Hl' by done. by apply ok_line0.
Qed.

Lemma alter_none (f : line_state -> line_state) (j : nat) (ls : list line_state) : ls !! j = None -> alter f j ls = ls.
Proof.
  intros Hj. apply list_eq. intros i. destruct (decide (i = j)) as [->|Hne]; [|by rewrite list_lookup_alter_ne].
  by rewrite list_lookup_alter_eq, Hj.
Qed.

(** A status message joins a queue that is still looked after. *)
Lemma push_status_ok done j l : line_ok done j l -> ArmEndDrain ∉ done -> line_ok done j (push_status l).
Proof. intros [] Hnot. split; try done. cbn. intros H. destruct (lo_status0 H) as [?|[_ ?]]; [by left|done]. Qed.

(** The drain is armed only when nobody is left to add to the queues. *)
Lemma not_drained n s :
  agent_ok n s -> ArmEndDrain ∈ executed s ->
  intake s = None /\ forall j l, line_states s !! j = Some l -> writer_on l = false /\ reader_on l = false.
Proof.
  intros Hok Hin. split.
  - apply (ok_intake _ _ Hok). run_before Hok ArmEndDrain.
  - intros j l Hl. pose proof (ok_line _ _ Hok j l Hl) as Hline. split.
    + apply (lo_writers _ _ _ Hline). run_before Hok ArmEndDrain.
    + apply (lo_readers _ _ _ Hline). run_before Hok ArmEndDrain.
Qed.

Lemma line_step_ok buffer env n s j l f xs :
  agent_ok n s -> line_states s !! j = Some l -> line_step buffer env (executed s) j l f xs ->
  line_ok (executed s) j (f l) /\ Forall ordinary xs /\ (xs <> [] -> flat_map sending_of (executed s) = []).
Proof.
  intros Hok Hl Hstep. pose proof (ok_line _ _ Hok j l Hl) as Hline.
  assert (Hdrain : writer_on l = true \/ reader_on l = true -> ArmEndDrain ∉ executed s).
  { intros Hon Hin. destruct (not_drained n s Hok Hin) as [_ H]. destruct (H j l Hl). destruct Hon; congruence. }
  assert (Hquiet : rx_on l = true \/ status_on l = true -> flat_map sending_of (executed s) = []).
  { intros Hon. apply (not_offline n s WaitPublishers Hok); [in_program|done|]. intros Hin.
    destruct (lo_publishers _ _ _ Hline Hin). destruct Hon; congruence. }
  destruct Hstep as [Hon|Hon Hroom Hopen|Hon _|Hon Hheld _|Hon Hheld Hclosed|Hon Hheld|Hon Hheld Hclosed|Hon Hheld _|Hon Hheld Hclosed|gone Hon Hheld Hwhy];
    (split; [|split; [repeat constructor; done|by intros; auto]]).
  - apply push_status_ok; auto.
  - destruct Hline. split; try done; cbn; [|lia]. intros Hoff. destruct (lo_rx0 Hoff). done.
  - destruct Hline. split; try done.
  - apply push_status_ok; [|auto]. destruct Hline. split; try done; cbn. intros Hoff. congruence.
  - destruct Hline. split; try done.
  - destruct Hline. split; try done; cbn; [|lia]. intros Hoff. congruence.
  - destruct Hline. split; try done. cbn. intros Hin. split; [done|]. by apply lo_publishers0.
  - destruct Hline. split; try done. cbn. intros Hoff. congruence.
  - destruct Hline. split; try done; cbn; [intros Hin; split; [by apply lo_publishers0|done]|].
    intros _. right. split; [done|]. eapply (run_before _ _ _ _ _ (ok_program _ _ Hok)); [exact Hclosed|in_program|cbn; lia].
  - destruct Hline. split; try done; cbn; [intros Hin; split; [by apply lo_publishers0|done]|].
    intros _. destruct gone; [by left|by right].
Qed.

Lemma agent_step_ok buffer tx_in env n s s' : agent_ok n s -> agent_step buffer tx_in env s s' -> agent_ok n s'.
Proof.
  intros Hok Hstep. destruct Hstep as [s i rest Hrem Hmay|s j l f xs Hl Hstep|s j l Hl Hon Hclosed|s lines Hin|s lines rest Hi Ha
    |s j lines queued Hi Hq|s Hi Hend|s Hon|s Hon Hend].
  - by apply run_instr_ok.
  - destruct (line_step_ok buffer env n s j l f xs Hok Hl Hstep) as (Hf & Hord & Hquiet).
    pose proof (on_line_ok n s j l f Hok Hl Hf) as Hok'. revert Hok' Hquiet. change (executed s) with (executed (on_line j f s)).
    clear Hf Hstep. generalize (on_line j f s) as s'. induction Hord as [|x xs Hx Hxs IH]; intros s' Hok' Hquiet; [done|]. cbn [foldl].
    apply IH; [apply send_ok; auto|]. intros _. by apply Hquiet.
  - exfalso. pose proof (ok_line _ _ Hok j l Hl) as Hline. rewrite (lo_readers _ _ _ Hline) in Hon; [done|].
    eapply (run_before _ _ _ _ _ (ok_program _ _ Hok)); [exact Hclosed|in_program|cbn; lia].
  - destruct Hok. by split.
  - destruct Hok. split; try done. cbn. intros Hin. rewrite (ok_intake0 Hin) in Hi. done.
  - assert (Hdrain : ArmEndDrain ∉ executed s) by (intros Hin; destruct (not_drained n s Hok Hin) as [Hnone _]; congruence).
    assert (Hnone : WaitIntake ∈ executed s -> Some lines = None) by (intros Hin; rewrite (ok_intake _ _ Hok Hin) in Hi; done).
    assert (Hok' : agent_ok n (on_line j (fun l => if queued then push_tx (push_status l) else push_status l) s)).
    { destruct (line_states s !! j) as [l|] eqn:Hl.
      - apply (on_line_ok n s j l _ Hok Hl). pose proof (push_status_ok _ _ _ (ok_line _ _ Hok j l Hl) Hdrain) as Hp.
        destruct queued; [|done]. destruct Hp. split; try done. cbn. intros Hoff. exfalso. apply (Hq eq_refl).
        destruct (lo_writer0 Hoff) as [_ Hclosed].
        eapply (run_before _ _ _ _ _ (ok_program _ _ Hok)); [exact Hclosed|in_program|cbn; lia].
      - unfold on_line. rewrite alter_none by done. by destruct s. }
    destruct Hok'. split; try done.
  - destruct Hok. split; try done.
  - apply send_ok; [done| |done]. apply (not_offline n s WaitKeepalives Hok); [in_program|cbn; lia|].
    intros Hin. rewrite (ok_keepalives _ _ Hok Hin) in Hon. done.
  - destruct Hok. split; try done.
Qed.

Lemma agent_start_ok n : agent_ok n (agent_start n).
Proof.
  split; try done; cbn; try (by intros ?%elem_of_nil); [by rewrite length_replicate| |by exists []].
  intros j l [-> _]%lookup_replicate. split; try done; by intros ?%elem_of_nil.
Qed.

Lemma agent_reachable_ok buffer tx_in env n s : rtc (agent_step buffer tx_in env) (agent_start n) s -> agent_ok n s.
Proof.
  intros Hr. pose proof (agent_start_ok n) as Hok. revert Hok. induction Hr; eauto using agent_step_ok.
Qed.

(** ** The end is always within reach *)

Definition on (b : bool) : nat := if b then 1 else 0.

(** What is still to be done: a statement, a goroutine, a message; a tx in hand
    weighs the status message it becomes, and one that has arrived those of
    every device it reaches. *)
Definition line_weight (l : line_state) : nat :=
  on (writer_on l) + on (reader_on l) + on (rx_on l) + on (status_on l) + 2 * tx_held l + frames_held l + status_held l.

Definition weight (s : agent_state) : nat :=
  length (remaining s) + sum_list_with line_weight (line_states s) +
  match intake s with Some lines => 1 + 2 * length lines | None => 0 end +
  sum_list_with (fun lines => 1 + 2 * length lines) (arrived s) + on (keepalives_on s).

Lemma weight_on_line s j l f :
  line_states s !! j = Some l -> weight (on_line j f s) + line_weight l = weight s + line_weight (f l).
Proof.
  intros Hl. unfold weight. cbn.
  assert (Hsum : sum_list_with line_weight (alter f j (line_states s)) + line_weight l =
    sum_list_with line_weight (line_states s) + line_weight (f l)).
  { revert j Hl. induction (line_states s) as [|l' ls IH]; intros [|j] Hl; cbn in *; try done.
    - injection Hl as ->. lia.
    - specialize (IH j Hl). lia. }
  lia.
Qed.

Lemma weight_sends s xs : weight (foldl (fun s x => send x s) s xs) = weight s.
Proof. revert s. induction xs as [|x xs IH]; intros s; [done|]. cbn. by rewrite IH. Qed.

(** A step of a device that makes it lighter. *)
Lemma lighter_line buffer tx_in env s j l f xs :
  line_states s !! j = Some l -> line_step buffer env (executed s) j l f xs -> line_weight (f l) < line_weight l ->
  exists s', agent_step buffer tx_in env s s' /\ weight s' < weight s.
Proof.
  intros Hl Hstep Hlt. eexists. split; [by eapply step_line|]. rewrite weight_sends.
  pose proof (weight_on_line s j l f Hl). lia.
Qed.

(** A goroutine [Run] waits for can go on to its end. *)
Lemma not_forallb (p : line_state -> bool) ls : forallb p ls = false -> exists j l, ls !! j = Some l /\ p l = false.
Proof.
  induction ls as [|l ls IH]; [done|]. cbn. destruct (p l) eqn:Hp; [|intros _; by exists 0, l].
  intros H. destruct (IH H) as (j & l' & ? & ?). by exists (S j), l'.
Qed.

Section Progress.
Context (buffer : nat) (tx_in : bool) (n : nat) (s : agent_state).
Context (Hok : agent_ok n s).

(** A statement that comes before the next one was run. *)
Lemma ran_before x i rest : remaining s = i :: rest -> x ∈ shutdown_program n -> rank x < rank i -> x ∈ executed s.
Proof.
  intros Hrem Hx Hlt. rewrite <-(ok_program _ _ Hok), Hrem, elem_of_app in Hx. destruct Hx as [?|Hx]; [done|]. exfalso.
  assert (Heq : (executed s ++ [i]) ++ rest = shutdown_program n) by (by rewrite <-(ok_program _ _ Hok), Hrem, <-(assoc_L (++))).
  apply elem_of_cons in Hx as [->|Hx]; [lia|].
  apply list_elem_of_split in Hx as (a & b & ->). pose proof (shutdown_ranked n ((executed s ++ [i]) ++ a) x b) as Hr.
  rewrite <-(assoc_L (++)) in Hr. specialize (Hr (eq_sym Heq)). rewrite !Forall_app, Forall_singleton in Hr. lia.
Qed.

Lemma writer_goes_on j l : line_states s !! j = Some l -> writer_on l = true -> CloseTx j ∈ executed s ->
  SetStopping ∈ executed s -> CloseStoppingCh ∈ executed s -> ArmCutWrites ∈ executed s ->
  exists s', agent_step buffer tx_in nothing s s' /\ weight s' < weight s.
Proof.
  intros Hl Hon Hclosed Hset Hch Hcut. destruct (decide (tx_held l = 0)) as [Hz|Hz].
  - eapply lighter_line; [exact Hl|by apply writer_ends|]. unfold line_weight. rewrite Hon. cbn. lia.
  - eapply lighter_line; [exact Hl|apply writer_takes; [done|lia|by right]|]. unfold line_weight. cbn. lia.
Qed.

Lemma publishers_go_on j l : line_states s !! j = Some l -> rx_on l = true \/ status_on l = true ->
  CloseFrames j ∈ executed s -> CloseStatus j ∈ executed s -> ArmEndDrain ∈ executed s ->
  exists s', agent_step buffer tx_in nothing s s' /\ weight s' < weight s.
Proof.
  intros Hl [Hon|Hon] Hframes Hstatus Hdrain.
  - destruct (decide (frames_held l = 0)) as [Hz|Hz]; (eapply lighter_line; [exact Hl| |]).
    + by apply rx_ends.
    + unfold line_weight. rewrite Hon. cbn. lia.
    + apply rx_takes; [done|lia].
    + unfold line_weight. cbn. lia.
  - destruct (decide (status_held l = 0)) as [Hz|Hz]; (eapply lighter_line; [exact Hl| |]).
    + by apply status_ends.
    + unfold line_weight. rewrite Hon. cbn. lia.
    + apply (status_drops _ _ _ _ _ false); [done|lia|done].
    + unfold line_weight. rewrite Hon. cbn. lia.
Qed.

Lemma intake_goes_on lines : intake s = Some lines -> CloseStopIntake ∈ executed s -> SetStopping ∈ executed s ->
  exists s', agent_step buffer tx_in nothing s s' /\ weight s' < weight s.
Proof.
  intros Hi Hstop Hset. destruct lines as [|j lines].
  - destruct (arrived s) as [|lines rest] eqn:Ha.
    + eexists. split; [apply step_intake_end; [done|by right]|]. unfold weight. cbn. rewrite Hi, Ha. cbn. lia.
    + eexists. split; [by eapply step_take|]. unfold weight. cbn. rewrite Hi, Ha. cbn. lia.
  - eexists. split; [apply (step_admit buffer tx_in nothing s j lines false Hi); done|]. unfold weight. cbn. rewrite Hi. cbn.
    destruct (line_states s !! j) as [l|] eqn:Hl.
    + change (fun l0 : line_state => push_status l0) with push_status.
      pose proof (weight_on_line s j l push_status Hl) as Hw. unfold weight in Hw. cbn in Hw. rewrite Hi in Hw. cbn in Hw.
      assert (line_weight (push_status l) = S (line_weight l)) by (unfold line_weight; cbn; lia). lia.
    + rewrite alter_none by done. lia.
Qed.

Lemma shutdown_goes_on : remaining s <> [] -> exists s', agent_step buffer tx_in nothing s s' /\ weight s' < weight s.
Proof.
  intros Hne. destruct (remaining s) as [|i rest] eqn:Hrem; [done|].
  destruct (may_run i s) eqn:Hmay.
  { eexists. split; [by apply step_run|]. unfold weight. cbn. rewrite Hrem. cbn. destruct i; cbn; lia. }
  assert (Hbefore : forall x, x ∈ shutdown_program n -> rank x < rank i -> x ∈ executed s) by (intros; by eapply ran_before).
  assert (Hlt : forall j l, line_states s !! j = Some l -> j < n) by (intros j l Hl; rewrite <-(ok_lines _ _ Hok); by eapply lookup_lt_Some).
  destruct i; try done; cbn in Hmay.
  - apply not_forallb in Hmay as (j & l & Hl & Hon). apply (writer_goes_on j l Hl); [by destruct (writer_on l)|..];
      (apply Hbefore; [first [in_program|apply close_in_program; eauto]|cbn; lia]).
  - eexists. split; [apply step_keepalives_end|].
    + by destruct (keepalives_on s).
    + apply Hbefore; [in_program|cbn; lia].
    + unfold weight. cbn. destruct (keepalives_on s); [cbn; lia|done].
  - apply not_forallb in Hmay as (j & l & Hl & Hon). assert (Hr : reader_on l = true) by (by destruct (reader_on l)).
    eapply lighter_line; [exact Hl|apply reader_ends; [done|right; apply Hbefore; [in_program|cbn; lia]]|]. unfold line_weight. cbn. rewrite Hr. cbn. lia.
  - destruct (intake s) as [lines|] eqn:Hi; [|done]. apply (intake_goes_on lines Hi); apply Hbefore; [in_program|cbn; lia|in_program|cbn; lia].
  - apply not_forallb in Hmay as (j & l & Hl & Hon). apply (publishers_go_on j l Hl).
    + destruct (rx_on l); [by left|]. right. by destruct (status_on l).
    + apply Hbefore; [apply close_in_program; eauto|cbn; lia].
    + apply Hbefore; [apply close_in_program; eauto|cbn; lia].
    + apply Hbefore; [in_program|cbn; lia].
Qed.
End Progress.

(** ** Properties *)

(** C24: the agent stops in order, whatever its goroutines do: no send on a
    closed channel panics; a port is open to be written until its writer has
    returned with no tx left; when the offline message goes out every goroutine
    has returned, every frame a reader sent was taken by its publisher, and every
    status message was taken or dropped with a record, unless the connection
    manager was gone; and the offline message is the last publish, sent once,
    with the disconnect after it. *)
Theorem shutdown_order buffer tx_in env n s :
  rtc (agent_step buffer tx_in env) (agent_start n) s ->
  panicked s = false /\
  (forall j l, line_states s !! j = Some l ->
    (StopReaders ∈ executed s -> writer_on l = false /\ tx_held l = 0) /\
    (SendOffline ∈ executed s ->
      writer_on l = false /\ reader_on l = false /\ rx_on l = false /\ status_on l = false /\
      frames_held l = 0 /\ sent l = taken l /\ (status_held l = 0 \/ gave_up l = true))) /\
  (SendOffline ∈ executed s -> intake s = None /\ keepalives_on s = false) /\
  (exists pre last, sends s = pre ++ last /\ Forall ordinary pre /\ last `prefix_of` [OfflineSent; Disconnected_] /\
    (remaining s = [] -> last = [OfflineSent; Disconnected_])).
Proof.
  intros Hr. pose proof (agent_reachable_ok _ _ _ _ _ Hr) as Hok. split; [by apply (ok_panic _ _ Hok)|]. split_and!.
  - intros j l Hl. pose proof (ok_line _ _ Hok j l Hl) as Hline. split; intros Hin.
    + assert (Hoff : writer_on l = false) by (apply (lo_writers _ _ _ Hline); run_before Hok StopReaders).
      split; [done|]. by apply (lo_writer _ _ _ Hline).
    + assert (Hw : writer_on l = false) by (apply (lo_writers _ _ _ Hline); run_before Hok SendOffline).
      assert (Hrd : reader_on l = false) by (apply (lo_readers _ _ _ Hline); run_before Hok SendOffline).
      destruct (lo_publishers _ _ _ Hline) as [Hrx Hst]; [run_before Hok SendOffline|].
      destruct (lo_rx _ _ _ Hline Hrx) as [Hf _]. pose proof (lo_frames _ _ _ Hline).
      split_and!; try done; [lia|]. destruct (lo_status _ _ _ Hline Hst) as [?|[? _]]; auto.
  - intros Hin. split; [apply (ok_intake _ _ Hok)|apply (ok_keepalives _ _ Hok)]; run_before Hok SendOffline.
  - destruct (ok_sends _ _ Hok) as (pre & Hs & Hpre). exists pre, (flat_map sending_of (executed s)). split_and!; try done.
    + rewrite <-(program_sends n), <-(ok_program _ _ Hok), flat_map_app. by apply prefix_app_r.
    + intros Hrem. rewrite <-(program_sends n), <-(ok_program _ _ Hok), Hrem, app_nil_r. done.
Qed.

(** C25: the agent can always come to its end: from any state it can reach, once
    its context ends, there are steps of its goroutines after which [Run] has
    returned; nothing it waits for waits for it. It is [Run]'s own statements
    that bring each to its end: the steps need no reader that returns before it
    is stopped, no write that ends before it is cut, and no broker that answers. *)
Theorem shutdown_ends buffer tx_in env n s :
  rtc (agent_step buffer tx_in env) (agent_start n) s ->
  exists s', rtc (agent_step buffer tx_in nothing) s s' /\ remaining s' = [].
Proof.
  intros Hr. pose proof (agent_reachable_ok _ _ _ _ _ Hr) as Hok. clear Hr.
  remember (weight s) as w eqn:Hw. revert s Hok Hw. induction (lt_wf w) as [w _ IH]. intros s Hok ->.
  destruct (remaining s) eqn:Hrem; [by exists s|].
  destruct (shutdown_goes_on buffer tx_in n s Hok) as (s1 & Hstep & Hlt); [by rewrite Hrem|].
  destruct (IH (weight s1) Hlt s1) as (s' & Hsteps & Hend); [by eapply agent_step_ok|done|]. exists s'. split; [by eapply rtc_l|done].
Qed.

(** ** Witnesses *)

Ltac run_next := eapply rtc_l; [eapply step_run; reflexivity|unfold run_instr; cbn].
Ltac line_next step :=
  eapply rtc_l; [eapply (step_line _ _ _ _ 0); [reflexivity|eapply step; first [reflexivity|cbn; lia|left; reflexivity|cbn; set_solver]]|cbn].

(** An agent with one device, stopped with a frame in its buffer. *)
Lemma a_stop : exists s, rtc (agent_step 4 true anything) (agent_start 1) s /\ remaining s = [] /\
  sends s = [KeepaliveSent; RxSent 0; OfflineSent; Disconnected_] /\ SendOffline ∈ executed s /\
  exists l, line_states s !! 0 = Some l /\ sent l = 1.
Proof.
  eexists. split.
  - eapply rtc_l; [eapply step_keepalive; reflexivity|]. line_next reader_sends.
    do 5 run_next. line_next writer_ends. do 3 run_next.
    eapply rtc_l; [eapply step_keepalives_end; [reflexivity|cbn; set_solver]|cbn]. do 2 run_next.
    line_next reader_ends. do 2 run_next.
    eapply rtc_l; [eapply step_intake_end; [reflexivity|right; split; [cbn; set_solver|reflexivity]]|cbn].
    do 5 run_next. line_next rx_takes. line_next rx_ends. line_next status_ends. do 4 run_next. apply rtc_refl.
  - cbn. split_and!; [done|done|set_solver|by eexists].
Qed.

Lemma shutdown_order_witness :
  exists s l, rtc (agent_step 4 true anything) (agent_start 1) s /\ line_states s !! 0 = Some l /\ sent l = 1 /\ taken l = 1 /\ panicked s = false.
Proof.
  destruct a_stop as (s & Hr & _ & _ & Hoff & l & Hl & Hsent). exists s, l.
  destruct (shutdown_order 4 true anything 1 s Hr) as (Hpanic & Hline & _).
  destruct (Hline 0 l Hl) as [_ Hend]. destruct (Hend Hoff) as (_ & _ & _ & _ & _ & Htaken & _).
  split; [exact Hr|]. split; [exact Hl|]. split; [exact Hsent|]. split; [by rewrite <-Htaken|exact Hpanic].
Defined.

(** Stopped while two devices read and one has a tx in hand, and nothing answers. *)
Lemma shutdown_ends_witness :
  exists s s', rtc (agent_step 4 true anything) (agent_start 2) s /\ map tx_held (line_states s) = [1; 0] /\
    rtc (agent_step 4 true nothing) s s' /\ remaining s' = [].
Proof.
  assert (Hr : exists s, rtc (agent_step 4 true anything) (agent_start 2) s /\ map tx_held (line_states s) = [1; 0]).
  { eexists. split; [|shelve]. eapply rtc_l; [by apply (step_arrive _ _ _ _ [0])|]. eapply rtc_l; [by eapply step_take|].
    eapply rtc_l; [eapply (step_admit _ _ _ _ _ _ true); [reflexivity|cbn; intros _; set_solver]|]. apply rtc_refl. Unshelve. done. }
  destruct Hr as (s & Hr & Hheld). destruct (shutdown_ends 4 true anything 2 s Hr) as (s' & Hsteps & Hend). by exists s, s'.
Defined.
