(* ===== verification/Config.v ===== *)
(** * The configuration: internal/config/config.go, defaults.go, env.go and load.go

    The settings, their defaults, and how a file, the environment and the flags
    are laid over one another. What gopkg.in/yaml.v3 makes of a file is an
    argument: the configuration it decodes on top of [Defaults]. *)
From S2P Require Import Prelude GoLib Float Strconv Topics Backoff.
From Stdlib Require Import Floats.SpecFloat.
#[local] Open Scope string_scope.

(** ** The settings *)

Definition Minute : duration := (60 * Second)%Z.

Record Identity := mkIdentity { id_Project : string; id_Site : string; id_Station : string; id_Instance : string }.

Record Backoff := mkBackoff { bo_Enabled : bool; bo_Max : duration; bo_Jitter : float64 }.

(** [Backoff.policy]. *)
Definition policy (settings : Backoff) (interval : duration) : Policy :=
  mkPolicy interval (bo_Enabled settings) (bo_Max settings) (bo_Jitter settings).

Record Broker := mkBroker {
  br_URL : string; br_CredentialsFile : string; br_CAFile : string; br_Insecure : bool;
  br_Keepalive : duration; br_ConnectTimeout : duration; br_ReconnectInterval : duration; br_ReconnectBackoff : Backoff;
}.

Definition ReconnectPolicy (broker : Broker) : Policy := policy (br_ReconnectBackoff broker) (br_ReconnectInterval broker).

Definition KindSerial := "serial".
Definition KindHID := "hid".

Record BroadcastGroups := mkBroadcastGroups { bg_Project : list string; bg_Site : list string; bg_Station : list string }.

Record Device := mkDeviceCfg {
  dc_ID : string; dc_Kind : string; dc_Path : string; dc_Baud : Z; dc_DataBits : Z; dc_Parity : string; dc_StopBits : string;
  dc_Separator : string; dc_MaxFrameBytes : Z; dc_InterCharTimeout : duration; dc_MessageExpiry : duration;
  dc_DeviceType : string; dc_ReopenInterval : duration; dc_ReopenBackoff : Backoff;
  dc_TxOpenAttempts : Z; dc_TxOpenInterval : duration; dc_TxChunkBytes : Z; dc_TxRememberedIDs : Z;
  dc_BroadcastGroups : BroadcastGroups;
}.

Definition ReopenPolicy (deviceCfg : Device) : Policy := policy (dc_ReopenBackoff deviceCfg) (dc_ReopenInterval deviceCfg).
Definition SeparatorBytes (deviceCfg : Device) : bytes := bytes_of_string (dc_Separator deviceCfg).

(** [ScopedGroups]: a scope and its groups. *)
Definition ByScope (groups : BroadcastGroups) : list (TxScope * list string) :=
  [(ScopeProject, bg_Project groups); (ScopeSite, bg_Site groups); (ScopeStation, bg_Station groups)].

Definition ParityNone := "none".
Definition ParityOdd := "odd".
Definition ParityEven := "even".
Definition ParityMark := "mark".
Definition ParitySpace := "space".
Definition Parities : list string := [ParityNone; ParityOdd; ParityEven; ParityMark; ParitySpace].
Definition StopBitsOne := "1".
Definition StopBitsTwo := "2".

Record Delivery := mkDelivery {
  de_PublishTimeout : duration; de_BufferSize : Z; de_DrainTimeout : duration; de_TxIntakeSize : Z;
}.

Record Status := mkStatus { st_KeepaliveInterval : duration; st_MissedKeepalives : Z; st_EventBufferSize : Z }.

Record Logging := mkLogging {
  lo_Level : string; lo_LogPayloads : bool; lo_File : string; lo_MaxSizeMB : Z; lo_Keep : Z; lo_Stdout : bool;
}.

Record Config := mkConfig {
  cfg_Identity : Identity; cfg_Broker : Broker; cfg_Devices : list Device; cfg_Delivery : Delivery;
  cfg_Status : Status; cfg_Logging : Logging; cfg_File : string;
}.

(** ** Defaults *)

(** 0.3, as Go reads it. *)
Definition DefaultReopenBackoffJitter : float64 := third.
Definition DefaultReconnectBackoffJitter : float64 := third.

Definition Defaults : Config :=
  mkConfig (mkIdentity "" "" "" "")
    (mkBroker "" "" "" false (30 * Second) (10 * Second) (1 * Second) (mkBackoff false (60 * Second) DefaultReconnectBackoffJitter))
    []
    (mkDelivery (2 * Second) 64 (5 * Second) 256)
    (mkStatus (15 * Second) 3 64)
    (mkLogging "info" false "" 64 7 true) "".

Definition DefaultDevice : Device :=
  mkDeviceCfg "" KindSerial "" 9600 8 ParityNone StopBitsOne "" 4096 (200 * Millisecond) (30 * Second) ""
    (100 * Millisecond) (mkBackoff true (30 * Second) DefaultReopenBackoffJitter) 3 (1 * Second) 1024 1024
    (mkBroadcastGroups [] [] []).

(** [applyDerivedDefaults]. *)
Definition with_Identity f cfg := mkConfig (f (cfg_Identity cfg)) (cfg_Broker cfg) (cfg_Devices cfg) (cfg_Delivery cfg) (cfg_Status cfg) (cfg_Logging cfg) (cfg_File cfg).
Definition with_Broker f cfg := mkConfig (cfg_Identity cfg) (f (cfg_Broker cfg)) (cfg_Devices cfg) (cfg_Delivery cfg) (cfg_Status cfg) (cfg_Logging cfg) (cfg_File cfg).
Definition with_Devices l cfg := mkConfig (cfg_Identity cfg) (cfg_Broker cfg) l (cfg_Delivery cfg) (cfg_Status cfg) (cfg_Logging cfg) (cfg_File cfg).
Definition with_Delivery f cfg := mkConfig (cfg_Identity cfg) (cfg_Broker cfg) (cfg_Devices cfg) (f (cfg_Delivery cfg)) (cfg_Status cfg) (cfg_Logging cfg) (cfg_File cfg).
Definition with_Status f cfg := mkConfig (cfg_Identity cfg) (cfg_Broker cfg) (cfg_Devices cfg) (cfg_Delivery cfg) (f (cfg_Status cfg)) (cfg_Logging cfg) (cfg_File cfg).
Definition with_Logging f cfg := mkConfig (cfg_Identity cfg) (cfg_Broker cfg) (cfg_Devices cfg) (cfg_Delivery cfg) (cfg_Status cfg) (f (cfg_Logging cfg)) (cfg_File cfg).
Definition with_File file cfg := mkConfig (cfg_Identity cfg) (cfg_Broker cfg) (cfg_Devices cfg) (cfg_Delivery cfg) (cfg_Status cfg) (cfg_Logging cfg) file.

(** A field's assignment. *)
Definition set_Project v := with_Identity (fun i => mkIdentity v (id_Site i) (id_Station i) (id_Instance i)).
Definition set_Site v := with_Identity (fun i => mkIdentity (id_Project i) v (id_Station i) (id_Instance i)).
Definition set_Station v := with_Identity (fun i => mkIdentity (id_Project i) (id_Site i) v (id_Instance i)).
Definition set_Instance v := with_Identity (fun i => mkIdentity (id_Project i) (id_Site i) (id_Station i) v).
Definition set_URL v := with_Broker (fun b => mkBroker v (br_CredentialsFile b) (br_CAFile b) (br_Insecure b) (br_Keepalive b) (br_ConnectTimeout b) (br_ReconnectInterval b) (br_ReconnectBackoff b)).
Definition set_CredentialsFile v := with_Broker (fun b => mkBroker (br_URL b) v (br_CAFile b) (br_Insecure b) (br_Keepalive b) (br_ConnectTimeout b) (br_ReconnectInterval b) (br_ReconnectBackoff b)).
Definition set_CAFile v := with_Broker (fun b => mkBroker (br_URL b) (br_CredentialsFile b) v (br_Insecure b) (br_Keepalive b) (br_ConnectTimeout b) (br_ReconnectInterval b) (br_ReconnectBackoff b)).
Definition set_Insecure v := with_Broker (fun b => mkBroker (br_URL b) (br_CredentialsFile b) (br_CAFile b) v (br_Keepalive b) (br_ConnectTimeout b) (br_ReconnectInterval b) (br_ReconnectBackoff b)).
Definition set_Keepalive v := with_Broker (fun b => mkBroker (br_URL b) (br_CredentialsFile b) (br_CAFile b) (br_Insecure b) v (br_ConnectTimeout b) (br_ReconnectInterval b) (br_ReconnectBackoff b)).
Definition set_ConnectTimeout v := with_Broker (fun b => mkBroker (br_URL b) (br_CredentialsFile b) (br_CAFile b) (br_Insecure b) (br_Keepalive b) v (br_ReconnectInterval b) (br_ReconnectBackoff b)).
Definition set_ReconnectInterval v := with_Broker (fun b => mkBroker (br_URL b) (br_CredentialsFile b) (br_CAFile b) (br_Insecure b) (br_Keepalive b) (br_ConnectTimeout b) v (br_ReconnectBackoff b)).
Definition set_PublishTimeout v := with_Delivery (fun d => mkDelivery v (de_BufferSize d) (de_DrainTimeout d) (de_TxIntakeSize d)).
Definition set_BufferSize v := with_Delivery (fun d => mkDelivery (de_PublishTimeout d) v (de_DrainTimeout d) (de_TxIntakeSize d)).
Definition set_DrainTimeout v := with_Delivery (fun d => mkDelivery (de_PublishTimeout d) (de_BufferSize d) v (de_TxIntakeSize d)).
Definition set_TxIntakeSize v := with_Delivery (fun d => mkDelivery (de_PublishTimeout d) (de_BufferSize d) (de_DrainTimeout d) v).
Definition set_KeepaliveInterval v := with_Status (fun s => mkStatus v (st_MissedKeepalives s) (st_EventBufferSize s)).
Definition set_MissedKeepalives v := with_Status (fun s => mkStatus (st_KeepaliveInterval s) v (st_EventBufferSize s)).
Definition set_EventBufferSize v := with_Status (fun s => mkStatus (st_KeepaliveInterval s) (st_MissedKeepalives s) v).
Definition set_Level v := with_Logging (fun l => mkLogging v (lo_LogPayloads l) (lo_File l) (lo_MaxSizeMB l) (lo_Keep l) (lo_Stdout l)).
Definition set_LogPayloads v := with_Logging (fun l => mkLogging (lo_Level l) v (lo_File l) (lo_MaxSizeMB l) (lo_Keep l) (lo_Stdout l)).
Definition set_File v := with_Logging (fun l => mkLogging (lo_Level l) (lo_LogPayloads l) v (lo_MaxSizeMB l) (lo_Keep l) (lo_Stdout l)).
Definition set_MaxSizeMB v := with_Logging (fun l => mkLogging (lo_Level l) (lo_LogPayloads l) (lo_File l) v (lo_Keep l) (lo_Stdout l)).
Definition set_Keep v := with_Logging (fun l => mkLogging (lo_Level l) (lo_LogPayloads l) (lo_File l) (lo_MaxSizeMB l) v (lo_Stdout l)).
Definition set_Stdout v := with_Logging (fun l => mkLogging (lo_Level l) (lo_LogPayloads l) (lo_File l) (lo_MaxSizeMB l) (lo_Keep l) v).

Definition applyDerivedDefaults (cfg : Config) : Config :=
  if bool_decide (id_Instance (cfg_Identity cfg) = "") then set_Instance (id_Station (cfg_Identity cfg)) cfg else cfg.

(** ** The environment *)

Definition EnvPrefix := "SH_DEV_AGENT_".
Definition legacyEnvPrefixes : list string := ["SKUHUS_AGENT_"; "SH_DEV_SER_SCANNER_"].
Definition env_name (suffix : string) : string := EnvPrefix +:+ suffix.
Definition EnvConfigPath := env_name "CONFIG".
Definition EnvMQTTPassword := env_name "MQTT_PASSWORD".
Definition EnvMQTTUsername := env_name "MQTT_USERNAME".

(** [removedEnv]. *)
Definition removedEnv : gmap string string :=
  list_to_map [(env_name "DELIVERY_SCAN_TTL", "set message_expiry on each device in the config file");
    (env_name "LOGGING_AUDIT_FILE", "use " +:+ env_name "LOGGING_FILE");
    (env_name "LOGGING_AUDIT_MAX_SIZE_MB", "use " +:+ env_name "LOGGING_MAX_SIZE_MB");
    (env_name "LOGGING_AUDIT_KEEP", "use " +:+ env_name "LOGGING_KEEP")].

(** What is wrong with a variable, or with the variables that are unknown. *)
Inductive env_problem :=
  | LegacyRemoved (name instead : string)
  | LegacyRenamed (name instead : string)
  | VariableRemoved (name instead : string)
  | BadValue (name expected value : string)
  | Unrecognised (unknown known : list string).

(** A variable of an earlier release, and its suffix: the first prefix that it
    has. *)
Definition legacy_suffix (name : string) : option string :=
  foldr (fun legacy found => match CutPrefix name legacy with Some suffix => Some suffix | None => found end) None legacyEnvPrefixes.

Definition equals_sign : Ascii.ascii := Ascii.ascii_of_nat 61.

Definition rejectLegacyEnvironment (environ : list string) : list env_problem :=
  let names := List.filter (fun name => bool_decide (is_Some (legacy_suffix name))) (map (fun entry => (Cut entry equals_sign).1) environ) in
  omap (fun name =>
    suffix ← legacy_suffix name;
    Some (match removedEnv !! env_name suffix with
          | Some instead => LegacyRemoved name instead
          | None => LegacyRenamed name (env_name suffix)
          end)) (sort_strings names).

(** [envMap]: of two entries of one name, the later. *)
Definition envMap (environ : list string) : gmap string string :=
  foldl (fun out entry =>
    match Cut entry equals_sign with
    | (name, Some value) => if HasPrefix name EnvPrefix then <[name := value]> out else out
    | (_, None) => out
    end) ∅ environ.

(** How a variable's text becomes a setting; [Consumed] is one that is read
    elsewhere. *)
Inductive setter :=
  | Consumed
  | SetString (set : string -> Config -> Config)
  | SetBool (set : bool -> Config -> Config)
  | SetInt (set : Z -> Config -> Config)
  | SetDuration (set : duration -> Config -> Config).

Definition envTargets : list (string * setter) :=
  [(EnvConfigPath, Consumed); (EnvMQTTUsername, Consumed); (EnvMQTTPassword, Consumed);
   (env_name "IDENTITY_PROJECT", SetString set_Project); (env_name "IDENTITY_SITE", SetString set_Site);
   (env_name "IDENTITY_STATION", SetString set_Station); (env_name "IDENTITY_INSTANCE", SetString set_Instance);
   (env_name "BROKER_URL", SetString set_URL); (env_name "BROKER_CREDENTIALS_FILE", SetString set_CredentialsFile);
   (env_name "BROKER_CA_FILE", SetString set_CAFile); (env_name "BROKER_INSECURE", SetBool set_Insecure);
   (env_name "BROKER_KEEPALIVE", SetDuration set_Keepalive); (env_name "BROKER_CONNECT_TIMEOUT", SetDuration set_ConnectTimeout);
   (env_name "BROKER_RECONNECT_INTERVAL", SetDuration set_ReconnectInterval);
   (env_name "DELIVERY_PUBLISH_TIMEOUT", SetDuration set_PublishTimeout); (env_name "DELIVERY_BUFFER_SIZE", SetInt set_BufferSize);
   (env_name "DELIVERY_DRAIN_TIMEOUT", SetDuration set_DrainTimeout); (env_name "DELIVERY_TX_INTAKE_SIZE", SetInt set_TxIntakeSize);
   (env_name "STATUS_KEEPALIVE_INTERVAL", SetDuration set_KeepaliveInterval);
   (env_name "STATUS_MISSED_KEEPALIVES", SetInt set_MissedKeepalives); (env_name "STATUS_EVENT_BUFFER_SIZE", SetInt set_EventBufferSize);
   (env_name "LOGGING_LEVEL", SetString set_Level); (env_name "LOGGING_LOG_PAYLOADS", SetBool set_LogPayloads);
   (env_name "LOGGING_FILE", SetString set_File); (env_name "LOGGING_MAX_SIZE_MB", SetInt set_MaxSizeMB);
   (env_name "LOGGING_KEEP", SetInt set_Keep); (env_name "LOGGING_STDOUT", SetBool set_Stdout)].

Definition target_of (name : string) : option setter := snd <$> List.find (fun t => bool_decide (t.1 = name)) envTargets.

(** A setter's call: the configuration it leaves, or what it expected. *)
Definition apply_setter (s : setter) (value : string) (cfg : Config) : result string Config :=
  match s with
  | Consumed => Ok cfg
  | SetString set => Ok (set value cfg)
  | SetBool set => match ParseBool value with Some b => Ok (set b cfg) | None => Err "a boolean" end
  | SetInt set => match Atoi value with Some z => Ok (set z cfg) | None => Err "an integer" end
  | SetDuration set => match ParseDuration value with Some d => Ok (set d cfg) | None => Err "a duration" end
  end.

(** One turn of [applyEnv]'s loop: the configuration, the problems and the
    unknown names so far. *)
Definition env_turn (env : gmap string string) (st : Config * list env_problem * list string) (name : string) :
    Config * list env_problem * list string :=
  let '(cfg, problems, unknown) := st in
  match removedEnv !! name with
  | Some instead => (cfg, problems ++ [VariableRemoved name instead], unknown)
  | None =>
    match target_of name with
    | None => (cfg, problems, unknown ++ [name])
    | Some s =>
      let value := default "" (env !! name) in
      match apply_setter s value cfg with
      | Ok cfg => (cfg, problems, unknown)
      | Err expected => (cfg, problems ++ [BadValue name expected value], unknown)
      end
    end
  end%list.

Definition env_names (env : gmap string string) : list string := sort_strings (map fst (map_to_list env)).

(** [applyEnv]: the configuration it leaves, and the problems of its error. *)
Definition applyEnv (cfg : Config) (env : gmap string string) : Config * list env_problem :=
  let '(cfg, problems, unknown) := foldl (env_turn env) (cfg, [], []) (env_names env) in
  (cfg, (problems ++ match unknown with [] => [] | _ => [Unrecognised unknown (sort_strings (map fst envTargets))] end)%list).

(** ** The flags *)

Record Overrides := mkOverrides {
  ov_Project : option string; ov_Site : option string; ov_Station : option string; ov_Instance : option string;
  ov_BrokerURL : option string; ov_BrokerCredentialsFile : option string; ov_BrokerCAFile : option string;
  ov_BrokerInsecure : option bool; ov_LogLevel : option string; ov_LogPayloads : option bool;
}.

(** [assign]: a nil pointer sets nothing. *)
Definition assign {A} (set : A -> Config -> Config) (src : option A) (cfg : Config) : Config :=
  match src with Some v => set v cfg | None => cfg end.

Definition applyOverrides (overrides : Overrides) (cfg : Config) : Config :=
  let cfg := assign set_Project (ov_Project overrides) cfg in
  let cfg := assign set_Site (ov_Site overrides) cfg in
  let cfg := assign set_Station (ov_Station overrides) cfg in
  let cfg := assign set_URL (ov_BrokerURL overrides) cfg in
  let cfg := assign set_Instance (ov_Instance overrides) cfg in
  let cfg := assign set_CredentialsFile (ov_BrokerCredentialsFile overrides) cfg in
  let cfg := assign set_CAFile (ov_BrokerCAFile overrides) cfg in
  let cfg := assign set_Insecure (ov_BrokerInsecure overrides) cfg in
  let cfg := assign set_Level (ov_LogLevel overrides) cfg in
  assign set_LogPayloads (ov_LogPayloads overrides) cfg.

(** ** The configuration that is run: a flag comes before the environment, and
       that before the file *)

Definition merged (file : Config) (env : gmap string string) (overrides : Overrides) : Config :=
  applyDerivedDefaults (applyOverrides overrides (applyEnv file env).1).

(** A setting: its variable, its field, how its text is read, and its flag. *)
Record setting (A : Type) := mkSetting {
  s_name : string; s_get : Config -> A; s_parse : string -> option A; s_flag : Overrides -> option A;
}.
Arguments mkSetting {A} _ _ _ _.
Arguments s_name {A} _.
Arguments s_get {A} _ _.
Arguments s_parse {A} _ _.
Arguments s_flag {A} _ _.

Definition no_flag {A} (overrides : Overrides) : option A := None.

Definition string_settings : list (setting string) :=
  [mkSetting (env_name "IDENTITY_PROJECT") (fun c => id_Project (cfg_Identity c)) Some ov_Project;
   mkSetting (env_name "IDENTITY_SITE") (fun c => id_Site (cfg_Identity c)) Some ov_Site;
   mkSetting (env_name "IDENTITY_STATION") (fun c => id_Station (cfg_Identity c)) Some ov_Station;
   mkSetting (env_name "IDENTITY_INSTANCE") (fun c => id_Instance (cfg_Identity c)) Some ov_Instance;
   mkSetting (env_name "BROKER_URL") (fun c => br_URL (cfg_Broker c)) Some ov_BrokerURL;
   mkSetting (env_name "BROKER_CREDENTIALS_FILE") (fun c => br_CredentialsFile (cfg_Broker c)) Some ov_BrokerCredentialsFile;
   mkSetting (env_name "BROKER_CA_FILE") (fun c => br_CAFile (cfg_Broker c)) Some ov_BrokerCAFile;
   mkSetting (env_name "LOGGING_LEVEL") (fun c => lo_Level (cfg_Logging c)) Some ov_LogLevel;
   mkSetting (env_name "LOGGING_FILE") (fun c => lo_File (cfg_Logging c)) Some no_flag].

Definition bool_settings : list (setting bool) :=
  [mkSetting (env_name "BROKER_INSECURE") (fun c => br_Insecure (cfg_Broker c)) ParseBool ov_BrokerInsecure;
   mkSetting (env_name "LOGGING_LOG_PAYLOADS") (fun c => lo_LogPayloads (cfg_Logging c)) ParseBool ov_LogPayloads;
   mkSetting (env_name "LOGGING_STDOUT") (fun c => lo_Stdout (cfg_Logging c)) ParseBool no_flag].

Definition number_settings : list (setting Z) :=
  [mkSetting (env_name "BROKER_KEEPALIVE") (fun c => br_Keepalive (cfg_Broker c)) ParseDuration no_flag;
   mkSetting (env_name "BROKER_CONNECT_TIMEOUT") (fun c => br_ConnectTimeout (cfg_Broker c)) ParseDuration no_flag;
   mkSetting (env_name "BROKER_RECONNECT_INTERVAL") (fun c => br_ReconnectInterval (cfg_Broker c)) ParseDuration no_flag;
   mkSetting (env_name "DELIVERY_PUBLISH_TIMEOUT") (fun c => de_PublishTimeout (cfg_Delivery c)) ParseDuration no_flag;
   mkSetting (env_name "DELIVERY_BUFFER_SIZE") (fun c => de_BufferSize (cfg_Delivery c)) Atoi no_flag;
   mkSetting (env_name "DELIVERY_DRAIN_TIMEOUT") (fun c => de_DrainTimeout (cfg_Delivery c)) ParseDuration no_flag;
   mkSetting (env_name "DELIVERY_TX_INTAKE_SIZE") (fun c => de_TxIntakeSize (cfg_Delivery c)) Atoi no_flag;
   mkSetting (env_name "STATUS_KEEPALIVE_INTERVAL") (fun c => st_KeepaliveInterval (cfg_Status c)) ParseDuration no_flag;
   mkSetting (env_name "STATUS_MISSED_KEEPALIVES") (fun c => st_MissedKeepalives (cfg_Status c)) Atoi no_flag;
   mkSetting (env_name "STATUS_EVENT_BUFFER_SIZE") (fun c => st_EventBufferSize (cfg_Status c)) Atoi no_flag;
   mkSetting (env_name "LOGGING_MAX_SIZE_MB") (fun c => lo_MaxSizeMB (cfg_Logging c)) Atoi no_flag;
   mkSetting (env_name "LOGGING_KEEP") (fun c => lo_Keep (cfg_Logging c)) Atoi no_flag].

(** What a setting is to be. *)
Definition effective {A} (s : setting A) (file : Config) (env : gmap string string) (overrides : Overrides) : A :=
  match s_flag s overrides with
  | Some v => v
  | None => match env !! s_name s ≫= s_parse s with Some v => v | None => s_get s file end
  end.

(** *** What a setting's variable and flag do *)

Record setting_ok {A} (s : setting A) : Prop := {
  s_own : exists t, target_of (s_name s) = Some t /\ removedEnv !! s_name s = None /\
    forall value cfg cfg', apply_setter t value cfg = Ok cfg' -> s_parse s value = Some (s_get s cfg');
  s_others : Forall (fun t => t.1 = s_name s \/ forall value cfg cfg', apply_setter t.2 value cfg = Ok cfg' -> s_get s cfg' = s_get s cfg) envTargets;
  s_flags : forall overrides cfg, s_get s (applyOverrides overrides cfg) = default (s_get s cfg) (s_flag s overrides);
}.

Lemma assign_own {A} (get : Config -> A) set src cfg :
  (forall v c, get (set v c) = v) -> get (assign set src cfg) = default (get cfg) src.
Proof. intros H. destruct src; cbn; [apply H|done]. Qed.

Lemma assign_other {A B} (get : Config -> B) (set : A -> Config -> Config) src cfg :
  (forall v c, get (set v c) = get c) -> get (assign set src cfg) = get cfg.
Proof. intros H. destruct src; cbn; [apply H|done]. Qed.

(** The flags are laid over one another in order; at most one is the setting's. *)
Ltac solve_flags :=
  intros overrides cfg; unfold applyOverrides; cbv zeta;
  repeat match goal with
  | |- s_get ?s (assign _ _ _) = _ => etrans; [apply (assign_other (s_get s)); reflexivity|]
  | |- s_get ?s (assign _ _ _) = _ => etrans; [apply (assign_own (s_get s)); reflexivity|cbn [s_flag]; f_equal]
  end; reflexivity.

Ltac solve_setting :=
  split;
  [ eexists; split; [reflexivity|split; [reflexivity|]]; intros value cfg cfg' Hset; cbn in Hset |- *;
    repeat (case_match; [|done]); injection Hset as <-; reflexivity
  | unfold envTargets; repeat (apply List.Forall_cons;
      [first [left; reflexivity|right; intros value cfg cfg' Hset; cbn in Hset; repeat (case_match; [|done]); injection Hset as <-; reflexivity]|]);
    apply List.Forall_nil
  | solve_flags ].

Lemma string_settings_ok : Forall setting_ok string_settings.
Proof. unfold string_settings. repeat (apply List.Forall_cons; [solve_setting|]). apply List.Forall_nil. Qed.

Lemma bool_settings_ok : Forall setting_ok bool_settings.
Proof. unfold bool_settings. repeat (apply List.Forall_cons; [solve_setting|]). apply List.Forall_nil. Qed.

Lemma number_settings_ok : Forall setting_ok number_settings.
Proof. unfold number_settings. repeat (apply List.Forall_cons; [solve_setting|]). apply List.Forall_nil. Qed.

(** *** What the environment leaves *)

(** Whether a setter takes a text; the configuration has no say in it. *)
Definition takes (s : setter) (value : string) : bool := is_ok (apply_setter s value Defaults).

Lemma apply_setter_takes s value cfg : is_ok (apply_setter s value cfg) = takes s value.
Proof. unfold takes. destruct s; cbn; try done; by case_match. Qed.

Definition name_ok (env : gmap string string) (name : string) : Prop :=
  removedEnv !! name = None /\ exists t, target_of name = Some t /\ takes t (default "" (env !! name)) = true.

Definition turn_config (env : gmap string string) (cfg : Config) (name : string) : Config := (env_turn env (cfg, [], []) name).1.1.

(** A turn adds a problem or an unknown name exactly when its name is not to be
    taken, whatever came before. *)
Lemma env_turn_spec env cfg p u name :
  exists p' u', env_turn env (cfg, p, u) name = (turn_config env cfg name, p ++ p', u ++ u')%list /\ (p' = [] /\ u' = [] <-> name_ok env name).
Proof.
  unfold turn_config, env_turn, name_ok. destruct (removedEnv !! name) as [instead|].
  { exists [VariableRemoved name instead], []. rewrite app_nil_r. split; [done|]. split; [by intros [? _]|by intros [? _]]. }
  destruct (target_of name) as [t|].
  2: { exists [], [name]. rewrite app_nil_r. split; [done|]. split; [by intros [_ ?]|by intros (_ & ? & ? & _)]. }
  pose proof (apply_setter_takes t (default "" (env !! name)) cfg) as Ht.
  destruct (apply_setter t (default "" (env !! name)) cfg) as [cfg'|expected]; cbn in Ht.
  - exists [], []. rewrite !app_nil_r. split; [done|]. split; [intros _; split; [done|by eexists]|done].
  - exists [BadValue name expected (default "" (env !! name))], []. rewrite app_nil_r. split; [done|]. split; [by intros [? _]|].
    intros (_ & t' & [= <-] & Htakes). congruence.
Qed.

Lemma env_fold_spec env names cfg p u :
  exists p' u', foldl (env_turn env) (cfg, p, u) names = (foldl (turn_config env) cfg names, p ++ p', u ++ u')%list /\
    (p' = [] /\ u' = [] <-> Forall (name_ok env) names).
Proof.
  revert cfg p u. induction names as [|name names IH]; intros cfg p u.
  { exists [], []. rewrite !app_nil_r. split; [done|]. split; [by constructor|done]. }
  cbn [foldl]. destruct (env_turn_spec env cfg p u name) as (p1 & u1 & -> & H1).
  destruct (IH (turn_config env cfg name) (p ++ p1)%list (u ++ u1)%list) as (p2 & u2 & -> & H2).
  exists (p1 ++ p2)%list, (u1 ++ u2)%list. rewrite <-!(assoc_L (++)%list). split; [done|].
  rewrite Forall_cons, <-H1, <-H2. split.
  - intros [[-> ->]%app_eq_nil [-> ->]%app_eq_nil]. done.
  - intros [[-> ->] [-> ->]]. done.
Qed.

Lemma elem_of_env_names env name : name ∈ env_names env <-> is_Some (env !! name).
Proof.
  unfold env_names. rewrite elem_of_sort_strings, list_elem_of_fmap. split.
  - intros ([n v] & -> & Hin%elem_of_map_to_list). by exists v.
  - intros [v Hv]. exists (name, v). split; [done|]. by apply elem_of_map_to_list.
Qed.

Lemma applyEnv_spec cfg env :
  (applyEnv cfg env).1 = foldl (turn_config env) cfg (env_names env) /\
  ((applyEnv cfg env).2 = [] <-> forall name, is_Some (env !! name) -> name_ok env name).
Proof.
  unfold applyEnv. destruct (env_fold_spec env (env_names env) cfg [] []) as (p & u & -> & Hok). split; [done|]. cbn [snd app].
  rewrite Forall_forall in Hok. setoid_rewrite elem_of_env_names in Hok. rewrite <-Hok. destruct u.
  - rewrite app_nil_r. naive_solver.
  - split; [by intros [_ ?]%app_eq_nil|naive_solver].
Qed.

Lemma target_of_in name t : target_of name = Some t -> (name, t) ∈ envTargets.
Proof.
  unfold target_of. destruct (List.find _ envTargets) as [[n t']|] eqn:Hfind; [|done]. intros [= <-].
  apply find_some in Hfind as [Hin Hn]. apply bool_decide_eq_true in Hn. cbn in Hn. subst n. by apply list_elem_of_In.
Qed.

Section Precedence.
Context {A : Type} (s : setting A) (Hs : setting_ok s) (env : gmap string string).

Lemma turn_own cfg : name_ok env (s_name s) -> is_Some (env !! s_name s) ->
  env !! s_name s ≫= s_parse s = Some (s_get s (turn_config env cfg (s_name s))).
Proof.
  intros (Hrem & t & Ht & Htakes) [v Hv]. rewrite Hv in Htakes |- *. cbn in Htakes |- *.
  destruct (s_own _ Hs) as (t' & Ht' & _ & Hparse). rewrite Ht in Ht'. injection Ht' as <-.
  unfold turn_config, env_turn. rewrite Hrem, Ht, Hv. cbn. rewrite <-(apply_setter_takes t v cfg) in Htakes.
  destruct (apply_setter t v cfg) as [cfg'|] eqn:Happly; [|done]. by eapply Hparse.
Qed.

Lemma turn_other cfg name : name <> s_name s -> s_get s (turn_config env cfg name) = s_get s cfg.
Proof.
  intros Hne. unfold turn_config, env_turn. destruct (removedEnv !! name); [done|]. destruct (target_of name) as [t|] eqn:Ht; [|done].
  destruct (apply_setter t (default "" (env !! name)) cfg) as [cfg'|] eqn:Happly; [|done]. cbn.
  pose proof (s_others _ Hs) as Ho. rewrite Forall_forall in Ho. destruct (Ho _ (target_of_in _ _ Ht)) as [?|H]; [done|]. by eapply H.
Qed.

Lemma turns_get names cfg :
  NoDup names -> (forall name, name ∈ names -> name_ok env name /\ is_Some (env !! name)) ->
  s_get s (foldl (turn_config env) cfg names) =
    (if bool_decide (s_name s ∈ names) then default (s_get s cfg) (env !! s_name s ≫= s_parse s) else s_get s cfg).
Proof.
  intros Hnd. revert cfg. induction Hnd as [|name names Hnot Hnd IH]; intros cfg Hok; cbn [foldl].
  { by rewrite bool_decide_eq_false_2 by apply not_elem_of_nil. }
  rewrite IH by (intros; apply Hok; by right). destruct (decide (name = s_name s)) as [->|Hne].
  - rewrite bool_decide_eq_false_2, bool_decide_eq_true_2 by (done || by left). destruct (Hok (s_name s)) as [Hn Hsome]; [by left|].
    by rewrite (turn_own cfg Hn Hsome).
  - rewrite (turn_other cfg name Hne). by rewrite (bool_decide_ext (s_name s ∈ name :: names) (s_name s ∈ names)) by (rewrite elem_of_cons; naive_solver).
Qed.

(** The setting, before the derived defaults. *)
Lemma overrides_get file overrides :
  (applyEnv file env).2 = [] -> s_get s (applyOverrides overrides (applyEnv file env).1) = effective s file env overrides.
Proof.
  intros Hproblems. destruct (applyEnv_spec file env) as [Hcfg Hok]. rewrite (s_flags _ Hs), Hcfg. rewrite Hok in Hproblems.
  rewrite turns_get.
  - unfold effective. destruct (s_flag s overrides); [done|]. cbn. case_bool_decide as Hin.
    + by destruct (env !! s_name s ≫= s_parse s).
    + rewrite elem_of_env_names in Hin. destruct (env !! s_name s); [|done]. destruct Hin. by eexists.
  - apply sort_strings_nodup, NoDup_fst_map_to_list.
  - intros name Hin%elem_of_env_names. auto.
Qed.
End Precedence.

(** The devices, and the growth of the broker's wait, come from the file alone. *)
Definition file_only (c : Config) : list Device * Backoff := (cfg_Devices c, br_ReconnectBackoff (cfg_Broker c)).

Lemma targets_keep : Forall (fun t => forall value cfg cfg', apply_setter t.2 value cfg = Ok cfg' -> file_only cfg' = file_only cfg) envTargets.
Proof.
  unfold envTargets. repeat (apply List.Forall_cons;
    [intros value cfg cfg' Hset; cbn in Hset; repeat (case_match; [|done]); injection Hset as <-; reflexivity|]). apply List.Forall_nil.
Qed.

Lemma turn_keeps env cfg name : file_only (turn_config env cfg name) = file_only cfg.
Proof.
  unfold turn_config, env_turn. destruct (removedEnv !! name); [done|]. destruct (target_of name) as [t|] eqn:Ht; [|done].
  destruct (apply_setter t (default "" (env !! name)) cfg) as [cfg'|] eqn:Happly; [|done]. cbn.
  pose proof targets_keep as Hk. rewrite Forall_forall in Hk. by eapply (Hk _ (target_of_in _ _ Ht)).
Qed.

Lemma merged_keeps file env overrides : file_only (merged file env overrides) = file_only file.
Proof.
  unfold merged. destruct (applyEnv_spec file env) as [-> _]. unfold applyDerivedDefaults.
  assert (Hover : forall cfg, file_only (applyOverrides overrides cfg) = file_only cfg).
  { intros cfg. unfold applyOverrides. cbv zeta. repeat (etrans; [apply (assign_other file_only); reflexivity|]). done. }
  assert (Hfold : forall names cfg, file_only (foldl (turn_config env) cfg names) = file_only cfg).
  { induction names as [|name names IH]; intros cfg; [done|]. cbn [foldl]. by rewrite IH, turn_keeps. }
  case_bool_decide; [change (file_only (set_Instance ?v ?c)) with (file_only c)|]; by rewrite Hover, Hfold.
Qed.

(** C26: the order of the sources is the documented one, and the environment is
    strict: the variables are taken without a problem exactly when each is one
    the agent knows, is not one that was removed, and has a value of its type;
    and then every setting is its flag's value when the flag is set, or else its
    variable's, or else the file's, and an instance that none of them gives is
    the station. The devices come from the file alone. *)
Theorem precedence file env overrides :
  let cfg := merged file env overrides in
  ((applyEnv file env).2 = [] <->
    forall name value, env !! name = Some value ->
      removedEnv !! name = None /\ exists t, (name, t) ∈ envTargets /\ takes t value = true) /\
  ((applyEnv file env).2 = [] ->
    (forall s, s ∈ string_settings -> s_name s <> env_name "IDENTITY_INSTANCE" -> s_get s cfg = effective s file env overrides) /\
    (forall s, s ∈ bool_settings -> s_get s cfg = effective s file env overrides) /\
    (forall s, s ∈ number_settings -> s_get s cfg = effective s file env overrides) /\
    (forall instance station, instance ∈ string_settings -> station ∈ string_settings ->
      s_name instance = env_name "IDENTITY_INSTANCE" -> s_name station = env_name "IDENTITY_STATION" ->
      id_Instance (cfg_Identity cfg) =
        (if bool_decide (effective instance file env overrides = "") then effective station file env overrides
         else effective instance file env overrides)) /\
    cfg_Devices cfg = cfg_Devices file /\ br_ReconnectBackoff (cfg_Broker cfg) = br_ReconnectBackoff (cfg_Broker file)).
Proof.
  intros cfg. split.
  { destruct (applyEnv_spec file env) as [_ ->]. unfold name_ok. split.
    - intros H name value Hv. destruct (H name) as (Hrem & t & Ht & Htakes); [by eexists|]. rewrite Hv in Htakes. eauto using target_of_in.
    - intros H name [value Hv]. destruct (H name value Hv) as (Hrem & t & Hin & Htakes). split; [done|]. exists t. rewrite Hv. split; [|done].
      assert (Hall : Forall (fun t => target_of t.1 = Some t.2) envTargets)
        by (unfold envTargets; repeat (apply List.Forall_cons; [reflexivity|]); apply List.Forall_nil).
      rewrite Forall_forall in Hall. apply (Hall _ Hin). }
  intros Hproblems.
  pose proof string_settings_ok as Hstring. pose proof bool_settings_ok as Hbool. pose proof number_settings_ok as Hnumber.
  rewrite Forall_forall in Hstring. rewrite Forall_forall in Hbool. rewrite Forall_forall in Hnumber.
  assert (Hget : forall A (s : setting A), setting_ok s -> (forall v c, s_get s (set_Instance v c) = s_get s c) ->
    s_get s cfg = effective s file env overrides).
  { intros A s Hs Hinst. rewrite <-(overrides_get s Hs env file overrides Hproblems). unfold cfg, merged, applyDerivedDefaults.
    case_bool_decide; [apply Hinst|done]. }
  pose proof (merged_keeps file env overrides) as Hkeep. injection Hkeep as Hdev Hback.
  split_and!; [| | | |exact Hdev|exact Hback].
  - intros s Hin Hne. apply Hget; [auto|]. unfold string_settings in Hin.
    repeat (apply elem_of_cons in Hin as [->|Hin]; [first [reflexivity|by destruct Hne]|]). by apply elem_of_nil in Hin.
  - intros s Hin. apply Hget; [auto|]. unfold bool_settings in Hin.
    repeat (apply elem_of_cons in Hin as [->|Hin]; [reflexivity|]). by apply elem_of_nil in Hin.
  - intros s Hin. apply Hget; [auto|]. unfold number_settings in Hin.
    repeat (apply elem_of_cons in Hin as [->|Hin]; [reflexivity|]). by apply elem_of_nil in Hin.
  - intros i st Hi Hst Hin Hstn.
    rewrite <-(overrides_get i (Hstring i Hi) env file overrides Hproblems), <-(overrides_get st (Hstring st Hst) env file overrides Hproblems).
    unfold string_settings in Hi, Hst.
    repeat (apply elem_of_cons in Hi as [->|Hi]; [try discriminate Hin|]); try by apply elem_of_nil in Hi.
    repeat (apply elem_of_cons in Hst as [->|Hst]; [try discriminate Hstn|]); try by apply elem_of_nil in Hst.
    unfold cfg, merged, applyDerivedDefaults. cbn [s_get]. by case_bool_decide.
Qed.

(** ** Witness *)

Definition three_sources_env : gmap string string :=
  list_to_map [(env_name "BROKER_URL", "mqtts://environment"); (env_name "BROKER_KEEPALIVE", "1m30s"); (env_name "IDENTITY_STATION", "pack-1")].
Definition url_flag : Overrides := mkOverrides None None None None (Some "mqtts://flag") None None None None None.

Lemma precedence_witness :
  let file := set_URL "mqtts://file" (set_Keepalive Second Defaults) in
  let cfg := merged file three_sources_env url_flag in
  (applyEnv file three_sources_env).2 = [] /\ br_URL (cfg_Broker cfg) = "mqtts://flag" /\ br_Keepalive (cfg_Broker cfg) = (90 * Second)%Z /\
  id_Instance (cfg_Identity cfg) = "pack-1".
Proof.
  intros file cfg.
  assert (Hproblems : (applyEnv file three_sources_env).2 = []) by (vm_compute; reflexivity).
  destruct (precedence file three_sources_env url_flag) as [_ H]. destruct (H Hproblems) as (Hstring & _ & Hnumber & Hinstance & _).
  split; [exact Hproblems|]. split; [|split].
  - apply (Hstring (mkSetting (env_name "BROKER_URL") (fun c => br_URL (cfg_Broker c)) Some ov_BrokerURL));
      [unfold string_settings; do 4 apply list_elem_of_further; apply list_elem_of_here|done].
  - transitivity (effective (mkSetting (env_name "BROKER_KEEPALIVE") (fun c => br_Keepalive (cfg_Broker c)) ParseDuration no_flag)
      file three_sources_env url_flag); [apply (Hnumber (mkSetting (env_name "BROKER_KEEPALIVE") (fun c => br_Keepalive (cfg_Broker c)) ParseDuration no_flag)); apply list_elem_of_here|vm_compute; reflexivity].
  - etransitivity; [apply (Hinstance (mkSetting (env_name "IDENTITY_INSTANCE") (fun c => id_Instance (cfg_Identity c)) Some ov_Instance)
      (mkSetting (env_name "IDENTITY_STATION") (fun c => id_Station (cfg_Identity c)) Some ov_Station));
      [unfold string_settings; do 3 apply list_elem_of_further; apply list_elem_of_here
      |unfold string_settings; do 2 apply list_elem_of_further; apply list_elem_of_here|reflexivity|reflexivity]|vm_compute; reflexivity].
Defined.
