(* ===== verification/ConfigValidate.v ===== *)
(** * The checks of a configuration: internal/config/validate.go

    A problem is the setting it names and what is wrong with it; the texts are
    for a person and are left out. net/url and the file system are arguments. *)
From S2P Require Import Prelude GoLib Strconv Topics Backoff Logging Config.
#[local] Open Scope string_scope.

(** ** Problems and warnings *)

Inductive why :=
  | Required
  | NotALevel (value : string)
  | ReservedLevel (value : string)
  | NotInstance (value : string)
  | Duplicates (value : string) (index : nat)
  | NotAURL (value : string)
  | CarriesCredentials
  | NoHost (value : string)
  | CAFileOnPlaintext (url : string)
  | PlaintextNotAllowed (url : string)
  | SchemeNotSupported (scheme : string)
  | NoCredentials
  | NotFound (path err : string)
  | NotRegular (path : string)
  | ReadableByOthers (path : string) (perm : Z)
  | NotADirectory (path : string)
  | NotPositive (value : Z)
  | Unusable (problems : list policy_problem)
  | NoDeviceConfigured
  | HIDNotImplemented
  | UnknownKind (kind : string)
  | NotAbsolute (path : string)
  | Callin (path : string)
  | PathUsed (path : string) (index : nat)
  | OutOfRange (low high value : Z)
  | UnknownParity (parity : string)
  | StopBitsNotSupported
  | UnknownStopBits (bits : string)
  | LiteralBackslash (value : string)
  | TooLong (length limit : Z)
  | LessThan (minimum value : Z)
  | MoreThan (maximum value : Z)
  | NotWholeSeconds (value : duration)
  | BlankText
  | ControlCharacter (value : string)
  | LongerThanExpiry (timeout : duration) (device : string) (expiry : duration)
  | UnknownLevel (level : string).

Record problem := mkProblem { field : string; reason : why }.

Inductive warning_text := SkipsVerification | PlaintextAllowed | KernelName (path : string).
Record Warning := mkWarning { Field : string; Message : warning_text }.

(** ** What the checks use of net/url, path/filepath and os *)

(** A URL as [url.Parse] reads it: its scheme, whether it has a user, its host, and
    that without its port. *)
Record parsed_url := mkURL { Scheme : string; HasUser : bool; Host : string; Hostname : string }.

(** What [os.Stat] says of a file. *)
Record file_info := mkFileInfo { IsRegular : bool; IsDir : bool; Perm : Z }.

Definition IsAbs (path : string) : bool := HasPrefix path "/".

Definition slash_char : Ascii.ascii := Ascii.ascii_of_nat 47.

(** The parts of a path between its slashes. *)
Fixpoint path_parts (current s : string) : list string :=
  match s with
  | "" => [current]
  | String.String c s' =>
    if bool_decide (c = slash_char) then current :: path_parts "" s' else path_parts (current +:+ String.String c "") s'
  end.

(** [filepath.Clean]'s stack, of an absolute path. *)
Definition clean_parts (parts : list string) : list string :=
  reverse (foldl (fun stack part =>
    if bool_decide (part = "") || bool_decide (part = ".") then stack
    else if bool_decide (part = "..") then tail stack
    else part :: stack) [] parts).

(** [filepath.Dir], of an absolute path. *)
Definition Dir (path : string) : string :=
  let parts := path_parts "" path in
  "/" +:+ String.concat "/" (clean_parts (take (length parts - 1) parts)).

Example Dir_examples :
  Dir "/var/log/agent.log" = "/var/log" /\ Dir "/agent.log" = "/" /\ Dir "/var//log/../x/./a" = "/var/x" /\ Dir "/var/log/" = "/var/log".
Proof. vm_compute. auto. Qed.

Section Validate.
Context (url_parse : string -> result string parsed_url) (stat : string -> result string file_info).

(** ** Identity *)

Definition topicSegment : string -> bool := segmentRule.
Definition maxInstanceLength : Z := 64.
Definition size (s : string) : Z := Z.of_nat (String.length s).

(** A list of at most one problem. *)
Definition when (wrong : bool) (name : string) (r : why) : list problem := if wrong then [mkProblem name r] else [].

Definition check_level (name value : string) : list problem :=
  if bool_decide (value = "") then [mkProblem name Required]
  else when (negb (topicSegment value)) name (NotALevel value).

Definition validateIdentity (identity : Identity) : list problem :=
  (check_level "identity.project" (id_Project identity) ++ check_level "identity.site" (id_Site identity) ++
   check_level "identity.station" (id_Station identity) ++
   when (bool_decide (id_Station identity = GroupLevel)) "identity.station" (ReservedLevel (id_Station identity)) ++
   if bool_decide (id_Instance identity = "") then []
   else when (negb (topicSegment (id_Instance identity)) || (maxInstanceLength <? size (id_Instance identity))%Z)
          "identity.instance" (NotInstance (id_Instance identity)))%list.

(** ** Broker *)

Definition tlsSchemes : list string := ["tls"; "ssl"; "mqtts"; "wss"].
Definition plaintextSchemes : list string := ["tcp"; "mqtt"; "ws"].

(** [Broker.UsesTLS]. *)
Definition UsesTLS (broker : Broker) : bool :=
  match url_parse (br_URL broker) with Ok parsed => bool_decide (Scheme parsed ∈ tlsSchemes) | Err _ => false end.

Definition secretFileOtherAccess : Z := 63.

Definition checkSecretFile (name path : string) : list problem :=
  match stat path with
  | Err err => [mkProblem name (NotFound path err)]
  | Ok info =>
    if negb (IsRegular info) then [mkProblem name (NotRegular path)]
    else when (negb (Z.land (Perm info) secretFileOtherAccess =? 0)%Z) name (ReadableByOthers path (Perm info))
  end.

Definition validateURL (broker : Broker) : list problem * list Warning :=
  let url := br_URL broker in
  if bool_decide (url = "") then ([mkProblem "broker.url" Required], [])
  else match url_parse url with
  | Err _ => ([mkProblem "broker.url" (NotAURL url)], [])
  | Ok parsed =>
    let user := when (HasUser parsed) "broker.url" CarriesCredentials in
    let (problems, warnings) :=
      if bool_decide (Host parsed = "") then ([mkProblem "broker.url" (NoHost url)], [])
      else if bool_decide (Scheme parsed ∈ tlsSchemes) then
        ([], if br_Insecure broker then [mkWarning "broker.insecure" SkipsVerification] else [])
      else if bool_decide (Scheme parsed ∈ plaintextSchemes) then
        (when (negb (bool_decide (br_CAFile broker = ""))) "broker.ca_file" (CAFileOnPlaintext url) ++
         when (negb (br_Insecure broker)) "broker.url" (PlaintextNotAllowed url),
         if br_Insecure broker then [mkWarning "broker.url" PlaintextAllowed] else [])
      else ([mkProblem "broker.url" (SchemeNotSupported (Scheme parsed))], []) in
    (user ++ problems, warnings)
  end%list.

Definition check_policy (name : string) (p : Policy) : list problem :=
  match Backoff.Validate p with [] => [] | problems => [mkProblem name (Unusable problems)] end.

Definition validateBroker (broker : Broker) (env : gmap string string) : list problem * list Warning :=
  let (urlProblems, warnings) := validateURL broker in
  let hasEnvPassword := bool_decide (is_Some (env !! EnvMQTTPassword)) in
  let credentials :=
    if bool_decide (br_CredentialsFile broker = "") then when (negb hasEnvPassword) "broker.credentials_file" NoCredentials
    else checkSecretFile "broker.credentials_file" (br_CredentialsFile broker) in
  let ca :=
    if bool_decide (br_CAFile broker = "") then []
    else match stat (br_CAFile broker) with Ok _ => [] | Err err => [mkProblem "broker.ca_file" (NotFound (br_CAFile broker) err)] end in
  (urlProblems ++ credentials ++ ca ++
   when (br_Keepalive broker <=? 0)%Z "broker.keepalive" (NotPositive (br_Keepalive broker)) ++
   when (br_ConnectTimeout broker <=? 0)%Z "broker.connect_timeout" (NotPositive (br_ConnectTimeout broker)) ++
   check_policy "broker.reconnect_interval and broker.reconnect_backoff" (ReconnectPolicy broker), warnings)%list.

(** ** Devices *)

Definition MinDataBits : Z := 5.
Definition MaxDataBits : Z := 8.
Definition maxFrameBytesLimit : Z := 2 ^ 20.
Definition maxSeparatorBytes : Z := 8.
Definition maxDeviceTypeLength : Z := 64.

Definition backslash : byte := x5c.

Definition validateSeparator (where_ separator : string) : list problem :=
  let name := where_ +:+ ".separator" in
  if bool_decide (separator = "") then [mkProblem name Required]
  else if bool_decide (backslash ∈ bytes_of_string separator) then [mkProblem name (LiteralBackslash separator)]
  else when (maxSeparatorBytes <? size separator)%Z name (TooLong (size separator) maxSeparatorBytes).

(** [strings.IndexFunc(s, unicode.IsControl)]: the C0 and C1 controls and DEL.
    No other rune's encoding has a byte below 128, nor 194 before 128 to 159. *)
Fixpoint has_control (data : bytes) : bool :=
  match data with
  | [] => false
  | b :: rest =>
    (byte_Z b <? 32)%Z || (byte_Z b =? 127)%Z ||
    match rest with b1 :: _ => (byte_Z b =? 194)%Z && GoLib.between 128 159 b1 | [] => false end || has_control rest
  end.

Definition validateDeviceType (where_ deviceType : string) : list problem :=
  let name := where_ +:+ ".device_type" in
  if bool_decide (deviceType = "") then []
  else if bool_decide (TrimSpace deviceType = "") then [mkProblem name BlankText]
  else if (maxDeviceTypeLength <? size deviceType)%Z then [mkProblem name (TooLong (size deviceType) maxDeviceTypeLength)]
  else when (has_control (bytes_of_string deviceType)) name (ControlCharacter deviceType).

Definition wholeSeconds (name : string) (value : duration) : list problem :=
  when ((value <? Second)%Z || negb (Z.rem value Second =? 0)%Z) name (NotWholeSeconds value).

Definition IsCallinDevice (path : string) : bool := HasPrefix path "/dev/tty.".

Fixpoint all_digits (s : string) : bool :=
  match s with "" => true | String.String c s' => ((48 <=? Ascii.nat_of_ascii c) && (Ascii.nat_of_ascii c <=? 57))%nat && all_digits s' end.

(** [unstableDevPath]. *)
Definition unstableDevPath (path : string) : bool :=
  existsb (fun kind => match CutPrefix path ("/dev/tty" +:+ kind) with
                       | Some number => negb (bool_decide (number = "")) && all_digits number
                       | None => false
                       end) ["ACM"; "USB"; "S"; "AMA"].

Definition validateDevicePath (where_ path : string) : list problem * list Warning :=
  let name := where_ +:+ ".path" in
  if bool_decide (path = "") then ([mkProblem name Required], [])
  else if negb (IsAbs path) then ([mkProblem name (NotAbsolute path)], [])
  else if IsCallinDevice path then ([mkProblem name (Callin path)], [])
  else if unstableDevPath path then ([], [mkWarning name (KernelName path)])
  else ([], []).

Definition entry (name : string) (index : nat) : string := name +:+ "[" +:+ fmt_d (Z.of_nat index) +:+ "]".

(** One scope's groups; [seen] is where each was listed. *)
Fixpoint check_groups (name : string) (index : nat) (seen : gmap string nat) (groups : list string) : list problem :=
  match groups with
  | [] => []
  | group :: groups' =>
    if negb (topicSegment group) then mkProblem (entry name index) (NotALevel group) :: check_groups name (S index) seen groups'
    else
      (match seen !! group with Some prev => [mkProblem (entry name index) (Duplicates group prev)] | None => [] end ++
       check_groups name (S index) (<[group := index]> seen) groups')%list
  end.

Definition validateBroadcastGroups (where_ : string) (groups : BroadcastGroups) : list problem :=
  flat_map (fun scoped => check_groups (where_ +:+ ".broadcast_groups." +:+ TxScope_text scoped.1) 0 ∅ scoped.2) (ByScope groups).

(** The checks of a device's own settings, under the name [where_]. *)
Definition check_line (where_ : string) (d : Device) : list problem :=
  (when (dc_Baud d <=? 0)%Z (where_ +:+ ".baud") (NotPositive (dc_Baud d)) ++
   when ((dc_DataBits d <? MinDataBits) || (MaxDataBits <? dc_DataBits d))%Z (where_ +:+ ".data_bits") (OutOfRange MinDataBits MaxDataBits (dc_DataBits d)) ++
   when (negb (bool_decide (dc_Parity d ∈ Parities))) (where_ +:+ ".parity") (UnknownParity (dc_Parity d)) ++
   (if bool_decide (dc_StopBits d = StopBitsOne) || bool_decide (dc_StopBits d = StopBitsTwo) then []
    else if bool_decide (dc_StopBits d = "1.5") then [mkProblem (where_ +:+ ".stop_bits") StopBitsNotSupported]
    else [mkProblem (where_ +:+ ".stop_bits") (UnknownStopBits (dc_StopBits d))]) ++
   validateSeparator where_ (dc_Separator d) ++
   when (dc_MaxFrameBytes d <? 1)%Z (where_ +:+ ".max_frame_bytes") (LessThan 1 (dc_MaxFrameBytes d)) ++
   when (maxFrameBytesLimit <? dc_MaxFrameBytes d)%Z (where_ +:+ ".max_frame_bytes") (MoreThan maxFrameBytesLimit (dc_MaxFrameBytes d)) ++
   when (dc_InterCharTimeout d <=? 0)%Z (where_ +:+ ".inter_char_timeout") (NotPositive (dc_InterCharTimeout d)) ++
   wholeSeconds (where_ +:+ ".message_expiry") (dc_MessageExpiry d) ++
   when (dc_TxOpenAttempts d <? 1)%Z (where_ +:+ ".tx_open_attempts") (LessThan 1 (dc_TxOpenAttempts d)) ++
   when (dc_TxOpenInterval d <=? 0)%Z (where_ +:+ ".tx_open_interval") (NotPositive (dc_TxOpenInterval d)) ++
   when (dc_TxChunkBytes d <? 1)%Z (where_ +:+ ".tx_chunk_bytes") (LessThan 1 (dc_TxChunkBytes d)) ++
   when (dc_TxRememberedIDs d <? 1)%Z (where_ +:+ ".tx_remembered_ids") (LessThan 1 (dc_TxRememberedIDs d)) ++
   check_policy (where_ +:+ ".reopen_interval and " +:+ where_ +:+ ".reopen_backoff") (ReopenPolicy d) ++
   validateDeviceType where_ (dc_DeviceType d) ++
   validateBroadcastGroups where_ (dc_BroadcastGroups d))%list.

Definition check_kind (where_ kind : string) : list problem :=
  let name := where_ +:+ ".kind" in
  if bool_decide (kind = KindSerial) then []
  else if bool_decide (kind = KindHID) then [mkProblem name HIDNotImplemented]
  else if bool_decide (kind = "") then [mkProblem name Required]
  else [mkProblem name (UnknownKind kind)].

(** The id's checks: the problems, the ids seen, and the name the device goes by
    in its other problems. *)
Definition check_id (index : nat) (seen : gmap string nat) (id : string) : list problem * gmap string nat * string :=
  let where_ := entry "devices" index in
  if bool_decide (id = "") then ([mkProblem (where_ +:+ ".id") Required], seen, where_)
  else if negb (topicSegment id) then ([mkProblem (where_ +:+ ".id") (NotALevel id)], seen, where_)
  else if bool_decide (id = AgentLevel) then ([mkProblem (where_ +:+ ".id") (ReservedLevel id)], seen, where_)
  else
    (match seen !! id with Some prev => [mkProblem (where_ +:+ ".id") (Duplicates id prev)] | None => [] end,
     <[id := index]> seen, "devices." +:+ id).

(** One turn of [validateDevices]'s loop. *)
Definition device_turn (index : nat) (seen seenPaths : gmap string nat) (d : Device) :
    list problem * list Warning * gmap string nat * gmap string nat :=
  let '(idProblems, seen, where_) := check_id index seen (dc_ID d) in
  let (pathProblems, warnings) := validateDevicePath where_ (dc_Path d) in
  let '(usedProblems, seenPaths) :=
    if bool_decide (dc_Path d = "") then ([], seenPaths)
    else (match seenPaths !! dc_Path d with Some prev => [mkProblem (where_ +:+ ".path") (PathUsed (dc_Path d) prev)] | None => [] end,
          <[dc_Path d := index]> seenPaths) in
  ((idProblems ++ check_kind where_ (dc_Kind d) ++ pathProblems ++ usedProblems ++ check_line where_ d)%list, warnings, seen, seenPaths).

Fixpoint device_loop (index : nat) (seen seenPaths : gmap string nat) (devices : list Device) : list problem * list Warning :=
  match devices with
  | [] => ([], [])
  | d :: devices' =>
    let '(problems, warnings, seen, seenPaths) := device_turn index seen seenPaths d in
    let (problems', warnings') := device_loop (S index) seen seenPaths devices' in
    ((problems ++ problems')%list, (warnings ++ warnings')%list)
  end.

Definition validateDevices (devices : list Device) : list problem * list Warning :=
  match devices with
  | [] => ([mkProblem "devices" NoDeviceConfigured], [])
  | _ => device_loop 0 ∅ ∅ devices
  end.

(** [ValidateDevice]. *)
Definition ValidateDevice (d : Device) : list problem * list Warning := validateDevices [d].

(** ** The rest *)

Fixpoint check_expiries (timeout : duration) (index : nat) (devices : list Device) : list problem :=
  match devices with
  | [] => []
  | d :: devices' =>
    let where_ := if bool_decide (dc_ID d = "") then entry "devices" index else "devices." +:+ dc_ID d in
    (when ((0 <? dc_MessageExpiry d) && (dc_MessageExpiry d <? timeout))%Z "delivery.publish_timeout"
       (LongerThanExpiry timeout where_ (dc_MessageExpiry d)) ++
     check_expiries timeout (S index) devices')%list
  end.

Definition validateDelivery (delivery : Delivery) (devices : list Device) : list problem :=
  (when (de_PublishTimeout delivery <=? 0)%Z "delivery.publish_timeout" (NotPositive (de_PublishTimeout delivery)) ++
   check_expiries (de_PublishTimeout delivery) 0 devices ++
   when (de_DrainTimeout delivery <=? 0)%Z "delivery.drain_timeout" (NotPositive (de_DrainTimeout delivery)) ++
   when (de_BufferSize delivery <? 1)%Z "delivery.buffer_size" (LessThan 1 (de_BufferSize delivery)) ++
   when (de_TxIntakeSize delivery <? 1)%Z "delivery.tx_intake_size" (LessThan 1 (de_TxIntakeSize delivery)))%list.

Definition validateStatus (status : Status) : list problem :=
  (wholeSeconds "status.keepalive_interval" (st_KeepaliveInterval status) ++
   when (st_MissedKeepalives status <? 1)%Z "status.missed_keepalives" (LessThan 1 (st_MissedKeepalives status)) ++
   when (st_EventBufferSize status <? 1)%Z "status.event_buffer_size" (LessThan 1 (st_EventBufferSize status)))%list.

Definition validateLogging (logSettings : Config.Logging) : list problem :=
  (match ParseLevel (lo_Level logSettings) with Ok _ => [] | Err level => [mkProblem "logging.level" (UnknownLevel level)] end ++
   (if bool_decide (lo_File logSettings = "") then []
    else if negb (IsAbs (lo_File logSettings)) then [mkProblem "logging.file" (NotAbsolute (lo_File logSettings))]
    else match stat (Dir (lo_File logSettings)) with
    | Err err => [mkProblem "logging.file directory" (NotFound (Dir (lo_File logSettings)) err)]
    | Ok info => when (negb (IsDir info)) "logging.file directory" (NotADirectory (Dir (lo_File logSettings)))
    end) ++
   when (lo_MaxSizeMB logSettings <? 1)%Z "logging.max_size_mb" (LessThan 1 (lo_MaxSizeMB logSettings)) ++
   when (lo_Keep logSettings <? 0)%Z "logging.keep" (LessThan 0 (lo_Keep logSettings)))%list.

(** [Validate]: the warnings, and the problems its error joins, in order. *)
Definition Validate (cfg : Config) (env : gmap string string) : list Warning * list problem :=
  let (brokerProblems, brokerWarnings) := validateBroker (cfg_Broker cfg) env in
  let (deviceProblems, deviceWarnings) := validateDevices (cfg_Devices cfg) in
  ((brokerWarnings ++ deviceWarnings)%list,
   (validateIdentity (cfg_Identity cfg) ++ brokerProblems ++ deviceProblems ++
    validateDelivery (cfg_Delivery cfg) (cfg_Devices cfg) ++ validateStatus (cfg_Status cfg) ++ validateLogging (cfg_Logging cfg))%list).
End Validate.

(** ** What a configuration without problems is *)

Lemma when_nil wrong name r : when wrong name r = [] <-> wrong = false.
Proof. by destruct wrong. Qed.

Lemma check_policy_nil name p : check_policy name p = [] <-> Backoff.Validate p = [].
Proof. unfold check_policy. by destruct (Backoff.Validate p). Qed.

Record groups_valid (groups : list string) : Prop := {
  gv_levels : Forall (fun group => segmentRule group = true) groups;
  gv_once : NoDup groups;
}.

Record device_valid (d : Device) : Prop := {
  dv_id : segmentRule (dc_ID d) = true /\ dc_ID d <> AgentLevel;
  dv_kind : dc_Kind d = KindSerial;
  dv_path : dc_Path d <> "" /\ IsAbs (dc_Path d) = true /\ IsCallinDevice (dc_Path d) = false;
  dv_baud : (0 < dc_Baud d)%Z;
  dv_bits : (MinDataBits <= dc_DataBits d <= MaxDataBits)%Z;
  dv_parity : dc_Parity d ∈ Parities;
  dv_stop : dc_StopBits d ∈ [StopBitsOne; StopBitsTwo];
  dv_separator : dc_Separator d <> "" /\ (size (dc_Separator d) <= maxSeparatorBytes)%Z /\ backslash ∉ SeparatorBytes d;
  dv_frame : (1 <= dc_MaxFrameBytes d <= maxFrameBytesLimit)%Z;
  dv_timeout : (0 < dc_InterCharTimeout d)%Z;
  dv_expiry : (Second <= dc_MessageExpiry d)%Z /\ Z.rem (dc_MessageExpiry d) Second = 0%Z;
  dv_tx : (1 <= dc_TxOpenAttempts d)%Z /\ (0 < dc_TxOpenInterval d)%Z /\ (1 <= dc_TxChunkBytes d)%Z /\ (1 <= dc_TxRememberedIDs d)%Z;
  dv_reopen : Backoff.Validate (ReopenPolicy d) = [];
  dv_groups : Forall (fun scoped => groups_valid scoped.2) (ByScope (dc_BroadcastGroups d));
}.

Lemma check_groups_nil name index seen groups :
  check_groups name index seen groups = [] <-> groups_valid groups /\ Forall (fun group => seen !! group = None) groups.
Proof.
  revert index seen. induction groups as [|group groups IH]; intros index seen; cbn [check_groups].
  { split; [intros _; split; [split; constructor|constructor]|done]. }
  rewrite Forall_cons. unfold topicSegment. destruct (segmentRule group) eqn:Hg; cbn [negb].
  2: { split; [done|]. intros [[Hl _] _]. inversion Hl. congruence. }
  destruct (seen !! group) eqn:Hseen; cbn [app].
  { split; [done|]. by intros (_ & ? & _). }
  rewrite IH. split.
  - intros [[Hl Hn] Hf]. split; [split; [by constructor|]|split; [done|]].
    + constructor; [|done]. intros Hin. rewrite Forall_forall in Hf. specialize (Hf _ Hin). by rewrite lookup_insert_eq in Hf.
    + eapply Forall_impl; [exact Hf|]. intros g Hnone. cbn in Hnone. by apply lookup_insert_None in Hnone as [? _].
  - intros ([Hl Hn] & _ & Hf). apply Forall_cons in Hl as [_ Hl]. apply NoDup_cons in Hn as [Hnot Hn]. split; [done|].
    rewrite Forall_forall in Hf |- *. intros g Hin. rewrite lookup_insert_ne; [by apply Hf|]. by intros ->.
Qed.

Lemma separator_valid where_ separator :
  validateSeparator where_ separator = [] ->
  separator <> "" /\ (size separator <= maxSeparatorBytes)%Z /\ backslash ∉ bytes_of_string separator.
Proof.
  unfold validateSeparator. repeat case_bool_decide; try done. rewrite when_nil. intros ?%Z.ltb_ge. done.
Qed.

Lemma check_line_nil where_ d :
  check_line where_ d = [] ->
  (0 < dc_Baud d)%Z /\ (MinDataBits <= dc_DataBits d <= MaxDataBits)%Z /\ dc_Parity d ∈ Parities /\ dc_StopBits d ∈ [StopBitsOne; StopBitsTwo] /\
  (dc_Separator d <> "" /\ (size (dc_Separator d) <= maxSeparatorBytes)%Z /\ backslash ∉ SeparatorBytes d) /\
  (1 <= dc_MaxFrameBytes d <= maxFrameBytesLimit)%Z /\ (0 < dc_InterCharTimeout d)%Z /\
  ((Second <= dc_MessageExpiry d)%Z /\ Z.rem (dc_MessageExpiry d) Second = 0%Z) /\
  ((1 <= dc_TxOpenAttempts d)%Z /\ (0 < dc_TxOpenInterval d)%Z /\ (1 <= dc_TxChunkBytes d)%Z /\ (1 <= dc_TxRememberedIDs d)%Z) /\
  Backoff.Validate (ReopenPolicy d) = [] /\
  Forall (fun scoped => groups_valid scoped.2) (ByScope (dc_BroadcastGroups d)).
Proof.
  unfold check_line. intros H. repeat apply app_eq_nil in H as [? H]. unfold wholeSeconds in *. rewrite ?when_nil, ?check_policy_nil in *.
  match goal with H : validateSeparator _ _ = [] |- _ => apply separator_valid in H as (? & ? & ?) end.
  split_and!; try lia; try done.
  - by match goal with H : negb (bool_decide _) = false |- _ => apply negb_false_iff, bool_decide_eq_true in H end.
  - rewrite !elem_of_cons. repeat case_bool_decide; auto; done.
  - unfold ByScope. repeat (apply Forall_cons_2 || apply Forall_nil_2); cbn [snd];
      match goal with H : check_groups _ _ _ _ = [] |- _ => exact (proj1 (proj1 (check_groups_nil _ _ _ _) H)) end.
Qed.

Lemma check_id_ok index seen id seen' where_ :
  check_id index seen id = ([], seen', where_) ->
  (segmentRule id = true /\ id <> AgentLevel) /\ seen !! id = None /\ seen' = <[id := index]> seen.
Proof.
  unfold check_id, topicSegment. case_bool_decide; [done|]. destruct (segmentRule id) eqn:Hrule; cbn [negb]; [|done].
  case_bool_decide; [done|]. destruct (seen !! id); [done|]. by intros [= <- _].
Qed.

Lemma check_kind_nil where_ kind : check_kind where_ kind = [] -> kind = KindSerial.
Proof. unfold check_kind. by repeat case_bool_decide. Qed.

Lemma validateDevicePath_ok where_ path warnings :
  validateDevicePath where_ path = ([], warnings) -> path <> "" /\ IsAbs path = true /\ IsCallinDevice path = false.
Proof.
  unfold validateDevicePath. case_bool_decide; [done|]. destruct (IsAbs path); cbn [negb]; [|done].
  by destruct (IsCallinDevice path).
Qed.

(** A device's turn without problems: what the device is, and that its id and
    path were not seen before. *)
Lemma device_turn_ok index seen seenPaths d warnings seen' seenPaths' :
  device_turn index seen seenPaths d = ([], warnings, seen', seenPaths') ->
  device_valid d /\ seen !! dc_ID d = None /\ seenPaths !! dc_Path d = None /\
  seen' = <[dc_ID d := index]> seen /\ seenPaths' = <[dc_Path d := index]> seenPaths.
Proof.
  unfold device_turn.
  destruct (check_id index seen (dc_ID d)) as [[idProblems seen1] where_] eqn:Hid.
  destruct (validateDevicePath where_ (dc_Path d)) as [pathProblems warnings1] eqn:Hpath.
  set (used := if bool_decide (dc_Path d = "") then _ else _). destruct used as [usedProblems seenPaths1] eqn:Hused. subst used.
  intros [= Hnil <- <- <-]. apply app_eq_nil in Hnil as [-> [Hkind%check_kind_nil [-> [-> Hline]%app_eq_nil]%app_eq_nil]%app_eq_nil].
  apply check_id_ok in Hid as (? & ? & ->). apply validateDevicePath_ok in Hpath as (? & ? & ?).
  rewrite bool_decide_eq_false_2 in Hused by done. destruct (seenPaths !! dc_Path d) eqn:?; simplify_eq.
  apply check_line_nil in Hline as (?&?&?&?&?&?&?&?&?&?&?). by split; [constructor|].
Qed.

Lemma device_loop_ok index seen seenPaths devices :
  (device_loop index seen seenPaths devices).1 = [] ->
  Forall device_valid devices /\ NoDup (map dc_ID devices) /\ NoDup (map dc_Path devices) /\
  Forall (fun d => seen !! dc_ID d = None /\ seenPaths !! dc_Path d = None) devices.
Proof.
  revert index seen seenPaths. induction devices as [|d devices IH]; intros index seen seenPaths; cbn [device_loop].
  { intros _. split_and!; constructor. }
  destruct (device_turn index seen seenPaths d) as [[[problems warnings] seen'] seenPaths'] eqn:Hturn.
  destruct (device_loop (S index) seen' seenPaths' devices) as [problems' warnings'] eqn:Hrest. cbn [fst].
  intros [-> ->]%app_eq_nil. apply device_turn_ok in Hturn as (Hd & Hid & Hpath & -> & ->).
  specialize (IH (S index) (<[dc_ID d := index]> seen) (<[dc_Path d := index]> seenPaths)). rewrite Hrest in IH.
  destruct (IH eq_refl) as (Hall & Hids & Hpaths & Hnew). rewrite Forall_forall in Hnew. cbn [map]. split_and!.
  - by constructor.
  - constructor; [|done]. intros (d' & Heq & Hin)%list_elem_of_fmap. destruct (Hnew _ Hin) as [Hn _].
    by rewrite <- Heq, lookup_insert_eq in Hn.
  - constructor; [|done]. intros (d' & Heq & Hin)%list_elem_of_fmap. destruct (Hnew _ Hin) as [_ Hn].
    by rewrite <- Heq, lookup_insert_eq in Hn.
  - constructor; [done|]. rewrite Forall_forall. intros d' Hin. destruct (Hnew _ Hin) as [H1 H2].
    by apply lookup_insert_None in H1 as [? _], H2 as [? _].
Qed.

(** A device of a list without problems has none on its own, and its problems
    and warnings do not depend on where it stands. *)
Lemma device_turn_alone index seen seenPaths d warnings seen' seenPaths' :
  device_turn index seen seenPaths d = ([], warnings, seen', seenPaths') -> ValidateDevice d = ([], warnings).
Proof.
  intros Hturn. pose proof (device_turn_ok _ _ _ _ _ _ _ Hturn) as (Hd & Hid & Hpath & _).
  destruct (dv_id d Hd) as [Hsegment Hagent]. destruct (dv_path d Hd) as (Hne & _).
  unfold ValidateDevice, validateDevices. cbn [device_loop]. unfold device_turn, check_id, topicSegment in *.
  assert (Hempty : dc_ID d <> "") by (intros Heq; by rewrite Heq in Hsegment).
  rewrite Hsegment in *. rewrite (bool_decide_eq_false_2 (dc_ID d = "")), (bool_decide_eq_false_2 (dc_ID d = AgentLevel)) in * by done.
  rewrite (bool_decide_eq_false_2 (dc_Path d = "")) in * by done. rewrite Hid, Hpath in Hturn. rewrite !lookup_empty. cbn [negb] in *.
  destruct (validateDevicePath _ _) as [pathProblems warnings1]. injection Hturn as Hnil <- _ _. cbn [app] in *. by rewrite Hnil, !app_nil_r.
Qed.

Lemma device_loop_alone index seen seenPaths devices d :
  (device_loop index seen seenPaths devices).1 = [] -> d ∈ devices -> (ValidateDevice d).1 = [].
Proof.
  revert index seen seenPaths. induction devices as [|d' devices IH]; intros index seen seenPaths; [by intros _ ?%elem_of_nil|]. cbn [device_loop].
  destruct (device_turn index seen seenPaths d') as [[[problems warnings] seen'] seenPaths'] eqn:Hturn.
  destruct (device_loop (S index) seen' seenPaths' devices) as [problems' warnings'] eqn:Hrest. cbn [fst].
  intros [-> ->]%app_eq_nil [->|Hin]%elem_of_cons; [by rewrite (device_turn_alone _ _ _ _ _ _ _ Hturn)|].
  eapply (IH (S index) seen' seenPaths'); [by rewrite Hrest|done].
Qed.

(** What [Validate] accepts. *)
Record config_valid (url_parse : string -> result string parsed_url) (cfg : Config) : Prop := {
  cv_levels : segmentRule (id_Project (cfg_Identity cfg)) = true /\ segmentRule (id_Site (cfg_Identity cfg)) = true /\
    segmentRule (id_Station (cfg_Identity cfg)) = true /\ id_Station (cfg_Identity cfg) <> GroupLevel;
  cv_instance : id_Instance (cfg_Identity cfg) <> "" -> segmentRule (id_Instance (cfg_Identity cfg)) = true;
  cv_url : exists parsed, url_parse (br_URL (cfg_Broker cfg)) = Ok parsed /\ Host parsed <> "" /\
    (Scheme parsed ∈ tlsSchemes \/
     Scheme parsed ∈ plaintextSchemes /\ br_CAFile (cfg_Broker cfg) = "" /\ br_Insecure (cfg_Broker cfg) = true);
  cv_broker : (0 < br_Keepalive (cfg_Broker cfg))%Z /\ (0 < br_ConnectTimeout (cfg_Broker cfg))%Z /\
    Backoff.Validate (ReconnectPolicy (cfg_Broker cfg)) = [];
  cv_devices : cfg_Devices cfg <> [] /\ Forall device_valid (cfg_Devices cfg);
  cv_once : NoDup (map dc_ID (cfg_Devices cfg)) /\ NoDup (map dc_Path (cfg_Devices cfg));
  cv_delivery : (0 < de_PublishTimeout (cfg_Delivery cfg))%Z /\ (0 < de_DrainTimeout (cfg_Delivery cfg))%Z /\
    (1 <= de_BufferSize (cfg_Delivery cfg))%Z /\ (1 <= de_TxIntakeSize (cfg_Delivery cfg))%Z;
  cv_status : (Second <= st_KeepaliveInterval (cfg_Status cfg))%Z /\ Z.rem (st_KeepaliveInterval (cfg_Status cfg)) Second = 0%Z /\
    (1 <= st_MissedKeepalives (cfg_Status cfg))%Z /\ (1 <= st_EventBufferSize (cfg_Status cfg))%Z;
  cv_logging : is_ok (ParseLevel (lo_Level (cfg_Logging cfg))) = true /\ (1 <= lo_MaxSizeMB (cfg_Logging cfg))%Z /\ (0 <= lo_Keep (cfg_Logging cfg))%Z;
}.

Lemma check_level_nil name value : check_level name value = [] -> segmentRule value = true.
Proof. unfold check_level, topicSegment. case_bool_decide; [done|]. rewrite when_nil. by intros ?%negb_false_iff. Qed.

Lemma validateIdentity_nil identity :
  validateIdentity identity = [] ->
  (segmentRule (id_Project identity) = true /\ segmentRule (id_Site identity) = true /\ segmentRule (id_Station identity) = true /\
   id_Station identity <> GroupLevel) /\ (id_Instance identity <> "" -> segmentRule (id_Instance identity) = true).
Proof.
  unfold validateIdentity, topicSegment. intros H. repeat apply app_eq_nil in H as [?%check_level_nil H].
  apply app_eq_nil in H as [Hstation Hinst]. rewrite when_nil in Hstation. apply bool_decide_eq_false in Hstation.
  split; [done|]. intros Hne. rewrite bool_decide_eq_false_2, when_nil in Hinst by done. apply orb_false_iff in Hinst as [Hinst _].
  by apply negb_false_iff.
Qed.

Lemma validateURL_ok url_parse broker warnings :
  validateURL url_parse broker = ([], warnings) ->
  exists parsed, url_parse (br_URL broker) = Ok parsed /\ Host parsed <> "" /\
    (Scheme parsed ∈ tlsSchemes \/ Scheme parsed ∈ plaintextSchemes /\ br_CAFile broker = "" /\ br_Insecure broker = true).
Proof.
  unfold validateURL. case_bool_decide; [done|]. destruct (url_parse (br_URL broker)) as [parsed|]; [|done].
  case_bool_decide as Hhost; [by intros [= [_ ?]%app_eq_nil _]|].
  case_bool_decide as Htls; [intros _; exists parsed; by auto|].
  case_bool_decide as Hplain; [|by intros [= [_ ?]%app_eq_nil _]].
  intros [= [_ [Hca Hins]%app_eq_nil]%app_eq_nil _]. rewrite when_nil in Hca. rewrite when_nil in Hins.
  apply negb_false_iff, bool_decide_eq_true in Hca. apply negb_false_iff in Hins. exists parsed. split_and!; auto.
Qed.

Lemma validateDevices_ok devices warnings :
  validateDevices devices = ([], warnings) ->
  devices <> [] /\ Forall device_valid devices /\ NoDup (map dc_ID devices) /\ NoDup (map dc_Path devices).
Proof.
  unfold validateDevices. destruct devices as [|d devices]; [done|]. intros H. split; [done|].
  destruct (device_loop_ok 0 ∅ ∅ (d :: devices)) as (? & ? & ? & _); [by rewrite H|done].
Qed.

Lemma Validate_ok url_parse stat cfg env warnings : Validate url_parse stat cfg env = (warnings, []) -> config_valid url_parse cfg.
Proof.
  unfold Validate, validateBroker.
  destruct (validateURL url_parse (cfg_Broker cfg)) as [urlProblems urlWarnings] eqn:Hurl.
  destruct (validateDevices (cfg_Devices cfg)) as [deviceProblems deviceWarnings] eqn:Hdevices.
  intros [= _ H]. apply app_eq_nil in H as [Hid H]. apply app_eq_nil in H as [Hbroker H]. apply app_eq_nil in H as [-> H].
  apply app_eq_nil in H as [Hdelivery H]. apply app_eq_nil in H as [Hstatus Hlogging].
  apply app_eq_nil in Hbroker as [-> Hb]. apply app_eq_nil in Hb as [_ Hb]. apply app_eq_nil in Hb as [_ Hb].
  apply app_eq_nil in Hb as [Hka Hb]. apply app_eq_nil in Hb as [Hct Hpolicy%check_policy_nil].
  unfold validateDelivery in Hdelivery. repeat apply app_eq_nil in Hdelivery as [? Hdelivery].
  unfold validateStatus, wholeSeconds in Hstatus. repeat apply app_eq_nil in Hstatus as [? Hstatus].
  unfold validateLogging in Hlogging. apply app_eq_nil in Hlogging as [Hlevel Hlogging]. apply app_eq_nil in Hlogging as [_ Hlogging].
  apply app_eq_nil in Hlogging as [Hmax Hkeep]. destruct (ParseLevel (lo_Level (cfg_Logging cfg))) as [level|] eqn:Hparsed; [|done].
  rewrite ?when_nil in *. apply validateIdentity_nil in Hid as [? ?]. apply validateURL_ok in Hurl. apply validateDevices_ok in Hdevices as (? & ? & ? & ?).
  split; auto; rewrite ?Hparsed; split_and!; try done; lia.
Qed.

Lemma Validate_device_alone url_parse stat cfg env warnings d :
  Validate url_parse stat cfg env = (warnings, []) -> d ∈ cfg_Devices cfg -> (ValidateDevice d).1 = [].
Proof.
  unfold Validate. destruct (validateBroker url_parse stat (cfg_Broker cfg) env) as [brokerProblems brokerWarnings].
  destruct (validateDevices (cfg_Devices cfg)) as [deviceProblems deviceWarnings] eqn:Hdevices.
  intros [= _ H]. apply app_eq_nil in H as [_ H]. apply app_eq_nil in H as [_ H]. apply app_eq_nil in H as [-> _].
  unfold validateDevices in Hdevices. destruct (cfg_Devices cfg) as [|d0 devices]; [by intros ?%elem_of_nil|].
  apply (device_loop_alone 0 ∅ ∅). by rewrite Hdevices.
Qed.
