(* ===== verification/Credentials.v ===== *)
(** * The broker's credentials: internal/config/credentials.go

    What opening a file gives is an argument. *)
From S2P Require Import Prelude GoLib Strconv Config ConfigValidate.
#[local] Open Scope string_scope.

(** ** The credentials file *)

Definition newline : Ascii.ascii := Ascii.ascii_of_nat 10.
Definition carriage_return : Ascii.ascii := Ascii.ascii_of_nat 13.

(** The lines of a text without their line feeds; a last line without one
    counts when it is not empty. *)
Fixpoint split_lines (s : string) : list string :=
  match s with
  | "" => []
  | String.String c s' =>
    if bool_decide (c = newline) then "" :: split_lines s'
    else match split_lines s' with
    | [] => [String.String c ""]
    | line :: lines => String.String c line :: lines
    end
  end.

(** [bufio]'s [dropCR]. *)
Fixpoint dropCR (line : string) : string :=
  match line with
  | "" => ""
  | String.String c "" => if bool_decide (c = carriage_return) then "" else line
  | String.String c line' => String.String c (dropCR line')
  end.

(** The scanner's buffer, in which a line has to fit with its line feed. *)
Definition MaxScanTokenSize : Z := 65536.

(** What the scanner gives: the lines, and whether a line that does not fit
    ended them. *)
Fixpoint scan_lines (lines : list string) : list string * bool :=
  match lines with
  | [] => ([], false)
  | line :: lines' =>
    if (MaxScanTokenSize <=? size line)%Z then ([], true)
    else let (rest, tooLong) := scan_lines lines' in (dropCR line :: rest, tooLong)
  end.

Record Credentials := mkCredentials { Username : string; Password : string }.

(** What opening a file gives: its text as far as it could be read and the error
    that ended the reading, or why it could not be opened. *)
Definition opened : Type := string * option string.
Record open_error := mkOpenError { oe_NotExist : bool; oe_text : string }.

Inductive credentials_error :=
  | CannotOpen (err : open_error)
  | CannotRead (path err : string)
  | NotKeyValue (path : string) (line : nat) (text : string)
  | UnknownKey (path : string) (line : nat) (key : string)
  | NoPassword (file : string)
  | NoUsername (file : string).

(** The scan loop. *)
Fixpoint read_lines (path : string) (number : nat) (credentials : Credentials) (lines : list string) :
    result credentials_error Credentials :=
  match lines with
  | [] => Ok credentials
  | raw :: lines' =>
    let trimmed := TrimSpace raw in
    if bool_decide (trimmed = "") || HasPrefix trimmed "#" then read_lines path (S number) credentials lines'
    else match Cut raw equals_sign with
    | (_, None) => Err (NotKeyValue path number trimmed)
    | (key, Some value) =>
      let name := ToLower (TrimSpace key) in
      if bool_decide (name = "username") then read_lines path (S number) (mkCredentials (TrimSpace value) (Password credentials)) lines'
      else if bool_decide (name = "password") then read_lines path (S number) (mkCredentials (Username credentials) value) lines'
      else Err (UnknownKey path number (TrimSpace key))
    end
  end.

Definition readCredentialsFile (open : string -> result open_error opened) (path : string) : result credentials_error Credentials :=
  match open path with
  | Err err => Err (CannotOpen err)
  | Ok (text, ended) =>
    let (lines, tooLong) := scan_lines (split_lines text) in
    match read_lines path 1 (mkCredentials "" "") lines with
    | Err err => Err err
    | Ok credentials =>
      if tooLong then Err (CannotRead path "bufio.Scanner: token too long")
      else match ended with Some err => Err (CannotRead path err) | None => Ok credentials end
    end
  end.

Definition LoadCredentials (open : string -> result open_error opened) (broker : Broker) (env : gmap string string) :
    result credentials_error Credentials :=
  match (if bool_decide (br_CredentialsFile broker = "") then Ok (mkCredentials "" "")
         else readCredentialsFile open (br_CredentialsFile broker)) with
  | Err err => Err err
  | Ok credentials =>
    let username := default (Username credentials) (env !! EnvMQTTUsername) in
    let password := default (Password credentials) (env !! EnvMQTTPassword) in
    if bool_decide (password = "") then Err (NoPassword (br_CredentialsFile broker))
    else if bool_decide (username = "") then Err (NoUsername (br_CredentialsFile broker))
    else Ok (mkCredentials username password)
  end.

(** ** What a file gives *)

(** Bytes that no white space has: the ASCII characters but for the white space. *)
Definition plain_byte (b : byte) : bool := (byte_Z b <? 128)%Z && negb (bool_decide (byte_Z b ∈ [9; 10; 11; 12; 13; 32]%Z)).

Lemma strip_spec prefix data rest : strip prefix data = Some rest -> exists pre, data = (pre ++ rest)%list /\ map byte_Z pre = prefix.
Proof.
  revert data. induction prefix as [|z prefix IH]; intros data; cbn; [intros [= ->]; by exists []|].
  destruct data as [|b data]; [done|]. destruct (byte_Z b =? z)%Z eqn:Hz; [|done]. apply Z.eqb_eq in Hz.
  intros (pre & -> & <-)%IH. exists (b :: pre). cbn. by rewrite Hz.
Qed.

Lemma strip_any_spec prefixes data rest :
  strip_any prefixes data = Some rest -> exists pre, data = (pre ++ rest)%list /\ map byte_Z pre ∈ prefixes.
Proof.
  induction prefixes as [|prefix prefixes IH]; cbn; [done|]. destruct (strip prefix data) as [rest'|] eqn:Hstrip.
  - intros [= <-]. apply strip_spec in Hstrip as (pre & -> & <-). exists pre. split; [done|by left].
  - intros (pre & -> & Hin)%IH. exists pre. split; [done|by right].
Qed.

Lemma spaces_not_plain : Forall (fun rune => rune <> [] /\ Forall (fun z => (128 <= z)%Z \/ z ∈ [9; 10; 11; 12; 13; 32]%Z) rune) (space_runes ++ map reverse space_runes).
Proof. apply (bool_decide_eq_true_1 _). vm_compute. reflexivity. Qed.

Lemma not_plain b pre rune :
  map byte_Z pre = rune -> rune ∈ (space_runes ++ map reverse space_runes)%list -> plain_byte b = true -> b ∉ pre /\ pre <> [].
Proof.
  intros <- Hin Hplain. pose proof spaces_not_plain as Hall. rewrite Forall_forall in Hall. destruct (Hall _ Hin) as [Hne Hspace].
  split; [|by intros ->]. intros Hb. rewrite Forall_forall in Hspace. specialize (Hspace (byte_Z b) (list_elem_of_fmap_2 _ _ _ Hb)).
  unfold plain_byte in Hplain. apply andb_true_iff in Hplain as [Hlow%Z.ltb_lt Hno%negb_true_iff%bool_decide_eq_false].
  destruct Hspace; [lia|done].
Qed.

(** What is trimmed from the end stops before a plain byte, and nothing is
    trimmed from before one. *)
Lemma skip_all_last fuel data b : plain_byte b = true -> last data = Some b -> last (skip_all skip_last fuel data) = Some b.
Proof.
  intros Hplain. revert data. induction fuel as [|fuel IH]; intros data Hlast; cbn [skip_all]; [done|].
  destruct (skip_last data) as [rest|] eqn:Hskip; [|done]. apply IH. apply strip_any_spec in Hskip as (pre & -> & Hin).
  destruct (not_plain b pre _ eq_refl (proj2 (elem_of_app _ _ _) (or_intror Hin)) Hplain) as [Hnot _].
  rewrite last_app in Hlast. destruct (last rest); [done|]. destruct Hnot. by apply last_Some_elem_of in Hlast.
Qed.

Lemma trim_left_plain b data : plain_byte b = true -> trim_left (b :: data) = b :: data.
Proof.
  intros Hplain. unfold trim_left. cbn [length skip_all]. destruct (skip_first (b :: data)) as [rest|] eqn:Hskip; [|done].
  apply strip_any_spec in Hskip as (pre & Heq & Hin).
  destruct (not_plain b pre _ eq_refl (proj2 (elem_of_app _ _ _) (or_introl Hin)) Hplain) as [Hnot Hne].
  destruct pre as [|b' pre]; [done|]. injection Heq as <- _. destruct Hnot. by left.
Qed.

Lemma TrimSpace_plain c s : plain_byte (Ascii.byte_of_ascii c) = true -> exists s', TrimSpace (String.String c s) = String.String c s'.
Proof.
  intros Hplain. unfold TrimSpace. change (bytes_of_string (String.String c s)) with (Ascii.byte_of_ascii c :: bytes_of_string s).
  rewrite trim_left_plain by done. unfold trim_right.
  pose proof (skip_all_last (length (Ascii.byte_of_ascii c :: bytes_of_string s)) (reverse (Ascii.byte_of_ascii c :: bytes_of_string s)) _ Hplain) as Hlast.
  rewrite reverse_cons, last_snoc in Hlast. specialize (Hlast eq_refl). rewrite reverse_cons.
  destruct (skip_all _ _ _) as [|b data _] using rev_ind; [done|]. rewrite last_snoc in Hlast. injection Hlast as ->.
  rewrite reverse_snoc. exists (string_of_bytes (reverse data)).
  change (string_of_bytes (Ascii.byte_of_ascii c :: reverse data)) with
    (String.String (Ascii.ascii_of_byte (Ascii.byte_of_ascii c)) (string_of_bytes (reverse data))).
  by rewrite Ascii.ascii_of_byte_of_ascii.
Qed.

(** *** A file a person writes *)

Inductive cred_line := UsernameLine (value : string) | PasswordLine (value : string) | CommentLine (text : string).

Definition line_text (line : cred_line) : string :=
  match line with
  | UsernameLine value => "username=" +:+ value
  | PasswordLine value => "password=" +:+ value
  | CommentLine text => "#" +:+ text
  end.

Definition line_end (crlf : bool) : string := (if crlf then String.String carriage_return "" else "") +:+ String.String newline "".

Definition file_text (crlf : bool) (lines : list cred_line) : string :=
  foldr (fun line text => line_text line +:+ line_end crlf +:+ text) "" lines.

Fixpoint no_char (c : Ascii.ascii) (s : string) : bool :=
  match s with "" => true | String.String c' s' => negb (bool_decide (c' = c)) && no_char c s' end.

(** A line of text that the scanner can hold, and that does not itself end as a
    line of the other kind does. *)
Definition line_ok (crlf : bool) (line : cred_line) : Prop :=
  no_char newline (line_text line) = true /\ (size (line_text line) + 1 < MaxScanTokenSize)%Z /\
  (crlf = false -> dropCR (line_text line) = line_text line).

(** What the lines say: the last one of each counts. *)
Definition said (credentials : Credentials) (line : cred_line) : Credentials :=
  match line with
  | UsernameLine value => mkCredentials (TrimSpace value) (Password credentials)
  | PasswordLine value => mkCredentials (Username credentials) value
  | CommentLine _ => credentials
  end.

Lemma split_lines_line l rest : no_char newline l = true -> split_lines (l +:+ String.String newline rest) = l :: split_lines rest.
Proof.
  induction l as [|c l IH]; [done|]. cbn [no_char]. intros [Hc%negb_true_iff%bool_decide_eq_false Hl]%andb_true_iff.
  change (split_lines (String.String c l +:+ String.String newline rest)) with
    (if bool_decide (c = newline) then "" :: split_lines (l +:+ String.String newline rest)
     else match split_lines (l +:+ String.String newline rest) with
          | [] => [String.String c ""] | line :: lines => String.String c line :: lines end).
  by rewrite bool_decide_eq_false_2, IH.
Qed.

Lemma no_char_snoc l : no_char newline l = true -> no_char newline (l +:+ String.String carriage_return "") = true.
Proof.
  induction l as [|c l IH]; [done|]. change (String.String c l +:+ ?s) with (String.String c (l +:+ s)). cbn [no_char].
  intros [-> Hl]%andb_true_iff. by apply IH.
Qed.

Lemma dropCR_cons c s : s <> "" -> dropCR (String.String c s) = String.String c (dropCR s).
Proof. by destruct s. Qed.

Lemma dropCR_snoc l : dropCR (l +:+ String.String carriage_return "") = l.
Proof.
  induction l as [|c l IH]; [done|]. change (String.String c l +:+ ?s) with (String.String c (l +:+ s)).
  rewrite dropCR_cons, IH; [done|]. by destruct l.
Qed.

Lemma size_app s t : size (s +:+ t) = (size s + size t)%Z.
Proof.
  unfold size. induction s as [|c s IH]; [done|]. change (String.String c s +:+ t) with (String.String c (s +:+ t)).
  cbn [String.length]. lia.
Qed.

Lemma scan_file crlf lines : Forall (line_ok crlf) lines -> scan_lines (split_lines (file_text crlf lines)) = (map line_text lines, false).
Proof.
  induction 1 as [|line lines (Hline & Hsize & Hcr) _ IH]; [done|]. cbn [file_text foldr]. fold (file_text crlf lines).
  set (raw := line_text line +:+ (if crlf then String.String carriage_return "" else "")).
  assert (Hraw : line_text line +:+ line_end crlf +:+ file_text crlf lines = raw +:+ String.String newline (file_text crlf lines)).
  { unfold raw, line_end. by rewrite <-!str_app_assoc. }
  rewrite Hraw, split_lines_line by (subst raw; destruct crlf; [by apply no_char_snoc|by rewrite str_app_nil_r]).
  cbn [scan_lines]. rewrite IH.
  assert (Hfits : (MaxScanTokenSize <=? size raw)%Z = false).
  { apply Z.leb_gt. unfold raw. rewrite size_app. destruct crlf; [change (size (String.String carriage_return "")) with 1%Z|change (size "") with 0%Z]; lia. }
  rewrite Hfits. cbn [map]. unfold raw. destruct crlf; [by rewrite dropCR_snoc|]. by rewrite str_app_nil_r, Hcr.
Qed.

Lemma read_line path number credentials line rest :
  read_lines path number credentials (line_text line :: rest) = read_lines path (S number) (said credentials line) rest.
Proof.
  destruct line as [value|value|text]; cbn [line_text said].
  - destruct (TrimSpace_plain (Ascii.ascii_of_nat 117) ("sername=" +:+ value) eq_refl) as [s Hs].
    change ("username=" +:+ value) with (String.String (Ascii.ascii_of_nat 117) ("sername=" +:+ value)).
    cbn [read_lines]. rewrite Hs. reflexivity.
  - destruct (TrimSpace_plain (Ascii.ascii_of_nat 112) ("assword=" +:+ value) eq_refl) as [s Hs].
    change ("password=" +:+ value) with (String.String (Ascii.ascii_of_nat 112) ("assword=" +:+ value)).
    cbn [read_lines]. rewrite Hs. reflexivity.
  - destruct (TrimSpace_plain (Ascii.ascii_of_nat 35) text eq_refl) as [s Hs].
    change ("#" +:+ text) with (String.String (Ascii.ascii_of_nat 35) text). cbn [read_lines]. rewrite Hs. by destruct s.
Qed.

Lemma read_all path number credentials lines :
  read_lines path number credentials (map line_text lines) = Ok (foldl said credentials lines).
Proof. revert number credentials. induction lines as [|line lines IH]; intros number credentials; [done|]. cbn [map]. by rewrite read_line, IH. Qed.

(** C34: the credentials file gives what it says: of lines that give the
    username or the password, with comments between them and either kind of line
    end, the last username counts, without the white space around it, and the
    last password, to the byte, its spaces, equals signs and all. A variable
    comes before the file, and there are credentials exactly when neither is
    then empty. *)
Theorem credentials_file open path crlf lines :
  open path = Ok (file_text crlf lines, None) -> path <> "" -> Forall (line_ok crlf) lines ->
  let from_file := foldl said (mkCredentials "" "") lines in
  readCredentialsFile open path = Ok from_file /\
  forall broker env, br_CredentialsFile broker = path ->
    let username := default (Username from_file) (env !! EnvMQTTUsername) in
    let password := default (Password from_file) (env !! EnvMQTTPassword) in
    forall credentials, LoadCredentials open broker env = Ok credentials <->
      credentials = mkCredentials username password /\ username <> "" /\ password <> "".
Proof.
  intros Hopen Hpath Hlines from_file.
  assert (Hread : readCredentialsFile open path = Ok from_file).
  { unfold readCredentialsFile. rewrite Hopen, scan_file by done. by rewrite read_all. }
  split; [exact Hread|]. intros broker env Hbroker username password credentials. unfold LoadCredentials.
  rewrite Hbroker, bool_decide_eq_false_2, Hread by done. fold username password. cbv zeta.
  repeat case_bool_decide; split; naive_solver.
Qed.

Lemma credentials_file_witness :
  let lines := [CommentLine " the station's own"; UsernameLine " pack-1 "; PasswordLine " a=b #c "] in
  let open := fun _ : string => Ok (file_text true lines, None) : result open_error opened in
  readCredentialsFile open "/etc/agent/credentials" = Ok (mkCredentials "pack-1" " a=b #c ").
Proof.
  intros lines open.
  assert (Hlines : Forall (line_ok true) lines)
    by (subst lines; repeat (apply List.Forall_cons; [split; [reflexivity|split; [reflexivity|discriminate]]|]); apply List.Forall_nil).
  destruct (credentials_file open "/etc/agent/credentials" true lines eq_refl ltac:(discriminate) Hlines) as [H _].
  rewrite H. vm_compute. reflexivity.
Defined.
