(* ===== verification/ConfigLoad.v ===== *)
(** * Reading the configuration: internal/config/load.go, and how config.go
      reads its own scalars

    The file system, the YAML library and the environment are arguments. Texts
    of problems are left out, as in ConfigValidate.v. *)
From S2P Require Import Prelude GoLib Strconv Duration Topics Backoff Config ConfigValidate Credentials.
#[local] Open Scope string_scope.

(** ** The document *)

Inductive NodeKind := DocumentNode | SequenceNode | MappingNode | ScalarNode | AliasNode.
#[global] Instance NodeKind_eq_dec : EqDecision NodeKind.
Proof. solve_decision. Defined.

(** A [yaml.Node]. A mapping's content is its keys and values in turn. *)
Inductive Node := mkNode (kind : NodeKind) (value : string) (line : Z) (content : list Node).
Definition Kind (n : Node) : NodeKind := let (k, _, _, _) := n in k.
Definition Value (n : Node) : string := let (_, v, _, _) := n in v.
Definition Line (n : Node) : Z := let (_, _, l, _) := n in l.
Definition Content (n : Node) : list Node := let (_, _, _, c) := n in c.

(** The keys and values the loops over a mapping take: two nodes at a time, and
    not a last one alone. *)
Fixpoint pairs (content : list Node) : list (Node * Node) :=
  match content with
  | key :: value :: content' => (key, value) :: pairs content'
  | _ => []
  end.

(** The content of the document's top-level mapping. *)
Definition top_level (doc : Node) : option (list Node) :=
  match Content doc with
  | root :: _ => if bool_decide (Kind root = MappingNode) then Some (Content root) else None
  | [] => None
  end.

Definition mappingValue (doc : Node) (key : string) : option Node :=
  root ← top_level doc;
  snd <$> List.find (fun pair => bool_decide (Value pair.1 = key)) (pairs root).

(** What [decode] reports: a removed key, at its line, or what the decoder says. *)
Inductive decode_problem :=
  | RemovedKey (line : Z) (shown instead : string)
  | DecoderSays (message : string)
  | EntrySays (index : nat) (err : string)
  | FileEmpty
  | SecondDocument.

Definition removedKeys : list (string * string) :=
  [("broker.connect_backoff", "use broker.reconnect_interval, and broker.reconnect_backoff to make the wait grow");
   ("delivery.scan_ttl", "set message_expiry on each device");
   ("logging.audit_file", "use logging.file");
   ("logging.audit_max_size_mb", "use logging.max_size_mb");
   ("logging.audit_keep", "use logging.keep");
   ("devices[].terminator", "rename it to separator");
   ("devices[].assert_config", "remove it; the agent does not configure devices")].

(** [check] in [findRemovedKeys]: the problems of one key. *)
Definition check_key (key : Node) (generic shown : string) : list decode_problem :=
  flat_map (fun removed : string * string => if bool_decide (removed.1 = generic) then [RemovedKey (Line key) shown removed.2] else []) removedKeys.

(** The keys of a section that is a mapping, and of each entry of one that is a
    list. *)
Definition section_keys (section : string) (value : Node) : list decode_problem :=
  flat_map (fun pair : Node * Node => let path := section +:+ "." +:+ Value pair.1 in check_key pair.1 path path) (pairs (Content value)).

Definition entry_keys (section : string) (index : nat) (e : Node) : list decode_problem :=
  if bool_decide (Kind e = MappingNode) then
    flat_map (fun pair : Node * Node =>
      check_key pair.1 (section +:+ "[]." +:+ Value pair.1) (entry section index +:+ "." +:+ Value pair.1)) (pairs (Content e))
  else [].

Fixpoint list_keys (section : string) (index : nat) (entries : list Node) : list decode_problem :=
  match entries with
  | [] => []
  | e :: entries' => (entry_keys section index e ++ list_keys section (S index) entries')%list
  end.

Definition removed_in (pair : Node * Node) : list decode_problem :=
  match Kind pair.2 with
  | MappingNode => section_keys (Value pair.1) pair.2
  | SequenceNode => list_keys (Value pair.1) 0 (Content pair.2)
  | _ => []
  end.

Definition problem_line (p : decode_problem) : option Z := match p with RemovedKey line _ _ => Some line | _ => None end.

Definition findRemovedKeys (doc : Node) : list decode_problem * gset Z :=
  let problems := match top_level doc with Some root => flat_map removed_in (pairs root) | None => [] end in
  (problems, list_to_set (omap problem_line problems)).

Definition colon : Ascii.ascii := Ascii.ascii_of_nat 58.

Definition lineOf (message : string) : Z :=
  match CutPrefix message "line " with
  | None => 0
  | Some rest => default 0%Z (Atoi (Cut rest colon).1)
  end.

Example lineOf_examples :
  lineOf "line 12: field x not found in type config.Device" = 12%Z /\ lineOf "yaml: line 3: bad" = 0%Z /\ lineOf "line x: y" = 0%Z.
Proof. vm_compute. auto. Qed.

(** What the YAML library says: of the document at a place of the stream, of the
    strict decoding of the first on top of a configuration, and of the decoding
    of one entry on top of a device. *)
Inductive next_document := Document (doc : Node) | EndOfStream | Malformed (err : string).
Inductive strict_error := TypeErrors (messages : list string) | OtherError (err : string).

(** An assignment past the end of a slice panics. *)
Inductive decoded := Decoded (cfg : Config) | NotDecoded (problems : list decode_problem) | DecodePanics.

Section Decode.
Context (next : string -> nat -> next_document).
Context (strict_decode : string -> Config -> Config * option strict_error).
Context (decode_entry : Node -> Device -> result string Device).

(** The loop of [decodeDevicesOnDefaults], from the entry at [index]. *)
Fixpoint device_entries (index : nat) (entries : list Node) (devices : list Device) : result (option decode_problem) (list Device) :=
  match entries with
  | [] => Ok devices
  | e :: entries' =>
    match decode_entry e DefaultDevice with
    | Err err => Err (Some (EntrySays index err))
    | Ok deviceCfg =>
      if (index <? length devices)%nat then device_entries (S index) entries' (<[index := deviceCfg]> devices)
      else Err None
    end
  end.

Definition decodeDevicesOnDefaults (doc : Node) (cfg : Config) : decoded :=
  match mappingValue doc "devices" with
  | Some devicesNode =>
    if bool_decide (Kind devicesNode = SequenceNode) then
      match device_entries 0 (Content devicesNode) (cfg_Devices cfg) with
      | Ok devices => Decoded (with_Devices devices cfg)
      | Err (Some p) => NotDecoded [p]
      | Err None => DecodePanics
      end
    else Decoded cfg
  | None => Decoded cfg
  end.

(** What of the strict decoder's error is reported. *)
Definition strict_problems (removedLines : gset Z) (err : option strict_error) : result string (list decode_problem) :=
  match err with
  | None => Ok []
  | Some (OtherError err) => Err err
  | Some (TypeErrors messages) =>
    Ok (map DecoderSays (List.filter (fun message => negb (bool_decide (lineOf message ∈ removedLines))) messages))
  end.

Definition decode (body : string) : decoded :=
  match next body 0 with
  | EndOfStream => NotDecoded [FileEmpty]
  | Malformed err => NotDecoded [DecoderSays err]
  | Document doc =>
    match next body 1 with
    | Document _ => NotDecoded [SecondDocument]
    | Malformed err => NotDecoded [DecoderSays err]
    | EndOfStream =>
      let (removed, removedLines) := findRemovedKeys doc in
      let (cfg, err) := strict_decode body Defaults in
      match strict_problems removedLines err with
      | Err err => NotDecoded [DecoderSays err]
      | Ok messages =>
        match (removed ++ messages)%list with
        | [] => decodeDevicesOnDefaults doc cfg
        | problems => NotDecoded problems
        end
      end
    end
  end.
End Decode.

(** ** Durations and stop bits as scalars *)

Inductive duration_error := NotAString (err : string) | InvalidDuration (text : string).

Section Scalars.
(** [node.Decode] into a string. *)
Context (decode_text : Node -> result string string).

Definition Duration_UnmarshalYAML (node : Node) : result duration_error duration :=
  match decode_text node with
  | Err err => Err (NotAString err)
  | Ok text => match ParseDuration text with None => Err (InvalidDuration text) | Some parsed => Ok parsed end
  end.
End Scalars.

Definition Duration_MarshalYAML (d : duration) : string := Duration_String d.

Definition nodeKindName (kind : NodeKind) : string :=
  match kind with
  | MappingNode => "mapping"
  | SequenceNode => "sequence"
  | AliasNode => "alias"
  | _ => "document"
  end.

(** The scalar as it stands; any other node is an error that names its kind. *)
Definition StopBits_UnmarshalYAML (node : Node) : result string string :=
  if negb (bool_decide (Kind node = ScalarNode)) then Err (nodeKindName (Kind node)) else Ok (Value node).

(** ** [Load] *)

Definition linuxConfigPath := "/etc/skuhus-device-agent/config.yaml".
Definition darwinConfigPath := "/usr/local/etc/skuhus-device-agent/config.yaml".
Definition DefaultPath (goos : string) : string := if bool_decide (goos = "darwin") then darwinConfigPath else linuxConfigPath.

Record Options := mkOptions { opt_Path : string; opt_Overrides : Overrides; opt_SkipValidate : bool }.

Inductive load_problem :=
  | EnvProblem (p : env_problem)
  | NoDefaultFile (path : string)
  | OpenProblem (err : open_error)
  | DecodeProblem (p : decode_problem)
  | SettingProblem (p : problem).

Record LoadError := mkLoadError { le_Path : string; le_Problems : list load_problem; le_failed : string }.

Inductive loaded :=
  | Loaded (cfg : Config) (warnings : list Warning)
  | NotLoaded (warnings : list Warning) (err : LoadError)
  | LoadPanics.

(** The path, and whether it was given. *)
Definition choose_path (goos : string) (opts : Options) (env : gmap string string) : string * bool :=
  if negb (bool_decide (opt_Path opts = "")) then (opt_Path opts, true)
  else match env !! EnvConfigPath with
  | Some value => if bool_decide (value = "") then (DefaultPath goos, false) else (value, true)
  | None => (DefaultPath goos, false)
  end.

Section Load.
Context (next : string -> nat -> next_document).
Context (strict_decode : string -> Config -> Config * option strict_error).
Context (decode_entry : Node -> Device -> result string Device).
Context (url_parse : string -> result string parsed_url) (stat : string -> result string file_info).
Context (open : string -> result open_error opened) (goos : string).

(** From the decoded file on. *)
Definition load_decoded (opts : Options) (env : gmap string string) (path : string) (cfg : Config) : loaded :=
  let (cfg, envProblems) := applyEnv (with_File path cfg) env in
  match envProblems with
  | _ :: _ => NotLoaded [] (mkLoadError path (map EnvProblem envProblems) "")
  | [] =>
    let cfg := applyDerivedDefaults (applyOverrides (opt_Overrides opts) cfg) in
    if opt_SkipValidate opts then Loaded cfg []
    else match Validate url_parse stat cfg env with
    | (warnings, []) => Loaded cfg warnings
    | (warnings, problems) => NotLoaded warnings (mkLoadError path (map SettingProblem problems) ("invalid config " +:+ path))
    end
  end.

Definition Load (opts : Options) (environ : list string) : loaded :=
  match rejectLegacyEnvironment environ with
  | (_ :: _) as problems => NotLoaded [] (mkLoadError "" (map EnvProblem problems) "")
  | [] =>
    let env := envMap environ in
    let (path, explicit) := choose_path goos opts env in
    match open path with
    | Err err =>
      if oe_NotExist err && negb explicit then NotLoaded [] (mkLoadError path [NoDefaultFile path] "")
      else NotLoaded [] (mkLoadError path [OpenProblem err] ("open config " +:+ path))
    | Ok (body, ended) =>
      let cfg := match ended with Some err => NotDecoded [DecoderSays err] | None => decode next strict_decode decode_entry body end in
      match cfg with
      | NotDecoded problems => NotLoaded [] (mkLoadError path (map DecodeProblem problems) ("parse config " +:+ path))
      | DecodePanics => LoadPanics
      | Decoded cfg => load_decoded opts env path cfg
      end
    end
  end.
End Load.

(** ** The removed keys, and the devices' defaults *)

(** Every key of the document's sections, and of the entries of its lists, in
    order and each once: the key, its path with any index left out, and its path. *)
Definition keys_of (generic shown : string) (mapping : Node) : list (Node * string * string) :=
  map (fun pair : Node * Node => (pair.1, generic +:+ "." +:+ Value pair.1, shown +:+ "." +:+ Value pair.1)) (pairs (Content mapping)).

Definition value_keys (name : string) (value : Node) : list (Node * string * string) :=
  match Kind value with
  | MappingNode => keys_of name name value
  | SequenceNode =>
    concat (imap (fun index e => if bool_decide (Kind e = MappingNode) then keys_of (name +:+ "[]") (entry name index) e else []) (Content value))
  | _ => []
  end.

Definition document_keys (doc : Node) : list (Node * string * string) :=
  flat_map (fun section => value_keys (Value section.1) section.2) (pairs (default [] (top_level doc))).

(** What the release notes say of a key that was removed. *)
Definition replacement (generic : string) : option string := (list_to_map removedKeys : gmap string string) !! generic.

Definition removed_report (key : Node * string * string) : option decode_problem :=
  RemovedKey (Line key.1.1) key.2 <$> replacement key.1.2.

Lemma flat_map_assoc {A B} (f : A -> B) (l : list (string * A)) key :
  NoDup (map fst l) ->
  flat_map (fun pair : string * A => if bool_decide (pair.1 = key) then [f pair.2] else []) l =
  option_list (f <$> (list_to_map l : gmap string A) !! key).
Proof.
  induction l as [|[k x] l IH]; [done|]. cbn. intros [Hk Hl]%NoDup_cons. rewrite IH by done. case_bool_decide as Heq.
  - subst k. rewrite lookup_insert_eq. apply not_elem_of_list_to_map_1 in Hk. by rewrite Hk.
  - by rewrite lookup_insert_ne.
Qed.

Lemma check_key_once key generic shown : check_key key generic shown = option_list (removed_report (key, generic, shown)).
Proof.
  unfold check_key, removed_report, replacement. apply (flat_map_assoc (RemovedKey (Line key) shown)).
  apply (bool_decide_eq_true_1 _). by vm_compute.
Qed.

Lemma omap_flat_map {A B C} (f : B -> option C) (g : A -> list B) l : omap f (flat_map g l) = flat_map (fun x => omap f (g x)) l.
Proof. induction l as [|x l IH]; [done|]. cbn. by rewrite omap_app, IH. Qed.

Lemma omap_keys generic shown mapping :
  omap removed_report (keys_of generic shown mapping) =
  flat_map (fun pair : Node * Node => check_key pair.1 (generic +:+ "." +:+ Value pair.1) (shown +:+ "." +:+ Value pair.1)) (pairs (Content mapping)).
Proof.
  unfold keys_of. induction (pairs (Content mapping)) as [|[key v] l IH]; [done|]. cbn [map flat_map omap list_omap fst snd].
  rewrite IH, check_key_once. by destruct (removed_report _).
Qed.

Lemma list_keys_each name index entries :
  list_keys name index entries =
  omap removed_report (concat (imap (fun k e => if bool_decide (Kind e = MappingNode) then keys_of (name +:+ "[]") (entry name (index + k)) e else []) entries)).
Proof.
  revert index. induction entries as [|e entries IH]; intros index; [done|]. cbn [list_keys imap concat]. rewrite omap_app, IH, Nat.add_0_r. f_equal.
  - unfold entry_keys. case_bool_decide; [|done]. rewrite omap_keys. apply flat_map_ext. intros [key v]. cbn. by rewrite <-str_app_assoc.
  - do 2 f_equal. apply imap_ext. intros k e' _. cbn. by rewrite Nat.add_succ_r.
Qed.

Lemma findRemovedKeys_each doc : (findRemovedKeys doc).1 = omap removed_report (document_keys doc).
Proof.
  unfold findRemovedKeys, document_keys. cbn [fst]. rewrite omap_flat_map. destruct (top_level doc) as [root|]; [|done]. cbn [default].
  apply flat_map_ext. intros [name value]. unfold removed_in, value_keys. cbn [fst snd]. destruct (Kind value); [done| | |done..].
  - apply (list_keys_each (Value name) 0).
  - by rewrite omap_keys.
Qed.

Lemma device_entries_spec decode_entry index entries devices :
  match device_entries decode_entry index entries devices with
  | Ok devices' =>
      length devices' = length devices /\ (entries <> [] -> index + length entries <= length devices) /\
      (forall k e, entries !! k = Some e -> exists d, decode_entry e DefaultDevice = Ok d /\ devices' !! (index + k) = Some d) /\
      (forall k, k < index \/ index + length entries <= k -> devices' !! k = devices !! k)
  | Err (Some p) => exists k e err, entries !! k = Some e /\ decode_entry e DefaultDevice = Err err /\ p = EntrySays (index + k) err
  | Err None => length devices < index + length entries /\ Forall (fun e => is_ok (decode_entry e DefaultDevice) = true) (take (S (length devices) - index) entries)
  end.
Proof.
  revert index devices. induction entries as [|e entries IH]; intros index devices; cbn [device_entries].
  { split_and!; [done|done|by intros ? ? ?|done]. }
  destruct (decode_entry e DefaultDevice) as [d|err] eqn:He.
  2: { by exists 0, e, err; rewrite Nat.add_0_r. }
  destruct (index <? length devices)%nat eqn:Hlt.
  2: { apply Nat.ltb_ge in Hlt. split; [cbn; lia|]. destruct (S (length devices) - index) as [|[|?]] eqn:Hn; [constructor| |lia].
       cbn. constructor; [by rewrite He|constructor]. }
  apply Nat.ltb_lt in Hlt. specialize (IH (S index) (<[index:=d]> devices)). rewrite length_insert in IH.
  destruct (device_entries decode_entry (S index) entries (<[index:=d]> devices)) as [devices'|[p|]].
  - destruct IH as (Hlen & Hfit & Hin & Hout). split_and!; [done| | |].
    + intros _. destruct entries as [|e' entries']; [cbn; lia|]. specialize (Hfit ltac:(done)). cbn in *. lia.
    + intros [|k] e' Hk; cbn in Hk.
      * injection Hk as <-. exists d. split; [done|]. rewrite Nat.add_0_r, Hout by lia. by rewrite list_lookup_insert_eq.
      * rewrite <-Nat.add_succ_comm. by apply Hin.
    + intros k Hk. rewrite Hout by (cbn in Hk; lia). apply list_lookup_insert_ne. cbn in Hk. lia.
  - destruct IH as (k & e' & err & Hk & Herr & ->). exists (S k), e', err. by rewrite <-Nat.add_succ_comm.
  - destruct IH as [Hlen Hok]. split; [cbn; lia|]. replace (S (length devices) - index) with (S (S (length devices) - S index)) by lia.
    cbn [take]. constructor; [by rewrite He|done].
Qed.

Lemma decode_one_document next strict_decode decode_entry body doc :
  next body 0 = Document doc -> next body 1 = EndOfStream ->
  decode next strict_decode decode_entry body =
    let removed := findRemovedKeys doc in
    match strict_problems removed.2 (strict_decode body Defaults).2 with
    | Err err => NotDecoded [DecoderSays err]
    | Ok messages =>
      match (removed.1 ++ messages)%list with
      | [] => decodeDevicesOnDefaults decode_entry doc (strict_decode body Defaults).1
      | problems => NotDecoded problems
      end
    end.
Proof.
  intros Hfirst Hsecond. unfold decode. rewrite Hfirst, Hsecond.
  destruct (findRemovedKeys doc) as [removed lines]. by destruct (strict_decode body Defaults) as [cfg err].
Qed.

(** The messages of the strict decoder's error, but for one that only says why
    it stopped. *)
Definition strict_messages (err : option strict_error) : option (list string) :=
  match err with
  | None => Some []
  | Some (TypeErrors messages) => Some messages
  | Some (OtherError _) => None
  end.

Lemma decodeDevicesOnDefaults_spec decode_entry doc cfg :
  match decodeDevicesOnDefaults decode_entry doc cfg with
  | Decoded cfg' =>
      cfg' = with_Devices (cfg_Devices cfg') cfg /\ length (cfg_Devices cfg') = length (cfg_Devices cfg) /\
      forall devicesNode k e, mappingValue doc "devices" = Some devicesNode -> Kind devicesNode = SequenceNode ->
        Content devicesNode !! k = Some e -> exists d, decode_entry e DefaultDevice = Ok d /\ cfg_Devices cfg' !! k = Some d
  | NotDecoded problems => exists index err, problems = [EntrySays index err]
  | DecodePanics =>
      exists devicesNode, mappingValue doc "devices" = Some devicesNode /\ (length (cfg_Devices cfg) < length (Content devicesNode))%nat
  end.
Proof.
  unfold decodeDevicesOnDefaults. destruct (mappingValue doc "devices") as [devicesNode|]; [|by destruct cfg].
  case_bool_decide as Hkind.
  2: { destruct cfg. split_and!; [done|done|]. intros ? ? ? [= <-]. done. }
  pose proof (device_entries_spec decode_entry 0 (Content devicesNode) (cfg_Devices cfg)) as Hspec.
  destruct (device_entries decode_entry 0 (Content devicesNode) (cfg_Devices cfg)) as [devices|[p|]].
  - destruct Hspec as (Hlen & _ & Hin & _). split_and!; [done|done|]. intros ? k e [= <-] _ Hk. by apply (Hin k e).
  - destruct Hspec as (k & e & err & _ & _ & ->). by eexists _, _.
  - destruct Hspec as [Hlt _]. by exists devicesNode.
Qed.

(** The messages about lines that hold no removed key. *)
Definition other_messages (doc : Node) (messages : list string) : list string :=
  base.filter (fun message => lineOf message ∉ map (fun key => Line key.1.1) (base.filter (fun key => is_Some (replacement key.1.2)) (document_keys doc))) messages.

Lemma removed_lines_each doc line :
  line ∈ (findRemovedKeys doc).2 <->
  line ∈ map (fun key => Line key.1.1) (base.filter (fun key => is_Some (replacement key.1.2)) (document_keys doc)).
Proof.
  change (findRemovedKeys doc).2 with (list_to_set (omap problem_line (findRemovedKeys doc).1) : gset Z).
  rewrite elem_of_list_to_set, findRemovedKeys_each. induction (document_keys doc) as [|key keys IH]; [done|].
  cbn [omap list_omap]. rewrite filter_cons. unfold removed_report at 1. destruct (replacement key.1.2) as [instead|] eqn:Hr; cbn [fmap option_fmap option_map].
  - rewrite decide_True by done. cbn. by rewrite !elem_of_cons, IH.
  - rewrite decide_False by (by intros []). done.
Qed.

Lemma strict_problems_each doc err :
  match strict_problems (findRemovedKeys doc).2 err with
  | Ok says => exists messages, strict_messages err = Some messages /\ says = map DecoderSays (other_messages doc messages)
  | Err _ => strict_messages err = None
  end.
Proof.
  destruct err as [[messages|err]|]; cbn [strict_problems strict_messages]; [|done|by exists []].
  exists messages. split; [done|]. f_equal. unfold other_messages. induction messages as [|message messages IH]; [done|].
  cbn [List.filter]. rewrite filter_cons, <-IH. pose proof (removed_lines_each doc (lineOf message)) as Hline.
  case_bool_decide as Hin; [rewrite decide_False by tauto|rewrite decide_True by tauto]; done.
Qed.

Lemma no_removed doc : omap removed_report (document_keys doc) = [] <-> Forall (fun key => replacement key.1.2 = None) (document_keys doc).
Proof.
  induction (document_keys doc) as [|key keys IH]; [done|]. cbn [omap list_omap]. rewrite Forall_cons, <-IH.
  unfold removed_report at 1. destruct (replacement key.1.2); cbn; naive_solver.
Qed.

(** C27: what [decode] makes of a file of one document. Every removed key of its
    sections and of its lists' entries is reported once, at its line and with its
    replacement, in the order of the document, and then every message of the
    strict decoder, in its order, but for those about a line on which a removed
    key stands; and the file is refused when there is one of either. A file that
    is taken has no removed key and no message, and each of its devices is its own
    entry decoded on top of the defaults. It panics only when the strict decoder
    left an entry of the list out. *)
Theorem decode_strict next strict_decode decode_entry body doc :
  next body 0 = Document doc -> next body 1 = EndOfStream ->
  let file := decode next strict_decode decode_entry body in
  let strict := strict_decode body Defaults in
  match strict_messages strict.2 with
  | None => exists err, file = NotDecoded [DecoderSays err]
  | Some messages =>
    let problems := (omap removed_report (document_keys doc) ++ map DecoderSays (other_messages doc messages))%list in
    if decide (problems = []) then
      Forall (fun key => replacement key.1.2 = None) (document_keys doc) /\ messages = [] /\
      match file with
      | Decoded cfg =>
          cfg = with_Devices (cfg_Devices cfg) strict.1 /\ length (cfg_Devices cfg) = length (cfg_Devices strict.1) /\
          forall devicesNode k e, mappingValue doc "devices" = Some devicesNode -> Kind devicesNode = SequenceNode ->
            Content devicesNode !! k = Some e -> exists d, decode_entry e DefaultDevice = Ok d /\ cfg_Devices cfg !! k = Some d
      | NotDecoded problems => exists index err, problems = [EntrySays index err]
      | DecodePanics =>
          exists devicesNode, mappingValue doc "devices" = Some devicesNode /\ (length (cfg_Devices strict.1) < length (Content devicesNode))%nat
      end
    else file = NotDecoded problems
  end.
Proof.
  intros Hfirst Hsecond file strict. unfold file. rewrite (decode_one_document _ _ _ _ _ Hfirst Hsecond). fold strict. cbv zeta.
  rewrite findRemovedKeys_each. pose proof (strict_problems_each doc strict.2) as Hstrict.
  destruct (strict_problems (findRemovedKeys doc).2 strict.2) as [says|err]; [|rewrite Hstrict; by eexists].
  destruct Hstrict as (messages & -> & ->).
  destruct (decide _) as [Hnone|Hsome]; [|by destruct (_ ++ _)%list]. rewrite Hnone.
  apply app_eq_nil in Hnone as [Hremoved Hother%map_eq_nil]. apply no_removed in Hremoved.
  assert (Hkeys : base.filter (fun key : Node * string * string => is_Some (replacement key.1.2)) (document_keys doc) = []).
  { clear -Hremoved. induction Hremoved as [|key keys Hkey _ IH]; [done|]. rewrite filter_cons_False; [done|]. rewrite Hkey. by intros []. }
  split; [done|]. split; [|apply decodeDevicesOnDefaults_spec].
  unfold other_messages in Hother. rewrite Hkeys in Hother. destruct messages as [|message messages]; [done|].
  rewrite filter_cons_True in Hother; [done|apply not_elem_of_nil].
Qed.

(** A configuration that [Load] validated. *)
Lemma Load_validated next strict_decode decode_entry url_parse stat open goos opts environ cfg warnings :
  Load next strict_decode decode_entry url_parse stat open goos opts environ = Loaded cfg warnings -> opt_SkipValidate opts = false ->
  Validate url_parse stat cfg (envMap environ) = (warnings, []) /\ exists merged_, cfg = applyDerivedDefaults merged_.
Proof.
  unfold Load, load_decoded. intros H Hskip. rewrite Hskip in H.
  destruct (rejectLegacyEnvironment environ); [|done]. destruct (choose_path goos opts (envMap environ)) as [path explicit].
  destruct (open path) as [[body ended]|err]; [|by destruct (oe_NotExist err && negb explicit)].
  destruct (match ended with Some err => _ | None => _ end) as [file|?|]; [|done..].
  destruct (applyEnv (with_File path file) (envMap environ)) as [cfg' [|]]; [|done].
  destruct (Validate url_parse stat (applyDerivedDefaults (applyOverrides (opt_Overrides opts) cfg')) (envMap environ)) as [ws [|]] eqn:Hv; [|done].
  injection H as <- <-. split; [exact Hv|by eexists].
Qed.

(** ** Durations in a file *)

(** C28: a duration in a file. The text that a duration is written as is read
    back as the same duration, whatever the duration. Digits without a unit,
    signed or not, are refused with their text, never taken for seconds or
    nanoseconds: only a single 0 is taken, as no time. *)
Theorem durations_read_back decode_text node text :
  decode_text node = Ok text ->
  (forall d, in_int64 d -> text = Duration_MarshalYAML d -> Duration_UnmarshalYAML decode_text node = Ok d) /\
  (forall sign ds, sign ∈ [[]; [x2d]; [x2b]] -> forallb decimal_digit ds = true -> text = string_of_bytes (sign ++ ds)%list ->
    Duration_UnmarshalYAML decode_text node = if bool_decide (ds = [x30]) then Ok 0%Z else Err (InvalidDuration text)).
Proof.
  intros Hnode. unfold Duration_UnmarshalYAML. rewrite Hnode. split.
  - intros d Hd ->. by rewrite Duration_String_read.
  - intros sign ds Hsign Hds ->. rewrite ParseDuration_bare by done. by case_bool_decide.
Qed.

(** ** Witnesses *)

Definition scalar (line : Z) (value : string) : Node := mkNode ScalarNode value line [].
Definition file_of (content : list Node) : Node := mkNode DocumentNode "" 1 [mkNode MappingNode "" 1 content].

(** A file of an earlier release: its device has a terminator, and a key that
    never was. *)
Definition old_file : Node :=
  file_of [scalar 1 "devices"; mkNode SequenceNode "" 2
    [mkNode MappingNode "" 2 [scalar 2 "id"; scalar 2 "scanner"; scalar 3 "terminator"; scalar 3 "x"; scalar 4 "colour"; scalar 4 "red"]]].

Definition old_messages : list string :=
  ["line 3: field terminator not found in type config.Device"; "line 4: field colour not found in type config.Device"].

Definition one_document (doc : Node) (body : string) (place : nat) : next_document :=
  match place with O => Document doc | _ => EndOfStream end.

(** A serial device that ends its frames with a carriage return and is in one
    broadcast group, with its other settings from [d]. *)
Definition device_at (id path : string) (d : Device) : Device :=
  mkDeviceCfg id KindSerial path (dc_Baud d) (dc_DataBits d) (dc_Parity d) (dc_StopBits d) (String.String carriage_return "")
    (dc_MaxFrameBytes d) (dc_InterCharTimeout d) (dc_MessageExpiry d) (dc_DeviceType d) (dc_ReopenInterval d) (dc_ReopenBackoff d)
    (dc_TxOpenAttempts d) (dc_TxOpenInterval d) (dc_TxChunkBytes d) (dc_TxRememberedIDs d) (mkBroadcastGroups [] ["labels"] []).

Definition entry_with_id (e : Node) (d : Device) : result string Device :=
  match Content e with [_; id] => Ok (device_at (Value id) "/dev/serial/by-id/scanner" d) | _ => Ok d end.

Lemma decode_strict_witness :
  let strict := fun (body : string) cfg => (cfg, Some (TypeErrors old_messages)) in
  decode (one_document old_file) strict entry_with_id "" =
    NotDecoded [RemovedKey 3 "devices[0].terminator" "rename it to separator";
                DecoderSays "line 4: field colour not found in type config.Device"].
Proof.
  intros strict. exact (decode_strict (one_document old_file) strict entry_with_id "" old_file eq_refl eq_refl).
Defined.

(** An entry in braces has its keys on one line: the message about the one that
    never was is left out with the message about the one that was removed. *)
Definition flow_file : Node :=
  file_of [scalar 1 "devices"; mkNode SequenceNode "" 2
    [mkNode MappingNode "" 2 [scalar 2 "terminator"; scalar 2 "x"; scalar 2 "colour"; scalar 2 "red"]]].

Lemma same_line_hides :
  let messages := ["line 2: field terminator not found in type config.Device"; "line 2: field colour not found in type config.Device"] in
  decode (one_document flow_file) (fun _ cfg => (cfg, Some (TypeErrors messages))) entry_with_id "" =
    NotDecoded [RemovedKey 2 "devices[0].terminator" "rename it to separator"].
Proof. vm_compute. reflexivity. Qed.

(** A list with an entry that is only a dash, which the YAML library leaves out
    of the slice: the assignment of the entry after it is past the slice's end. *)
Definition dash_file : Node :=
  file_of [scalar 1 "devices"; mkNode SequenceNode "" 2 [scalar 2 ""; mkNode MappingNode "" 3 [scalar 3 "id"; scalar 3 "scanner"]]].

Example null_entry_panics :
  decode (one_document dash_file) (fun _ cfg => (with_Devices [DefaultDevice] cfg, None)) entry_with_id "" = DecodePanics.
Proof. vm_compute. reflexivity. Qed.

(** A quoted or plain scalar decodes to its text. *)
Definition scalar_text (node : Node) : result string string :=
  if bool_decide (Kind node = ScalarNode) then Ok (Value node) else Err "cannot unmarshal into string".

Lemma durations_read_back_witness :
  Duration_UnmarshalYAML scalar_text (scalar 1 "1m30.5s") = Ok (90500 * Millisecond)%Z /\
  Duration_UnmarshalYAML scalar_text (scalar 1 "-30") = Err (InvalidDuration "-30") /\
  Duration_UnmarshalYAML scalar_text (scalar 1 "0") = Ok 0%Z.
Proof.
  split_and!.
  - apply (durations_read_back scalar_text (scalar 1 "1m30.5s") "1m30.5s"); [reflexivity|vm_compute; split; discriminate|vm_compute; reflexivity].
  - apply (durations_read_back scalar_text (scalar 1 "-30") "-30" eq_refl) with (sign := [x2d]) (ds := [x33; x30]); [apply list_elem_of_further, list_elem_of_here|reflexivity..].
  - apply (durations_read_back scalar_text (scalar 1 "0") "0" eq_refl) with (sign := []) (ds := [x30]); [apply list_elem_of_here|reflexivity..].
Defined.
