(* ===== verification/Flags.v ===== *)
(** * The flags of a command: Go's flag package and cmd/skuhus-device-agent/flags.go

    A flag set that goes on past an error ([ContinueOnError]) over a record of
    values [V], the flags the run and validate commands share, and the options
    of [config.Load] they give. Usage texts are left out. *)
From S2P Require Import Prelude GoLib Strconv Config ConfigLoad.
#[local] Open Scope string_scope.

(** ** The flag package *)

(** Why an argument is refused. [ErrHelp] is what -h and -help give where they
    are not flags. *)
Inductive flag_error :=
  | ErrHelp
  | BadSyntax (arg : string)
  | NotDefined (name : string)
  | InvalidBool (value name : string)
  | NeedsArgument (name : string)
  | InvalidValue (value name : string).

Definition minus : Ascii.ascii := Ascii.ascii_of_nat 45.

(** What one argument is: no flag, the end of the flags, or a flag with the
    value after its first equals sign, when there is one. *)
Inductive token := NoFlag | EndOfFlags | BadFlag | FlagToken (name : string) (value : option string).

(** An argument behind its one or two minus signs; the equals sign cannot be
    first. *)
Definition name_token (name : string) : token :=
  match name with
  | "" => BadFlag
  | String.String c rest =>
    if bool_decide (c = minus) || bool_decide (c = equals_sign) then BadFlag
    else let (before, value) := Cut rest equals_sign in FlagToken (String.String c before) value
  end.

Definition flag_token (s : string) : token :=
  match s with
  | String.String c0 (String.String c1 rest) =>
    if bool_decide (c0 = minus) then
      if bool_decide (c1 = minus) then (if bool_decide (rest = "") then EndOfFlags else name_token rest)
      else name_token (String.String c1 rest)
    else NoFlag
  | _ => NoFlag
  end.

Example flag_token_examples :
  flag_token "--site=a=b" = FlagToken "site" (Some "a=b") /\ flag_token "-h" = FlagToken "h" None /\
  flag_token "---x" = BadFlag /\ flag_token "--" = EndOfFlags /\ flag_token "-" = NoFlag /\ flag_token "-=x" = BadFlag /\
  flag_token "--site=" = FlagToken "site" (Some "").
Proof. vm_compute. split_and!; reflexivity. Qed.

Section FlagSet.
Context {V : Type}.

(** A declared flag: whether it is boolean, and what [Set] makes of the values;
    none stands for an error. *)
Record Flag := mkFlag { IsBoolFlag : bool; Set_ : string -> V -> option V }.

Abbreviation FlagSet := (gmap string Flag).

(** A flag set as it is parsed: the values, the flags that were set, and the
    arguments left. *)
Record parsed := mkParsed { values : V; actual : gset string; left_args : list string }.

(** [FlagSet.Parse]: [parseOne] until it sees no flag. *)
Fixpoint Parse (formal : FlagSet) (args : list string) (v : V) (seen : gset string) : result flag_error parsed :=
  match args with
  | [] => Ok (mkParsed v seen [])
  | s :: rest =>
    match flag_token s with
    | NoFlag => Ok (mkParsed v seen (s :: rest))
    | EndOfFlags => Ok (mkParsed v seen rest)
    | BadFlag => Err (BadSyntax s)
    | FlagToken name given =>
      match formal !! name with
      | None => Err (if bool_decide (name = "help") || bool_decide (name = "h") then ErrHelp else NotDefined name)
      | Some flag =>
        if IsBoolFlag flag then
          let value := default "true" given in
          match Set_ flag value v with
          | None => Err (InvalidBool value name)
          | Some v => Parse formal rest v ({[name]} ∪ seen)
          end
        else match given, rest with
        | Some value, _ =>
          match Set_ flag value v with
          | None => Err (InvalidValue value name)
          | Some v => Parse formal rest v ({[name]} ∪ seen)
          end
        | None, value :: rest =>
          match Set_ flag value v with
          | None => Err (InvalidValue value name)
          | Some v => Parse formal rest v ({[name]} ∪ seen)
          end
        | None, [] => Err (NeedsArgument name)
        end
      end
    end
  end.

(** *** The command lines that are accepted *)

(** One setting after another, each of a declared flag. *)
Fixpoint set_all (formal : FlagSet) (settings : list (string * string)) (v : V) : option V :=
  match settings with
  | [] => Some v
  | (name, value) :: settings' => flag ← formal !! name; v ← Set_ flag value v; set_all formal settings' v
  end.

Definition dash (d : string) : Prop := d = "-" \/ d = "--".

(** How settings are written: behind one or two minus signs, the value behind an
    equals sign, in the next argument, or left out for a boolean that is true. *)
Inductive spelled (formal : FlagSet) : list string -> list (string * string) -> list string -> Prop :=
  | spelled_end : spelled formal [] [] []
  | spelled_positional s args : flag_token s = NoFlag -> spelled formal (s :: args) [] (s :: args)
  | spelled_terminator args : spelled formal ("--" :: args) [] args
  | spelled_equals d name value args settings rest :
      dash d -> is_Some (formal !! name) -> spelled formal args settings rest ->
      spelled formal ((d +:+ name +:+ "=" +:+ value) :: args) ((name, value) :: settings) rest
  | spelled_next d name flag value args settings rest :
      dash d -> formal !! name = Some flag -> IsBoolFlag flag = false -> spelled formal args settings rest ->
      spelled formal ((d +:+ name) :: value :: args) ((name, value) :: settings) rest
  | spelled_bool d name flag args settings rest :
      dash d -> formal !! name = Some flag -> IsBoolFlag flag = true -> spelled formal args settings rest ->
      spelled formal ((d +:+ name) :: args) ((name, "true") :: settings) rest.

(** [FlagSet.Var] panics on a name that begins with a minus sign or holds an
    equals sign; a name is not empty here. *)
Definition good_name (name : string) : bool :=
  match name with
  | "" => false
  | String.String c rest => negb (bool_decide (c = minus) || bool_decide (c = equals_sign)) && bool_decide ((Cut rest equals_sign).2 = None)
  end.

Definition good_names (formal : FlagSet) : Prop := map_Forall (fun name _ => good_name name = true) formal.

(** A flag set declared as a list: its names are checked by computation. *)
Lemma declared_lookup (l : list (string * Flag)) name flag :
  NoDup (map fst l) -> (list_to_map l : FlagSet) !! name = Some flag <-> (name, flag) ∈ l.
Proof. intros Hnd. symmetry. by apply elem_of_list_to_map. Qed.

Lemma declared_good (l : list (string * Flag)) :
  NoDup (map fst l) -> forallb good_name (map fst l) = true -> good_names (list_to_map l).
Proof.
  intros Hnd Hall name flag Hin%declared_lookup; [|done]. rewrite forallb_forall in Hall. apply Hall.
  apply list_elem_of_In, list_elem_of_fmap. by exists (name, flag).
Qed.

(** *** What [Parse] accepts *)

Lemma Cut_none s c : (Cut s c).2 = None -> (Cut s c).1 = s.
Proof.
  induction s as [|a s IH]; [done|]. cbn [Cut]. case_bool_decide as Ha; [done|]. destruct (Cut s c) as [before after]. cbn in *.
  intros Hc. by rewrite IH.
Qed.

Lemma Cut_app s c t : (Cut s c).2 = None -> Cut (s +:+ String.String c t) c = (s, Some t).
Proof.
  induction s as [|a s IH]; intros H.
  - change (Cut (String.String c t) c = ("", Some t)). cbn [Cut]. by rewrite bool_decide_eq_true_2.
  - cbn [Cut] in H. rewrite str_app_cons. cbn [Cut]. case_bool_decide as Ha; [done|].
    destruct (Cut s c) as [before after] eqn:Hs. cbn in H. rewrite IH by done. done.
Qed.

Lemma Cut_some s c before after : Cut s c = (before, Some after) -> s = before +:+ String.String c after.
Proof.
  revert before. induction s as [|a s IH]; intros before; cbn [Cut]; [done|]. case_bool_decide as Ha; [intros [= <- <-]; by subst|].
  destruct (Cut s c) as [b o]. intros [= <- ->]. rewrite str_app_cons. by rewrite (IH b).
Qed.

(** A good name behind a dash is a flag without a value, and one with what
    follows the equals sign. *)
Lemma name_token_good name : good_name name = true -> name_token name = FlagToken name None.
Proof.
  destruct name as [|c rest]; [done|]. cbn. intros [Hc Hcut]%andb_prop. apply negb_true_iff in Hc. rewrite Hc.
  apply bool_decide_eq_true in Hcut. destruct (Cut rest equals_sign) as [before o] eqn:H. cbn in Hcut. subst o.
  pose proof (Cut_none rest equals_sign) as Hn. rewrite H in Hn. cbn in Hn. by rewrite Hn.
Qed.

Lemma name_token_equals name value : good_name name = true -> name_token (name +:+ "=" +:+ value) = FlagToken name (Some value).
Proof.
  destruct name as [|c rest]; [done|]. cbn [good_name]. intros [Hc Hcut]%andb_prop. apply negb_true_iff in Hc.
  apply bool_decide_eq_true in Hcut. rewrite str_app_cons. cbn [name_token]. rewrite Hc.
  change ("=" +:+ value) with (String.String equals_sign value). by rewrite Cut_app.
Qed.

Lemma flag_token_dash d s name value : dash d -> name_token s = FlagToken name value -> flag_token (d +:+ s) = FlagToken name value.
Proof.
  intros Hd Hs. destruct s as [|c s]; [done|].
  assert (Hc : bool_decide (c = minus) = false).
  { cbn [name_token] in Hs. destruct (bool_decide (c = minus)) eqn:H; [done|done]. }
  destruct Hd as [-> | ->].
  - change ("-" +:+ String.String c s) with (String.String minus (String.String c s)). cbn [flag_token].
    rewrite Hc. by rewrite bool_decide_eq_true_2.
  - change ("--" +:+ String.String c s) with (String.String minus (String.String minus (String.String c s))). cbn [flag_token].
    rewrite !bool_decide_eq_true_2 by done. by rewrite bool_decide_eq_false_2.
Qed.

Lemma flag_token_inv s name value :
  flag_token s = FlagToken name value -> exists d t, dash d /\ s = d +:+ t /\ name_token t = FlagToken name value.
Proof.
  destruct s as [|c0 [|c1 rest]]; [done|done|]. cbn [flag_token]. case_bool_decide as H0; [subst c0|done].
  case_bool_decide as H1; [subst c1; case_bool_decide as Hr; [done|]|]; intros H.
  - exists "--", rest. split_and!; [by right|done|done].
  - exists "-", (String.String c1 rest). split_and!; [by left|done|done].
Qed.

Lemma name_token_inv t name value :
  name_token t = FlagToken name value -> t = match value with Some v => name +:+ "=" +:+ v | None => name end.
Proof.
  destruct t as [|c rest]; [done|]. cbn [name_token]. destruct (_ || _); [done|]. destruct (Cut rest equals_sign) as [before o] eqn:H.
  intros [= <- <-]. destruct o as [after|]; rewrite ?str_app_cons.
  - by rewrite (Cut_some _ _ _ _ H).
  - pose proof (Cut_none rest equals_sign) as Hn. rewrite H in Hn. cbn in Hn. by rewrite Hn.
Qed.

Lemma flag_token_terminator s : flag_token s = EndOfFlags -> s = "--".
Proof.
  destruct s as [|c0 [|c1 rest]]; [done|done|]. cbn [flag_token]. case_bool_decide as H0; [subst c0|done].
  assert (Hn : forall t, name_token t <> EndOfFlags).
  { intros [|c t]; [done|]. cbn [name_token]. destruct (_ || _); [done|]. by destruct (Cut t equals_sign). }
  case_bool_decide as H1; [subst c1; case_bool_decide as Hr; [by subst|]|]; intros H; by apply Hn in H.
Qed.

(** The settings of a list of names. *)
Lemma Parse_sound formal args v seen p :
  Parse formal args v seen = Ok p ->
  exists settings, spelled formal args settings (left_args p) /\ set_all formal settings v = Some (values p) /\
    actual p = list_to_set (map fst settings) ∪ seen.
Proof.
  remember (length args) as n eqn:Hn. revert args v seen Hn. induction n as [n IH] using lt_wf_ind. intros args v seen Hn.
  destruct args as [|s rest]; cbn [Parse].
  { intros [= <-]. exists []. split_and!; [constructor|done|]. cbn. set_solver. }
  destruct (flag_token s) as [| | |name given] eqn:Htoken; [| |done|].
  - intros [= <-]. exists []. split_and!; [by constructor|done|]. cbn. set_solver.
  - intros [= <-]. apply flag_token_terminator in Htoken as ->. exists []. split_and!; [constructor|done|]. cbn. set_solver.
  - destruct (flag_token_inv _ _ _ Htoken) as (d & t & Hd & -> & Ht%name_token_inv).
    destruct (formal !! name) as [flag|] eqn:Hflag; [|done].
    assert (Hgo : forall value args' v' , length args' < n -> Set_ flag value v = Some v' ->
      Parse formal args' v' ({[name]} ∪ seen) = Ok p ->
      (forall settings, spelled formal args' settings (left_args p) -> spelled formal ((d +:+ t) :: rest) ((name, value) :: settings) (left_args p)) ->
      exists settings, spelled formal ((d +:+ t) :: rest) settings (left_args p) /\ set_all formal settings v = Some (values p) /\
        actual p = list_to_set (map fst settings) ∪ seen).
    { intros value args' v' Hlen Hset Hparse Hspell. destruct (IH (length args') Hlen args' v' _ eq_refl Hparse) as (settings & Hs & Hall & Hact).
      exists ((name, value) :: settings). split_and!; [by apply Hspell|by cbn; rewrite Hflag; cbn; rewrite Hset|].
      rewrite Hact. cbn. set_solver. }
    cbn in Hn. destruct (IsBoolFlag flag) eqn:Hbool.
    + destruct (Set_ flag _ v) as [v'|] eqn:Hset; [|done]. intros Hp. eapply Hgo; [|exact Hset|exact Hp|]; [lia|].
      intros settings Hs. destruct given as [value|]; cbn [default from_option id]; subst t; [by apply spelled_equals|by eapply spelled_bool].
    + destruct given as [value|]; subst t.
      * destruct (Set_ flag value v) as [v'|] eqn:Hset; [|done]. intros Hp. eapply Hgo; [|exact Hset|exact Hp|]; [lia|].
        intros settings Hs. by apply spelled_equals.
      * destruct rest as [|value rest]; [done|]. destruct (Set_ flag value v) as [v'|] eqn:Hset; [|done]. intros Hp. cbn in Hn.
        eapply Hgo; [|exact Hset|exact Hp|]; [lia|]. intros settings Hs. by eapply spelled_next.
Qed.

Lemma Parse_complete formal args settings rest v v' seen :
  good_names formal -> spelled formal args settings rest -> set_all formal settings v = Some v' ->
  Parse formal args v seen = Ok (mkParsed v' (list_to_set (map fst settings) ∪ seen) rest).
Proof.
  intros Hgood Hspell. revert v seen. induction Hspell as [|s args Hs|args|d name value args settings rest Hd [flag Hflag] _ IH
    |d name flag value args settings rest Hd Hflag Hbool _ IH|d name flag args settings rest Hd Hflag Hbool _ IH]; intros v seen Hall.
  - injection Hall as <-. cbn. f_equal. f_equal. set_solver.
  - injection Hall as <-. cbn [Parse]. rewrite Hs. f_equal. f_equal. set_solver.
  - injection Hall as <-. cbn. f_equal. f_equal. set_solver.
  - cbn [set_all] in Hall. rewrite Hflag in Hall. cbn in Hall. destruct (Set_ flag value v) as [v1|] eqn:Hset; [|done]. cbn in Hall.
    cbn [Parse]. rewrite (flag_token_dash _ _ _ _ Hd (name_token_equals _ _ (Hgood _ _ Hflag))), Hflag. cbn [default from_option id].
    rewrite Hset. destruct (IsBoolFlag flag); (rewrite (IH _ _ Hall); f_equal; f_equal; cbn; set_solver).
  - cbn [set_all] in Hall. rewrite Hflag in Hall. cbn in Hall. destruct (Set_ flag value v) as [v1|] eqn:Hset; [|done]. cbn in Hall.
    cbn [Parse]. rewrite (flag_token_dash _ _ _ _ Hd (name_token_good _ (Hgood _ _ Hflag))), Hflag, Hbool, Hset.
    rewrite (IH _ _ Hall). f_equal. f_equal. cbn. set_solver.
  - cbn [set_all] in Hall. rewrite Hflag in Hall. cbn in Hall. destruct (Set_ flag _ v) as [v1|] eqn:Hset; [|done]. cbn in Hall.
    cbn [Parse]. rewrite (flag_token_dash _ _ _ _ Hd (name_token_good _ (Hgood _ _ Hflag))), Hflag, Hbool. cbn [default from_option id].
    rewrite Hset, (IH _ _ Hall). f_equal. f_equal. cbn. set_solver.
Qed.
End FlagSet.

Arguments Flag V : clear implicits.
Arguments parsed V : clear implicits.

(** ** [stringFlag] and [boolFlag] *)

Definition stringFlag := option string.
Definition boolFlag := option bool.

Definition stringFlag_String (f : stringFlag) : string := default "" f.
Definition stringFlag_Set (raw : string) : option stringFlag := Some (Some raw).
Definition boolFlag_String (f : boolFlag) : string := if default false f then "true" else "false".
Definition boolFlag_Set (raw : string) : option boolFlag := match ParseBool raw with Some b => Some (Some b) | None => None end.

Definition Var_string {V} (set : stringFlag -> V -> V) : Flag V := mkFlag false (fun raw v => f ← stringFlag_Set raw; Some (set f v)).
Definition Var_bool {V} (set : boolFlag -> V -> V) : Flag V := mkFlag true (fun raw v => f ← boolFlag_Set raw; Some (set f v)).

(** ** The flags run and validate share *)

Record configFlags := mkConfigFlags {
  cf_path : string; cf_project : stringFlag; cf_site : stringFlag; cf_station : stringFlag; cf_instance : stringFlag;
  cf_brokerURL : stringFlag; cf_credentialsFile : stringFlag; cf_caFile : stringFlag; cf_logLevel : stringFlag;
  cf_insecure : boolFlag; cf_logPayloads : boolFlag;
}.

(** No flag set. *)
Definition no_flags : configFlags := mkConfigFlags "" None None None None None None None None None None.

Definition config_flags : list (string * Flag configFlags) :=
  [("config", mkFlag false (fun raw v => Some (mkConfigFlags raw (cf_project v) (cf_site v) (cf_station v) (cf_instance v) (cf_brokerURL v) (cf_credentialsFile v) (cf_caFile v) (cf_logLevel v) (cf_insecure v) (cf_logPayloads v))));
   ("project", Var_string (fun f v => mkConfigFlags (cf_path v) f (cf_site v) (cf_station v) (cf_instance v) (cf_brokerURL v) (cf_credentialsFile v) (cf_caFile v) (cf_logLevel v) (cf_insecure v) (cf_logPayloads v)));
   ("site", Var_string (fun f v => mkConfigFlags (cf_path v) (cf_project v) f (cf_station v) (cf_instance v) (cf_brokerURL v) (cf_credentialsFile v) (cf_caFile v) (cf_logLevel v) (cf_insecure v) (cf_logPayloads v)));
   ("station", Var_string (fun f v => mkConfigFlags (cf_path v) (cf_project v) (cf_site v) f (cf_instance v) (cf_brokerURL v) (cf_credentialsFile v) (cf_caFile v) (cf_logLevel v) (cf_insecure v) (cf_logPayloads v)));
   ("instance", Var_string (fun f v => mkConfigFlags (cf_path v) (cf_project v) (cf_site v) (cf_station v) f (cf_brokerURL v) (cf_credentialsFile v) (cf_caFile v) (cf_logLevel v) (cf_insecure v) (cf_logPayloads v)));
   ("broker-url", Var_string (fun f v => mkConfigFlags (cf_path v) (cf_project v) (cf_site v) (cf_station v) (cf_instance v) f (cf_credentialsFile v) (cf_caFile v) (cf_logLevel v) (cf_insecure v) (cf_logPayloads v)));
   ("broker-credentials-file", Var_string (fun f v => mkConfigFlags (cf_path v) (cf_project v) (cf_site v) (cf_station v) (cf_instance v) (cf_brokerURL v) f (cf_caFile v) (cf_logLevel v) (cf_insecure v) (cf_logPayloads v)));
   ("broker-ca-file", Var_string (fun f v => mkConfigFlags (cf_path v) (cf_project v) (cf_site v) (cf_station v) (cf_instance v) (cf_brokerURL v) (cf_credentialsFile v) f (cf_logLevel v) (cf_insecure v) (cf_logPayloads v)));
   ("broker-insecure", Var_bool (fun f v => mkConfigFlags (cf_path v) (cf_project v) (cf_site v) (cf_station v) (cf_instance v) (cf_brokerURL v) (cf_credentialsFile v) (cf_caFile v) (cf_logLevel v) f (cf_logPayloads v)));
   ("log-level", Var_string (fun f v => mkConfigFlags (cf_path v) (cf_project v) (cf_site v) (cf_station v) (cf_instance v) (cf_brokerURL v) (cf_credentialsFile v) (cf_caFile v) f (cf_insecure v) (cf_logPayloads v)));
   ("log-payloads", Var_bool (fun f v => mkConfigFlags (cf_path v) (cf_project v) (cf_site v) (cf_station v) (cf_instance v) (cf_brokerURL v) (cf_credentialsFile v) (cf_caFile v) (cf_logLevel v) (cf_insecure v) f))].

Definition newConfigFlags : gmap string (Flag configFlags) := list_to_map config_flags.

Definition loadOptions (shared : configFlags) : Options :=
  mkOptions (cf_path shared)
    (mkOverrides (cf_project shared) (cf_site shared) (cf_station shared) (cf_instance shared) (cf_brokerURL shared)
      (cf_credentialsFile shared) (cf_caFile shared) (cf_insecure shared) (cf_logLevel shared) (cf_logPayloads shared)) false.

(** ** [parseCommandLine] *)

Inductive command_line_error := HelpWanted | WrongFlag (err : flag_error) | Positional (arg : string).

Definition parseCommandLine {V} (formal : gmap string (Flag V)) (args : list string) (v : V) : result command_line_error (parsed V) :=
  match Parse formal args v ∅ with
  | Err ErrHelp => Err HelpWanted
  | Err err => Err (WrongFlag err)
  | Ok p => match left_args p with arg :: _ => Err (Positional arg) | [] => Ok p end
  end.

Lemma parseCommandLine_spec {V} (formal : gmap string (Flag V)) args v v' seen :
  good_names formal ->
  parseCommandLine formal args v = Ok (mkParsed v' seen []) <->
  exists settings, spelled formal args settings [] /\ set_all formal settings v = Some v' /\ seen = list_to_set (map fst settings).
Proof.
  intros Hgood. unfold parseCommandLine. split.
  - destruct (Parse formal args v ∅) as [p|err] eqn:Hp; [|by destruct err]. destruct (left_args p) eqn:Hleft; [|done]. intros [= ->].
    destruct (Parse_sound _ _ _ _ _ Hp) as (settings & Hs & Hall & Hact). cbn in *. exists settings. split_and!; [done|done|].
    rewrite Hact. apply union_empty_r_L.
  - intros (settings & Hs & Hall & ->). rewrite (Parse_complete _ _ _ _ _ _ ∅ Hgood Hs Hall). cbn. by rewrite union_empty_r_L.
Qed.

(** *** What the flags override *)

(** The last value a list of settings gives a flag. *)
Fixpoint last_value (name : string) (settings : list (string * string)) : option string :=
  match settings with
  | [] => None
  | (n, value) :: settings' =>
    match last_value name settings' with
    | Some v => Some v
    | None => if bool_decide (n = name) then Some value else None
    end
  end.

Definition bool_flags : list string := ["broker-insecure"; "log-payloads"].

(** A flag that is declared, with a value it takes. *)
Definition good_setting (setting : string * string) : Prop :=
  setting.1 ∈ map fst config_flags /\ (setting.1 ∈ bool_flags -> is_Some (ParseBool setting.2)).

Definition over {A} (new : option A) (old : A) : A := default old new.

(** The flags after the settings, on top of [v]. *)
Definition overlaid (settings : list (string * string)) (v : configFlags) : configFlags :=
  let given name old := over (Some <$> last_value name settings) old in
  let given_bool name old := over (Some <$> (last_value name settings ≫= ParseBool)) old in
  mkConfigFlags (over (last_value "config" settings) (cf_path v)) (given "project" (cf_project v)) (given "site" (cf_site v))
    (given "station" (cf_station v)) (given "instance" (cf_instance v)) (given "broker-url" (cf_brokerURL v))
    (given "broker-credentials-file" (cf_credentialsFile v)) (given "broker-ca-file" (cf_caFile v)) (given "log-level" (cf_logLevel v))
    (given_bool "broker-insecure" (cf_insecure v)) (given_bool "log-payloads" (cf_logPayloads v)).

Lemma config_flags_nodup : NoDup (map fst config_flags).
Proof. apply (bool_decide_eq_true_1 _). vm_compute. reflexivity. Qed.

Lemma newConfigFlags_lookup name flag : newConfigFlags !! name = Some flag <-> (name, flag) ∈ config_flags.
Proof. apply declared_lookup, config_flags_nodup. Qed.

Lemma newConfigFlags_good : good_names newConfigFlags.
Proof. apply declared_good; [apply config_flags_nodup|vm_compute; reflexivity]. Qed.

Lemma last_value_elem name settings value : last_value name settings = Some value -> (name, value) ∈ settings.
Proof.
  induction settings as [|[n v] settings IH]; cbn; [done|]. destruct (last_value name settings) as [w|].
  - intros [= ->]. apply list_elem_of_further. by apply IH.
  - case_bool_decide as Hn; [intros [= ->]; subst; apply list_elem_of_here|done].
Qed.

Lemma last_bool name settings :
  Forall good_setting settings -> name ∈ bool_flags -> is_Some (last_value name settings ≫= ParseBool) \/ last_value name settings = None.
Proof.
  intros Hall Hname. destruct (last_value name settings) as [value|] eqn:H; [|by right]. left. cbn.
  apply last_value_elem in H. rewrite Forall_forall in Hall. by apply (Hall _ H).
Qed.

Lemma overlaid_nil v : overlaid [] v = v.
Proof. by destruct v. Qed.

(** A flag's value after one setting more in front. *)
Lemma over_cons {A} (name n value : string) (last : option string) (f : string -> A) old :
  over (f <$> match last with Some v => Some v | None => if bool_decide (n = name) then Some value else None end) old =
  over (f <$> last) (if bool_decide (n = name) then f value else old).
Proof. by destruct last, (bool_decide (n = name)). Qed.

Lemma over_cons_id (name n value : string) (last : option string) old :
  over match last with Some v => Some v | None => if bool_decide (n = name) then Some value else None end old =
  over last (if bool_decide (n = name) then value else old).
Proof. by destruct last, (bool_decide (n = name)). Qed.

Lemma over_cons_bool (name n value : string) (last : option string) (old : boolFlag) :
  is_Some (last ≫= ParseBool) \/ last = None ->
  over (Some <$> (match last with Some v => Some v | None => if bool_decide (n = name) then Some value else None end ≫= ParseBool)) old =
  over (Some <$> (last ≫= ParseBool)) (if bool_decide (n = name) then over (Some <$> ParseBool value) old else old).
Proof. intros [[b Hb]| ->]; [destruct last; cbn in *; [by rewrite Hb|done]|]. by destruct (bool_decide (n = name)). Qed.

Ltac decide_strings :=
  repeat match goal with
  | |- context [@bool_decide (@eq string ?a ?b) ?d] =>
    let r := eval vm_compute in (@bool_decide (@eq string a b) d) in change (@bool_decide (@eq string a b) d) with r
  end.

(** One setting and then the others. *)
Lemma overlaid_cons name flag value settings v v1 :
  Forall good_setting settings -> (name, flag) ∈ config_flags -> Set_ flag value v = Some v1 ->
  overlaid settings v1 = overlaid ((name, value) :: settings) v.
Proof.
  intros Hall Hin Hset.
  pose proof (last_bool "broker-insecure" settings Hall ltac:(apply list_elem_of_here)) as Hinsecure.
  pose proof (last_bool "log-payloads" settings Hall ltac:(apply list_elem_of_further, list_elem_of_here)) as Hpayloads. clear Hall.
  unfold overlaid. cbn [last_value]. rewrite !over_cons_bool by done. rewrite !over_cons.
  rewrite over_cons_id. clear Hinsecure Hpayloads. unfold config_flags in Hin.
  repeat (apply elem_of_cons in Hin as [[= -> ->]|Hin];
    [decide_strings; cbn [Set_ Var_string Var_bool stringFlag_Set boolFlag_Set mbind option_bind] in Hset;
     try (injection Hset as <-; reflexivity)|]).
  all: try by apply elem_of_nil in Hin.
  all: unfold boolFlag_Set in Hset; destruct (ParseBool value) as [b|]; [injection Hset as <-; reflexivity|discriminate].
Qed.

Lemma Set_some name flag value v :
  (name, flag) ∈ config_flags -> is_Some (Set_ flag value v) <-> (name ∈ bool_flags -> is_Some (ParseBool value)).
Proof.
  intros Hin. unfold config_flags in Hin.
  assert (Hplain : forall name, bool_decide (name ∈ bool_flags) = false -> name ∈ bool_flags -> False)
    by (intros n Hn; by apply bool_decide_eq_false in Hn).
  repeat (apply elem_of_cons in Hin as [[= -> ->]|Hin];
    [cbn [Set_ Var_string Var_bool stringFlag_Set mbind option_bind];
     try (split; [intros _ H; exfalso; refine (Hplain _ _ H); reflexivity|by eexists])|]).
  all: try by apply elem_of_nil in Hin.
  all: unfold boolFlag_Set; destruct (ParseBool value) as [b|]; [split; intros _; [intros _|]; by eexists|].
  all: split; [intros [? H]; cbn in H; discriminate|intros H; exfalso].
  all: destruct H as [? H]; [apply (bool_decide_eq_true_1 _); reflexivity|discriminate].
Qed.

Lemma set_all_config settings v v' :
  set_all newConfigFlags settings v = Some v' <-> Forall good_setting settings /\ v' = overlaid settings v.
Proof.
  revert v. induction settings as [|[name value] settings IH]; intros v.
  { rewrite overlaid_nil. cbn. split; [by intros [= ->]|by intros [_ ->]]. }
  assert (Hgood : good_setting (name, value) <-> exists flag v1, newConfigFlags !! name = Some flag /\ Set_ flag value v = Some v1).
  { unfold good_setting. cbn [fst snd]. setoid_rewrite newConfigFlags_lookup. split.
    - intros [([n flag] & -> & Hin)%list_elem_of_fmap Hbool]. exists flag. apply (Set_some _ _ value v Hin) in Hbool as [v1 Hset]. eauto.
    - intros (flag & v1 & Hin & Hset). split; [apply list_elem_of_fmap; by exists (name, flag)|]. apply (Set_some _ _ value v Hin). eauto. }
  cbn [set_all]. split.
  - intros H. destruct (newConfigFlags !! name) as [flag|] eqn:Hflag; [|done]. cbn in H.
    destruct (Set_ flag value v) as [v1|] eqn:Hset; [|done]. cbn in H. apply IH in H as [Hall ->].
    split; [constructor; [apply Hgood; eauto|done]|]. eapply overlaid_cons; [done|by apply newConfigFlags_lookup|done].
  - intros [(Hs & Hall)%Forall_cons ->]. apply Hgood in Hs as (flag & v1 & Hflag & Hset). rewrite Hflag. cbn. rewrite Hset. cbn.
    apply IH. split; [done|]. symmetry. eapply overlaid_cons; [done|by apply newConfigFlags_lookup|done].
Qed.

(** The options that settings ask for. *)
Definition options_of (settings : list (string * string)) : Options :=
  let given name := last_value name settings in
  mkOptions (default "" (given "config"))
    (mkOverrides (given "project") (given "site") (given "station") (given "instance") (given "broker-url")
      (given "broker-credentials-file") (given "broker-ca-file") (given "broker-insecure" ≫= ParseBool) (given "log-level")
      (given "log-payloads" ≫= ParseBool)) false.

Lemma over_None {A} (new : option A) : over (Some <$> new) None = new.
Proof. by destruct new. Qed.

Lemma loadOptions_overlaid settings : loadOptions (overlaid settings no_flags) = options_of settings.
Proof.
  unfold loadOptions, overlaid, options_of, no_flags, stringFlag, boolFlag.
  cbn [cf_path cf_project cf_site cf_station cf_instance cf_brokerURL cf_credentialsFile cf_caFile cf_logLevel cf_insecure cf_logPayloads].
  by rewrite !over_None.
Qed.

(** C38: the command line of run and validate is accepted exactly when it spells
    settings of the declared flags, with values they take, and nothing else; a
    flag then overrides exactly the setting it names, with the last value given,
    and a setting no flag names is not overridden, not even with an empty value. *)
Theorem flags_override args opts :
  (exists shared seen, parseCommandLine newConfigFlags args no_flags = Ok (mkParsed shared seen []) /\ loadOptions shared = opts) <->
  (exists settings, spelled newConfigFlags args settings [] /\ Forall good_setting settings /\ opts = options_of settings).
Proof.
  setoid_rewrite (parseCommandLine_spec _ _ _ _ _ newConfigFlags_good). setoid_rewrite set_all_config. split.
  - intros (shared & seen & (settings & Hs & (Hgood & ->) & _) & <-). exists settings. split_and!; [done|done|]. apply loadOptions_overlaid.
  - intros (settings & Hs & Hgood & ->). exists (overlaid settings no_flags), (list_to_set (map fst settings)).
    split; [by exists settings|apply loadOptions_overlaid].
Qed.
