(* ===== verification/Mqtt.v ===== *)
(** * The connection to the broker: internal/transport/mqtt/client.go and
      subscribe.go

    [Dial]'s checks and what it configures, the publishes and their
    acknowledgement, the messages that arrive, and the broker's answers to the
    subscriptions. paho, the TLS library, the files and the clock are
    arguments. *)
From S2P Require Import Prelude GoLib Float FloatError Wire Backoff ConfigValidate Tx.
From Stdlib Require Import Floats.SpecFloat QArith Qabs Lqa.
#[local] Close Scope Q_scope.
#[local] Open Scope string_scope.

(** ** Seconds *)

(** [Duration.Seconds]. *)
Definition Seconds (d : duration) : float64 :=
  float_add (float_of_Z (Z.quot d Second)) (float_div (float_of_Z (Z.rem d Second)) (float_of_Z Second)).

Definition MaxUint16 : Z := 65535.
Definition MaxUint32 : Z := 4294967295.

(** [None] is a conversion whose result Go leaves to the machine; there is none
    from a duration. *)
Definition messageExpiryInterval (expiry : duration) : option Z :=
  if (expiry <=? 0)%Z then Some 0%Z
  else seconds ← Ceil (Seconds expiry); Some (if (MaxUint32 <? seconds)%Z then MaxUint32 else seconds).

Definition keepaliveSeconds (delay : duration) : option Z :=
  seconds ← Round (Seconds delay);
  Some (if (MaxUint16 <? seconds)%Z then MaxUint16 else if (seconds <? 1)%Z then 1%Z else seconds).

Example messageExpiryInterval_examples :
  messageExpiryInterval 0 = Some 0%Z /\ messageExpiryInterval Millisecond = Some 1%Z /\ messageExpiryInterval (30 * Second) = Some 30%Z /\
  messageExpiryInterval (30 * Second + 1) = Some 31%Z /\ messageExpiryInterval max_int64 = Some MaxUint32.
Proof. vm_compute. auto. Qed.

Example keepaliveSeconds_examples :
  keepaliveSeconds (Second / 2) = Some 1%Z /\ keepaliveSeconds 1 = Some 1%Z /\ keepaliveSeconds (5 * Second / 2) = Some 3%Z /\
  keepaliveSeconds max_int64 = Some MaxUint16.
Proof. vm_compute. auto. Qed.

(** No bound is put on the missed keepalives: with enough of them the keepalive's
    expiry wraps to a negative duration, which is sent as no expiry. *)
Example keepalive_expiry_overflows : messageExpiryInterval (int64 (15 * 1000000000 * Second)) = Some 0%Z.
Proof. vm_compute. reflexivity. Qed.

(** A duration's seconds, between the whole ones around it. *)
Lemma Seconds_within d :
  (0 < d <= max_int64)%Z ->
  exists lo, within lo (Z.quot d Second) (Z.quot d Second + (if Z.rem d Second =? 0 then 0 else 1))%Z (Seconds d).
Proof.
  intros Hd. unfold Seconds, max_int64, Second in *. set (n := Z.quot d 1000000000). set (r := Z.rem d 1000000000).
  assert (d = 1000000000 * n + r)%Z by (unfold n, r; apply Z.quot_rem').
  assert (0 <= r < 1000000000)%Z by (unfold r; apply Z.rem_bound_pos; lia). assert (Hn : (0 <= n < 2 ^ 34)%Z) by lia.
  destruct (decide (n = 0%Z)) as [Hz|Hnz].
  - rewrite Hz, (proj2 (Z.eqb_neq r 0)) by lia. destruct (float_div_within r 1000000000) as (p & e & -> & Hp); [lia..|].
    exists (-160)%Z, p, e. done.
  - destruct (r =? 0)%Z eqn:Hr.
    + apply Z.eqb_eq in Hr. rewrite Hr, Z.add_0_r. destruct (float_of_Z_within n) as (p & e & -> & Hp); [lia|].
      exists (-52)%Z, p, e. done.
    + apply Z.eqb_neq in Hr. exists (-160 - 53)%Z. rewrite <-(Z.add_0_r n) at 1. apply float_add_within; [lia..| |].
      * destruct (float_of_Z_within n) as (p & e & -> & He & Hp); [lia|]. exists p, e. split_and!; [done|lia..| |]; apply Hp.
      * apply float_div_within; lia.
Qed.

(** The nanoseconds of a duration's seconds, up to 48 days: less than one off. *)
Lemma Seconds_error d :
  (0 < d <= 2 ^ 22 * Second)%Z -> (inject_Z d - 1 < fval (Seconds d) * inject_Z Second < inject_Z d + 1)%Q.
Proof.
  intros Hd. unfold Seconds, Second in *. set (n := Z.quot d 1000000000). set (r := Z.rem d 1000000000).
  assert (Hdn : d = (1000000000 * n + r)%Z) by (unfold n, r; apply Z.quot_rem').
  assert (Hr : (0 <= r < 1000000000)%Z) by (unfold r; apply Z.rem_bound_pos; lia). assert (Hn : (0 <= n <= 2 ^ 22)%Z) by lia. clearbody n r. subst d.
  destruct (float_of_Z_value n ltac:(lia)) as [Hmn Hvn]. destruct (float_div_error r 1000000000 Hr ltac:(lia)) as [Hmr Hvr].
  set (y := float_div (float_of_Z r) (float_of_Z 1000000000)) in *.
  destruct (float_add_error (-160) (2 ^ 22) 1 (float_of_Z n) y) as [_ Hsum]; [by eapply moderate_weaken; [exact Hmn|lia..]|done|lia..|].
  set (x := float_add (float_of_Z n) y) in *. rewrite Hvn in Hsum. apply Qabs_Qle_condition in Hvr, Hsum.
  rewrite inject_Z_plus, inject_Z_mult. change (inject_Z 1000000000) with 1000000000%Q in *.
  assert (Hn0 : (0 <= inject_Z n <= 4194304)%Q) by (change 0%Q with (inject_Z 0); change 4194304%Q with (inject_Z 4194304); rewrite <-!Zle_Qle; lia).
  assert (Hr0 : (0 <= inject_Z r <= 1000000000)%Q) by (change 0%Q with (inject_Z 0); change 1000000000%Q with (inject_Z 1000000000); rewrite <-!Zle_Qle; lia).
  assert (Hdiv : (inject_Z r / 1000000000 * 1000000000 == inject_Z r)%Q) by (field).
  set (v := (inject_Z r / 1000000000)%Q) in *. clearbody v. unfold ulp in Hsum. split; lra.
Qed.

Lemma Ceil_seconds d c :
  (0 < d <= 2 ^ 22 * Second)%Z -> Ceil (Seconds d) = Some c -> (d <= c * Second < d + Second)%Z.
Proof.
  intros Hd Hc. destruct (Seconds_within d) as [lo Hw]; [unfold max_int64, Second in *; lia|].
  destruct (Ceil_within _ _ _ _ Hw) as (c' & Hc' & Hb & _). rewrite Hc in Hc'. injection Hc' as <-.
  destruct (Ceil_bounds _ _ _ _ Hw) as (c' & Hc' & Hlo & Hhi). rewrite Hc in Hc'. injection Hc' as <-. pose proof (Seconds_error d Hd) as [He1 He2].
  assert (HS : (0 < inject_Z Second)%Q) by reflexivity.
  assert (Hge : (inject_Z d < inject_Z (c * Second + 1))%Q).
  { apply (Qmult_le_compat_r _ _ (inject_Z Second)) in Hhi; [|by apply Qlt_le_weak]. rewrite inject_Z_plus, inject_Z_mult. change (inject_Z 1) with 1%Q. lra. }
  rewrite <-Zlt_Qlt in Hge. split; [lia|].
  assert (d = Second * Z.quot d Second + Z.rem d Second)%Z by apply Z.quot_rem'.
  assert (0 <= Z.rem d Second < Second)%Z by (apply Z.rem_bound_pos; unfold Second; lia). unfold Second in *. destruct (Z.rem d 1000000000 =? 0)%Z eqn:?; lia.
Qed.

Lemma Round_seconds d c :
  (0 < d <= 2 ^ 22 * Second)%Z -> Round (Seconds d) = Some c -> (2 * Z.abs (c * Second - d) <= Second)%Z.
Proof.
  intros Hd Hc. destruct (Seconds_within d) as [lo Hw]; [unfold max_int64, Second in *; lia|].
  destruct (Round_bounds _ _ _ _ Hw) as (c' & Hc' & Hlo & Hhi). rewrite Hc in Hc'. injection Hc' as <-. pose proof (Seconds_error d Hd) as [He1 He2].
  assert (HS : (0 <= inject_Z Second)%Q) by discriminate.
  apply (Qmult_le_compat_r _ _ (inject_Z Second)) in Hlo; [|exact HS]. apply (Qmult_le_compat_r _ _ (inject_Z Second)) in Hhi; [|exact HS].
  assert (H1 : (inject_Z (2 * c * Second - Second) < inject_Z (2 * d + 2))%Q).
  { unfold Z.sub. rewrite !inject_Z_plus, !inject_Z_mult, inject_Z_opp. change (inject_Z 2) with 2%Q. lra. }
  assert (H2 : (inject_Z (2 * d - 2) < inject_Z (2 * c * Second + Second))%Q).
  { unfold Z.sub. rewrite !inject_Z_plus, !inject_Z_mult, ?inject_Z_opp. change (inject_Z 2) with 2%Q. lra. }
  rewrite <-Zlt_Qlt in H1, H2. unfold Second in *. lia.
Qed.

Lemma messageExpiryInterval_spec d :
  (0 < d <= max_int64)%Z ->
  exists s, messageExpiryInterval d = Some s /\ (1 <= s <= MaxUint32)%Z /\
    (Z.min (messageExpirySeconds d) MaxUint32 <= s <= messageExpirySeconds d + 1)%Z /\
    (Z.rem d Second = 0%Z -> s = Z.min (messageExpirySeconds d) MaxUint32).
Proof.
  intros Hd. unfold messageExpiryInterval, messageExpirySeconds, MaxUint32. rewrite (proj2 (Z.leb_gt d 0)) by lia.
  destruct (Seconds_within d Hd) as [lo Hs]. destruct (Ceil_within _ _ _ _ Hs) as (c & -> & Hc & Hpos).
  assert (0 <= Z.quot d Second)%Z by (apply Z.quot_pos; unfold Second; lia). eexists. split; [reflexivity|].
  destruct (4294967295 <? c)%Z eqn:?, (Z.rem d Second =? 0)%Z eqn:?; lia.
Qed.

(** C30: the expiry of every packet, in seconds, is none for no expiry; else it
    is rounded up, exactly, to the first whole second that is not before it, for
    every expiry up to 2^22 seconds, which is 48 days. Over that it is at least
    the whole seconds of it and never a second more, up to the protocol's maximum;
    and it is exactly the [message_expiry_s] of the message when it is whole
    seconds, as a configured one is. A keepalive is a second at least, and the
    whole second nearest to what was asked, up to the field's maximum. *)
Theorem expiry_in_seconds d :
  (d <= max_int64)%Z ->
  exists s, messageExpiryInterval d = Some s /\
    ((d <= 0)%Z -> s = 0%Z) /\
    ((0 < d <= 2 ^ 22 * Second)%Z -> (d <= s * Second < d + Second)%Z) /\
    ((0 < d)%Z -> (1 <= s <= MaxUint32)%Z /\ (Z.min (messageExpirySeconds d) MaxUint32 <= s <= messageExpirySeconds d + 1)%Z) /\
    ((0 < d)%Z -> Z.rem d Second = 0%Z -> s = Z.min (messageExpirySeconds d) MaxUint32) /\
    ((0 < d)%Z -> exists k, keepaliveSeconds d = Some k /\ (1 <= k <= MaxUint16)%Z /\
       (Z.min (messageExpirySeconds d) MaxUint16 <= k <= messageExpirySeconds d + 1)%Z /\
       ((Second <= 2 * d)%Z -> (d <= MaxUint16 * Second)%Z -> (2 * Z.abs (k * Second - d) <= Second)%Z)).
Proof.
  intros Hmax. destruct (decide (0 < d)%Z) as [Hd|Hd].
  2: { exists 0%Z. unfold messageExpiryInterval. rewrite (proj2 (Z.leb_le d 0)) by lia. split_and!; [done|done|lia..]. }
  destruct (messageExpiryInterval_spec d) as (s & Hs & H1 & H2 & H3); [lia|]. exists s.
  split; [exact Hs|]. split; [lia|]. split.
  { intros Hsmall. unfold messageExpiryInterval in Hs. rewrite (proj2 (Z.leb_gt d 0)) in Hs by lia.
    destruct (Ceil (Seconds d)) as [c|] eqn:Hc; [|done]. pose proof (Ceil_seconds d c Hsmall Hc). cbn in Hs. injection Hs as <-.
    unfold MaxUint32, Second in *. destruct (4294967295 <? c)%Z eqn:?; lia. }
  split; [done|]. split; [done|]. intros _.
  destruct (Seconds_within d) as [lo Hw]; [lia|]. destruct (Round_within _ _ _ _ Hw) as (k & Hk & Hb).
  pose proof (fun H => Round_seconds d k H Hk) as Hnear. unfold keepaliveSeconds. rewrite Hk. eexists. split; [reflexivity|].
  unfold MaxUint16, messageExpirySeconds in *. assert (0 <= Z.quot d Second)%Z by (apply Z.quot_pos; unfold Second; lia).
  assert (Hcase : (k <= 65535 -> 1 <= k -> (if 65535 <? k then 65535 else if k <? 1 then 1 else k) = k)%Z) by (intros; by rewrite (proj2 (Z.ltb_ge _ _)), (proj2 (Z.ltb_ge k 1)) by lia).
  split; [destruct (65535 <? k)%Z eqn:?, (k <? 1)%Z eqn:?; lia|].
  split; [destruct (65535 <? k)%Z eqn:?, (k <? 1)%Z eqn:?, (Z.rem d Second =? 0)%Z; lia|].
  intros Hlo Hhi. unfold Second in *. specialize (Hnear ltac:(lia)). destruct (65535 <? k)%Z eqn:?, (k <? 1)%Z eqn:?; lia.
Qed.

Lemma expiry_in_seconds_witness :
  messageExpiryInterval (90 * Second) = Some 90%Z /\ (exists s, messageExpiryInterval (90 * Second + 1) = Some s /\ s = 91%Z) /\
  exists k, keepaliveSeconds (5 * Second / 2 - 1) = Some k /\ k = 2%Z.
Proof.
  destruct (expiry_in_seconds (90 * Second)) as (s & Hs & _ & _ & _ & Hwhole & _); [vm_compute; discriminate|].
  destruct (expiry_in_seconds (90 * Second + 1)) as (s' & Hs' & _ & Hup & _); [vm_compute; discriminate|].
  destruct (expiry_in_seconds (5 * Second / 2 - 1)) as (_ & _ & _ & _ & _ & _ & Hk); [vm_compute; discriminate|].
  rewrite Hs, (Hwhole eq_refl eq_refl). split; [reflexivity|]. unfold Second in *. split.
  - exists s'. split; [exact Hs'|]. specialize (Hup ltac:(lia)). lia.
  - destruct (Hk eq_refl) as (k & -> & _ & _ & Hnear). exists k. split; [reflexivity|]. unfold MaxUint16 in Hnear. change (5 * 1000000000 / 2 - 1)%Z with 2499999999%Z in *. specialize (Hnear ltac:(done) ltac:(done)). lia.
Defined.

(** Past that the sum of the whole seconds and the fraction can lose the
    fraction: 2^24 seconds and a nanosecond come to 2^24 seconds. *)
Example rounded_down : messageExpiryInterval (2 ^ 24 * Second + 1) = Some (2 ^ 24)%Z.
Proof. vm_compute. reflexivity. Qed.

(** ** [Dial] *)

(** [Will], [OnUp] and [OnDown] are functions that may be nil. *)
Record Options := mkOptions {
  URL : string; ClientID : string; Username : string; Password : string; TLS : bool; CAFile : string; Insecure : bool;
  Keepalive : duration; ConnectTimeout : duration; Reconnect : Policy;
  WillTopic : string; has_Will : bool; Subscriptions : list string; has_OnMessage : bool; has_OnUp : bool; has_OnDown : bool;
}.

Inductive dial_error :=
  | NoClientID
  | KeepaliveNotPositive (d : duration)
  | ConnectTimeoutNotPositive (d : duration)
  | BadReconnect (problems : list policy_problem)
  | BadURL (url err : string)
  | CannotReadCA (err : string)
  | NoCertificates (path : string)
  | CAWithoutTLS
  | IncompleteWill
  | PahoError (err : string).

Record tls_config := mkTLS { ServerName : string; InsecureSkipVerify : bool; MinVersion : Z; RootCAs : option bytes }.
Definition VersionTLS12 : Z := 771.

(** The configuration of autopaho's connection manager. [Queue] is nil when it
    is false; the wait before an attempt is [reconnectDelay]'s. *)
Record ClientConfig := mkClientConfig {
  ServerUrl : parsed_url; TlsCfg : option tls_config; KeepAlive : option Z; CleanStartOnInitialConnection : bool;
  SessionExpiryInterval : Z; ConnectUsername : string; ConnectPassword : string; cc_Reconnect : Policy;
  cc_ConnectTimeout : duration; Queue : bool; cc_ClientID : string; WillMessage : option (string * Z * Z);
}.

Definition qosAtLeastOnce : Z := 1.
Definition qosAtMostOnce : Z := 0.
Definition reasonCodeFailure : Z := 128.

Section Dial.
Context (url_parse : string -> result string parsed_url) (read_file : string -> result string bytes).
Context (certificates_in : bytes -> bool) (new_connection : ClientConfig -> option string).

Definition tlsConfig (host caFile : string) (insecure : bool) : result dial_error tls_config :=
  if bool_decide (caFile = "") then Ok (mkTLS host insecure VersionTLS12 None)
  else match read_file caFile with
  | Err err => Err (CannotReadCA err)
  | Ok pem => if certificates_in pem then Ok (mkTLS host insecure VersionTLS12 (Some pem)) else Err (NoCertificates caFile)
  end.

(** The will's topic, its quality of service and its delay. *)
Definition clientConfig (opts : Options) (brokerURL : parsed_url) (tlsCfg : option tls_config) : ClientConfig :=
  mkClientConfig brokerURL tlsCfg (keepaliveSeconds (Keepalive opts)) true 0 (Username opts) (Password opts) (Reconnect opts)
    (ConnectTimeout opts) false (ClientID opts) (if has_Will opts then Some (WillTopic opts, qosAtLeastOnce, 0%Z) else None).

Definition Dial (opts : Options) : result dial_error ClientConfig :=
  if bool_decide (ClientID opts = "") then Err NoClientID
  else if (Keepalive opts <=? 0)%Z then Err (KeepaliveNotPositive (Keepalive opts))
  else if (ConnectTimeout opts <=? 0)%Z then Err (ConnectTimeoutNotPositive (ConnectTimeout opts))
  else match Backoff.Validate (Reconnect opts) with
  | (_ :: _) as problems => Err (BadReconnect problems)
  | [] =>
    match url_parse (URL opts) with
    | Err err => Err (BadURL (URL opts) err)
    | Ok brokerURL =>
      match (if TLS opts then
               match tlsConfig (Hostname brokerURL) (CAFile opts) (Insecure opts) with Ok cfg => Ok (Some cfg) | Err err => Err err end
             else if negb (bool_decide (CAFile opts = "")) then Err CAWithoutTLS
             else Ok None) with
      | Err err => Err err
      | Ok tlsCfg =>
        if xorb (negb (has_Will opts)) (bool_decide (WillTopic opts = "")) then Err IncompleteWill
        else
          let cfg := clientConfig opts brokerURL tlsCfg in
          match new_connection cfg with Some err => Err (PahoError err) | None => Ok cfg end
      end
    end
  end.
End Dial.

(** The will that goes into an attempt's CONNECT packet: composed for it, or why
    the attempt is not made. *)
Definition connect_will (will : result string bytes) (message : string * Z * Z) : result string (string * Z * Z * bytes) :=
  match will with Ok payload => Ok (message, payload) | Err err => Err ("compose will: " +:+ err) end.

(** The wait before an attempt to connect; [random] is what the jitter draws. *)
Definition reconnectDelay (policy : Policy) (connectedBefore : bool) (random : float64) (attempt : Z) : option duration :=
  if connectedBefore then Wait policy random (int64 (attempt + 1))
  else if (attempt <=? 0)%Z then Some 0%Z
  else Wait policy random attempt.

(** ** Publishing *)

Record packet := mkPacket { p_Topic : string; p_QoS : Z; p_Payload : bytes; p_MessageExpiry : option (option Z) }.

(** What the connection manager answers: that it is down, another error, or the
    response, whose reason code counts at QoS 1. *)
Inductive publish_reply := ConnectionDown | PublishFailed (err : string) | NoResponse | Response (code : Z) (reason : string).

Inductive publish_error := BrokerDown (topic : string) | NotSent (topic err : string) | RefusedWith (topic : string) (code : Z) (reason : string).

Definition publish (p : packet) (reply : publish_reply) : option publish_error :=
  match reply with
  | ConnectionDown => Some (BrokerDown (p_Topic p))
  | PublishFailed err => Some (NotSent (p_Topic p) err)
  | NoResponse => None
  | Response code reason =>
    if (p_QoS p =? qosAtMostOnce)%Z then None
    else if (reasonCodeFailure <=? code)%Z then Some (RefusedWith (p_Topic p) code reason)
    else None
  end.

(** The packets of [PublishRx], [PublishEvent], [PublishKeepalive] and
    [PublishOffline]. *)
Definition rx_packet (topic : string) (payload : bytes) (expiry : duration) : packet :=
  mkPacket topic qosAtLeastOnce payload (Some (messageExpiryInterval expiry)).
Definition event_packet (topic : string) (payload : bytes) (expiry : duration) : packet :=
  mkPacket topic qosAtLeastOnce payload (Some (messageExpiryInterval expiry)).
Definition keepalive_packet (topic : string) (payload : bytes) (expiry : duration) : packet :=
  mkPacket topic qosAtMostOnce payload (Some (messageExpiryInterval expiry)).
Definition offline_packet (topic : string) (payload : bytes) : packet := mkPacket topic qosAtLeastOnce payload None.

(** *** [Close] *)

(** The DISCONNECT, whatever comes of it, and then the gate of paho's lines
    (PahoLog.v); nothing is published. *)
Inductive close_call := Disconnect | CloseGate.

Definition Close (disconnect : option string) : list close_call * option string :=
  ([Disconnect; CloseGate], (fun err => "mqtt: disconnect: " +:+ err) <$> disconnect).

(** ** What arrives *)

Record received_publish := mkReceived { rp_Topic : string; rp_Payload : bytes; rp_MessageExpiry : option Z }.

(** [messageFromPublish], as the core's message. *)
Definition messageFromPublish (p : received_publish) (received : time) : TxMessage :=
  match rp_MessageExpiry p with
  | Some seconds => mkTxMessage (rp_Topic p) (rp_Payload p) (int64 (seconds * Second)) true received
  | None => mkTxMessage (rp_Topic p) (rp_Payload p) 0 false received
  end.

(** ** The broker's answers to the subscriptions *)

(** A SUBACK's reason codes, which paho gives with an error too when one is a
    refusal, or an error without one. *)
Inductive subscribe_reply := Suback (reasons : list Z) | NoSuback (err : string).

(** The loop over the subscriptions: a topic past the answers has none. *)
Fixpoint subscribe_answered (topics : list string) (reasons : list Z) (answered : gmap string Z) : gmap string Z :=
  match topics, reasons with
  | topic :: topics', code :: reasons' => subscribe_answered topics' reasons' (<[topic := code]> answered)
  | _, _ => answered
  end.

(** [subscribe]: the answer to each topic that was answered. *)
Definition subscribe (topics : list string) (reply : subscribe_reply) : gmap string Z :=
  match reply with Suback reasons => subscribe_answered topics reasons ∅ | NoSuback _ => ∅ end.

(** The topics an ERROR is recorded for: those not answered, and those refused. *)
Definition subscribe_errors (topics : list string) (reply : subscribe_reply) : list string :=
  match reply with
  | NoSuback _ => topics
  | Suback reasons =>
    omap (fun ask : nat * string =>
      match reasons !! ask.1 with
      | Some code => if (reasonCodeFailure <=? code)%Z then Some ask.2 else None
      | None => Some ask.2
      end) (imap pair topics)
  end.

Record subscribeAnswers := mkAnswers { connection : Z; byFilter : gmap string Z }.

(** Its own number, and the answers. *)
Definition begin (answers : subscribeAnswers) : Z * subscribeAnswers :=
  let n := uint64 (connection answers + 1) in (n, mkAnswers n ∅).

Definition record (answers : subscribeAnswers) (n : Z) (filter : string) (code : Z) : bool * subscribeAnswers :=
  if (n =? connection answers)%Z then (true, mkAnswers (connection answers) (<[filter := code]> (byFilter answers)))
  else (false, answers).

Definition SubscribeAnswers (answers : subscribeAnswers) : gmap string Z := byFilter answers.

(** One run of [connectionUp]: the number it was given, what the broker answered
    once it has, the answers it has still to record, and whether [OnUp] was
    called. *)
Record uprun := mkUp { number : Z; answer : option subscribe_reply; unrecorded : gmap string Z; up : bool }.

Record links := mkLinks { connectedBefore : bool; answers : subscribeAnswers; runs : list uprun }.
Definition no_links : links := mkLinks false (mkAnswers 0 ∅) [].

(** [clientConfig]'s [OnConnectionUp]: it starts [connectionUp], which has
    nothing to wait for without subscriptions. *)
Definition OnConnectionUp (topics : list string) (l : links) : links :=
  let (n, answers) := begin (answers l) in
  mkLinks true answers (runs l ++ [mkUp n (if bool_decide (topics = []) then Some (Suback []) else None) ∅ false]).

(** [OnConnectionDown]: whether [OnDown] is called, and that paho is to connect
    again. *)
Definition OnConnectionDown (opts : Options) : bool * bool := (has_OnDown opts, true).

(** [ReconnectBackoff]. *)
Definition ReconnectBackoff (policy : Policy) (l : links) (random : float64) (attempt : Z) : option duration :=
  reconnectDelay policy (connectedBefore l) random attempt.

(** The connection manager brings connections up one after another; each has its
    own run of [connectionUp], which waits for the broker and then records the
    answers in any order. *)
Inductive link_step (topics : list string) : links -> links -> Prop :=
  | step_begin l :
      link_step topics l (OnConnectionUp topics l)
  | step_answered l i r reply :
      runs l !! i = Some r -> answer r = None ->
      link_step topics l (mkLinks (connectedBefore l) (answers l) (<[i := mkUp (number r) (Some reply) (subscribe topics reply) false]> (runs l)))
  | step_record l i r filter code :
      runs l !! i = Some r -> unrecorded r !! filter = Some code ->
      link_step topics l (mkLinks (connectedBefore l) (record (answers l) (number r) filter code).2
        (<[i := mkUp (number r) (answer r) (delete filter (unrecorded r)) (up r)]> (runs l)))
  | step_up l i r :
      runs l !! i = Some r -> is_Some (answer r) -> unrecorded r = ∅ ->
      link_step topics l (mkLinks (connectedBefore l) (answers l) (<[i := mkUp (number r) (answer r) ∅ true]> (runs l))).

Definition links_reach (topics : list string) : links -> Prop := fun l => rtc (link_step topics) no_links l.

(** *** The invariant *)

(** What a run has to say: what the broker answered to it. *)
Definition run_answers (topics : list string) (r : uprun) : gmap string Z :=
  match answer r with Some reply => subscribe topics reply | None => ∅ end.

Record run_ok (topics : list string) (r : uprun) : Prop := {
  ro_unrecorded : unrecorded r ⊆ run_answers topics r;
  ro_up : up r = true -> is_Some (answer r) /\ unrecorded r = ∅;
}.

Record links_ok (topics : list string) (l : links) : Prop := {
  lo_before : connectedBefore l = negb (bool_decide (runs l = []));
  lo_count : connection (answers l) = Z.of_nat (length (runs l));
  lo_numbers : forall i r, runs l !! i = Some r -> number r = Z.of_nat (S i);
  lo_runs : Forall (run_ok topics) (runs l);
  lo_current : match last (runs l) with
               | Some r => byFilter (answers l) = run_answers topics r ∖ unrecorded r
               | None => byFilter (answers l) = ∅
               end;
}.

Lemma last_insert_Some {A} (l : list A) i x r :
  l !! i = Some r -> last (<[i := x]> l) = if bool_decide (S i = length l) then Some x else last l.
Proof.
  intros Hi. pose proof (lookup_lt_Some _ _ _ Hi). rewrite !last_lookup, length_insert. case_bool_decide as Hlast.
  - rewrite <-Hlast. cbn. by apply list_lookup_insert_eq.
  - apply list_lookup_insert_ne. lia.
Qed.

Lemma links_insert topics l i r r' a :
  links_ok topics l -> runs l !! i = Some r -> number r' = number r -> run_ok topics r' -> connection a = connection (answers l) ->
  (S i = length (runs l) -> byFilter (answers l) = run_answers topics r ∖ unrecorded r ->
     byFilter a = run_answers topics r' ∖ unrecorded r') ->
  (S i <> length (runs l) -> byFilter a = byFilter (answers l)) ->
  links_ok topics (mkLinks (connectedBefore l) a (<[i := r']> (runs l))).
Proof.
  intros [Hbefore Hcount Hnumbers Hruns Hcurrent] Hi Hnumber Hok Hconn Hlast Hother. split; cbn [connectedBefore answers runs].
  - rewrite Hbefore. f_equal. apply bool_decide_ext. rewrite <-!length_zero_iff_nil, length_insert. done.
  - by rewrite length_insert, Hconn.
  - intros j s Hj. destruct (decide (i = j)) as [<-|Hne].
    + rewrite list_lookup_insert_eq in Hj by (by eapply lookup_lt_Some). injection Hj as <-. rewrite Hnumber. by apply Hnumbers.
    + rewrite list_lookup_insert_ne in Hj by done. by apply Hnumbers.
  - by apply Forall_insert.
  - clear Hbefore. rewrite (last_insert_Some _ _ _ _ Hi). case_bool_decide as Hend.
    + apply Hlast; [done|]. rewrite last_lookup, <-Hend in Hcurrent. cbn in Hcurrent. by rewrite Hi in Hcurrent.
    + rewrite Hother by done. done.
Qed.

Lemma link_step_ok topics l l' :
  (Z.of_nat (length (runs l')) < 2 ^ 64)%Z -> links_ok topics l -> link_step topics l l' -> links_ok topics l'.
Proof.
  intros Hfew Hl Hstep. pose proof Hl as [Hbefore Hcount Hnumbers Hruns Hcurrent].
  destruct Hstep as [l|l i r reply Hi Hwait|l i r filter code Hi Hcode|l i r Hi Hsome Hdone].
  - unfold OnConnectionUp, begin in *. cbn [runs answers] in *. rewrite length_app in Hfew. cbn in Hfew.
    rewrite Hcount, uint64_id by lia. split; cbn [connectedBefore runs answers connection byFilter].
    + symmetry. apply negb_true_iff, bool_decide_eq_false_2. by intros []%app_nil.
    + rewrite length_app. cbn. lia.
    + intros i r [Hi|[? Hi]]%lookup_app_Some; [auto|]. apply list_lookup_singleton_Some in Hi as [? <-]. cbn. lia.
    + apply Forall_app. split; [done|]. apply Forall_singleton. split; [apply map_empty_subseteq|done].
    + rewrite last_snoc. unfold run_answers. cbn. clear Hbefore; case_bool_decide as Htopics; [subst topics; by rewrite map_difference_empty|].
      by rewrite map_difference_empty.
  - eapply links_insert; [exact Hl|exact Hi|done|split; [done|done]|done| |done]. intros _ Hcur. cbn. rewrite Hcur.
    unfold run_answers. rewrite Hwait. cbn. by rewrite map_difference_diag, map_empty_difference.
  - eapply links_insert; [exact Hl|exact Hi|done| |by unfold record; destruct (_ =? _)%Z| |].
    + rewrite Forall_forall in Hruns. destruct (Hruns r) as [Hsub Hup]; [by eapply list_elem_of_lookup_2|]. split; cbn.
      * etrans; [apply delete_subseteq|exact Hsub].
      * intros [Ha He]%Hup. by rewrite He, lookup_empty in Hcode.
    + intros Hend Hcur. unfold record. rewrite (Hnumbers _ _ Hi), Hcount, Hend, Z.eqb_refl. cbn.
      rewrite Forall_forall in Hruns. destruct (Hruns r) as [Hsub _]; [by eapply list_elem_of_lookup_2|].
      pose proof (lookup_weaken _ _ _ _ Hcode Hsub) as Hans. rewrite Hcur. unfold run_answers in *. cbn.
      apply map_eq. intros k. destruct (decide (filter = k)) as [<-|Hne].
      * rewrite lookup_insert_eq, lookup_difference, lookup_delete_eq, Hans. done.
      * by rewrite lookup_insert_ne, !lookup_difference, lookup_delete_ne.
    + intros Hend. unfold record. rewrite (Hnumbers _ _ Hi), Hcount. pose proof (lookup_lt_Some _ _ _ Hi).
      destruct (Z.of_nat (S i) =? Z.of_nat (length (runs l)))%Z eqn:Heq; [apply Z.eqb_eq in Heq; lia|done].
  - eapply links_insert; [exact Hl|exact Hi|done| |done| |done].
    + split; cbn; [apply map_empty_subseteq|done].
    + intros _ Hcur. unfold run_answers in *. cbn. by rewrite Hcur, Hdone.
Qed.

Lemma link_step_runs topics l l' : link_step topics l l' -> length (runs l) <= length (runs l').
Proof. destruct 1; cbn; rewrite ?length_app, ?length_insert; lia. Qed.

Lemma links_reach_ok topics l : links_reach topics l -> (Z.of_nat (length (runs l)) < 2 ^ 64)%Z -> links_ok topics l.
Proof.
  unfold links_reach. revert l. refine (rtc_ind_r _ _ _ _).
  - intros _. split; [done|done|done|constructor|done].
  - intros l l' Hreach Hstep IH Hfew. apply (link_step_ok topics l l' Hfew); [|done]. apply IH. apply link_step_runs in Hstep. lia.
Qed.

Lemma subscribe_answered_spec topics reasons answered topic code :
  NoDup topics ->
  subscribe_answered topics reasons answered !! topic = Some code <->
    (exists i, topics !! i = Some topic /\ reasons !! i = Some code) \/
    ((forall i, topics !! i = Some topic -> reasons !! i = None) /\ answered !! topic = Some code).
Proof.
  intros Hnd. revert reasons answered. induction Hnd as [|t topics Hnot Hnd IH]; intros reasons answered.
  { cbn. split; [intros H; right; split; [|done]; by intros i H'|]. by intros [(? & ? & _)|[_ ?]]. }
  destruct reasons as [|c reasons]; cbn [subscribe_answered].
  { split; [intros H; right; split; [|done]; intros i _; by rewrite lookup_nil|]. intros [(i & _ & H)|[_ ?]]; [by rewrite lookup_nil in H|done]. }
  rewrite IH. split.
  - intros [(i & Ht & Hc)|[Hnone Hans]]; [left; by exists (S i)|]. destruct (decide (t = topic)) as [<-|Hne].
    + rewrite lookup_insert_eq in Hans. left. exists 0. done.
    + rewrite lookup_insert_ne in Hans by done. right. split; [|done]. intros [|i] Ht; cbn in *; [congruence|auto].
  - intros [([|i] & Ht & Hc)|[Hnone Hans]]; cbn in *.
    + injection Ht as ->. injection Hc as ->. right. rewrite lookup_insert_eq. split; [|done].
      intros i Hi. destruct Hnot. by eapply list_elem_of_lookup_2.
    + left. by exists i.
    + assert (t <> topic) by (intros ->; by specialize (Hnone 0 eq_refl)). right. rewrite lookup_insert_ne by done.
      split; [|done]. intros i Hi. by apply (Hnone (S i)).
Qed.

Lemma subscribe_spec topics reasons i topic :
  NoDup topics -> topics !! i = Some topic -> subscribe topics (Suback reasons) !! topic = reasons !! i.
Proof.
  intros Hnd Hi. apply option_eq. intros code. cbn. rewrite subscribe_answered_spec by done. rewrite lookup_empty. split.
  - intros [(j & Hj & Hc)|[_ ?]]; [|done]. by rewrite (NoDup_lookup _ _ _ _ Hnd Hi Hj).
  - intros Hc. left. by exists i.
Qed.

Lemma subscribe_errors_spec topics reasons i topic :
  NoDup topics -> topics !! i = Some topic ->
  topic ∈ subscribe_errors topics (Suback reasons) <->
    match reasons !! i with Some code => (reasonCodeFailure <= code)%Z | None => True end.
Proof.
  intros Hnd Hi. cbn. rewrite list_elem_of_omap. split.
  - intros ([j t] & Hin & Ht). apply list_elem_of_lookup_1 in Hin as [k Hk]. rewrite list_lookup_imap in Hk.
    destruct (topics !! k) as [t'|] eqn:Hk'; [|done]. cbn in Hk. injection Hk as <- <-. cbn in Ht.
    assert (t' = topic /\ match reasons !! k with Some code => (reasonCodeFailure <= code)%Z | None => True end) as [-> Hr].
    { destruct (reasons !! k) as [code|]; [|by injection Ht]. destruct (_ <=? _)%Z eqn:Hle; [|done].
      injection Ht as ->. apply Z.leb_le in Hle. done. }
    by rewrite (NoDup_lookup _ _ _ _ Hnd Hi Hk').
  - intros Hr. exists (i, topic). split.
    + apply list_elem_of_lookup_2 with i. by rewrite list_lookup_imap, Hi.
    + cbn. destruct (reasons !! i) as [code|]; [|done]. by rewrite (proj2 (Z.leb_le _ _) Hr).
Qed.

(** Once a connection has come up, every attempt to connect waits, as a retry of
    the policy does; before, only the first goes at once. *)
Theorem attempts_wait topics policy l random attempt :
  links_reach topics l -> (Z.of_nat (length (runs l)) < 2 ^ 64)%Z -> (0 <= attempt < max_int64)%Z ->
  ReconnectBackoff policy l random attempt =
    if bool_decide (runs l = []) then (if (attempt =? 0)%Z then Some 0%Z else Wait policy random attempt)
    else Wait policy random (attempt + 1).
Proof.
  intros Hreach Hfew Ha. destruct (links_reach_ok _ _ Hreach Hfew) as [Hbefore _ _ _ _].
  unfold ReconnectBackoff, reconnectDelay. rewrite Hbefore. case_bool_decide; cbn [negb].
  - by replace (attempt <=? 0)%Z with (attempt =? 0)%Z by lia.
  - rewrite int64_id; [done|]. unfold in_int64, min_int64, max_int64 in *. lia.
Qed.

(** ** Properties *)

(** C31: the answers the agent reports are the broker's answers to the newest
    connection's subscriptions, whatever the order in which connections come up
    and their answers, late ones among them, are recorded: none is from another
    connection, and once the newest has been reported up they are exactly the
    codes of its SUBACK, topic by topic. A topic has an ERROR recorded exactly
    when it was refused or not answered. *)
Theorem answers_current topics l :
  links_reach topics l -> (Z.of_nat (length (runs l)) < 2 ^ 64)%Z -> NoDup topics ->
  match last (runs l) with
  | None => SubscribeAnswers (answers l) = ∅
  | Some newest =>
      SubscribeAnswers (answers l) ⊆ run_answers topics newest /\
      (up newest = true -> exists reply, answer newest = Some reply /\ SubscribeAnswers (answers l) = subscribe topics reply) /\
      forall reasons i topic, answer newest = Some (Suback reasons) -> topics !! i = Some topic ->
        (forall code, SubscribeAnswers (answers l) !! topic = Some code -> reasons !! i = Some code) /\
        (up newest = true -> SubscribeAnswers (answers l) !! topic = reasons !! i) /\
        (topic ∈ subscribe_errors topics (Suback reasons) <->
          match reasons !! i with Some code => (reasonCodeFailure <= code)%Z | None => True end)
  end.
Proof.
  intros Hreach Hfew Hnd. destruct (links_reach_ok _ _ Hreach Hfew) as [_ _ _ Hruns Hcurrent]. unfold SubscribeAnswers.
  destruct (last (runs l)) as [newest|] eqn:Hlast; [|done].
  assert (Hok : run_ok topics newest) by (rewrite Forall_forall in Hruns; apply Hruns; by apply last_Some_elem_of).
  destruct Hok as [_ Hup].
  assert (Hsub : byFilter (answers l) ⊆ run_answers topics newest) by (rewrite Hcurrent; by apply map_subseteq_difference_l).
  assert (Hall : up newest = true -> byFilter (answers l) = run_answers topics newest)
    by (intros [_ Hnone]%Hup; by rewrite Hcurrent, Hnone, map_difference_empty).
  split_and!; [done| |].
  - intros Hnewest. destruct (Hup Hnewest) as [[reply Hreply] _]. exists reply. split; [done|]. rewrite Hall by done.
    unfold run_answers. by rewrite Hreply.
  - intros reasons i topic Hreply Hi. unfold run_answers in Hsub, Hall. rewrite Hreply in Hsub, Hall. split_and!.
    + intros code Hcode. rewrite <-(subscribe_spec topics reasons i topic Hnd Hi). by eapply lookup_weaken.
    + intros Hnewest. rewrite Hall by done. by apply subscribe_spec.
    + by apply subscribe_errors_spec.
Qed.

(** ** Witnesses *)

(** A connection that is lost before it is answered, and the next one, refused
    one of its topics; the late answer of the first is recorded last. *)
Definition two_topics : list string := ["a/tx"; "b/tx"].

Definition after_reconnect : links :=
  mkLinks true (mkAnswers 2 {["a/tx" := 1%Z; "b/tx" := 135%Z]})
    [mkUp 1 (Some (Suback [1%Z])) ∅ false; mkUp 2 (Some (Suback [1%Z; 135%Z])) ∅ true].

Lemma after_reconnect_reached : links_reach two_topics after_reconnect.
Proof.
  unfold links_reach.
  eapply rtc_l; [apply step_begin|]. eapply rtc_l; [apply step_begin|].
  eapply rtc_l; [apply (step_answered _ _ 1 (mkUp 2 None ∅ false) (Suback [1%Z; 135%Z])); reflexivity|].
  eapply rtc_l; [eapply (step_record _ _ 1 _ "b/tx" 135%Z); reflexivity|].
  eapply rtc_l; [apply (step_answered _ _ 0 (mkUp 1 None ∅ false) (Suback [1%Z])); reflexivity|].
  eapply rtc_l; [eapply (step_record _ _ 1 _ "a/tx" 1%Z); reflexivity|].
  eapply rtc_l; [eapply (step_up _ _ 1); [reflexivity|by eexists|reflexivity]|].
  eapply rtc_l; [eapply (step_record _ _ 0 _ "a/tx" 1%Z); reflexivity|].
  match goal with |- rtc _ ?x ?y => replace x with y by (vm_compute; reflexivity) end. apply rtc_refl.
Qed.

Lemma answers_current_witness :
  links_reach two_topics after_reconnect /\ SubscribeAnswers (answers after_reconnect) !! "b/tx" = Some 135%Z /\
  "b/tx" ∈ subscribe_errors two_topics (Suback [1%Z; 135%Z]).
Proof.
  split; [apply after_reconnect_reached|].
  assert (Hnd : NoDup two_topics) by (apply NoDup_cons; split; [by intros ?%list_elem_of_singleton|apply NoDup_singleton]).
  destruct (answers_current two_topics after_reconnect after_reconnect_reached ltac:(cbn; lia) Hnd) as (_ & _ & H).
  destruct (H [1%Z; 135%Z] 1 "b/tx" eq_refl eq_refl) as (_ & Hup & Herr).
  split; [exact (Hup eq_refl)|]. apply Herr. discriminate.
Defined.
