(* ===== verification/Build.v ===== *)
(** * The assembly of the agent: cmd/skuhus-device-agent/run.go and devices.go

    [runAgent] from a loaded configuration to the core it runs. Opening the log,
    the files, the connection manager and the clock are arguments; the parts it
    puts together are the other files'. *)
From S2P Require Import Prelude GoLib Strconv Topics Wire ReadTx Logging LogFile Backoff Framer Port Serial Device Pipeline Tx Core.
From S2P Require Import Config ConfigValidate Credentials ConfigLoad Mqtt.
#[local] Open Scope string_scope.

Inductive build_error :=
  | NoParityValue (id parity : string)
  | NoStopBitsValue (id stopBits : string)
  | TopicProblem (err : topic_error)
  | ReaderProblem (err : serial_error).

Definition lineFormat (deviceCfg : Config.Device) : result build_error (Parity * StopBits) :=
  match ParityByName !! dc_Parity deviceCfg with
  | None => Err (NoParityValue (dc_ID deviceCfg) (dc_Parity deviceCfg))
  | Some parity =>
    match StopBitsByName !! dc_StopBits deviceCfg with
    | None => Err (NoStopBitsValue (dc_ID deviceCfg) (dc_StopBits deviceCfg))
    | Some stopBits => Ok (parity, stopBits)
    end
  end.

Definition newSerialReader (deviceCfg : Config.Device) (logPayloads : bool) : result build_error Serial.Device :=
  match lineFormat deviceCfg with
  | Err err => Err err
  | Ok (parity, stopBits) =>
    match Serial.New (Serial.mkOptions (dc_ID deviceCfg) (dc_Path deviceCfg) (dc_Baud deviceCfg) (dc_DataBits deviceCfg) parity stopBits
        (SeparatorBytes deviceCfg) (dc_MaxFrameBytes deviceCfg) (dc_InterCharTimeout deviceCfg) logPayloads (dc_TxChunkBytes deviceCfg)
        (ReopenPolicy deviceCfg)) with
    | Err err => Err (ReaderProblem err)
    | Ok reader => Ok reader
    end
  end.

(** The inner loop of [broadcastGroupRoutes], and the outer one. *)
Fixpoint scope_routes (station : StationTopics) (scope : TxScope) (groups : list string) : result topic_error (list TxRoute) :=
  match groups with
  | [] => Ok []
  | group :: groups' =>
    match GroupTx station scope group with
    | Err err => Err err
    | Ok route => match scope_routes station scope groups' with Err err => Err err | Ok routes => Ok (route :: routes) end
    end
  end.

Fixpoint scopes_routes (station : StationTopics) (scopes : list (TxScope * list string)) : result topic_error (list TxRoute) :=
  match scopes with
  | [] => Ok []
  | scoped :: scopes' =>
    match scope_routes station scoped.1 scoped.2 with
    | Err err => Err err
    | Ok routes => match scopes_routes station scopes' with Err err => Err err | Ok routes' => Ok (routes ++ routes')%list end
    end
  end.

Definition broadcastGroupRoutes (station : StationTopics) (groups : BroadcastGroups) : result topic_error (list TxRoute) :=
  scopes_routes station (ByScope groups).

(** The id, kind and path of a reader are the core's view of it. *)
Definition core_device (deviceCfg : Config.Device) (topics : DeviceTopics) (groups : list TxRoute) : CoreDevice :=
  mkCoreDevice (dc_ID deviceCfg) KindSerial (dc_Path deviceCfg) true
    (Wire.mkDevice (dc_ID deviceCfg) (dc_DeviceType deviceCfg) (dc_MessageExpiry deviceCfg)) topics
    (dc_TxOpenAttempts deviceCfg) (dc_TxOpenInterval deviceCfg) (dc_TxRememberedIDs deviceCfg) groups.

(** One turn of [buildDevices]'s loop, up to the subscriptions. *)
Definition buildDevice (station : StationTopics) (logPayloads : bool) (deviceCfg : Config.Device) :
    result build_error (CoreDevice * Serial.Device) :=
  match DeviceTopicsOf station (dc_ID deviceCfg) with
  | Err err => Err (TopicProblem err)
  | Ok topics =>
    match broadcastGroupRoutes station (dc_BroadcastGroups deviceCfg) with
    | Err err => Err (TopicProblem err)
    | Ok groups =>
      match newSerialReader deviceCfg logPayloads with
      | Err err => Err err
      | Ok reader => Ok (core_device deviceCfg topics groups, reader)
      end
    end
  end.

(** [subscribe]: the subscriptions, and the topics among them. *)
Definition subscribe_topic (st : list string * gset string) (topic : string) : list string * gset string :=
  if bool_decide (topic ∈ st.2) then st else ((st.1 ++ [topic])%list, {[topic]} ∪ st.2).

Definition subscribe_device (st : list string * gset string) (dev : CoreDevice) : list string * gset string :=
  foldl subscribe_topic (subscribe_topic st (tx (Topics_ dev))) (map Topic (Pipeline.BroadcastGroups dev)).

Fixpoint build_loop (station : StationTopics) (logPayloads : bool) (st : list string * gset string) (devices : list Config.Device) :
    result build_error (list (CoreDevice * Serial.Device) * list string) :=
  match devices with
  | [] => Ok ([], st.1)
  | deviceCfg :: devices' =>
    match buildDevice station logPayloads deviceCfg with
    | Err err => Err err
    | Ok (dev, reader) =>
      match build_loop station logPayloads (subscribe_device st dev) devices' with
      | Err err => Err err
      | Ok (built, subscriptions) => Ok ((dev, reader) :: built, subscriptions)
      end
    end
  end.

Definition buildDevices (cfg : Config) (station : StationTopics) : result build_error (list (CoreDevice * Serial.Device) * list string) :=
  build_loop station (lo_LogPayloads (cfg_Logging cfg)) ([], ∅) (cfg_Devices cfg).

(** [newTxIntake]'s function, over the channel's contents: a message that finds
    it full is dropped, and recorded. *)
Definition intake_dropped (uuid_parse : string -> bool) (size : Z) (message : TxMessage) : log_record :=
  let '(ref, _, _) := ReadTx uuid_parse (msg_Payload message) in
  Record_ LevelError "tx dropped: the agent's intake is full"
    ([("topic", AttrString (msg_Topic message)); ("tx_id", AttrString (ref_ID ref)); ("sender", AttrString (ref_Sender ref));
      ("tx_intake_size", AttrInt size)] ++ Payload (msg_Payload message))%list.

Definition onMessage (uuid_parse : string -> bool) (size : Z) (intake : list TxMessage) (message : TxMessage) :
    list TxMessage * list log_record :=
  if (Z.of_nat (length intake) <? size)%Z then ((intake ++ [message])%list, [])
  else (intake, [intake_dropped uuid_parse size message]).

(** ** The log *)

Inductive open_log_error := LogFileError (err : open_file_error) | LogLevelError (level : string).

Section OpenLog.
(** What the system answers about the log file: its calls, and what is wrong
    with its directory. *)
Context (file_answers : LogFile.answers) (bad_directory : string -> option string) (hostname version : string).

Definition log_options (cfg : Config) (has_file : bool) : LogOptions :=
  let identity := cfg_Identity cfg in
  mkLogOptions (lo_Level (cfg_Logging cfg)) (lo_Stdout (cfg_Logging cfg)) has_file (id_Project identity) (id_Site identity)
    (id_Station identity) hostname (id_Instance identity) version.

(** The log with its open file, when one is configured. A file opened for a log
    that cannot be made is closed. *)
Definition openLog (cfg : Config) (d : disk) : result open_log_error (logger * option LogFile.File) * disk :=
  let settings := cfg_Logging cfg in
  if bool_decide (lo_File settings = "") then
    (match Logging.New (log_options cfg false) with Err level => Err (LogLevelError level) | Ok log => Ok (log, None) end, d)
  else match OpenFile file_answers (bad_directory (lo_File settings)) (lo_File settings) (lo_MaxSizeMB settings) (lo_Keep settings) d with
  | (Err err, d) => (Err (LogFileError err), d)
  | (Ok file, d) =>
    (match Logging.New (log_options cfg true) with
     | Err level => Err (LogLevelError level)
     | Ok log => Ok (log, Some file)
     end, d)
  end.
End OpenLog.

(** What [runAgent] leaves: the error it stopped on, with whether it closed the
    connection it had made, or the parts that run. *)
Inductive run_error :=
  | LogNotOpened (err : open_log_error)
  | CredentialsProblem (err : credentials_error)
  | IdentityProblem (err : topic_error)
  | DevicesProblem (err : build_error)
  | DialProblem (err : dial_error)
  | CoreProblem (err : core_error).

Record agent := mkAgentParts {
  ag_log : logger; ag_file : option LogFile.File;
  ag_core : Pipeline.Options; ag_readers : list Serial.Device; ag_connection : ClientConfig; ag_dial : Mqtt.Options; ag_intake : Z;
}.

Inductive assembled := Assembled (parts : agent) | NotAssembled (err : run_error) (closed : bool).

Section RunAgent.
Context (url_parse : string -> result string parsed_url) (read_file : string -> result string bytes).
Context (certificates_in : bytes -> bool) (new_connection : ClientConfig -> option string).
Context (open : string -> result open_error opened) (open_log : Config -> result open_log_error (logger * option LogFile.File)) (version : string).

(** The options of [mqtt.Dial]. *)
Definition dial_options (cfg : Config) (creds : Credentials) (agentTopics : AgentTopics) (subscriptions : list string) : Mqtt.Options :=
  let broker := cfg_Broker cfg in
  Mqtt.mkOptions (br_URL broker) (id_Instance (cfg_Identity cfg)) (Credentials.Username creds) (Credentials.Password creds)
    (UsesTLS url_parse broker) (br_CAFile broker) (br_Insecure broker) (br_Keepalive broker) (br_ConnectTimeout broker)
    (ReconnectPolicy broker) (agentStatus agentTopics) true subscriptions true true false.

(** The options of [core.New]; [newID] is uuid's. *)
Definition core_options (cfg : Config) (newID : nat -> string) (agentTopics : AgentTopics) (devices : list CoreDevice) (started : time) :
    Pipeline.Options :=
  let identity := cfg_Identity cfg in
  mkCoreOptions devices
    (mkBuilder (mkAgent (id_Project identity) (id_Site identity) (id_Station identity) (id_Instance identity) version) newID)
    (agentStatus agentTopics) (de_PublishTimeout (cfg_Delivery cfg)) (de_BufferSize (cfg_Delivery cfg)) (de_DrainTimeout (cfg_Delivery cfg))
    (st_EventBufferSize (cfg_Status cfg)) (st_KeepaliveInterval (cfg_Status cfg)) (st_MissedKeepalives (cfg_Status cfg)) started
    (lo_LogPayloads (cfg_Logging cfg)).

Definition runAgent (cfg : Config) (environ : list string) (newID : nat -> string) (started now : time) : assembled :=
  match open_log cfg with
  | Err err => NotAssembled (LogNotOpened err) false
  | Ok (log, file) =>
    match LoadCredentials open (cfg_Broker cfg) (envMap environ) with
    | Err err => NotAssembled (CredentialsProblem err) false
    | Ok creds =>
      let identity := cfg_Identity cfg in
      match NewStationTopics (id_Project identity) (id_Site identity) (id_Station identity) with
      | Err err => NotAssembled (IdentityProblem err) false
      | Ok station =>
        match AgentTopicsOf station (id_Instance identity) with
        | Err err => NotAssembled (IdentityProblem err) false
        | Ok agentTopics =>
          match buildDevices cfg station with
          | Err err => NotAssembled (DevicesProblem err) false
          | Ok (built, subscriptions) =>
            let dialOpts := dial_options cfg creds agentTopics subscriptions in
            match Dial url_parse read_file certificates_in new_connection dialOpts with
            | Err err => NotAssembled (DialProblem err) false
            | Ok connection =>
              match Core.New (mkGiven true true (fun index => (index <? length built)%nat))
                  (core_options cfg newID agentTopics (map fst built) started) now with
              | Err err => NotAssembled (CoreProblem err) true
              | Ok coreOpts => Assembled (mkAgentParts log file coreOpts (map snd built) connection dialOpts (de_TxIntakeSize (cfg_Delivery cfg)))
              end
            end
          end
        end
      end
    end
  end.
End RunAgent.

(** ** What a valid configuration builds *)

Lemma GroupTx_segment station scope group :
  segmentRule group = true -> scope <> ScopeDevice -> exists route, GroupTx station scope group = Ok route.
Proof. intros Hg Hs. unfold GroupTx, checkSegment. rewrite Hg. destruct scope; [done|by eexists..]. Qed.

Lemma scope_routes_ok station scope groups :
  Forall (fun group => segmentRule group = true) groups -> scope <> ScopeDevice ->
  exists routes, scope_routes station scope groups = Ok routes /\ Forall2 (fun group route => GroupTx station scope group = Ok route) groups routes.
Proof.
  intros Hgroups Hscope. induction Hgroups as [|group groups Hg _ (routes & IH & Hroutes)]; [by exists []|].
  destruct (GroupTx_segment station scope group Hg Hscope) as [route Hroute]. exists (route :: routes). cbn. rewrite Hroute, IH.
  split; [done|by constructor].
Qed.

Definition group_pairs (groups : BroadcastGroups) : list (TxScope * string) :=
  flat_map (fun scoped => map (pair scoped.1) scoped.2) (ByScope groups).

Lemma scopes_routes_ok station scopes :
  Forall (fun scoped => groups_valid scoped.2 /\ scoped.1 <> ScopeDevice) scopes ->
  exists routes, scopes_routes station scopes = Ok routes /\
    Forall2 (fun pair route => GroupTx station pair.1 pair.2 = Ok route) (flat_map (fun scoped => map (pair scoped.1) scoped.2) scopes) routes.
Proof.
  induction 1 as [|scoped scopes [[Hlevels _] Hscope] _ (routes' & IH & Hroutes')]; [by exists []|].
  destruct (scope_routes_ok station scoped.1 scoped.2 Hlevels Hscope) as (routes & Hroutes & Hall). exists (routes ++ routes')%list.
  cbn [scopes_routes]. rewrite Hroutes, IH. split; [done|]. cbn [flat_map]. apply Forall2_app; [|done]. by apply Forall2_fmap_l.
Qed.

Lemma broadcastGroupRoutes_ok station d :
  device_valid d -> exists routes, broadcastGroupRoutes station (dc_BroadcastGroups d) = Ok routes /\
    Forall2 (fun pair route => GroupTx station pair.1 pair.2 = Ok route) (group_pairs (dc_BroadcastGroups d)) routes.
Proof.
  intros Hd. apply scopes_routes_ok. pose proof (dv_groups d Hd) as Hgroups. unfold ByScope in *.
  repeat (apply Forall_cons in Hgroups as [? Hgroups]). by repeat (apply Forall_cons_2 || apply Forall_nil_2).
Qed.

Lemma group_pairs_nodup d : device_valid d -> NoDup (group_pairs (dc_BroadcastGroups d)).
Proof.
  intros Hd. pose proof (dv_groups d Hd) as Hgroups. unfold group_pairs, ByScope in *. cbn [flat_map fst snd].
  repeat (apply Forall_cons in Hgroups as [[_ ?] Hgroups]). rewrite app_nil_r.
  assert (Hmap : forall scope l, NoDup l -> NoDup (map (pair scope : string -> TxScope * string) l))
    by (intros; by apply NoDup_fmap_2; [intros ? ? [=]|]).
  repeat (apply NoDup_app; split_and!); auto; intros x;
    rewrite ?elem_of_app, ?list_elem_of_fmap; naive_solver.
Qed.

Section Station.
Context (project site name : string) (station : StationTopics).
Context (Hstation : NewStationTopics project site name = Ok station).

Definition pair_owner (pair : TxScope * string) : option topic_owner := group_owner pair.1 project site name pair.2.

(** No route of a device has the topic of another. *)
Lemma device_routes_nodup d topics routes :
  device_valid d -> DeviceTopicsOf station (dc_ID d) = Ok topics -> broadcastGroupRoutes station (dc_BroadcastGroups d) = Ok routes ->
  NoDup (map Topic (OwnTxRoute topics :: routes)).
Proof using Hstation.
  intros Hd Htopics Hroutes. destruct (broadcastGroupRoutes_ok station d Hd) as (routes' & Heq & Hall).
  rewrite Hroutes in Heq. injection Heq as <-.
  apply (NoDup_fmap_1 owner_of). cbn [map fmap list_fmap].
  destruct (device_topics_owner _ _ _ _ Hstation _ _ Htopics) as (_ & Hown & _). cbn [Topic OwnTxRoute]. rewrite Hown.
  assert (Howners : owner_of <$> map Topic routes = map pair_owner (group_pairs (dc_BroadcastGroups d))).
  { clear Hroutes. induction Hall as [|pair route pairs routes Hroute _ IH]; [done|]. cbn. f_equal; [|exact IH].
    by apply (group_topics_owner _ _ _ _ Hstation). }
  rewrite Howners. apply NoDup_cons. split.
  - intros ([scope group] & Heq & _)%list_elem_of_fmap. by destruct scope.
  - apply NoDup_fmap_2_strong; [|by apply group_pairs_nodup].
    intros [scope group] [scope' group'] Hin Hin'. unfold pair_owner. cbn.
    assert (Hscope : forall scope group, (scope, group) ∈ group_pairs (dc_BroadcastGroups d) -> scope <> ScopeDevice).
    { unfold group_pairs, ByScope. cbn [flat_map fst snd]. intros sc gr. rewrite !elem_of_app, !list_elem_of_fmap, elem_of_nil. naive_solver. }
    apply Hscope in Hin, Hin'. destruct scope, scope'; by intros [=]; subst.
Qed.
End Station.

Lemma bytes_of_string_empty s : bytes_of_string s = [] -> s = "".
Proof. intros H. rewrite <-(string_of_bytes_of_string s), H. done. Qed.

Lemma lineFormat_ok d : device_valid d -> exists parity stopBits, lineFormat d = Ok (parity, stopBits) /\
  ParityByName !! dc_Parity d = Some parity /\ StopBitsByName !! dc_StopBits d = Some stopBits.
Proof.
  intros Hd. unfold lineFormat.
  assert (Hp : exists parity, ParityByName !! dc_Parity d = Some parity).
  { pose proof (dv_parity d Hd) as Hin. revert Hin. generalize (dc_Parity d) as s. unfold Parities. intros s Hin.
    repeat (apply elem_of_cons in Hin as [->|Hin]; [by eexists|]). by apply elem_of_nil in Hin. }
  assert (Hs : exists stopBits, StopBitsByName !! dc_StopBits d = Some stopBits).
  { pose proof (dv_stop d Hd) as Hin. revert Hin. generalize (dc_StopBits d) as s. intros s Hin.
    repeat (apply elem_of_cons in Hin as [->|Hin]; [by eexists|]). by apply elem_of_nil in Hin. }
  destruct Hp as [parity Hp], Hs as [stopBits Hs]. exists parity, stopBits. by rewrite Hp, Hs.
Qed.

(** What a device's reader is built from. *)
Definition reader_of (d : Config.Device) (reader : Serial.Device) : Prop :=
  opt_ID (opts reader) = dc_ID d /\ Serial.opt_Path (opts reader) = dc_Path d /\ BaudRate (mode reader) = dc_Baud d /\
  DataBits (mode reader) = dc_DataBits d /\ ParityByName !! dc_Parity d = Some (ModeParity (mode reader)) /\
  StopBitsByName !! dc_StopBits d = Some (ModeStopBits (mode reader)) /\ opt_Separator (opts reader) = bytes_of_string (dc_Separator d) /\
  opt_MaxFrameBytes (opts reader) = dc_MaxFrameBytes d /\ opt_InterCharTimeout (opts reader) = dc_InterCharTimeout d /\
  opt_TxChunkBytes (opts reader) = dc_TxChunkBytes d /\ opt_Reopen (opts reader) = ReopenPolicy d.

Lemma newSerialReader_ok d logPayloads : device_valid d -> exists reader, newSerialReader d logPayloads = Ok reader /\ reader_of d reader.
Proof.
  intros Hd. destruct (lineFormat_ok d Hd) as (parity & stopBits & Hformat & Hparity & Hstop). unfold newSerialReader. rewrite Hformat.
  destruct Hd as [[Hsegment _] _ (Hpath & _ & _) Hbaud Hbits _ _ (Hsep & _ & _) Hframe Htimeout _ (_ & _ & Hchunk & _) Hreopen _].
  unfold Serial.New, NewFramer. cbn [opt_ID Serial.opt_Path opt_Baud opt_DataBits opt_Parity opt_StopBits opt_Separator opt_MaxFrameBytes opt_InterCharTimeout opt_TxChunkBytes opt_Reopen].
  rewrite bool_decide_eq_false_2 by (by intros Heq; rewrite Heq in Hsegment). rewrite bool_decide_eq_false_2 by done.
  unfold MinDataBits, MaxDataBits, maxFrameBytesLimit in *.
  rewrite (proj2 (Z.leb_gt _ _) Hbaud), (proj2 (Z.leb_gt _ _) Htimeout). unfold minDataBits, maxDataBits.
  replace ((dc_DataBits d <? 5) || (8 <? dc_DataBits d))%Z with false by lia.
  rewrite bool_decide_eq_false_2 by (intros ?%length_zero_iff_nil%bytes_of_string_empty; done).
  replace (dc_MaxFrameBytes d <? 1)%Z with false by lia. replace (dc_TxChunkBytes d <? 1)%Z with false by lia. rewrite Hreopen.
  eexists. split; [done|]. unfold reader_of. cbn. by split_and!.
Qed.

(** ** The subscriptions *)

Definition subscribed (st : list string * gset string) : Prop := NoDup st.1 /\ forall topic, topic ∈ st.1 <-> topic ∈ st.2.

Lemma subscribe_topics_spec st topics :
  subscribed st ->
  let st' := foldl subscribe_topic st topics in
  subscribed st' /\ forall topic, topic ∈ st'.1 <-> topic ∈ st.1 \/ topic ∈ topics.
Proof.
  revert st. induction topics as [|t topics IH]; intros st Hst; cbn [foldl].
  { split; [done|]. intros topic. rewrite elem_of_nil. tauto. }
  assert (Hone : subscribed (subscribe_topic st t) /\ forall topic, topic ∈ (subscribe_topic st t).1 <-> topic ∈ st.1 \/ topic = t).
  { destruct Hst as [Hnd Hin]. unfold subscribe_topic. case_bool_decide as Ht; [apply Hin in Ht; split; [done|]; intros topic; split; [auto|by intros [?| ->]]|].
    rewrite <-Hin in Ht. split; [split|]; cbn [fst snd].
    - apply NoDup_app. split_and!; [done| |apply NoDup_singleton]. intros x Hx ->%list_elem_of_singleton. done.
    - intros topic. rewrite elem_of_app, elem_of_union, list_elem_of_singleton, elem_of_singleton, Hin. tauto.
    - intros topic. by rewrite elem_of_app, list_elem_of_singleton. }
  destruct Hone as [Hone Hwhat]. destruct (IH _ Hone) as [Hall Htopics]. split; [done|]. intros topic.
  rewrite Htopics, Hwhat, elem_of_cons. tauto.
Qed.

Lemma subscribe_device_routes st dev : subscribe_device st dev = foldl subscribe_topic st (map Topic (device_txRoutes dev)).
Proof. done. Qed.

Lemma subscribe_devices_spec st devices :
  subscribed st ->
  let st' := foldl subscribe_device st devices in
  NoDup st'.1 /\ forall topic, topic ∈ st'.1 <-> topic ∈ st.1 \/ exists dev, dev ∈ devices /\ topic ∈ map Topic (device_txRoutes dev).
Proof.
  revert st. induction devices as [|dev devices IH]; intros st Hst; cbn [foldl].
  { split; [apply Hst|]. intros topic. split; [auto|]. intros [?|(? & ?%elem_of_nil & _)]; done. }
  rewrite subscribe_device_routes. destruct (subscribe_topics_spec st (map Topic (device_txRoutes dev)) Hst) as [Hone Hwhat].
  destruct (IH _ Hone) as [Hnd Hall]. split; [done|]. intros topic. rewrite Hall, Hwhat. split.
  - intros [[?|?]|(d & Hd & Ht)]; [auto|right; exists dev; split; [by left|done]|right; exists d; split; [by right|done]].
  - intros [?|(d & [->|Hd]%elem_of_cons & Ht)]; eauto.
Qed.

(** ** The devices *)

(** A device as it is built. *)
Definition built_of (station : StationTopics) (d : Config.Device) (b : CoreDevice * Serial.Device) : Prop :=
  exists topics routes, DeviceTopicsOf station (dc_ID d) = Ok topics /\ broadcastGroupRoutes station (dc_BroadcastGroups d) = Ok routes /\
    b.1 = core_device d topics routes /\ reader_of d b.2.

Lemma buildDevice_ok station logPayloads d :
  device_valid d -> exists b, buildDevice station logPayloads d = Ok b /\ built_of station d b.
Proof.
  intros Hd. destruct (broadcastGroupRoutes_ok station d Hd) as (routes & Hroutes & _).
  destruct (newSerialReader_ok d logPayloads Hd) as (reader & Hreader & Hof). destruct (dv_id d Hd) as [Hsegment Hagent].
  unfold buildDevice. destruct (DeviceTopicsOf station (dc_ID d)) as [topics|] eqn:Htopics.
  - rewrite Hroutes, Hreader. eexists. split; [done|]. by exists topics, routes.
  - unfold DeviceTopicsOf, checkSegment in Htopics. rewrite Hsegment in Htopics. cbn in Htopics. by rewrite bool_decide_eq_false_2 in Htopics.
Qed.

Lemma build_loop_ok station logPayloads st devices :
  Forall device_valid devices ->
  exists built, build_loop station logPayloads st devices = Ok (built, (foldl subscribe_device st (map fst built)).1) /\
    Forall2 (built_of station) devices built.
Proof.
  intros Hall. revert st. induction Hall as [|d devices Hd _ IH]; intros st; [by exists []|].
  destruct (buildDevice_ok station logPayloads d Hd) as ([dev reader] & Hb & Hof). destruct (IH (subscribe_device st dev)) as (built & Heq & Hbuilt).
  exists ((dev, reader) :: built). cbn [build_loop]. rewrite Hb, Heq. split; [done|by constructor].
Qed.

(** ** The configuration that is loaded runs *)

Lemma derived_instance c : id_Station (cfg_Identity (applyDerivedDefaults c)) <> "" -> id_Instance (cfg_Identity (applyDerivedDefaults c)) <> "".
Proof. unfold applyDerivedDefaults. by case_bool_decide. Qed.

Lemma NewStationTopics_valid project site name :
  segmentRule project = true -> segmentRule site = true -> segmentRule name = true -> name <> GroupLevel ->
  exists station, NewStationTopics project site name = Ok station.
Proof.
  intros Hp Hs Hn Hg. unfold NewStationTopics, checkSegment. rewrite Hp, Hs, Hn. cbn. rewrite bool_decide_eq_false_2 by done. by eexists.
Qed.

Lemma AgentTopicsOf_valid project site name station instance :
  NewStationTopics project site name = Ok station -> segmentRule instance = true ->
  exists agentTopics, AgentTopicsOf station instance = Ok agentTopics /\ agentStatus agentTopics <> "".
Proof.
  intros Hstation Hi. destruct (AgentTopicsOf station instance) as [agentTopics|] eqn:Hagent.
  - exists agentTopics. split; [done|]. intros Hempty. pose proof (agent_topics_owner _ _ _ _ Hstation _ _ Hagent) as Howner.
    by rewrite Hempty in Howner.
  - unfold AgentTopicsOf, checkSegment in Hagent. by rewrite Hi in Hagent.
Qed.

Lemma built_device_ok station d b project site name :
  NewStationTopics project site name = Ok station -> device_valid d -> built_of station d b ->
  device_ok b.1 /\ NoDup (map Topic (device_txRoutes b.1)) /\ owner_of (tx (Topics_ b.1)) = Some (DeviceTx project site name (dc_ID d)).
Proof.
  intros Hstation Hd (topics & routes & Htopics & Hroutes & Hb & _). rewrite Hb.
  destruct (device_topics_owner _ _ _ _ Hstation _ _ Htopics) as (Hrx & Htx & _). split_and!.
  - destruct (dv_expiry d Hd) as [Hexpiry _]. destruct (dv_tx d Hd) as (? & ? & ? & ?). unfold Second in Hexpiry.
    unfold device_ok. cbn. split_and!; try lia. intros Hempty. by rewrite Hempty in Hrx.
  - by apply (device_routes_nodup _ _ _ _ Hstation d).
  - done.
Qed.

Lemma Forall2_map_l_eq {A B C} (f : A -> C) (g : B -> C) l l' : Forall2 (fun a b => f a = g b) l l' -> map f l = map g l'.
Proof. induction 1; [done|]. cbn. by f_equal. Qed.

(** The built devices, as the core needs them. *)
Lemma built_devices_ok station devices built project site name :
  NewStationTopics project site name = Ok station -> Forall device_valid devices -> Forall2 (built_of station) devices built ->
  Forall (fun b : CoreDevice * Serial.Device => device_ok b.1 /\ NoDup (map Topic (device_txRoutes b.1))) built /\
  map (fun b => owner_of (tx (Topics_ b.1))) built = map (fun d => Some (DeviceTx project site name (dc_ID d))) devices.
Proof.
  intros Hstation Hvalid Hbuilt. induction Hbuilt as [|d b devices built Hb _ IH]; [by split|].
  apply Forall_cons in Hvalid as [Hd Hvalid]. destruct (IH Hvalid) as [Hok Howners].
  destruct (built_device_ok _ _ _ _ _ _ Hstation Hd Hb) as (? & ? & ?). split; [by constructor|]. cbn. by f_equal.
Qed.

Section Runs.
Context (next : string -> nat -> next_document).
Context (strict_decode : string -> Config -> Config * option strict_error).
Context (decode_entry : Node -> Config.Device -> result string Config.Device).
Context (url_parse : string -> result string parsed_url) (stat : string -> result string file_info).
Context (read_file : string -> result string bytes) (certificates_in : bytes -> bool).
Context (new_connection : ClientConfig -> option string) (open : string -> result open_error opened).
Context (file_answers : LogFile.answers) (bad_directory : string -> option string) (log_disk : disk) (hostname version goos : string).

Definition opened_log (cfg : Config) : result open_log_error (logger * option LogFile.File) :=
  (openLog file_answers bad_directory hostname version cfg log_disk).1.

(** What the agent can still stop on: what the machine answers. *)
Definition outside_error (cfg : Config) (environ : list string) (err : run_error) : Prop :=
  match err with
  | LogNotOpened (LogFileError (BadDirectory why)) => bad_directory (lo_File (cfg_Logging cfg)) = Some why
  | LogNotOpened (LogFileError (CannotOpenLog e)) => a_open file_answers = Some e \/ a_stat file_answers = Some e
  | CredentialsProblem e => LoadCredentials open (cfg_Broker cfg) (envMap environ) = Err e
  | DialProblem (CannotReadCA e) => read_file (br_CAFile (cfg_Broker cfg)) = Err e
  | DialProblem (NoCertificates path) => exists pem, read_file path = Ok pem /\ certificates_in pem = false
  | DialProblem (PahoError e) => exists connection, new_connection connection = Some e
  | _ => False
  end.

(** A valid configuration's log is opened unless the machine refuses its
    file. *)
Lemma opened_log_outside cfg : config_valid url_parse cfg -> forall environ,
  match opened_log cfg with
  | Ok (log, file) => log = built (log_options hostname version cfg (negb (bool_decide (lo_File (cfg_Logging cfg) = ""))))
      (default LevelInfo (match ParseLevel (lo_Level (cfg_Logging cfg)) with Ok level => Some level | Err _ => None end)) [] /\
      (file = None <-> lo_File (cfg_Logging cfg) = "")
  | Err err => outside_error cfg environ (LogNotOpened err)
  end.
Proof.
  intros Hv environ. destruct (cv_logging _ _ Hv) as (Hlevel & Hmax & Hkeep). unfold opened_log, openLog.
  destruct (ParseLevel (lo_Level (cfg_Logging cfg))) as [level|] eqn:Hparsed; [|done].
  rewrite !(New_ok _ level) by done. case_bool_decide as Hfile; [by split|].
  unfold OpenFile. rewrite bool_decide_eq_false_2 by done. rewrite (proj2 (Z.ltb_ge _ _) Hmax), (proj2 (Z.ltb_ge _ _) Hkeep).
  destruct (bad_directory _) as [why|] eqn:Hbad; [done|]. unfold open_file.
  destruct (a_open file_answers) as [e|] eqn:Hopen; [by left|]. destruct (open_live log_disk) as [live d].
  destruct (a_stat file_answers) as [e|] eqn:Hstat; [by right|]. by split.
Qed.

Ltac ask_paho :=
  match goal with |- context [new_connection ?c] => destruct (new_connection c) eqn:?; [by intros; eexists|done] end.

Lemma Dial_outside cfg creds agentTopics subscriptions :
  config_valid url_parse cfg -> id_Instance (cfg_Identity cfg) <> "" -> agentStatus agentTopics <> "" ->
  match Dial url_parse read_file certificates_in new_connection (dial_options url_parse cfg creds agentTopics subscriptions) with
  | Ok connection => new_connection connection = None
  | Err err => forall environ, outside_error cfg environ (DialProblem err)
  end.
Proof.
  intros Hv Hinstance Hstatus. destruct (cv_broker _ _ Hv) as (Hka & Hct & Hpolicy). destruct (cv_url _ _ Hv) as (parsed & Hurl & _ & Hscheme).
  unfold Dial, dial_options. cbn [ClientID Keepalive ConnectTimeout Reconnect URL TLS CAFile has_Will WillTopic Insecure].
  rewrite bool_decide_eq_false_2 by done. rewrite (proj2 (Z.leb_gt _ _) Hka), (proj2 (Z.leb_gt _ _) Hct), Hpolicy, Hurl.
  rewrite (bool_decide_eq_false_2 (agentStatus agentTopics = "")) by done. cbn [negb xorb].
  unfold UsesTLS. rewrite Hurl. destruct (decide (Scheme parsed ∈ tlsSchemes)) as [Htls|Htls].
  - rewrite bool_decide_eq_true_2 by done. unfold tlsConfig. case_bool_decide.
    + ask_paho.
    + destruct (read_file (br_CAFile (cfg_Broker cfg))) as [pem|err] eqn:Hread; [|done].
      destruct (certificates_in pem) eqn:Hcert; [|by intros; exists pem]. ask_paho.
  - rewrite bool_decide_eq_false_2 by done. destruct Hscheme as [?|(_ & Hca & _)]; [done|]. rewrite Hca.
    rewrite (bool_decide_eq_true_2 ("" = "")) by done. cbn [negb]. ask_paho.
Qed.

(** C10: a configuration that loads runs: what is left that can stop the agent
    is the machine's doing (the log file, the credentials, the CA file, paho),
    and every check that the topics, the readers, the connection and the core
    make of their settings passes. What is then run are the configured devices
    in order, each with its reader as configured and its topics, no two of one
    device's routes alike and no two devices' own tx topics; and the topics
    subscribed to are exactly the devices' routes, each once. *)
Theorem loaded_config_runs opts environ cfg warnings newID started now :
  Load next strict_decode decode_entry url_parse stat open goos opts environ = Loaded cfg warnings ->
  opt_SkipValidate opts = false ->
  match runAgent url_parse read_file certificates_in new_connection open opened_log version cfg environ newID started now with
  | NotAssembled err closed => closed = false /\ outside_error cfg environ err
  | Assembled parts =>
      exists station,
        NewStationTopics (id_Project (cfg_Identity cfg)) (id_Site (cfg_Identity cfg)) (id_Station (cfg_Identity cfg)) = Ok station /\
        Forall2 (built_of station) (cfg_Devices cfg) (zip (Devices (ag_core parts)) (ag_readers parts)) /\
        length (ag_readers parts) = length (Devices (ag_core parts)) /\
        Forall (fun dev => NoDup (map Topic (device_txRoutes dev))) (Devices (ag_core parts)) /\
        NoDup (map (fun dev => tx (Topics_ dev)) (Devices (ag_core parts))) /\
        NoDup (Subscriptions (ag_dial parts)) /\
        (forall topic, topic ∈ Subscriptions (ag_dial parts) <->
           exists dev, dev ∈ Devices (ag_core parts) /\ topic ∈ map Topic (device_txRoutes dev)) /\
        (1 <= ag_intake parts)%Z
  end.
Proof.
  intros Hload Hskip. destruct (Load_validated _ _ _ _ _ _ _ _ _ _ _ Hload Hskip) as (Hvalidate & merged_ & Hmerged).
  pose proof (Validate_ok _ _ _ _ _ Hvalidate) as Hv. destruct (cv_levels _ _ Hv) as (Hp & Hs & Hn & Hg).
  assert (Hinstance : id_Instance (cfg_Identity cfg) <> "")
    by (rewrite Hmerged in Hn |- *; apply derived_instance; intros Heq; by rewrite Heq in Hn).
  pose proof (opened_log_outside cfg Hv environ) as Hlog. unfold runAgent. destruct (opened_log cfg) as [[log file]|e]; [clear Hlog|split; [reflexivity|exact Hlog]].
  destruct (LoadCredentials open (cfg_Broker cfg) (envMap environ)) as [creds|e] eqn:Hcreds; [|done].
  destruct (NewStationTopics_valid _ _ _ Hp Hs Hn Hg) as [station Hstation]. rewrite Hstation.
  destruct (AgentTopicsOf_valid _ _ _ _ _ Hstation (cv_instance _ _ Hv Hinstance)) as (agentTopics & Hagent & Hstatus). rewrite Hagent.
  destruct (cv_devices _ _ Hv) as [Hsome Hvalid]. destruct (cv_once _ _ Hv) as [Hids _].
  destruct (build_loop_ok station (lo_LogPayloads (cfg_Logging cfg)) ([], ∅) _ Hvalid) as (built & Hbuild & Hbuilt).
  unfold buildDevices. rewrite Hbuild.
  pose proof (Dial_outside cfg creds agentTopics (foldl subscribe_device ([], ∅) (map fst built)).1 Hv Hinstance Hstatus) as Hdial.
  destruct (Dial _ _ _ _ _) as [connection|err]; [|split; [done|apply Hdial]].
  destruct (built_devices_ok _ _ _ _ _ _ Hstation Hvalid Hbuilt) as [Hok Howners].
  set (coreOpts := core_options version cfg newID agentTopics (map fst built) started).
  assert (Hdevices : Devices coreOpts = map fst built) by done.
  destruct (New_accepts (mkGiven true true (fun index => (index <? length built)%nat)) coreOpts now) as [coreOpts' Hnew].
  { destruct (cv_delivery _ _ Hv) as (? & ? & ? & ?). destruct (cv_status _ _ Hv) as (? & _ & ? & ?). unfold Second in *.
    unfold options_ok. cbn. split_and!; try done; try lia. intros Hnil%map_eq_nil. rewrite Hnil in Hbuilt.
    by apply Forall2_nil_inv_r in Hbuilt. }
  { intros n dev Hdev. rewrite Hdevices in Hdev. apply list_lookup_fmap_Some in Hdev as (b & -> & Hb). split.
    - cbn. apply Nat.ltb_lt. by eapply lookup_lt_Some.
    - rewrite Forall_forall in Hok. by apply (Hok b), list_elem_of_lookup_2 with n. }
  rewrite Hnew. cbn [ag_core ag_readers ag_dial ag_intake Subscriptions dial_options].
  assert (Hsame : Devices coreOpts' = map fst built) by (by apply New_devices in Hnew). rewrite Hsame.
  destruct (subscribe_devices_spec ([], ∅) (map fst built)) as [Hnodup Htopics]; [split; [constructor|set_solver]|].
  exists station. split_and!.
  - done.
  - by rewrite zip_fst_snd.
  - by rewrite !length_map.
  - rewrite Forall_map. eapply Forall_impl; [exact Hok|]. by intros b [_ ?].
  - apply (NoDup_fmap_1 owner_of). cbn [fmap list_fmap]. change (owner_of <$> ?l) with (map owner_of l). rewrite !map_map, Howners.
    rewrite <-(map_map dc_ID (fun id => Some (DeviceTx _ _ _ id))). apply NoDup_fmap_2; [by intros ? ? [=]|done].
  - done.
  - intros topic. rewrite Htopics. split; [by intros [?%elem_of_nil|]|by right].
  - by destruct (cv_delivery _ _ Hv) as (_ & _ & _ & ?).
Qed.
End Runs.

(** ** Witness *)

Definition small_file : Node :=
  file_of [scalar 1 "devices"; mkNode SequenceNode "" 2 [mkNode MappingNode "" 2 [scalar 2 "id"; scalar 2 "scanner"]]].

Definition small_settings (body : string) (cfg : Config) : Config * option strict_error :=
  (set_Project "acme" (set_Site "lager" (set_Station "pack-1" (set_URL "mqtts://broker" (set_CredentialsFile "/etc/agent/credentials"
     (with_Devices [DefaultDevice] cfg))))), None).

Definition broker_url (url : string) : result string parsed_url := Ok (mkURL "mqtts" false "broker" "broker").
Definition private_file (path : string) : result string file_info := Ok (mkFileInfo true true 384).
Definition files (path : string) : result open_error opened :=
  if bool_decide (path = "/etc/agent/credentials")
  then Ok ("username = pack-1" +:+ String.String newline "" +:+ "password=a b=c", None) else Ok ("", None).
Definition defaults_only : ConfigLoad.Options :=
  ConfigLoad.mkOptions "" (mkOverrides None None None None None None None None None None) false.

Definition small_load : loaded :=
  Load (one_document small_file) small_settings entry_with_id broker_url private_file files "linux" defaults_only [].

Definition small_cfg : Config := match small_load with Loaded cfg _ => cfg | _ => Defaults end.
Definition no_disk : disk := mkDisk ∅ ∅ 0.

Definition small_run : assembled :=
  runAgent broker_url (fun _ => Ok []) (fun _ => true) (fun _ => None) files (opened_log no_faults (fun _ => None) no_disk "host" "2.0.0") "2.0.0" small_cfg [] (fun _ => "") 0 1.

Lemma small_file_loads : small_load = Loaded small_cfg [].
Proof. vm_compute. reflexivity. Qed.

Definition small_station : StationTopics :=
  match NewStationTopics "acme" "lager" "pack-1" with Ok station => station | Err _ => mkStationTopics "" "" "" end.

Lemma small_devices : exists d dev reader subscriptions,
  cfg_Devices small_cfg !! 0 = Some d /\ dc_ID d = "scanner" /\ buildDevices small_cfg small_station = Ok ([(dev, reader)], subscriptions).
Proof. do 4 eexists. vm_compute. split_and!; reflexivity. Qed.

Lemma loaded_config_runs_witness :
  small_load = Loaded small_cfg [] /\ exists parts, small_run = Assembled parts /\
    Subscriptions (ag_dial parts) = ["skuhus/acme/lager/pack-1/scanner/tx"; "skuhus/acme/lager/group/labels/tx"] /\
    Mqtt.Password (ag_dial parts) = "a b=c" /\ NoDup (Subscriptions (ag_dial parts)) /\ (1 <= ag_intake parts)%Z.
Proof.
  pose proof (loaded_config_runs (one_document small_file) small_settings entry_with_id broker_url private_file (fun _ => Ok []) (fun _ => true)
    (fun _ => None) files no_faults (fun _ => None) no_disk "host" "2.0.0" "linux" defaults_only [] small_cfg [] (fun _ => "") 0 1 small_file_loads eq_refl) as H.
  fold small_run in H. split; [exact small_file_loads|].
  assert (Hrun : exists parts, small_run = Assembled parts /\
    Subscriptions (ag_dial parts) = ["skuhus/acme/lager/pack-1/scanner/tx"; "skuhus/acme/lager/group/labels/tx"] /\
    Mqtt.Password (ag_dial parts) = "a b=c") by (eexists; split; [vm_compute; reflexivity|]; split; reflexivity).
  destruct Hrun as (parts & Hrun & Hsubs & Hpassword). rewrite Hrun in H. exists parts.
  destruct H as (station & _ & _ & _ & _ & _ & Hnodup & _ & Hintake). by split_and!.
Defined.
