(* ===== verification/EndToEnd.v ===== *)
(** * From a device's port to a consumer, and from a sender to a device's port

    The parts of the agent composed as a loaded configuration composes them:
    Serial.v reads and writes, Pipeline.v and Core.v publish and admit, Encode.v
    and ReadTx.v are the messages, Mqtt.v the packets. *)
From S2P Require Import Prelude GoLib Float Base64 Topics Wire Framer Device Port Serial Json ReadTx Encode Pipeline Tx Core.
From S2P Require Import Config ConfigValidate Credentials ConfigLoad Mqtt Build.
#[local] Open Scope string_scope.

(** ** What a consumer takes *)

(** The packet of a publish. *)
Definition packet_of (p : Pipeline.publish) : packet :=
  let expiry := default 0%Z (pub_expiry p) in
  match pub_kind p with
  | PublishRx => rx_packet (pub_topic p) (pub_payload p) expiry
  | PublishEvent => event_packet (pub_topic p) (pub_payload p) expiry
  | PublishKeepalive => keepalive_packet (pub_topic p) (pub_payload p) expiry
  | PublishOffline => offline_packet (pub_topic p) (pub_payload p)
  end.

(** A reading as a consumer takes it: whose topic it came on, how long the broker
    keeps it, in seconds, and the number, the device and the bytes its payload
    gives. *)
Record reading := mkReading { r_owner : topic_owner; r_qos : Z; r_keeps : Z; r_seq : Z; r_device : string; r_bytes : bytes }.

Definition consumer_takes (p : packet) : option reading :=
  owner ← owner_of (p_Topic p);
  keeps ← mjoin (p_MessageExpiry p);
  names ← (v ← fst <$> Json.decode (p_Payload p); names_of v);
  seq ← (names !! "seq" ≫= int_value);
  id ← (names !! "device_id" ≫= string_value);
  raw ← names !! "raw_b64";
  data ← match raw with JString b64 => b64_decode b64 | _ => None end;
  Some (mkReading owner (p_QoS p) keeps seq id data).

Lemma taken_packet topic payload expiry owner keeps names seq id b64 data :
  owner_of topic = Some owner -> messageExpiryInterval expiry = Some keeps ->
  (v ← fst <$> Json.decode payload; names_of v) = Some names ->
  (names !! "seq" ≫= int_value) = Some seq -> (names !! "device_id" ≫= string_value) = Some id ->
  names !! "raw_b64" = Some (JString b64) -> b64_decode b64 = Some data ->
  consumer_takes (rx_packet topic payload expiry) = Some (mkReading owner qosAtLeastOnce keeps seq id data).
Proof.
  intros Howner Hkeeps Hnames Hseq Hid Hb64 Hdata. unfold consumer_takes, rx_packet. cbn [p_Topic p_QoS p_Payload p_MessageExpiry].
  by rewrite Howner, Hkeeps, Hnames; cbn; rewrite Hseq, Hid, Hb64; cbn; rewrite Hdata.
Qed.

Lemma taken_reading opts dev n seq frame owner keeps :
  owner_of (rx (Topics_ dev)) = Some owner -> messageExpiryInterval (Expiry (WireDevice dev)) = Some keeps ->
  Forall is_text (header_texts (rx_header (build_Rx (builder opts) (WireDevice dev) seq (Raw frame) (FrameAt frame) n).1)) ->
  is_text (ID (WireDevice dev)) -> is_text (DeviceType (WireDevice dev)) -> in_int64 seq ->
  consumer_takes (packet_of (reading_publish opts dev n seq frame)) =
    Some (mkReading owner qosAtLeastOnce keeps seq (ID (WireDevice dev)) (Raw frame)).
Proof.
  intros Howner Hkeeps Htexts Hid Htype Hseq. unfold reading_publish.
  set (m := (build_Rx _ _ _ _ _ _).1). assert (Hm : exists payload, Marshal (rx_json m) = Ok payload) by (by eexists).
  destruct Hm as [payload Hm]. rewrite <-(Marshal_Ok _ _ Hm).
  destruct (reading_on_the_wire _ (WireDevice dev) seq (Raw frame) (FrameAt frame) n _ Htexts Hid Htype Hseq Hm) as (names & b64 & Hn & Hb & Hd & Hs & Hi & _).
  clear Hm m Htexts. by eapply taken_packet.
Qed.

(** Frames that are all offered to the broker, as a consumer takes them. *)
Lemma taken_publishes opts dev owner keeps n first l :
  owner_of (rx (Topics_ dev)) = Some owner -> messageExpiryInterval (Expiry (WireDevice dev)) = Some keeps ->
  (forall seq frame n, Forall is_text (header_texts (rx_header (build_Rx (builder opts) (WireDevice dev) seq (Raw frame) (FrameAt frame) n).1))) ->
  is_text (ID (WireDevice dev)) -> is_text (DeviceType (WireDevice dev)) ->
  (0 <= first)%Z -> (first + Z.of_nat (length l) <= max_int64)%Z -> Forall (fun x => outcome_of x.2 <> outcomeDropped) l ->
  map (fun p => consumer_takes (packet_of p)) (frames_publishes opts dev n (numbered first l)) =
  imap (fun k x => Some (mkReading owner qosAtLeastOnce keeps (first + Z.of_nat k) (ID (WireDevice dev)) (Raw x.1))) l.
Proof.
  intros Howner Hkeeps Htexts Hid Htype Hfirst Hmax Hall. revert n first Hfirst Hmax.
  induction Hall as [|[frame obs] l Hobs _ IH]; intros n first Hfirst Hmax; [done|]. cbn [numbered frames_publishes length] in *.
  rewrite bool_decide_eq_false_2 by done. rewrite map_app, IH by lia. cbn [map app].
  rewrite (taken_reading _ _ _ _ _ owner keeps) by (first [done|apply Htexts|unfold in_int64, min_int64, max_int64 in *; lia]).
  cbn [imap fst]. rewrite Z.add_0_r. f_equal. apply imap_ext. intros k x _. cbn. do 2 f_equal. lia.
Qed.

(** The header of a message is text: its levels are segments. *)
Lemma header_text agent newID kind at_ n :
  Forall is_text [Project agent; Site agent; Wire.Station agent; InstanceID agent; AgentVersion agent; kind] -> (forall n, is_text (newID n)) ->
  Forall is_text (header_texts (build_header (mkBuilder agent newID) kind at_ n).1).
Proof.
  rewrite !Forall_cons. intros (? & ? & ? & ? & ? & ? & _) Hid. unfold header_texts, build_header.
  cbn [h_Kind h_ID h_Project h_Site h_Station h_InstanceID h_AgentVersion h_AgentTS fst Wire.agent Wire.newID].
  rewrite !Forall_cons. split_and!; [done|apply Hid|done..|apply format_time_text|constructor].
Qed.

(** ** Readings *)

Section Readings.
Context (next : string -> nat -> next_document).
Context (strict_decode : string -> Config -> Config * option strict_error).
Context (decode_entry : Node -> Config.Device -> result string Config.Device).
Context (url_parse : string -> result string parsed_url) (stat : string -> result string file_info).
Context (open : string -> result open_error opened) (goos : string) (environ : list string) (version : string).

(** A frame that a device can send with its settings. *)
Definition sendable (d : Config.Device) (frame : bytes) : Prop :=
  acceptable (dc_MaxFrameBytes d) frame = true /\ index (frame ++ SeparatorBytes d) (SeparatorBytes d) = Some (length frame).

Lemma turn_inputs turns chunks :
  map outcome turns = map ReadGot chunks -> Forall (fun chunk => chunk <> []) chunks -> map turn_input turns = map Read chunks.
Proof.
  revert chunks. induction turns as [|t turns IH]; intros [|c chunks] Heq; try done. cbn in Heq. injection Heq as Ht Heq.
  intros [Hc Hall]%Forall_cons. cbn. rewrite (IH chunks) by done. unfold turn_input. rewrite Ht. by destruct c.
Qed.

(** The framer of a valid device's reader. *)
Lemma reader_framer d reader :
  device_valid d -> reader_of d reader ->
  exists framer, NewFramer (opt_Separator (opts reader)) (opt_MaxFrameBytes (opts reader)) = Ok framer /\
    opt_Separator (opts reader) = SeparatorBytes d /\ opt_MaxFrameBytes (opts reader) = dc_MaxFrameBytes d /\
    fits (SeparatorBytes d) (dc_MaxFrameBytes d).
Proof.
  intros Hd (_ & _ & _ & _ & _ & _ & Hsep & Hmax & _). destruct (dv_separator d Hd) as (Hne & Hsize & _). pose proof (dv_frame d Hd).
  rewrite Hsep, Hmax. unfold NewFramer. rewrite bool_decide_eq_false_2 by (by intros ?%length_zero_iff_nil%bytes_of_string_empty).
  rewrite (proj2 (Z.ltb_ge _ _)) by lia. eexists. split_and!; [done..|].
  unfold fits, SeparatorBytes, size, maxSeparatorBytes, maxFrameBytesLimit, max_int64 in *. rewrite string_length_bytes. lia.
Qed.

Definition frame_of (a : action) : option Frame := match a with Send frame => Some frame | _ => None end.

Lemma sent_frames acts : map Raw (omap frame_of acts) = sent_raws acts.
Proof. unfold sent_raws. induction acts as [|[| | |f] acts IH]; cbn; [done|done|done|done|]. by f_equal. Qed.

(** C1: what a device sends is what consumers take. For a configuration that
    loads, whatever reads a device's port cuts its frames and separators into,
    each frame comes to the broker once and in order, as long as the shutdown's
    drain has not run out: on the device's own rx topic, at QoS 1, numbered from
    1 without a gap, to be kept for the device's message expiry, and its payload
    decodes to the device's id and the very bytes of the frame. *)
Theorem readings_reach_consumers opts cfg warnings newID station agentTopics built subscriptions started i d dev reader now n env chunks frames obs :
  Load next strict_decode decode_entry url_parse stat open goos opts environ = Loaded cfg warnings ->
  opt_SkipValidate opts = false ->
  let identity := cfg_Identity cfg in
  NewStationTopics (id_Project identity) (id_Site identity) (id_Station identity) = Ok station ->
  buildDevices cfg station = Ok (built, subscriptions) ->
  cfg_Devices cfg !! i = Some d -> built !! i = Some (dev, reader) ->
  is_text version -> (forall n, is_text (newID n)) -> is_text (dc_DeviceType d) -> (dc_MessageExpiry d <= MaxUint32 * Second)%Z ->
  open_result env = None -> timeout_result env = None ->
  map outcome (turns env) = map ReadGot chunks -> Forall (fun chunk => chunk <> []) chunks -> (session reader now n env).2 = None ->
  Forall (sendable d) frames -> concat chunks = concat (map (fun frame => frame ++ SeparatorBytes d)%list frames) ->
  length obs = length frames -> Forall (fun o => outcome_of o <> outcomeDropped) obs -> (Z.of_nat (length frames) < max_int64)%Z ->
  let core := core_options version cfg newID agentTopics (map fst built) started in
  let sent := omap frame_of (session reader now n env).1 in
  let published := publishes (out (publishFrames core (zip sent obs) (mkWorld (newPipeline core dev) 0 [])).2) in
  map (fun p => consumer_takes (packet_of p)) published =
  imap (fun k frame => Some (mkReading (DeviceRx (id_Project identity) (id_Site identity) (id_Station identity) (dc_ID d)) qosAtLeastOnce
    (messageExpirySeconds (dc_MessageExpiry d)) (Z.of_nat (S k)) (dc_ID d) frame)) frames.
Proof.
  intros Hload Hskip identity Hstation Hbuild Hd Hdev Hversion Hids Htype Hexpiry Hopen Htimeout Hturns Hchunks Hgoes Hframes Hjoined Hobs Hoffered Hmax core sent published.
  destruct (Load_validated _ _ _ _ _ _ _ _ _ _ _ Hload Hskip) as (Hvalidate & merged_ & Hmerged).
  pose proof (Validate_ok _ _ _ _ _ Hvalidate) as Hv. destruct (cv_levels _ _ Hv) as (Hp & Hs & Hn & _). destruct (cv_devices _ _ Hv) as [_ Hvalid].
  assert (Hinstance : segmentRule (id_Instance identity) = true).
  { apply (cv_instance _ _ Hv). unfold identity in *. rewrite Hmerged in Hn |- *. apply derived_instance. intros Heq. by rewrite Heq in Hn. }
  pose proof Hvalid as Hdv. rewrite Forall_forall in Hdv. specialize (Hdv d (list_elem_of_lookup_2 _ _ _ Hd)).
  destruct (build_loop_ok station (lo_LogPayloads (cfg_Logging cfg)) ([], ∅) (cfg_Devices cfg) Hvalid) as (built' & Hbuild' & Hbuilt).
  unfold buildDevices in Hbuild. rewrite Hbuild' in Hbuild. injection Hbuild as -> _.
  destruct (Forall2_lookup_lr _ _ _ _ _ _ Hbuilt Hd Hdev) as (topics & routes & Htopics & _ & Hcore & Hof). cbn [fst snd] in Hcore, Hof.
  destruct (device_topics_owner _ _ _ _ Hstation _ _ Htopics) as (Howner & _).
  destruct (reader_framer d reader Hdv Hof) as (framer & Hframer & Hsep & Hframe & Hfits).
  (* the session sends the frames *)
  assert (Hsent : map Raw sent = frames).
  { unfold sent. rewrite sent_frames. pose proof (session_framed reader now n env framer Hframer Hopen Htimeout) as Hsession.
    rewrite (turn_inputs _ _ Hturns Hchunks) in Hsession. rewrite Hsep, Hframe in Hframer.
    pose proof (joined_frames _ _ framer frames chunks Hframer Hfits Hframes Hjoined) as Hrun.
    destruct (framer_run framer (map Read chunks)) as [[f' frames'] discards]. cbn in Hrun. subst frames'. by apply Hsession. }
  assert (Hlength : length sent = length obs) by (by rewrite Hobs, <-Hsent, length_map).
  (* the core publishes them *)
  destruct (publishFrames_spec core (zip sent obs) (mkWorld (newPipeline core dev) 0 [])) as (made & Hout & _ & Hpub & _).
  1-6: cbn; rewrite ?length_zip_with; unfold max_int64 in Hmax; lia.
  unfold published. rewrite Hout. cbn [out app]. rewrite Hpub. cbn [line_of newPipeline device seq_ ids].
  destruct (dv_expiry d Hdv) as [Hpos Hrem].
  destruct (messageExpiryInterval_spec (dc_MessageExpiry d)) as (keeps & Hkeeps & _ & _ & Hwhole); [unfold max_int64, MaxUint32, Second in *; lia|].
  specialize (Hwhole Hrem).
  rewrite Z.min_l in Hwhole by (unfold messageExpirySeconds; apply Z.quot_le_upper_bound; unfold Second in *; lia).
  destruct (dv_id d Hdv) as [Hid _].
  rewrite (taken_publishes core dev (DeviceRx (id_Project identity) (id_Site identity) (id_Station identity) (dc_ID d)) keeps); subst dev; cbn [Topics_ WireDevice core_device Expiry ID DeviceType];
    [| done | done | | by apply segment_text | done | lia | | ].
  - assert (Hz : frames = Raw <$> (zip sent obs).*1) by (rewrite fst_zip by lia; by rewrite <-Hsent).
    rewrite Hz, !imap_fmap. apply imap_ext. intros k x _. cbn. rewrite Hwhole. do 2 f_equal. lia.
  - intros seq frame m. apply header_text; [|done]. repeat (apply Forall_cons; split; [first [done|by apply segment_text]|]). constructor.
  - rewrite length_zip_with, Hlength, Nat.min_id, Hobs. unfold max_int64 in *. lia.
  - rewrite <-(snd_zip sent obs) in Hoffered by lia. by rewrite Forall_fmap in Hoffered.
Qed.
End Readings.

(** ** Tx *)

(** The payload a sender makes of its data. *)
Definition sent_tx (id sender : string) (data : bytes) : bytes :=
  encode (tx_json (mkTx Schema id sender (string_of_bytes (b64_encode data)))).

(** What one of a writer's turns meets at the port: the operating system's
    answers, whether the port was closed and the context ended before each chunk,
    whether a session held the port, and the context after the write. *)
Record port_turn := mkPortTurn {
  pt_write : nat -> bytes -> nat * option error; pt_closed : nat -> bool; pt_ctx : nat -> option context_error;
  pt_in_session : bool; pt_after : option context_error;
}.

Definition turn_write (reader : Serial.Device) (t : port_turn) (data : bytes) : option (list port_call * list nat * nat * option error) :=
  Device_Write (pt_write t) (pt_closed t) (pt_ctx t) (Z.to_nat (opt_TxChunkBytes (opts reader))) (Serial.opt_Path (opts reader))
    (pt_in_session t) (pt_after t) data.

(** What the writer sees of it, and what the port took. *)
Definition seen_write (reader : Serial.Device) (t : port_turn) (data : bytes) : Z * option error :=
  match turn_write reader t data with Some (_, _, n, err) => (Z.of_nat n, err) | None => (0%Z, None) end.
Definition port_took (reader : Serial.Device) (t : port_turn) (data : bytes) : bytes :=
  match turn_write reader t data with Some (calls, _, _, _) => accepted_bytes calls | None => [] end.

(** The number of bytes a result tells its sender were written. *)
Definition bytes_told (result : TxResult) : Z :=
  match txr_Detail result !! "bytes_written" with Some (AnyInt n) => n | _ => 0 end.

Lemma verdict_told opts dev open ref attempts v now n :
  bytes_told (verdict_result opts dev open ref attempts v now n).1 =
  match v with VStopping written | VWritten written | VWriteFailed _ _ written => written | _ => 0%Z end.
Proof. by destruct v. Qed.

Lemma seen_write_spec d reader t data :
  device_valid d -> reader_of d reader -> (forall n data, (pt_write t n data).1 <= length data) ->
  exists n, (seen_write reader t data).1 = Z.of_nat n /\ port_took reader t data = take n data /\ n <= length data /\
    ((seen_write reader t data).2 = None -> n = length data).
Proof.
  intros Hd Hof Hport. destruct Hof as (_ & _ & _ & _ & _ & _ & _ & _ & _ & Hchunk & _). destruct (dv_tx d Hd) as (_ & _ & Hpos & _).
  unfold seen_write, port_took, turn_write.
  destruct (Device_Write_spec (pt_write t) (pt_closed t) (pt_ctx t) (Z.to_nat (opt_TxChunkBytes (opts reader))) (Serial.opt_Path (opts reader))
    (pt_in_session t) (pt_after t) data Hport) as (calls & totals & n & err & -> & Hacc & Hn & Hall & _); [lia|].
  by exists n.
Qed.

Lemma retries_take_nothing d reader turns obs data retries :
  device_valid d -> reader_of d reader -> (forall k n offer, (pt_write (turns k) n offer).1 <= length offer) ->
  (forall k, o_write (obs k) = seen_write reader (turns k) data) ->
  Forall not_open retries -> retries = map (fun i => o_write (obs i)) (seq 0 (length retries)) ->
  concat (map (fun k => port_took reader (turns k) data) (seq 0 (length retries))) = [].
Proof.
  intros Hd Hof Hport Hobs Hall Hseq. remember (length retries) as r eqn:Hr. clear Hr. subst retries.
  induction (seq 0 r) as [|i l IH]; [done|]. cbn [map concat] in *. apply Forall_cons in Hall as [[Hzero _] Hall].
  rewrite IH by done. destruct (seen_write_spec d reader (turns i) data Hd Hof (Hport i)) as (n & Hn & -> & _).
  rewrite Hobs, Hn in Hzero. by replace n with 0 by lia.
Qed.

(** The verdict on a write, and what the port took of it. *)
Lemma ended_told openAttempts writable job obs r attempts v at_ last (took data : bytes) k :
  ended openAttempts writable job obs r attempts v at_ last -> (o_write (obs r)).1 = Z.of_nat k -> k <= length data ->
  ((o_write (obs r)).2 = None -> k = length data) ->
  (last = [] -> took = []) -> (length last = 1 -> took = take k data) ->
  let told := match v with VStopping written | VWritten written | VWriteFailed _ _ written => written | _ => 0%Z end in
  took = take (Z.to_nat told) data /\ told = Z.of_nat (length took) /\ (verdict_code v = TxCodeWritten -> took = data) /\
  (verdict_code v = TxCodeExpired \/ verdict_code v = TxCodePortUnavailable -> took = []).
Proof.
  intros [(-> & Hcheck & _)|(-> & _ & _ & Hv)] Hk Hle Hwhole Hnone Hsome.
  - specialize (Hnone eq_refl) as ->. unfold write_check in Hcheck. repeat case_match; simplify_eq/=; split_and!; try done.
  - specialize (Hsome eq_refl) as ->. unfold write_verdict in Hv. rewrite Hk in Hv.
    assert (Hlen : length (take k data) = k) by (rewrite length_take; lia).
    destruct (o_write (obs r)) as [written [err|]]; cbn [fst snd] in *.
    + destruct (is_ErrNotOpen err && (Z.of_nat k =? 0)%Z) eqn:Hno.
      * apply andb_true_iff in Hno as [_ Hzero]. assert (k = 0) as -> by lia. destruct (_ <=? _)%Z; [|done]. injection Hv as <-. cbn. by split_and!.
      * destruct (match o_ctx _ with Some c => _ | None => _ end); [|destruct (if is_ErrNotOpen err then _ else _) as [class text]]; injection Hv as <-;
          cbn; rewrite Nat2Z.id, Hlen; split_and!; try done; by intros [?|?].
    + injection Hv as <-. cbn. rewrite Nat2Z.id, Hlen. split_and!; try done; [|by intros [?|?]]. intros _. rewrite (Hwhole eq_refl). apply firstn_all.
Qed.

(** C2: the sender of a tx is told the truth. A tx that a sender encodes, and
    that is not in hand, not remembered as written, and arrives before the agent
    stops, is accepted with its very data; its writing ends, whatever the port
    and the clock do, and over all the attempts that were made the port has taken
    the first bytes of the data, in order, as many as the result tells the sender:
    all of them when it says written, and none when it says that it expired or
    that the port was unavailable. *)
Theorem tx_told_as_written core uuid_parse problem_text d dev reader id sender data topic expiry has_expiry received now w turns obs :
  device_valid d -> reader_of d reader -> writable dev = true -> TxOpenAttempts dev = dc_TxOpenAttempts d ->
  uuid_parse id = true -> String.length id = hyphenatedUUIDLength -> is_text id -> is_text sender -> sender <> "" -> data <> [] ->
  txActive w !! id = None -> lookup_id (written_ids w) id = None ->
  (forall k n offer, (pt_write (turns k) n offer).1 <= length offer) ->
  (forall k, o_write (obs k) = seen_write reader (turns k) data) ->
  let message := mkTxMessage topic (sent_tx id sender data) expiry has_expiry received in
  exists job w' j v attempts at_ writes,
    admit_claim uuid_parse message now false w = (AdmitClaimed job (mkTxRef id sender) data, w') /\
    jobs w' !! job = Some j /\ job_data j = data /\
    (forall line store n, txr_Code ((admission_result core problem_text message now (AdmitClaimed job (mkTxRef id sender) data) line store).1 n).1 = TxCodeAccepted) /\
    writeTx dev j obs = Some (v, attempts, at_, writes) /\
    forall open n,
      let result := (verdict_result core (WireDevice dev) open (mkTxRef id sender) attempts v at_ n).1 in
      let took := concat (map (fun k => port_took reader (turns k) data) (seq 0 (length writes))) in
      txr_TxID result = Some id /\ took = take (Z.to_nat (bytes_told result)) data /\ bytes_told result = Z.of_nat (length took) /\
      (txr_Code result = TxCodeWritten -> took = data) /\
      (txr_Code result = TxCodeExpired \/ txr_Code result = TxCodePortUnavailable -> took = []).
Proof.
  intros Hd Hof Hwritable Hattempts Huuid Hlen Hid Hsender Hne Hdata Hactive Hids Hport Hobs message.
  assert (Hread : ReadTx uuid_parse (sent_tx id sender data) = (mkTxRef id sender, data, None)).
  { rewrite <-(app_nil_r (sent_tx id sender data)). by apply read_sent_tx. }
  set (j := newJob (mkTxRef id sender) data message now).
  destruct (dv_tx d Hd) as (Hopen & _).
  destruct (writeTx_spec (TxOpenAttempts dev) (writable dev) j obs (S (Z.to_nat (TxOpenAttempts dev))) 0 0)
    as (v & attempts & at_ & retries & last & Hrun & Hretries & _ & _ & _ & Hend & Hseq); [lia..|].
  exists (length (jobs w)), (mkTxWorld (base w) (<[id := length (jobs w)]> (txActive w)) (written_ids w) (tx_queue w) (jobs w ++ [j])%list), j, v, attempts, at_, (retries ++ last)%list.
  split_and!.
  - unfold admit_claim. cbn [msg_Payload message]. rewrite Hread. cbn [ref_ID]. by rewrite Hactive, Hids.
  - cbn [jobs]. by rewrite lookup_app_r, Nat.sub_diag by lia.
  - done.
  - done.
  - exact Hrun.
  - intros open n result took. destruct (verdict_result_spec core (WireDevice dev) open (mkTxRef id sender) attempts v at_ n) as (Hcode & _ & Htx & _).
    pose proof (verdict_told core (WireDevice dev) open (mkTxRef id sender) attempts v at_ n) as Htold. fold result in Hcode, Htx, Htold.
    assert (Htook : took = concat (map (fun k => port_took reader (turns k) data) (seq (length retries) (length last)))).
    { unfold took. rewrite length_app, seq_app, map_app, concat_app. cbn [Nat.add].
      rewrite (retries_take_nothing d reader turns obs data retries) by done. done. }
    rewrite Htook, Hcode, Htold. split.
    { rewrite Htx. unfold nilIfEmpty. cbn [ref_ID]. rewrite bool_decide_eq_false_2; [done|]. by intros ->. }
    destruct (seen_write_spec d reader (turns (length retries)) data Hd Hof (Hport _)) as (k & Hk & Htake & Hle & Hwhole). rewrite <-Hobs in Hk, Hwhole.
    apply (ended_told (TxOpenAttempts dev) (writable dev) j obs (length retries) attempts v at_ last _ data k).
    all: try done.
    + by intros ->.
    + intros ->. cbn [seq map concat]. by rewrite app_nil_r, Htake.
Qed.

(** ** Witnesses *)

(** The one device of a small file: it sends two frames in two reads, and the
    broker does not acknowledge the second. *)
Definition two_frames : list bytes := [[x31; x32]; [x33; x34; x35]].
Definition two_chunks (sep : bytes) : list bytes := [[x31]; [x32] ++ sep ++ [x33; x34; x35] ++ sep]%list.
Definition reads (chunks : list bytes) : session_env :=
  mkEnv None None (map (fun chunk => mkTurn None (ReadGot chunk) (fun _ => None)) chunks) None (0, 0).

Definition small_loaded : list Config.Device * list (CoreDevice * Serial.Device) :=
  (cfg_Devices small_cfg, match buildDevices small_cfg small_station with Ok (built, _) => built | Err _ => [] end).

Lemma small_loaded_is : exists d dev reader subscriptions,
  cfg_Devices small_cfg = [d] /\ buildDevices small_cfg small_station = Ok ([(dev, reader)], subscriptions) /\
  Forall (sendable d) two_frames /\ Forall (fun chunk => chunk <> []) (two_chunks (SeparatorBytes d)) /\
  (session reader (fun _ => 0%Z) 0 (reads (two_chunks (SeparatorBytes d)))).2 = None /\
  concat (two_chunks (SeparatorBytes d)) = concat (map (fun frame => frame ++ SeparatorBytes d)%list two_frames) /\
  is_text (dc_DeviceType d) /\ dc_ID d = "scanner" /\ dc_MessageExpiry d = (30 * Second)%Z.
Proof.
  do 4 eexists. split; [vm_compute; reflexivity|]. split; [vm_compute; reflexivity|].
  split_and!; try (vm_compute; reflexivity); repeat constructor; try (vm_compute; reflexivity); discriminate.
Qed.

Lemma readings_reach_consumers_witness :
  exists d dev reader,
    let sent := omap frame_of (session reader (fun _ => 0%Z) 0 (reads (two_chunks (SeparatorBytes d)))).1 in
    let core := core_options "2.2.0" small_cfg (fun _ => "id") (mkAgentTopics "") [dev] 0 in
    let obs := [mkFrameObs 0 0 None; mkFrameObs 0 0 (Some "no PUBACK")] in
    map (fun p => consumer_takes (packet_of p)) (publishes (out (publishFrames core (zip sent obs) (mkWorld (newPipeline core dev) 0 [])).2)) =
      [Some (mkReading (DeviceRx "acme" "lager" "pack-1" "scanner") 1 30 1 "scanner" [x31; x32]);
       Some (mkReading (DeviceRx "acme" "lager" "pack-1" "scanner") 1 30 2 "scanner" [x33; x34; x35])].
Proof.
  destruct small_loaded_is as (d & dev & reader & subscriptions & Hd & Hbuild & Hframes & Hchunks & Hgoes & Hjoined & Htype & Hid & Hexpiry).
  exists d, dev, reader. cbv zeta.
  etransitivity; [apply (readings_reach_consumers (one_document small_file) small_settings entry_with_id broker_url private_file files "linux" [] "2.2.0"
    defaults_only small_cfg [] (fun _ => "id") small_station (mkAgentTopics "") [(dev, reader)] subscriptions 0 0 d dev reader (fun _ => 0%Z) 0
    (reads (two_chunks (SeparatorBytes d))) (two_chunks (SeparatorBytes d)) two_frames [mkFrameObs 0 0 None; mkFrameObs 0 0 (Some "no PUBACK")]
    small_file_loads eq_refl eq_refl Hbuild)|];
    [by rewrite Hd|done|done|done|done|by rewrite Hexpiry|done|done|reflexivity|done|done|done|done|done| |done|].
  - repeat constructor; discriminate.
  - by rewrite Hexpiry, Hid.
Defined.

Lemma small_device_ok : exists d dev reader,
  device_valid d /\ reader_of d reader /\ writable dev = true /\ TxOpenAttempts dev = dc_TxOpenAttempts d.
Proof.
  destruct (Load_validated _ _ _ _ _ _ _ _ _ _ _ small_file_loads eq_refl) as (Hvalidate & _).
  destruct (cv_devices _ _ (Validate_ok _ _ _ _ _ Hvalidate)) as [_ Hvalid].
  destruct small_loaded_is as (d & _ & _ & _ & Hd & _). rewrite Hd in Hvalid. apply Forall_cons in Hvalid as [Hdv _].
  destruct (buildDevice_ok small_station false d Hdv) as ([dev reader] & _ & topics & routes & _ & _ & Hdev & Hof). cbn in Hdev, Hof.
  exists d, dev, reader. rewrite Hdev. split; [exact Hdv|]. split; [exact Hof|]. by split.
Qed.

(** The port is not open at first; then it takes two bytes of three and is gone. *)
Definition first_closed (k : nat) : port_turn :=
  mkPortTurn (fun n data => if (n =? 0)%nat then (Nat.min 2 (length data), None) else (0, Some (Errno EIO))) (fun _ => false) (fun _ => None)
    (negb (k =? 0)%nat) None.

Lemma tx_told_as_written_witness :
  exists dev reader v attempts at_ writes j,
    let obs k := mkTry 0 false (seen_write reader (first_closed k) [x31; x32; x33]) 0 None ("", "") in
    let result := (verdict_result Pipeline.some_options (WireDevice dev) true (mkTxRef an_id "scale") attempts v at_ 0).1 in
    let took := concat (map (fun k => port_took reader (first_closed k) [x31; x32; x33]) (seq 0 (length writes))) in
    job_data j = [x31; x32; x33] /\ writeTx dev j obs = Some (v, attempts, at_, writes) /\
    took = take (Z.to_nat (bytes_told result)) [x31; x32; x33] /\ bytes_told result = Z.of_nat (length took).
Proof.
  destruct small_device_ok as (d & dev & reader & Hd & Hof & Hwritable & Hattempts).
  destruct (tx_told_as_written Pipeline.some_options (fun _ => true) (fun _ => "") d dev reader an_id "scale" [x31; x32; x33] "t" 0 false 0 0
    (mkTxWorld (mkWorld (newPipeline Pipeline.some_options dev) 0 []) ∅ (newWrittenIDs 4) Queue.newWaitingQueue []) first_closed
    (fun k => mkTry 0 false (seen_write reader (first_closed k) [x31; x32; x33]) 0 None ("", "")) Hd Hof Hwritable Hattempts)
    as (job & w' & j & v & attempts & at_ & writes & _ & _ & Hdata & _ & Hrun & Htold).
  all: try done.
  - intros k n offer. unfold first_closed. cbn [pt_write]. destruct (n =? 0)%nat; cbn [fst]; lia.
  - destruct (Htold true 0) as (_ & Htook & Hbytes & _). exists dev, reader, v, attempts, at_, writes, j. by split_and!.
Defined.
