(* ===== verification/Probe.v ===== *)
(** * The probe command: cmd/skuhus-device-agent/probe.go

    Its flags, the device they name, what it prints of each reading, the log of
    the device's presence, and the listing. Usage texts, the texts of errors and
    the rendering of a printed reading are left out. *)
From S2P Require Import Prelude GoLib Strconv Topics Wire Json Encode Logging Device Serial Literal Flags.
From S2P Require Import Config ConfigValidate Credentials ConfigLoad Build.
#[local] Open Scope string_scope.

(** ** The flags *)

(** The flag package's own flags: [Bool], [String], [Int] and [Duration]. *)
Definition Bool_ {V} (set : bool -> V -> V) : Flag V := mkFlag true (fun raw v => b ← ParseBool raw; Some (set b v)).
Definition String_ {V} (set : string -> V -> V) : Flag V := mkFlag false (fun raw v => Some (set raw v)).
Definition Int_ {V} (set : Z -> V -> V) : Flag V := mkFlag false (fun raw v => z ← ParseInt raw; Some (set z v)).
Definition Duration_ {V} (set : duration -> V -> V) : Flag V := mkFlag false (fun raw v => d ← ParseDuration raw; Some (set d v)).

Record probeFlags := mkProbeFlags {
  pf_list : bool; pf_config : string; pf_device : string; pf_path : string; pf_baud : Z; pf_dataBits : Z; pf_parity : string; pf_stopBits : string; pf_separator : string; pf_maxFrame : Z; pf_interChar : duration; pf_json : bool; pf_duration : duration; pf_logLevel : string; pf_logPayloads : bool;
}.

Definition probe_flags : list (string * Flag probeFlags) :=
  [("list", Bool_ (fun x v => mkProbeFlags x (pf_config v) (pf_device v) (pf_path v) (pf_baud v) (pf_dataBits v) (pf_parity v) (pf_stopBits v) (pf_separator v) (pf_maxFrame v) (pf_interChar v) (pf_json v) (pf_duration v) (pf_logLevel v) (pf_logPayloads v)));
   ("config", String_ (fun x v => mkProbeFlags (pf_list v) x (pf_device v) (pf_path v) (pf_baud v) (pf_dataBits v) (pf_parity v) (pf_stopBits v) (pf_separator v) (pf_maxFrame v) (pf_interChar v) (pf_json v) (pf_duration v) (pf_logLevel v) (pf_logPayloads v)));
   ("device", String_ (fun x v => mkProbeFlags (pf_list v) (pf_config v) x (pf_path v) (pf_baud v) (pf_dataBits v) (pf_parity v) (pf_stopBits v) (pf_separator v) (pf_maxFrame v) (pf_interChar v) (pf_json v) (pf_duration v) (pf_logLevel v) (pf_logPayloads v)));
   ("path", String_ (fun x v => mkProbeFlags (pf_list v) (pf_config v) (pf_device v) x (pf_baud v) (pf_dataBits v) (pf_parity v) (pf_stopBits v) (pf_separator v) (pf_maxFrame v) (pf_interChar v) (pf_json v) (pf_duration v) (pf_logLevel v) (pf_logPayloads v)));
   ("baud", Int_ (fun x v => mkProbeFlags (pf_list v) (pf_config v) (pf_device v) (pf_path v) x (pf_dataBits v) (pf_parity v) (pf_stopBits v) (pf_separator v) (pf_maxFrame v) (pf_interChar v) (pf_json v) (pf_duration v) (pf_logLevel v) (pf_logPayloads v)));
   ("data-bits", Int_ (fun x v => mkProbeFlags (pf_list v) (pf_config v) (pf_device v) (pf_path v) (pf_baud v) x (pf_parity v) (pf_stopBits v) (pf_separator v) (pf_maxFrame v) (pf_interChar v) (pf_json v) (pf_duration v) (pf_logLevel v) (pf_logPayloads v)));
   ("parity", String_ (fun x v => mkProbeFlags (pf_list v) (pf_config v) (pf_device v) (pf_path v) (pf_baud v) (pf_dataBits v) x (pf_stopBits v) (pf_separator v) (pf_maxFrame v) (pf_interChar v) (pf_json v) (pf_duration v) (pf_logLevel v) (pf_logPayloads v)));
   ("stop-bits", String_ (fun x v => mkProbeFlags (pf_list v) (pf_config v) (pf_device v) (pf_path v) (pf_baud v) (pf_dataBits v) (pf_parity v) x (pf_separator v) (pf_maxFrame v) (pf_interChar v) (pf_json v) (pf_duration v) (pf_logLevel v) (pf_logPayloads v)));
   ("separator", String_ (fun x v => mkProbeFlags (pf_list v) (pf_config v) (pf_device v) (pf_path v) (pf_baud v) (pf_dataBits v) (pf_parity v) (pf_stopBits v) x (pf_maxFrame v) (pf_interChar v) (pf_json v) (pf_duration v) (pf_logLevel v) (pf_logPayloads v)));
   ("max-frame-bytes", Int_ (fun x v => mkProbeFlags (pf_list v) (pf_config v) (pf_device v) (pf_path v) (pf_baud v) (pf_dataBits v) (pf_parity v) (pf_stopBits v) (pf_separator v) x (pf_interChar v) (pf_json v) (pf_duration v) (pf_logLevel v) (pf_logPayloads v)));
   ("inter-char-timeout", Duration_ (fun x v => mkProbeFlags (pf_list v) (pf_config v) (pf_device v) (pf_path v) (pf_baud v) (pf_dataBits v) (pf_parity v) (pf_stopBits v) (pf_separator v) (pf_maxFrame v) x (pf_json v) (pf_duration v) (pf_logLevel v) (pf_logPayloads v)));
   ("json", Bool_ (fun x v => mkProbeFlags (pf_list v) (pf_config v) (pf_device v) (pf_path v) (pf_baud v) (pf_dataBits v) (pf_parity v) (pf_stopBits v) (pf_separator v) (pf_maxFrame v) (pf_interChar v) x (pf_duration v) (pf_logLevel v) (pf_logPayloads v)));
   ("duration", Duration_ (fun x v => mkProbeFlags (pf_list v) (pf_config v) (pf_device v) (pf_path v) (pf_baud v) (pf_dataBits v) (pf_parity v) (pf_stopBits v) (pf_separator v) (pf_maxFrame v) (pf_interChar v) (pf_json v) x (pf_logLevel v) (pf_logPayloads v)));
   ("log-level", String_ (fun x v => mkProbeFlags (pf_list v) (pf_config v) (pf_device v) (pf_path v) (pf_baud v) (pf_dataBits v) (pf_parity v) (pf_stopBits v) (pf_separator v) (pf_maxFrame v) (pf_interChar v) (pf_json v) (pf_duration v) x (pf_logPayloads v)));
   ("log-payloads", Bool_ (fun x v => mkProbeFlags (pf_list v) (pf_config v) (pf_device v) (pf_path v) (pf_baud v) (pf_dataBits v) (pf_parity v) (pf_stopBits v) (pf_separator v) (pf_maxFrame v) (pf_interChar v) (pf_json v) (pf_duration v) (pf_logLevel v) x))].


Definition probe_defaults : probeFlags :=
  mkProbeFlags false "" "" "" 9600 8 ParityNone StopBitsOne "" 4096 (200 * Millisecond) false 0 "info" false.

Definition probeFlagSet : gmap string (Flag probeFlags) := list_to_map probe_flags.

(** ** The separator *)

Inductive separator_error := SeparatorEmpty | CannotDecode (raw : string).

Definition parseSeparator (raw : string) : result separator_error bytes :=
  if bool_decide (raw = "") then Err SeparatorEmpty
  else if negb (bool_decide (backslash ∈ bytes_of_string raw)) then Ok (bytes_of_string raw)
  else match Unquote (bytes_of_string raw) with
  | Some unquoted => Ok unquoted
  | None => Err (CannotDecode raw)
  end.

(** ** The sources of the settings *)

Inductive probe_usage :=
  | CommandLine (err : command_line_error)
  | OneSource
  | IgnoredFlags (names : list string)
  | ConfigIgnored
  | SeparatorRequired
  | BadSeparator (err : separator_error).

Definition deviceSettingFlags : list string :=
  ["baud"; "data-bits"; "parity"; "stop-bits"; "separator"; "max-frame-bytes"; "inter-char-timeout"].

(** The flags that were set and would be ignored; [Visit] goes by name. *)
Definition ignored_flags (set_flags : gset string) (fromConfig : bool) : list string :=
  List.filter (fun name => if fromConfig then bool_decide (name ∈ deviceSettingFlags) else bool_decide (name = "config"))
    (sort_strings (elements set_flags)).

Definition checkProbeSources (set_flags : gset string) (fromConfig : bool) (separator : string) : option probe_usage :=
  match ignored_flags set_flags fromConfig with
  | (_ :: _) as ignored => Some (if fromConfig then IgnoredFlags ignored else ConfigIgnored)
  | [] => if negb fromConfig && bool_decide (separator = "") then Some SeparatorRequired else None
  end.

(** ** The probed device *)

(** [config.DefaultDevice] with what the flags set. *)
Definition flagged (v : probeFlags) : Config.Device :=
  let d := DefaultDevice in
  mkDeviceCfg "probe" (dc_Kind d) (pf_path v) (pf_baud v) (pf_dataBits v) (pf_parity v) (pf_stopBits v) (dc_Separator d)
    (pf_maxFrame v) (pf_interChar v) (dc_MessageExpiry d) (dc_DeviceType d) (dc_ReopenInterval d) (dc_ReopenBackoff d)
    (dc_TxOpenAttempts d) (dc_TxOpenInterval d) (dc_TxChunkBytes d) (dc_TxRememberedIDs d) (dc_BroadcastGroups d).

Definition with_Separator (separator : string) (d : Config.Device) : Config.Device :=
  mkDeviceCfg (dc_ID d) (dc_Kind d) (dc_Path d) (dc_Baud d) (dc_DataBits d) (dc_Parity d) (dc_StopBits d) separator
    (dc_MaxFrameBytes d) (dc_InterCharTimeout d) (dc_MessageExpiry d) (dc_DeviceType d) (dc_ReopenInterval d) (dc_ReopenBackoff d)
    (dc_TxOpenAttempts d) (dc_TxOpenInterval d) (dc_TxChunkBytes d) (dc_TxRememberedIDs d) (dc_BroadcastGroups d).

Inductive probe_error :=
  | ProbeUsage (err : probe_usage)
  | ConfigNotLoaded (err : LoadError)
  | ConfigPanics
  | NoDevice (id : string) (have : list string)
  | InvalidDevice (problems : list problem)
  | BadLogLevel (level : string)
  | ReaderNotBuilt (err : build_error)
  | ListingFailed (err : string).

Section ProbedDevice.
(** [config.Load] on this host, with its environment. *)
Context (load : ConfigLoad.Options -> loaded) (version : string).

(** No flag overrides, and no validation. *)
Definition probe_options (configPath : string) : ConfigLoad.Options :=
  mkOptions configPath (mkOverrides None None None None None None None None None None) true.

(** The search of the configured devices: the one with the id, or the ids there
    are. *)
Fixpoint find_device (id : string) (devices : list Config.Device) : result (list string) Config.Device :=
  match devices with
  | [] => Err []
  | d :: devices' =>
    if bool_decide (dc_ID d = id) then Ok d
    else match find_device id devices' with Ok d => Ok d | Err ids => Err (dc_ID d :: ids) end
  end.

Definition probedDevice (configPath deviceID : string) (flagged : Config.Device) (separator : string) :
    result probe_error (Config.Device * Agent) :=
  if bool_decide (deviceID = "") then
    match parseSeparator separator with
    | Err err => Err (ProbeUsage (BadSeparator err))
    | Ok decoded => Ok (with_Separator (string_of_bytes decoded) flagged, mkAgent "" "" "" "probe" version)
    end
  else match load (probe_options configPath) with
  | LoadPanics => Err ConfigPanics
  | NotLoaded _ err => Err (ConfigNotLoaded err)
  | Loaded cfg _ =>
    match find_device deviceID (cfg_Devices cfg) with
    | Err have => Err (NoDevice deviceID have)
    | Ok d =>
      let identity := cfg_Identity cfg in
      Ok (d, mkAgent (id_Project identity) (id_Site identity) (id_Station identity) (id_Instance identity) version)
    end
  end.
End ProbedDevice.

(** ** The presence of the device *)

Record presenceLog := mkPresence { known : bool; present : bool; class : ErrorClass }.
Definition no_presence : presenceLog := mkPresence false false "".

Definition set_presence (now_present : bool) (event : Device.Event) (p : presenceLog) : presenceLog * option log_record :=
  if known p && bool_decide (present p = now_present) && bool_decide (class p = EvErrorClass event) then (p, None)
  else (mkPresence true now_present (EvErrorClass event),
    Some (if now_present then log_at LevelInfo "device present" []
          else log_at LevelWarn "device absent" [("error_class", AttrString (EvErrorClass event)); ("error", AttrString (ErrorText event))])).

Definition report (event : Device.Event) (p : presenceLog) : presenceLog * option log_record :=
  match Device.Kind event with
  | PortOpened => set_presence true event p
  | PortLost | PortOpenFailed => set_presence false event p
  | _ => (p, None)
  end.

(** The records of a run of events. *)
Fixpoint report_all (events : list Device.Event) (p : presenceLog) : list log_record :=
  match events with
  | [] => []
  | event :: events' => let (p, record) := report event p in (option_list record ++ report_all events' p)%list
  end.

(** ** What is printed *)

(** A reading as its JSON, on one line and without HTML escapes, or as text:
    when, its number, its length, whether it is UTF-8, and its bytes. *)
Inductive printed :=
  | PrintedJSON (message : json)
  | PrintedText (agent_ts : string) (seq frame_bytes : Z) (utf8 : bool) (hex : string) (text : option string).

Definition printReading (rx : Rx) (raw : bytes) (asJSON : bool) : printed :=
  if asJSON then PrintedJSON (rx_json rx)
  else PrintedText (h_AgentTS (rx_header rx)) (rx_Seq rx) (Z.of_nat (length raw)) (rx_TextValid rx) (hex_encode raw) (rx_Text rx).

Definition wire_device (dev : Config.Device) : Wire.Device := mkDevice (dc_ID dev) (dc_DeviceType dev) (dc_MessageExpiry dev).

(** The loop of [printReadings] over the frames it takes before the context
    ends, while they can be written: [seq] readings were printed before, with
    [ids] ids taken. *)
Fixpoint print_loop (builder : Builder) (device : Wire.Device) (asJSON : bool) (seq : Z) (ids : nat) (frames : list Frame) : list printed :=
  match frames with
  | [] => []
  | frame :: frames' =>
    let seq := uint64 (seq + 1) in
    let (rx, ids) := build_Rx builder device seq (Raw frame) (FrameAt frame) ids in
    printReading rx (Raw frame) asJSON :: print_loop builder device asJSON seq ids frames'
  end.

Definition printReadings (newID : nat -> string) (dev : Config.Device) (identity : Agent) (asJSON : bool) (frames : list Frame) : list printed :=
  print_loop (mkBuilder identity newID) (wire_device dev) asJSON 0 0 frames.

(** ** The listing *)

Inductive dir_answer := DirMissing | DirError (err : string) | DirEntries (names : list string).

Section Listing.
(** The serial library's list of ports, and what the file system answers. *)
Context (GetPortsList : result string (list string)) (ReadDir : string -> dir_answer) (EvalSymlinks : string -> result string string).

Definition callin_note := "  [unusable: macOS callin device, opening it blocks on carrier detect; use the /dev/cu.* twin]".
Definition none_found : list string :=
  ["  (none found; check that the scanner is in USB-CDC mode, that it is not";
   "   claimed by ModemManager or brltty, and that this user is in the dialout group)"].

Definition port_line (port : string) : string := "  " +:+ port +:+ (if IsCallinDevice port then callin_note else "").

Definition stable_dirs : list string := ["/dev/serial/by-id"; "/dev/serial/by-path"].

Definition link_line (dir name : string) : string :=
  let full := dir +:+ "/" +:+ name in
  "  " +:+ full +:+ " -> " +:+ match EvalSymlinks full with Ok target => target | Err err => "(unresolvable: " +:+ err +:+ ")" end.

(** The lines of one directory, after an empty one. *)
Definition dir_lines (dir : string) : list string :=
  match ReadDir dir with
  | DirMissing => []
  | DirError err => [""; dir +:+ ": " +:+ err]
  | DirEntries names =>
    ["" ; "stable paths in " +:+ dir +:+ " (configure these, not the nodes above):"] ++ map (link_line dir) (sort_strings names)
  end%list.

Definition listDevices : result string (list string) :=
  match GetPortsList with
  | Err err => Err ("enumerate serial ports: " +:+ err)
  | Ok ports =>
    Ok (["kernel-assigned device nodes:"] ++ (match ports with [] => none_found | _ => [] end) ++ map port_line (sort_strings ports) ++
        flat_map dir_lines stable_dirs)%list
  end.
End Listing.

(** ** The command *)

Inductive probe_outcome :=
  | Listed (lines : list string)
  | ProbeRefused (warnings : list Warning) (err : probe_error)
  | Probing (warnings : list Warning) (dev : Config.Device) (identity : Agent) (log : logger) (reader : Serial.Device) (v : probeFlags).

Section Command.
Context (load : ConfigLoad.Options -> loaded) (version hostname : string).
Context (GetPortsList : result string (list string)) (ReadDir : string -> dir_answer) (EvalSymlinks : string -> result string string).

(** The log on stderr. *)
Definition probe_log (v : probeFlags) (identity : Agent) : result string logger :=
  Logging.New (mkLogOptions (pf_logLevel v) true false (Project identity) (Site identity) (Station identity) hostname "" (AgentVersion identity)).

(** From the parsed flags on. *)
Definition probe_device (v : probeFlags) (set_flags : gset string) : probe_outcome :=
  if bool_decide (pf_device v = "") && bool_decide (pf_path v = "") || negb (bool_decide (pf_device v = "")) && negb (bool_decide (pf_path v = ""))
  then ProbeRefused [] (ProbeUsage OneSource)
  else match checkProbeSources set_flags (negb (bool_decide (pf_device v = ""))) (pf_separator v) with
  | Some err => ProbeRefused [] (ProbeUsage err)
  | None =>
    match probedDevice load version (pf_config v) (pf_device v) (flagged v) (pf_separator v) with
    | Err err => ProbeRefused [] err
    | Ok (dev, identity) =>
      match ValidateDevice dev with
      | ((_ :: _) as problems, _) => ProbeRefused [] (InvalidDevice problems)
      | ([], warnings) =>
        match probe_log v identity with
        | Err level => ProbeRefused warnings (BadLogLevel level)
        | Ok log =>
          match newSerialReader dev (pf_logPayloads v) with
          | Err err => ProbeRefused warnings (ReaderNotBuilt err)
          | Ok reader => Probing warnings dev identity log reader v
          end
        end
      end
    end
  end.

Definition probeCommand (args : list string) : probe_outcome :=
  match parseCommandLine probeFlagSet args probe_defaults with
  | Err err => ProbeRefused [] (ProbeUsage (CommandLine err))
  | Ok p =>
    if pf_list (values p) then
      match listDevices GetPortsList ReadDir EvalSymlinks with
      | Ok lines => Listed lines
      | Err err => ProbeRefused [] (ListingFailed err)
      end
    else probe_device (values p) (actual p)
  end.
End Command.

(** ** Properties of the separator *)

(** A byte as a hexadecimal escape. *)
Definition hex_escape (b : byte) : bytes :=
  [x5c; x78] ++ bytes_of_string (hex_digit (byte_Z b / 16)) ++ bytes_of_string (hex_digit (byte_Z b mod 16)).

Lemma hex_escape_spelled b : spelled_byte b (hex_escape b).
Proof. destruct b; cbn; by eapply spelled_hex. Qed.

Lemma no_backslash_literal data spellings :
  Forall2 spelled_byte data spellings -> backslash ∉ concat spellings -> concat spellings = data.
Proof.
  induction 1 as [|b s data spellings Hs _ IH]; [done|]. cbn [concat]. rewrite elem_of_app. intros Hno.
  destruct Hs; [cbn; by rewrite IH by tauto|exfalso; apply Hno; left; apply list_elem_of_here..].
Qed.

(** A separator written on the command line in any mix of plain characters
    and Go's escapes reads as the bytes it stands for; one without a backslash
    is its bytes as they are; and every separator can be written. *)
Theorem separator_roundtrip data :
  data <> [] ->
  (forall spellings, Forall2 spelled_byte data spellings -> parseSeparator (string_of_bytes (concat spellings)) = Ok data) /\
  (backslash ∉ data -> parseSeparator (string_of_bytes data) = Ok data) /\
  parseSeparator (string_of_bytes (concat (map hex_escape data))) = Ok data.
Proof.
  intros Hne.
  assert (Hraw : forall raw, raw <> [] -> bool_decide (string_of_bytes raw = "") = false).
  { intros raw Hr. apply bool_decide_eq_false_2. intros Heq. apply Hr. rewrite <-(bytes_of_string_of_bytes raw), Heq. done. }
  assert (Hplain : backslash ∉ data -> parseSeparator (string_of_bytes data) = Ok data).
  { intros Hno. unfold parseSeparator. rewrite Hraw by done. rewrite bytes_of_string_of_bytes. by rewrite bool_decide_eq_false_2. }
  assert (Hspelled : forall spellings, Forall2 spelled_byte data spellings -> parseSeparator (string_of_bytes (concat spellings)) = Ok data).
  { intros spellings Hall. destruct (decide (backslash ∈ concat spellings)) as [Hin|Hno].
    - unfold parseSeparator. rewrite Hraw by (by intros H; rewrite H in Hin; apply elem_of_nil in Hin).
      rewrite bytes_of_string_of_bytes, bool_decide_eq_true_2 by done. by rewrite (Unquote_spelled _ _ Hall).
    - pose proof (no_backslash_literal _ _ Hall Hno) as Heq. rewrite Heq in *. by apply Hplain. }
  split_and!; [done|done|]. apply Hspelled. clear. induction data as [|b data IH]; constructor; [apply hex_escape_spelled|done].
Qed.

Lemma separator_roundtrip_witness :
  parseSeparator "\r\n" = Ok [x0d; x0a] /\ parseSeparator "a\036\x1E" = Ok [x61; x1e; x1e] /\ parseSeparator "#" = Ok [x23].
Proof.
  split_and!.
  - apply (proj1 (separator_roundtrip [x0d; x0a] ltac:(discriminate)) [[x5c; x72]; [x5c; x6e]]).
    repeat constructor; apply (bool_decide_eq_true_1 _); reflexivity.
  - apply (proj1 (separator_roundtrip [x61; x1e; x1e] ltac:(discriminate)) [[x61]; [x5c; x30; x33; x36]; [x5c; x78; x31; x45]]).
    constructor; [apply spelled_itself; discriminate || reflexivity|].
    constructor; [by eapply spelled_octal|]. constructor; [by eapply spelled_hex|constructor].
  - apply (proj1 (proj2 (separator_roundtrip [x23] ltac:(discriminate)))). apply (bool_decide_eq_true_1 _). reflexivity.
Defined.

(** ** Properties of the presence log *)

(** What an event says of the presence. *)
Definition presence_of (event : Device.Event) : option (bool * ErrorClass) :=
  match Device.Kind event with
  | PortOpened => Some (true, EvErrorClass event)
  | PortLost | PortOpenFailed => Some (false, EvErrorClass event)
  | _ => None
  end.

Definition is_presence (event : Device.Event) : bool := match presence_of event with Some _ => true | None => false end.

(** The record of an event that changes it. *)
Definition presence_record (event : Device.Event) : log_record :=
  match Device.Kind event with
  | PortOpened => log_at LevelInfo "device present" []
  | _ => log_at LevelWarn "device absent" [("error_class", AttrString (EvErrorClass event)); ("error", AttrString (ErrorText event))]
  end.

Definition state_of (p : presenceLog) : option (bool * ErrorClass) := if known p then Some (present p, class p) else None.

Lemma presence_report_spec event p :
  report event p =
  match presence_of event with
  | None => (p, None)
  | Some (now, c) => if bool_decide (state_of p = Some (now, c)) then (p, None) else (mkPresence true now c, Some (presence_record event))
  end.
Proof.
  unfold report, presence_of, presence_record, set_presence, state_of.
  assert (H : forall now, known p && bool_decide (present p = now) && bool_decide (class p = EvErrorClass event) =
    bool_decide ((if known p then Some (present p, class p) else None) = Some (now, EvErrorClass event))).
  { intros now. destruct (known p); [|symmetry; apply bool_decide_eq_false_2; discriminate]. cbn [andb]. rewrite <-bool_decide_and. apply bool_decide_ext. intuition congruence. }
  destruct (Device.Kind event); try done; rewrite H; by case_bool_decide.
Qed.

(** A run of events that say the same, by its first. *)
Abbreviation run := (Device.Event * list Device.Event)%type.
Definition run_events (r : run) : list Device.Event := r.1 :: r.2.
Definition says (r : run) : option (bool * ErrorClass) := presence_of r.1.

(** No run says what the one before says, from [last] on. *)
Fixpoint changing (last : option (bool * ErrorClass)) (runs : list run) : Prop :=
  match runs with
  | [] => True
  | r :: runs' => says r <> last /\ changing (says r) runs'
  end.

Lemma report_all_runs events p :
  exists more runs,
    List.filter is_presence events = (more ++ flat_map run_events runs)%list /\
    Forall (fun e => presence_of e = state_of p) more /\
    Forall (fun r : run => Forall (fun e => presence_of e = says r) r.2) runs /\
    changing (state_of p) runs /\ report_all events p = map (fun r => presence_record r.1) runs.
Proof.
  revert p. induction events as [|event events IH]; intros p; [by exists [], []|].
  cbn [List.filter report_all]. rewrite presence_report_spec. unfold is_presence at 1. destruct (presence_of event) as [[now c]|] eqn:Hsays.
  - case_bool_decide as Hsame.
    + destruct (IH p) as (more & runs & Hf & Hmore & Hruns & Hch & Hr). exists (event :: more), runs. rewrite Hf. split_and!; try done.
      constructor; [by rewrite Hsame|done].
    + destruct (IH (mkPresence true now c)) as (more & runs & Hf & Hmore & Hruns & Hch & Hr).
      exists [], ((event, more) :: runs). rewrite Hf, Hr. split_and!; try done.
      * constructor; [|done]. unfold says. cbn [fst snd]. rewrite Hsays. exact Hmore.
      * cbn [changing]. unfold says at 1 2. cbn [fst]. rewrite Hsays. split; [congruence|exact Hch].
  - destruct (IH p) as (more & runs & Hf & Hmore & Hruns & Hch & Hr). exists more, runs. by rewrite Hf, Hr.
Qed.

(** The events that say whether the device is there fall into runs that
    each say the same, presence and error class, and something else than the run
    before; the log has one record for each run, of its first event, and no
    other. *)
Theorem presence_logged_once events :
  exists runs,
    List.filter is_presence events = flat_map run_events runs /\
    Forall (fun r : run => Forall (fun e => presence_of e = says r) r.2) runs /\
    changing None runs /\
    report_all events no_presence = map (fun r => presence_record r.1) runs.
Proof.
  destruct (report_all_runs events no_presence) as (more & runs & Hf & Hmore & Hruns & Hch & Hr).
  assert (more = []) as ->; [|by exists runs].
  destruct more as [|e more]; [done|]. apply Forall_cons in Hmore as [He _]. cbn in He.
  assert (Hin : e ∈ List.filter is_presence events) by (rewrite Hf; apply list_elem_of_here).
  apply list_elem_of_In, filter_In in Hin as [_ Hp]. unfold is_presence in Hp. by rewrite He in Hp.
Qed.

(** ** What probe prints is what the agent publishes *)

Lemma find_device_ok devices d : NoDup (map dc_ID devices) -> d ∈ devices -> find_device (dc_ID d) devices = Ok d.
Proof.
  induction devices as [|d' devices IH]; [by intros _ ?%elem_of_nil|]. cbn [map find_device].
  intros [Hnew Hids]%NoDup_cons [->|Hin]%elem_of_cons; [by rewrite bool_decide_eq_true_2|].
  rewrite bool_decide_eq_false_2; [by rewrite IH|]. intros Heq. apply Hnew. apply list_elem_of_fmap. by exists d.
Qed.

(** The readings printed, one by one. *)
Lemma print_loop_lookup builder device asJSON seq ids frames k frame :
  frames !! k = Some frame ->
  print_loop builder device asJSON seq ids frames !! k =
    Some (printReading (build_Rx builder device (uint64 (seq + Z.of_nat (S k))) (Raw frame) (FrameAt frame) (ids + k)).1 (Raw frame) asJSON).
Proof.
  revert seq ids k. induction frames as [|f frames IH]; intros seq ids [|k] Hk; [done|done| |].
  - injection Hk as ->. cbn. by rewrite Nat.add_0_r.
  - cbn [print_loop]. change (build_Rx builder device (uint64 (seq + 1)) (Raw f) (FrameAt f) ids)
      with ((build_Rx builder device (uint64 (seq + 1)) (Raw f) (FrameAt f) ids).1, S ids). cbn iota beta.
    cbn in Hk |- *. rewrite (IH _ _ _ Hk). replace (S ids + k)%nat with (ids + S k)%nat by lia.
    replace (uint64 (uint64 (seq + 1) + Z.of_nat (S k))) with (uint64 (seq + Z.of_nat (S (S k)))); [done|].
    unfold uint64. rewrite Zplus_mod_idemp_l. f_equal. lia.
Qed.

(** The command lines of the two commands, for one file and one device. *)
Definition run_options (path : string) : ConfigLoad.Options :=
  mkOptions path (mkOverrides None None None None None None None None None None) false.
Definition probe_args (path id : string) : list string := ["--config"; path; "--device"; id; "--json"].

Lemma probe_flags_nodup : NoDup (map fst probe_flags).
Proof. apply (bool_decide_eq_true_1 _). vm_compute. reflexivity. Qed.

Lemma probeFlagSet_good : good_names probeFlagSet.
Proof. apply declared_good; [apply probe_flags_nodup|vm_compute; reflexivity]. Qed.

Definition probing (path id : string) : probeFlags :=
  mkProbeFlags false path id "" 9600 8 ParityNone StopBitsOne "" 4096 (200 * Millisecond) true 0 "info" false.

Ltac list_member := repeat first [apply list_elem_of_here|apply list_elem_of_further].

Lemma probe_args_parse path id :
  parseCommandLine probeFlagSet (probe_args path id) probe_defaults =
  Ok (mkParsed (probing path id) {["config"; "device"; "json"]} []).
Proof.
  pose proof (parseCommandLine_spec probeFlagSet (probe_args path id) probe_defaults (probing path id) {["config"; "device"; "json"]} probeFlagSet_good) as H.
  apply H. exists [("config", path); ("device", id); ("json", "true")].
  split_and!.
  - apply (spelled_next _ "--" "config" _ path (["--device"; id; "--json"]) _ _ ltac:(by right) ltac:(apply declared_lookup; [apply probe_flags_nodup|list_member]) eq_refl).
    apply (spelled_next _ "--" "device" _ id ["--json"] _ _ ltac:(by right) ltac:(apply declared_lookup; [apply probe_flags_nodup|list_member]) eq_refl).
    apply (spelled_bool _ "--" "json" _ [] _ _ ltac:(by right) ltac:(apply declared_lookup; [apply probe_flags_nodup|list_member]) eq_refl).
    constructor.
  - vm_compute. reflexivity.
  - cbn. set_solver.
Qed.

(** A reading depends on the ids only by its own. *)
Lemma build_Rx_id agent newID device seq frame at_ i j :
  newID i = newID j ->
  (build_Rx (mkBuilder agent newID) device seq frame at_ i).1 = (build_Rx (mkBuilder agent newID) device seq frame at_ j).1.
Proof. intros H. unfold build_Rx, build_header. cbn [Wire.newID fst]. by rewrite H. Qed.

Section ProbeRun.
Context (next : string -> nat -> next_document).
Context (strict_decode : string -> Config -> Config * option strict_error).
Context (decode_entry : Node -> Config.Device -> result string Config.Device).
Context (url_parse : string -> result string parsed_url) (stat : string -> result string file_info).
Context (open : string -> result open_error opened) (goos : string) (environ : list string) (version hostname : string).
Context (ports : result string (list string)) (read_dir : string -> dir_answer) (eval_symlinks : string -> result string string).

Definition loads (opts : ConfigLoad.Options) : loaded := Load next strict_decode decode_entry url_parse stat open goos opts environ.
Definition probe_command (args : list string) : probe_outcome := probeCommand loads version hostname ports read_dir eval_symlinks args.

(** Without validation the same configuration is loaded. *)
Lemma loads_skipped path cfg warnings : loads (run_options path) = Loaded cfg warnings -> loads (probe_options path) = Loaded cfg [].
Proof.
  unfold loads, Load, load_decoded. destruct (rejectLegacyEnvironment environ); [|done].
  change (choose_path goos (probe_options path)) with (choose_path goos (run_options path)).
  destruct (choose_path goos (run_options path) (envMap environ)) as [file explicit].
  destruct (open file) as [[body ended]|err]; [|by destruct (oe_NotExist err && negb explicit)].
  destruct (match ended with Some err => _ | None => _ end) as [decoded|?|]; [|done..].
  destruct (applyEnv (with_File file decoded) (envMap environ)) as [cfg' [|]]; [|done].
  cbn [opt_SkipValidate run_options probe_options opt_Overrides]. destruct (Validate _ _ _ _) as [ws [|]]; [|done]. by intros [= -> _].
Qed.

Lemma ignored_flags_spec set_flags fromConfig name :
  name ∈ ignored_flags set_flags fromConfig <->
  name ∈ set_flags /\ (if fromConfig then name ∈ deviceSettingFlags else name = "config").
Proof.
  unfold ignored_flags. rewrite list_elem_of_In, filter_In, <-list_elem_of_In, elem_of_sort_strings, elem_of_elements.
  destruct fromConfig; by rewrite bool_decide_eq_true.
Qed.

Lemma probe_args_ignored : ignored_flags {["config"; "device"; "json"]} true = [].
Proof.
  apply elem_of_nil_inv. intros name (Hset & Hin)%ignored_flags_spec. revert Hset. unfold deviceSettingFlags in Hin.
  repeat (apply elem_of_cons in Hin as [->|Hin]; [set_solver|]). by apply elem_of_nil in Hin.
Qed.

Lemma probe_log_ok path id identity : exists log, probe_log hostname (probing path id) identity = Ok log.
Proof. eexists. unfold probe_log. by rewrite (New_ok _ LevelInfo). Qed.

(** C39: for a configuration that run loads, probe --device with one of its
    devices and --json opens it as run does, and of its k-th reading prints the
    message that run publishes for it: under the same id, the payload on the
    device's rx topic is the JSON of the printed message. *)
Theorem probe_prints_published path cfg warnings newID started station agentTopics built subscriptions index d dev reader :
  loads (run_options path) = Loaded cfg warnings ->
  buildDevices cfg station = Ok (built, subscriptions) ->
  cfg_Devices cfg !! index = Some d -> built !! index = Some (dev, reader) ->
  let core := core_options version cfg newID agentTopics (map fst built) started in
  exists warnings' identity log reader',
    probe_command (probe_args path (dc_ID d)) = Probing warnings' d identity log reader' (probing path (dc_ID d)) /\
    reader_of d reader /\ reader_of d reader' /\
    forall frames k frame, frames !! k = Some frame ->
      exists message, printReadings newID d identity true frames !! k = Some (PrintedJSON message) /\
      forall id, newID id = newID k ->
        Pipeline.reading_publish core dev id (uint64 (Z.of_nat (S k))) frame =
        Pipeline.mkPublish Pipeline.PublishRx (Topics.rx (Pipeline.Topics_ dev)) (encode message) (Some (dc_MessageExpiry d)).
Proof.
  intros Hload Hbuild Hd Hdev core. pose proof (loads_skipped _ _ _ Hload) as Hskipped.
  destruct (Load_validated _ _ _ _ _ _ _ _ _ _ _ Hload eq_refl) as (Hvalidate & _).
  pose proof (Validate_ok _ _ _ _ _ Hvalidate) as Hv. destruct (cv_devices _ _ Hv) as [_ Hvalid]. destruct (cv_once _ _ Hv) as [Hids _].
  pose proof (list_elem_of_lookup_2 _ _ _ Hd) as Hin. rewrite Forall_forall in Hvalid. pose proof (Hvalid _ Hin) as Hdv.
  pose proof (Validate_device_alone _ _ _ _ _ _ Hvalidate Hin) as Halone.
  destruct (newSerialReader_ok d false Hdv) as (reader' & Hreader' & Hof').
  destruct (probe_log_ok path (dc_ID d) (Wire.agent (Pipeline.builder core))) as [log Hlog].
  destruct (build_loop_ok station (lo_LogPayloads (cfg_Logging cfg)) ([], ∅) (cfg_Devices cfg)) as (built' & Hbuild' & Hbuilt); [by apply Forall_forall|].
  unfold buildDevices in Hbuild. rewrite Hbuild' in Hbuild. injection Hbuild as -> _.
  destruct (Forall2_lookup_lr _ _ _ _ _ _ Hbuilt Hd Hdev) as (topics & routes & _ & _ & Hcore & Hof). cbn [fst snd] in Hcore, Hof. subst dev.
  assert (Hne : bool_decide (dc_ID d = "") = false).
  { apply bool_decide_eq_false_2. intros Heq. destruct (dv_id d Hdv) as [Hsegment _]. by rewrite Heq in Hsegment. }
  destruct (ValidateDevice d) as [problems warnings'] eqn:Hprobe. cbn in Halone. subst problems.
  exists warnings', (Wire.agent (Pipeline.builder core)), log, reader'. split_and!; [|done|done|].
  - unfold probe_command, probeCommand. rewrite probe_args_parse. cbn [values pf_list probing actual]. unfold probe_device.
    cbn [pf_device pf_path probing]. rewrite Hne. cbn [negb andb orb].
    rewrite (bool_decide_eq_true_2 ("" = "")) by done. cbn [negb]. unfold checkProbeSources. rewrite probe_args_ignored. cbn [negb andb].
    unfold probedDevice. rewrite Hne. cbn [pf_config probing]. rewrite Hskipped, (find_device_ok _ _ Hids Hin), Hprobe.
    change (mkAgent _ _ _ _ _) with (Wire.agent (Pipeline.builder core)). rewrite Hlog. change (pf_logPayloads (probing path (dc_ID d))) with false. by rewrite Hreader'.
  - intros frames k frame Hk.
    set (m := (build_Rx (mkBuilder (Wire.agent (Pipeline.builder core)) newID) (wire_device d) (uint64 (0 + Z.of_nat (S k))) (Raw frame) (FrameAt frame) (0 + k)).1).
    exists (rx_json m). split; [exact (print_loop_lookup _ _ _ _ _ _ _ _ Hk)|].
    intros id Hid. unfold Pipeline.reading_publish.
    change (Pipeline.builder core) with (mkBuilder (Wire.agent (Pipeline.builder core)) newID).
    rewrite (build_Rx_id _ newID _ _ _ _ id k Hid). reflexivity.
Qed.
End ProbeRun.

(** ** Which settings probe takes *)

Section ProbeSettings.
Context (load : ConfigLoad.Options -> loaded) (version hostname : string).
Context (ports : result string (list string)) (read_dir : string -> dir_answer) (eval_symlinks : string -> result string string).

Lemma checkProbeSources_none set_flags fromConfig separator :
  checkProbeSources set_flags fromConfig separator = None ->
  (forall name, name ∈ set_flags -> if fromConfig : bool then name ∉ deviceSettingFlags else name <> "config") /\
  (fromConfig = false -> separator <> "").
Proof.
  unfold checkProbeSources. destruct (ignored_flags set_flags fromConfig) as [|name l] eqn:Hignored; [|done].
  intros Hsep. split.
  - intros name Hset. pose proof (ignored_flags_spec set_flags fromConfig name) as Hspec. rewrite Hignored, elem_of_nil in Hspec.
    destruct fromConfig; tauto.
  - intros ->. cbn in Hsep. by case_bool_decide.
Qed.

(** Where the settings of a probed device come from. *)
Definition from_config (v : probeFlags) (dev : Config.Device) (identity : Agent) : Prop :=
  exists cfg warnings, load (probe_options (pf_config v)) = Loaded cfg warnings /\ dev ∈ cfg_Devices cfg /\ dc_ID dev = pf_device v /\
    identity = mkAgent (id_Project (cfg_Identity cfg)) (id_Site (cfg_Identity cfg)) (id_Station (cfg_Identity cfg))
      (id_Instance (cfg_Identity cfg)) version.

Definition from_flags (v : probeFlags) (dev : Config.Device) (identity : Agent) : Prop :=
  exists separator, parseSeparator (pf_separator v) = Ok separator /\ dev = with_Separator (string_of_bytes separator) (flagged v) /\
    identity = mkAgent "" "" "" "probe" version.

Lemma find_device_in id devices d : find_device id devices = Ok d -> d ∈ devices /\ dc_ID d = id.
Proof.
  induction devices as [|d' devices IH]; [done|]. cbn. case_bool_decide as Hid.
  - intros [= ->]. split; [apply list_elem_of_here|done].
  - destruct (find_device id devices) as [d''|]; [|done]. intros [= ->]. destruct (IH eq_refl). split; [by apply list_elem_of_further|done].
Qed.

Lemma probedDevice_source v dev identity :
  probedDevice load version (pf_config v) (pf_device v) (flagged v) (pf_separator v) = Ok (dev, identity) ->
  if bool_decide (pf_device v = "") then from_flags v dev identity else from_config v dev identity.
Proof.
  unfold probedDevice. destruct (bool_decide (pf_device v = "")).
  - destruct (parseSeparator (pf_separator v)) as [separator|] eqn:Hsep; [|done]. intros [= <- <-]. by exists separator.
  - destruct (load (probe_options (pf_config v))) as [cfg warnings| |] eqn:Hload; [|done..].
    destruct (find_device (pf_device v) (cfg_Devices cfg)) as [d|] eqn:Hfind; [|done]. intros [= <- <-].
    apply find_device_in in Hfind as [Hin Hid]. by exists cfg, warnings.
Qed.

(** C40: when probe opens a device, its command line spells settings of declared
    flags; exactly one of --device and --path is among what counts, and no flag
    was ignored: with --device the settings are the configuration's and no
    device setting was given, and with --path they are the flags' on the
    defaults, with the separator given and no configuration file. The device
    passes every check that a configured one does, and is opened as it says. *)
Theorem probe_ignores_nothing args warnings dev identity log reader v :
  probeCommand load version hostname ports read_dir eval_symlinks args = Probing warnings dev identity log reader v ->
  exists settings,
    spelled probeFlagSet args settings [] /\ set_all probeFlagSet settings probe_defaults = Some v /\ pf_list v = false /\
    ((pf_device v <> "" /\ pf_path v = "" /\ Forall (fun setting => setting.1 ∉ deviceSettingFlags) settings /\ from_config v dev identity) \/
     (pf_device v = "" /\ pf_path v <> "" /\ pf_separator v <> "" /\ Forall (fun setting => setting.1 <> "config") settings /\
      from_flags v dev identity)) /\
    device_valid dev /\ reader_of dev reader.
Proof.
  unfold probeCommand. destruct (parseCommandLine probeFlagSet args probe_defaults) as [[values0 seen left0]|] eqn:Hparse; [|done]. cbn [values actual].
  assert (left0 = []) as ->.
  { unfold parseCommandLine in Hparse. destruct (Parse _ _ _ _) as [p|[]]; try done. destruct (left_args p) eqn:Hl; [|done].
    injection Hparse as ->. exact Hl. }
  apply (parseCommandLine_spec _ _ _ _ _ probeFlagSet_good) in Hparse as (settings & Hspelled & Hall & Hseen).
  destruct (pf_list values0) eqn:Hlist; [by destruct (listDevices _ _ _)|]. unfold probe_device.
  destruct (_ || _) eqn:Hone; [done|]. destruct (checkProbeSources _ _ _) eqn:Hsources; [done|].
  apply checkProbeSources_none in Hsources as [Hused Hsep].
  destruct (probedDevice _ _ _ _ _ _) as [[dev0 identity0]|] eqn:Hprobed; [|done]. apply probedDevice_source in Hprobed.
  destruct (ValidateDevice dev0) as [[|] warnings0] eqn:Hvalidate; [|done].
  destruct (probe_log _ _ _) as [log0|]; [|done]. destruct (newSerialReader dev0 _) as [reader0|] eqn:Hreader; [|done].
  intros [= -> -> -> -> -> ->]. exists settings. split_and!; [done|done|done| | |].
  - assert (Hset : forall setting, setting ∈ settings -> setting.1 ∈ seen)
      by (intros setting Hin; rewrite Hseen; apply elem_of_list_to_set, list_elem_of_fmap; eauto).
    destruct (bool_decide (pf_device v = "")) eqn:Hdevice; cbn [negb andb orb] in *.
    + right. apply bool_decide_eq_true in Hdevice. rewrite orb_false_r in Hone. apply bool_decide_eq_false in Hone.
      split_and!; try done; [by apply Hsep|]. apply Forall_forall. intros setting Hin. exact (Hused _ (Hset _ Hin)).
    + left. apply bool_decide_eq_false in Hdevice. apply negb_false_iff, bool_decide_eq_true in Hone.
      split_and!; try done. apply Forall_forall. intros setting Hin. exact (Hused _ (Hset _ Hin)).
  - unfold ValidateDevice in Hvalidate. apply validateDevices_ok in Hvalidate as (_ & Hvalid & _). by rewrite Forall_singleton in Hvalid.
  - unfold ValidateDevice in Hvalidate. apply validateDevices_ok in Hvalidate as (_ & Hvalid & _). rewrite Forall_singleton in Hvalid.
    destruct (newSerialReader_ok dev (pf_logPayloads v) Hvalid) as (reader1 & Heq & Hof). rewrite Hreader in Heq. by injection Heq as ->.
Qed.
End ProbeSettings.

Definition small_loads : ConfigLoad.Options -> loaded :=
  loads (one_document small_file) small_settings entry_with_id broker_url private_file files "linux" [].

Lemma probe_prints_published_witness :
  exists d identity log reader warnings message,
    probe_command (one_document small_file) small_settings entry_with_id broker_url private_file files "linux" [] "2.2.0" "host"
      (Ok []) (fun _ => DirMissing) (fun _ => Err "") (probe_args "" "scanner") = Probing warnings d identity log reader (probing "" "scanner") /\
    printReadings (fun _ => "id") d identity true [mkFrame "scanner" [x41] unix_epoch] !! 0 = Some (PrintedJSON message).
Proof.
  destruct small_devices as (d & dev & reader & subscriptions & Hd & Hid & Hbuild).
  destruct (probe_prints_published (one_document small_file) small_settings entry_with_id broker_url private_file files "linux" [] "2.2.0" "host"
    (Ok []) (fun _ => DirMissing) (fun _ => Err "") "" small_cfg [] (fun _ => "id") 0 small_station (mkAgentTopics "") _ _ 0 d dev reader
    small_file_loads Hbuild Hd eq_refl) as (warnings & identity & log & reader' & Hprobe & _ & _ & Hprints).
  destruct (Hprints [mkFrame "scanner" [x41] unix_epoch] 0 _ eq_refl) as (message & Hm & _). rewrite Hid in Hprobe.
  exists d, identity, log, reader', warnings, message. split; [exact Hprobe|exact Hm].
Defined.

Lemma probe_ignores_nothing_witness :
  exists warnings dev identity log reader v,
    probeCommand small_loads "2.2.0" "host" (Ok []) (fun _ => DirMissing) (fun _ => Err "") ["--path=/dev/ttyACM0"; "-separator"; "\r\n"; "--baud"; "0x2580"] =
      Probing warnings dev identity log reader v /\
    device_valid dev /\ from_flags "2.2.0" v dev identity.
Proof.
  destruct (probeCommand small_loads "2.2.0" "host" (Ok []) (fun _ => DirMissing) (fun _ => Err "")
    ["--path=/dev/ttyACM0"; "-separator"; "\r\n"; "--baud"; "0x2580"]) as [lines|ws err|warnings dev identity log reader v] eqn:Hprobe.
  1, 2: vm_compute in Hprobe; discriminate.
  exists warnings, dev, identity, log, reader, v.
  destruct (probe_ignores_nothing small_loads "2.2.0" "host" (Ok []) (fun _ => DirMissing) (fun _ => Err "") _ _ _ _ _ _ _ Hprobe)
    as (settings & _ & Hall & _ & [(Hdevice & _)|(_ & _ & _ & _ & Hflags)] & Hvalid & _); [|by split_and!].
  exfalso. apply Hdevice. revert Hprobe. vm_compute. by intros [= _ _ _ _ _ <-].
Defined.
