(* ===== verification/Command.v ===== *)
(** * The program and its commands: cmd/skuhus-device-agent/main.go, run.go and
      validate.go, and internal/version

    Which command runs, what validate prints, and the exit code. The texts of
    warnings, problems and errors, and the texts of usage, are arguments. *)
From S2P Require Import Prelude GoLib Strconv Duration Topics Wire Logging Device Pipeline Core Flags Probe.
From S2P Require Import Config ConfigValidate Credentials ConfigLoad Mqtt Build.
#[local] Open Scope string_scope.

(** ** The build identity *)

Definition version := "2.2.0".

Record buildinfo := mkBuildinfo { commit : string; date : string }.
Definition placeholders : buildinfo := mkBuildinfo "none" "unknown".

(** [Set]: an empty argument is ignored. *)
Definition Set_buildinfo (buildCommit buildDate : string) (info : buildinfo) : buildinfo :=
  mkBuildinfo (if bool_decide (buildCommit = "") then commit info else buildCommit) (if bool_decide (buildDate = "") then date info else buildDate).

Definition String_buildinfo (info : buildinfo) : string := "skuhus-device-agent " +:+ version +:+ " commit=" +:+ commit info +:+ " built=" +:+ date info.

(** ** What a command does *)

(** [flag.ErrHelp], [errReported], an error that is [errUsage], and any other. *)
Inductive command_error := Help | Reported | Usage (what : string) | Failed (what : string).

(** A command comes to its end, or panics. *)
Inductive ending := Ended (err : option command_error) | Panicked.

Record done_ := mkDone { stdout : list string; stderr : list string; ended : ending }.

(** ** The settings as validate shows them *)

(** A value of the configuration, as reflection sees it. *)
Inductive setting_value :=
  | VString (s : string)
  | VDuration (d : duration)
  | VInt (z : Z)
  | VBool (b : bool)
  | VFloat (f : SpecFloat.spec_float)
  | VStrings (l : list string)
  | VStruct (fields : list (string * setting_value)).

(** The sections by their yaml tags; the file's path has the tag that hides it. *)
Definition backoff_section (b : Config.Backoff) : setting_value :=
  VStruct [("enabled", VBool (bo_Enabled b)); ("max", VDuration (bo_Max b)); ("jitter", VFloat (bo_Jitter b))].

Definition identity_section (i : Identity) : list (string * setting_value) :=
  [("project", VString (id_Project i)); ("site", VString (id_Site i)); ("station", VString (id_Station i)); ("instance", VString (id_Instance i))].

Definition broker_section (url : string) (b : Broker) : list (string * setting_value) :=
  [("url", VString url); ("credentials_file", VString (br_CredentialsFile b)); ("ca_file", VString (br_CAFile b));
   ("insecure", VBool (br_Insecure b)); ("keepalive", VDuration (br_Keepalive b)); ("connect_timeout", VDuration (br_ConnectTimeout b));
   ("reconnect_interval", VDuration (br_ReconnectInterval b)); ("reconnect_backoff", backoff_section (br_ReconnectBackoff b))].

Definition device_section (d : Config.Device) : list (string * setting_value) :=
  [("id", VString (dc_ID d)); ("kind", VString (dc_Kind d)); ("path", VString (dc_Path d)); ("baud", VInt (dc_Baud d));
   ("data_bits", VInt (dc_DataBits d)); ("parity", VString (dc_Parity d)); ("stop_bits", VString (dc_StopBits d));
   ("separator", VString (dc_Separator d)); ("max_frame_bytes", VInt (dc_MaxFrameBytes d));
   ("inter_char_timeout", VDuration (dc_InterCharTimeout d)); ("message_expiry", VDuration (dc_MessageExpiry d));
   ("device_type", VString (dc_DeviceType d)); ("reopen_interval", VDuration (dc_ReopenInterval d));
   ("reopen_backoff", backoff_section (dc_ReopenBackoff d)); ("tx_open_attempts", VInt (dc_TxOpenAttempts d));
   ("tx_open_interval", VDuration (dc_TxOpenInterval d)); ("tx_chunk_bytes", VInt (dc_TxChunkBytes d));
   ("tx_remembered_ids", VInt (dc_TxRememberedIDs d));
   ("broadcast_groups", VStruct [("project", VStrings (bg_Project (dc_BroadcastGroups d))); ("site", VStrings (bg_Site (dc_BroadcastGroups d)));
                                 ("station", VStrings (bg_Station (dc_BroadcastGroups d)))])].

Definition delivery_section (d : Delivery) : list (string * setting_value) :=
  [("publish_timeout", VDuration (de_PublishTimeout d)); ("buffer_size", VInt (de_BufferSize d)); ("drain_timeout", VDuration (de_DrainTimeout d));
   ("tx_intake_size", VInt (de_TxIntakeSize d))].

Definition status_section (s : Status) : list (string * setting_value) :=
  [("keepalive_interval", VDuration (st_KeepaliveInterval s)); ("missed_keepalives", VInt (st_MissedKeepalives s));
   ("event_buffer_size", VInt (st_EventBufferSize s))].

Definition logging_section (l : Config.Logging) : list (string * setting_value) :=
  [("level", VString (lo_Level l)); ("log_payloads", VBool (lo_LogPayloads l)); ("file", VString (lo_File l)); ("max_size_mb", VInt (lo_MaxSizeMB l));
   ("keep", VInt (lo_Keep l)); ("stdout", VBool (lo_Stdout l))].

Section Settings.
(** How fmt and strconv write a value that holds no other and is no duration. *)
Context (render : setting_value -> string).

(** [settingPairs] and [settingValue]. *)
Fixpoint settingValue (value : setting_value) : string :=
  match value with
  | VDuration d => Duration_String d
  | VStruct fields =>
    "{" +:+ String.concat ", " ((fix go (fields : list (string * setting_value)) : list string :=
       match fields with
       | [] => []
       | (name, value) :: fields' => (name +:+ ": " +:+ settingValue value) :: go fields'
       end) fields) +:+ "}"
  | _ => render value
  end.

Definition settingPairs (section : list (string * setting_value)) (separator : string) : list string :=
  map (fun field => field.1 +:+ separator +:+ settingValue field.2) section.

Definition describeSettings (section : list (string * setting_value)) : string := String.concat " " (settingPairs section "=").
End Settings.

(** ** validate *)

Definition countOf (count : nat) (noun : string) : string :=
  if (count =? 1)%nat then "1 " +:+ noun else fmt_d (Z.of_nat count) +:+ " " +:+ noun +:+ "s".

Definition newline_char : Ascii.ascii := Ascii.ascii_of_nat 10.

(** [strings.ReplaceAll] of a newline by one with an indent. *)
Fixpoint indent_lines (s : string) : string :=
  match s with
  | "" => ""
  | String.String c s' => if bool_decide (c = newline_char) then String.String c ("    " +:+ indent_lines s') else String.String c (indent_lines s')
  end.

Section Commands.
(** How values, warnings, problems and errors are written; what [url.Redacted]
    gives, none where the URL does not parse; and what the flag package prints
    of a command line it refuses. *)
Context (render : setting_value -> string) (warning_text : Warning -> string) (problem_text : load_problem -> string).
Context (topic_text : topic_error -> string) (usage_error_text : command_line_error -> string) (flag_output : command_line_error -> list string).
Context (url_redacted : string -> option string).
(** [config.Load] on this host, with its environment. *)
Context (load : ConfigLoad.Options -> loaded).

Definition RedactedURL (broker : Broker) : string := default (br_URL broker) (url_redacted (br_URL broker)).

Definition refused (err : command_line_error) : done_ :=
  mkDone [] (flag_output err) (Ended (Some match err with HelpWanted => Help | _ => Usage (usage_error_text err) end)).

Definition warning_line (warning : Warning) : string := "warning: " +:+ warning_text warning.

(** [reportInvalid]: an error of [Load] is always a [LoadError]. *)
Definition reportInvalid (err : LoadError) : list string :=
  let file := if bool_decide (le_Path err = "") then "the configuration" else le_Path err in
  ("ERROR: " +:+ file +:+ " is not valid: " +:+ countOf (length (le_Problems err)) "problem") ::
  map (fun problem => "  - " +:+ indent_lines (problem_text problem)) (le_Problems err).

(** The lines of one device, and what stops them. *)
Definition topics_line (topics : DeviceTopics) : string :=
  "      topics rx " +:+ rx topics +:+ " status " +:+ status topics +:+ " tx " +:+ tx topics.
Definition group_line (route : TxRoute) : string :=
  "      broadcast group " +:+ TxScope_text (Scope route) +:+ " " +:+ Group route +:+ " tx " +:+ Topic route.

Definition device_line (d : Config.Device) : string := "    " +:+ describeSettings render (device_section d).

Definition device_report (station : StationTopics) (d : Config.Device) : list string * option topic_error :=
  match DeviceTopicsOf station (dc_ID d) with
  | Err err => ([device_line d], Some err)
  | Ok topics =>
    match broadcastGroupRoutes station (dc_BroadcastGroups d) with
    | Err err => ([device_line d; topics_line topics], Some err)
    | Ok routes => (device_line d :: topics_line topics :: map group_line routes, None)
    end
  end.

Fixpoint devices_report (station : StationTopics) (devices : list Config.Device) : list string * option topic_error :=
  match devices with
  | [] => ([], None)
  | d :: devices' =>
    match device_report station d with
    | (lines, Some err) => (lines, Some err)
    | (lines, None) => let (lines', err) := devices_report station devices' in ((lines ++ lines')%list, err)
    end
  end.

(** What comes before the devices, and after them. *)
Definition report_head (cfg : Config) (warnings : list Warning) (agentTopics : AgentTopics) : list string :=
  ["OK: " +:+ cfg_File cfg +:+ " is valid" +:+
     (match warnings with [] => "" | _ => ", with " +:+ countOf (length warnings) "warning" +:+ " above" end);
   "  identity       " +:+ describeSettings render (identity_section (cfg_Identity cfg));
   "  agent status   " +:+ agentStatus agentTopics;
   "  broker         " +:+ describeSettings render (broker_section (RedactedURL (cfg_Broker cfg)) (cfg_Broker cfg));
   "  devices        " +:+ fmt_d (Z.of_nat (length (cfg_Devices cfg)))].

Definition report_tail (cfg : Config) : list string :=
  ["  delivery       " +:+ describeSettings render (delivery_section (cfg_Delivery cfg));
   "  status         " +:+ describeSettings render (status_section (cfg_Status cfg));
   "  logging        " +:+ describeSettings render (logging_section (cfg_Logging cfg))].

Definition validateCommand (args : list string) : done_ :=
  match parseCommandLine newConfigFlags args no_flags with
  | Err err => refused err
  | Ok p =>
    match load (loadOptions (values p)) with
    | LoadPanics => mkDone [] [] Panicked
    | NotLoaded warnings err => mkDone [] (map warning_line warnings ++ reportInvalid err)%list (Ended (Some Reported))
    | Loaded cfg warnings =>
      let stderr := map warning_line warnings in
      let identity := cfg_Identity cfg in
      match NewStationTopics (id_Project identity) (id_Site identity) (id_Station identity) with
      | Err err => mkDone [] stderr (Ended (Some (Failed (topic_text err))))
      | Ok station =>
        match AgentTopicsOf station (id_Instance identity) with
        | Err err => mkDone [] stderr (Ended (Some (Failed (topic_text err))))
        | Ok agentTopics =>
          match devices_report station (cfg_Devices cfg) with
          | (lines, Some err) => mkDone (report_head cfg warnings agentTopics ++ lines)%list stderr (Ended (Some (Failed (topic_text err))))
          | (lines, None) => mkDone (report_head cfg warnings agentTopics ++ lines ++ report_tail cfg)%list stderr (Ended None)
          end
        end
      end
    end
  end.

(** ** run, probe and main *)

(** What the agent leaves for a loaded configuration: its error, if it did not
    run to its end ([runAgent] of Build.v, and the core's run). *)
Context (run_agent : Config -> list Warning -> option string).

(** [LoadError.Error]. *)
Context (load_error_text : LoadError -> string).

Definition runCommand (args : list string) : done_ :=
  match parseCommandLine newConfigFlags args no_flags with
  | Err err => refused err
  | Ok p =>
    match load (loadOptions (values p)) with
    | LoadPanics => mkDone [] [] Panicked
    | NotLoaded warnings err => mkDone [] (map warning_line warnings) (Ended (Some (Failed (load_error_text err))))
    | Loaded cfg warnings => mkDone [] [] (Ended (Failed <$> run_agent cfg warnings))
    end
  end.

(** [probeCommand] of Probe.v, with what it prints while it reads, and the error
    that ends it. *)
Context (probe : list string -> probe_outcome) (reading : probe_outcome -> list string * option string) (probe_error_text : probe_error -> string).

Definition probe_ended (args : list string) : done_ :=
  match probe args with
  | Listed lines => mkDone lines [] (Ended None)
  | ProbeRefused _ (ProbeUsage (CommandLine err)) => refused err
  | ProbeRefused warnings (ProbeUsage err as e) => mkDone [] (map warning_line warnings) (Ended (Some (Usage (probe_error_text e))))
  | ProbeRefused _ ConfigPanics => mkDone [] [] Panicked
  | ProbeRefused warnings err => mkDone [] (map warning_line warnings) (Ended (Some (Failed (probe_error_text err))))
  | Probing warnings _ _ _ _ _ as o => let (lines, err) := reading o in mkDone lines (map warning_line warnings) (Ended (Failed <$> err))
  end.

Definition exitFailure : Z := 1.
Definition exitUsage : Z := 2.

(** What a program leaves: its output, its errors, and its exit code. A panic
    exits 2 as well. *)
Record exited := mkExited { out : list string; err_out : list string; code : Z }.

Definition exit_with (d : done_) : exited :=
  match ended d with
  | Panicked => mkExited (stdout d) (stderr d) 2
  | Ended None | Ended (Some Help) => mkExited (stdout d) (stderr d) 0
  | Ended (Some Reported) => mkExited (stdout d) (stderr d) exitFailure
  | Ended (Some (Usage what)) => mkExited (stdout d) (stderr d ++ ["error: " +:+ what])%list exitUsage
  | Ended (Some (Failed what)) => mkExited (stdout d) (stderr d ++ ["error: " +:+ what])%list exitFailure
  end.

Context (usage : string) (quoted : string -> string) (info : buildinfo).

(** [main], over the arguments after the program's name. *)
Definition main (args : list string) : exited :=
  match args with
  | [] => mkExited [] [usage] exitUsage
  | command :: rest =>
    if bool_decide (command = "run") then exit_with (runCommand rest)
    else if bool_decide (command = "validate") then exit_with (validateCommand rest)
    else if bool_decide (command = "probe") then exit_with (probe_ended rest)
    else if bool_decide (command ∈ ["version"; "--version"; "-version"]) then mkExited [String_buildinfo info] [] 0
    else if bool_decide (command ∈ ["help"; "-h"; "--help"]) then mkExited [usage] [] 0
    else mkExited [] ["unknown command " +:+ quoted command; ""; usage] exitUsage
  end.
End Commands.

(** ** What validate is to print

    Every setting there is, as an operator reads it: by the name it has in the
    file, each value as it is rendered and a duration as it is written. *)

Section Shown.
Context (render : setting_value -> string) (url_redacted : string -> option string).

Let text (s : string) : string := render (VString s).
Let number (z : Z) : string := render (VInt z).
Let switch (b : bool) : string := render (VBool b).
Let names (l : list string) : string := render (VStrings l).

Definition shown_backoff (b : Config.Backoff) : string :=
  "{" +:+ String.concat ", " ["enabled: " +:+ switch (bo_Enabled b); "max: " +:+ Duration_String (bo_Max b); "jitter: " +:+ render (VFloat (bo_Jitter b))] +:+ "}".

Definition shown_groups (g : BroadcastGroups) : string :=
  "{" +:+ String.concat ", " ["project: " +:+ names (bg_Project g); "site: " +:+ names (bg_Site g); "station: " +:+ names (bg_Station g)] +:+ "}".

Definition shown_identity (i : Identity) : list string :=
  ["project=" +:+ text (id_Project i); "site=" +:+ text (id_Site i); "station=" +:+ text (id_Station i); "instance=" +:+ text (id_Instance i)].

Definition shown_broker (b : Broker) : list string :=
  ["url=" +:+ text (match url_redacted (br_URL b) with Some redacted => redacted | None => br_URL b end);
   "credentials_file=" +:+ text (br_CredentialsFile b); "ca_file=" +:+ text (br_CAFile b); "insecure=" +:+ switch (br_Insecure b);
   "keepalive=" +:+ Duration_String (br_Keepalive b); "connect_timeout=" +:+ Duration_String (br_ConnectTimeout b);
   "reconnect_interval=" +:+ Duration_String (br_ReconnectInterval b); "reconnect_backoff=" +:+ shown_backoff (br_ReconnectBackoff b)].

Definition shown_device (d : Config.Device) : list string :=
  ["id=" +:+ text (dc_ID d); "kind=" +:+ text (dc_Kind d); "path=" +:+ text (dc_Path d); "baud=" +:+ number (dc_Baud d);
   "data_bits=" +:+ number (dc_DataBits d); "parity=" +:+ text (dc_Parity d); "stop_bits=" +:+ text (dc_StopBits d);
   "separator=" +:+ text (dc_Separator d); "max_frame_bytes=" +:+ number (dc_MaxFrameBytes d);
   "inter_char_timeout=" +:+ Duration_String (dc_InterCharTimeout d); "message_expiry=" +:+ Duration_String (dc_MessageExpiry d);
   "device_type=" +:+ text (dc_DeviceType d); "reopen_interval=" +:+ Duration_String (dc_ReopenInterval d);
   "reopen_backoff=" +:+ shown_backoff (dc_ReopenBackoff d); "tx_open_attempts=" +:+ number (dc_TxOpenAttempts d);
   "tx_open_interval=" +:+ Duration_String (dc_TxOpenInterval d); "tx_chunk_bytes=" +:+ number (dc_TxChunkBytes d);
   "tx_remembered_ids=" +:+ number (dc_TxRememberedIDs d); "broadcast_groups=" +:+ shown_groups (dc_BroadcastGroups d)].

Definition shown_delivery (d : Delivery) : list string :=
  ["publish_timeout=" +:+ Duration_String (de_PublishTimeout d); "buffer_size=" +:+ number (de_BufferSize d);
   "drain_timeout=" +:+ Duration_String (de_DrainTimeout d); "tx_intake_size=" +:+ number (de_TxIntakeSize d)].

Definition shown_status (s : Status) : list string :=
  ["keepalive_interval=" +:+ Duration_String (st_KeepaliveInterval s); "missed_keepalives=" +:+ number (st_MissedKeepalives s);
   "event_buffer_size=" +:+ number (st_EventBufferSize s)].

Definition shown_logging (l : Config.Logging) : list string :=
  ["level=" +:+ text (lo_Level l); "log_payloads=" +:+ switch (lo_LogPayloads l); "file=" +:+ text (lo_File l);
   "max_size_mb=" +:+ number (lo_MaxSizeMB l); "keep=" +:+ number (lo_Keep l); "stdout=" +:+ switch (lo_Stdout l)].

Definition line (title : string) (settings : list string) : string := title +:+ String.concat " " settings.

(** The lines of a device as it is built: its settings, and the topics and the
    groups it has. *)
Definition device_shown (d : Config.Device) (dev : CoreDevice) : list string :=
  line "    " (shown_device d) ::
  ("      topics rx " +:+ rx (Topics_ dev) +:+ " status " +:+ status (Topics_ dev) +:+ " tx " +:+ tx (Topics_ dev)) ::
  map (fun route => "      broadcast group " +:+ TxScope_text (Scope route) +:+ " " +:+ Group route +:+ " tx " +:+ Topic route)
    (Pipeline.BroadcastGroups dev).

Definition number_of (count : nat) (noun nouns : string) : string := if decide (count = 1) then "1 " +:+ noun else fmt_d (Z.of_nat count) +:+ " " +:+ nouns.

Definition validate_shows (cfg : Config) (warnings : list Warning) (agentStatus : string) (devs : list CoreDevice) : list string :=
  ["OK: " +:+ cfg_File cfg +:+ " is valid" +:+
     (if decide (warnings = []) then "" else ", with " +:+ number_of (length warnings) "warning" "warnings" +:+ " above");
   line "  identity       " (shown_identity (cfg_Identity cfg));
   "  agent status   " +:+ agentStatus;
   line "  broker         " (shown_broker (cfg_Broker cfg));
   "  devices        " +:+ fmt_d (Z.of_nat (length (cfg_Devices cfg)))] ++
  concat (zip_with device_shown (cfg_Devices cfg) devs) ++
  [line "  delivery       " (shown_delivery (cfg_Delivery cfg));
   line "  status         " (shown_status (cfg_Status cfg));
   line "  logging        " (shown_logging (cfg_Logging cfg))].
End Shown.

(** The lines of a text, which go under the first line's indent. *)
Fixpoint text_lines (s : string) : list string :=
  match s with
  | "" => [""]
  | String.String c s' =>
    if bool_decide (c = newline_char) then "" :: text_lines s'
    else match text_lines s' with first :: rest => String.String c first :: rest | [] => [] end
  end.

Lemma text_lines_some s : exists first rest, text_lines s = first :: rest.
Proof. induction s as [|c s (first & rest & IH)]; cbn; [by eexists _, _|]. rewrite IH. case_bool_decide; by eexists _, _. Qed.

Lemma indent_lines_spec s : indent_lines s = String.concat (String.String newline_char "    ") (text_lines s).
Proof.
  induction s as [|c s IH]; [done|]. cbn [indent_lines text_lines]. destruct (text_lines_some s) as (first & rest & Hlines).
  rewrite Hlines in *. case_bool_decide as Hc; rewrite IH; [by subst c|]. by destruct rest.
Qed.

Lemma countOf_spec count noun nouns : noun +:+ "s" = nouns -> countOf count noun = number_of count noun nouns.
Proof. intros <-. unfold countOf, number_of. destruct (Nat.eqb_spec count 1); case_decide; done. Qed.

(** ** What validate says *)

Section Verdict.
Context (next : string -> nat -> next_document).
Context (strict_decode : string -> Config -> Config * option strict_error).
Context (decode_entry : Node -> Config.Device -> result string Config.Device).
Context (url_parse : string -> result string parsed_url) (stat : string -> result string file_info).
Context (open : string -> result open_error opened) (goos : string) (environ : list string).
Context (render : setting_value -> string) (warning_text : Warning -> string) (problem_text : load_problem -> string).
Context (topic_text : topic_error -> string) (usage_error_text : command_line_error -> string) (flag_output : command_line_error -> list string).
Context (url_redacted : string -> option string) (run_agent : Config -> list Warning -> option string) (load_error_text : LoadError -> string).
Context (probe : list string -> probe_outcome) (reading : probe_outcome -> list string * option string) (probe_error_text : probe_error -> string).
Context (usage : string) (quoted : string -> string) (info : buildinfo).

Abbreviation load := (loads next strict_decode decode_entry url_parse stat open goos environ).
Abbreviation program := (main render warning_text problem_text topic_text usage_error_text flag_output url_redacted load
  run_agent load_error_text probe reading probe_error_text usage quoted info).

Lemma devices_report_built station logPayloads st devices :
  Forall device_valid devices ->
  exists built, build_loop station logPayloads st devices = Ok (built, (foldl subscribe_device st (map fst built)).1) /\
    devices_report render station devices = (concat (zip_with (device_shown render) devices (map fst built)), None).
Proof.
  intros Hall. revert st. induction Hall as [|d devices Hd _ IH]; intros st; [by exists []|].
  destruct (buildDevice_ok station logPayloads d Hd) as ([dev reader] & Hb & topics & routes & Htopics & Hroutes & Hdev & _).
  destruct (IH (subscribe_device st dev)) as (built & Heq & Hreport). cbn [fst] in Hdev.
  exists ((dev, reader) :: built). cbn [build_loop]. rewrite Hb, Heq. split; [done|].
  cbn [devices_report]. unfold device_report. rewrite Htopics, Hroutes, Hreport. by rewrite Hdev.
Qed.

(** What a configuration that loads is shown as. *)
Lemma report_shown cfg warnings agentTopics lines devs :
  lines = concat (zip_with (device_shown render) (cfg_Devices cfg) devs) ->
  (report_head render url_redacted cfg warnings agentTopics ++ lines ++ report_tail render cfg)%list =
    validate_shows render url_redacted cfg warnings (agentStatus agentTopics) devs.
Proof.
  intros ->. unfold validate_shows, report_head. rewrite (countOf_spec _ "warning" "warnings") by done.
  by destruct warnings; [rewrite decide_True by done|rewrite decide_False by done].
Qed.

(** C37: validate's verdict, its exit code and its output for every command line.
    One that is refused prints what the flag package says of it and, unless it
    asked for help, the error, on stderr, and exits 2, or 0 for help. A
    configuration that does not load exits 1, with nothing on stdout, and on
    stderr its warnings and then every problem, in order, under the file's name
    and their number, the lines of a problem indented. One that loads exits 0,
    with its warnings on stderr, and stdout shows every setting of it by its name
    in the file, and the topics of the agent and of each device that run would
    build from it: building them cannot fail. *)
Theorem validate_verdict args :
  let exited := program ("validate" :: args) in
  match parseCommandLine newConfigFlags args no_flags with
  | Err HelpWanted => exited = mkExited [] (flag_output HelpWanted) 0
  | Err err => exited = mkExited [] (flag_output err ++ ["error: " +:+ usage_error_text err])%list 2
  | Ok p =>
    match load (loadOptions (values p)) with
    | LoadPanics => out exited = [] /\ code exited = 2%Z
    | NotLoaded warnings err =>
        exited = mkExited [] (map (fun warning => "warning: " +:+ warning_text warning) warnings ++
          ("ERROR: " +:+ (if decide (le_Path err = "") then "the configuration" else le_Path err) +:+ " is not valid: " +:+
             number_of (length (le_Problems err)) "problem" "problems") ::
          map (fun problem => "  - " +:+ String.concat (String.String newline_char "    ") (text_lines (problem_text problem))) (le_Problems err))%list 1
    | Loaded cfg warnings =>
        exists station agentTopics built subscriptions,
          NewStationTopics (id_Project (cfg_Identity cfg)) (id_Site (cfg_Identity cfg)) (id_Station (cfg_Identity cfg)) = Ok station /\
          AgentTopicsOf station (id_Instance (cfg_Identity cfg)) = Ok agentTopics /\
          buildDevices cfg station = Ok (built, subscriptions) /\
          exited = mkExited (validate_shows render url_redacted cfg warnings (agentStatus agentTopics) (map fst built))
            (map (fun warning => "warning: " +:+ warning_text warning) warnings) 0
    end
  end.
Proof.
  cbn zeta. unfold main. rewrite (bool_decide_eq_false_2 ("validate" = "run")), (bool_decide_eq_true_2 ("validate" = "validate")) by done.
  unfold validateCommand. destruct (parseCommandLine newConfigFlags args no_flags) as [p|err]; [|by destruct err].
  destruct (load (loadOptions (values p))) as [cfg warnings|warnings err|] eqn:Hload; [| |done].
  2: { unfold exit_with, reportInvalid. cbn [ended stdout stderr]. rewrite (countOf_spec _ "problem" "problems") by done.
       do 3 f_equal; [by case_decide; case_bool_decide|]. apply map_ext. intros problem. by rewrite indent_lines_spec. }
  destruct (Load_validated _ _ _ _ _ _ _ _ _ _ _ Hload eq_refl) as (Hvalidate & merged_ & Hmerged).
  pose proof (Validate_ok _ _ _ _ _ Hvalidate) as Hv. destruct (cv_levels _ _ Hv) as (Hp & Hs & Hn & Hg).
  assert (Hinstance : id_Instance (cfg_Identity cfg) <> "")
    by (rewrite Hmerged in Hn |- *; apply derived_instance; intros Heq; by rewrite Heq in Hn).
  destruct (NewStationTopics_valid _ _ _ Hp Hs Hn Hg) as [station Hstation].
  destruct (AgentTopicsOf_valid _ _ _ _ _ Hstation (cv_instance _ _ Hv Hinstance)) as (agentTopics & Hagent & _).
  destruct (cv_devices _ _ Hv) as [_ Hvalid].
  destruct (devices_report_built station (lo_LogPayloads (cfg_Logging cfg)) ([], ∅) _ Hvalid) as (built & Hbuild & Hreport).
  rewrite Hstation, Hagent, Hreport. do 4 eexists. split; [done|]. split; [exact Hagent|]. split; [exact Hbuild|].
  by rewrite (report_shown _ _ _ _ (map fst built)).
Qed.
End Verdict.
