(* ===== verification/MqttConn.v ===== *)
(** * What the development tools share: dev/internal/mqttconn

    One connection to a broker and one subscription, and the JSON objects that
    arrive on it. What paho and the broker answer is an argument; texts of errors
    are left out. *)
From S2P Require Import Prelude GoLib Wire Json ReadTx.
#[local] Open Scope string_scope.

(** ** The connection *)

Definition keepaliveSeconds : Z := 30.
Definition reasonCodeFailure : Z := 128.

Record connect_packet := mkConnect { con_ClientID : string; con_KeepAlive : Z; con_CleanStart : bool; con_User : option (string * string) }.

Inductive conn_error :=
  | NotReached (broker err : string)
  | ConnectFailed (err : string)
  | ConnectRefused (reason : Z)
  | SubscribeRefused (filter : string) (reason : Z)
  | SubscribeFailed (filter err : string).

(** [Connect], of what dialling and the broker answer. *)
Definition Connect (broker username password clientID : string) (dial : result string unit) (connack : result string Z) :
    result conn_error connect_packet :=
  match dial with
  | Err err => Err (NotReached broker err)
  | Ok _ =>
    let packet := mkConnect clientID keepaliveSeconds true (if bool_decide (username = "") then None else Some (username, password)) in
    match connack with
    | Err err => Err (ConnectFailed err)
    | Ok reason => if (reason =? 0)%Z then Ok packet else Err (ConnectRefused reason)
    end
  end.

(** [Subscribe], of the SUBACK's reasons and the error, of which paho can give
    both. *)
Definition Subscribe (filter : string) (suback : option (list Z)) (err : option string) : option conn_error :=
  match suback, err with
  | Some [reason], _ => if (reasonCodeFailure <=? reason)%Z then Some (SubscribeRefused filter reason) else SubscribeFailed filter <$> err
  | _, Some err => Some (SubscribeFailed filter err)
  | _, None => None
  end.

(** ** Messages that arrive *)

(** [json.Unmarshal] into a map. *)
Definition unmarshal_object (received : bytes) : option (gmap string json) :=
  '(v, rest) ← decode received;
  if bool_decide (skip_space rest = []) then names_of v else None.

(** A field of a message that is this text. *)
Definition text_is (message : gmap string json) (name text : string) : bool :=
  match message !! name with Some (JString s) => bool_decide (s = bytes_of_string text) | _ => false end.

Lemma unmarshal_encoded v : writable v -> (height v <= maxNestingDepth)%Z -> unmarshal_object (encode v) = names_of v.
Proof. intros Hw Hh. unfold unmarshal_object. by rewrite <-(app_nil_r (encode v)), decode_encode. Qed.

(** A subscription that is taken was not refused and met no error. *)
Lemma Subscribe_taken filter suback err :
  Subscribe filter suback err = None -> err = None /\ forall reason, suback = Some [reason] -> (reason < reasonCodeFailure)%Z.
Proof. unfold Subscribe. destruct suback as [[|r [|]]|], err; repeat case_match; try done; intros _; (split; [done|]); intros reason [= <-]; lia. Qed.
