(* ===== verification/SendTx.v ===== *)
(** * A sender of tx: dev/sendtx/main.go

    The counterpart of the agent's intake: what it publishes is a tx the agent
    takes, and it hears the results of every device that does. Texts of errors
    are left out, and so are the times on its lines. *)
From S2P Require Import Prelude GoLib Strconv Base64 Topics Wire Json Literal ReadTx Encode MqttConn.
#[local] Open Scope string_scope.

(** ** The bytes to write *)

Inductive escape_error :=
  | NeedsTwoHexDigits (at_ : nat)
  | BadHexDigits (digits : bytes)
  | UnknownEscape (c : byte).

Definition and_then (b : byte) (rest : result escape_error bytes) : result escape_error bytes :=
  match rest with Ok out => Ok (b :: out) | Err err => Err err end.

(** [unescape], of the text from [index] on. *)
Fixpoint unescape_from (index : nat) (text : bytes) : result escape_error bytes :=
  match text with
  | [] => Ok []
  | b :: rest =>
    match rest with
    | c :: rest' =>
      if negb (bool_decide (b = x5c)) then and_then b (unescape_from (S index) rest)
      else match c with
      | x72 => and_then x0d (unescape_from (2 + index) rest')
      | x6e => and_then x0a (unescape_from (2 + index) rest')
      | x74 => and_then x09 (unescape_from (2 + index) rest')
      | x5c => and_then x5c (unescape_from (2 + index) rest')
      | x78 =>
        match rest' with
        | h1 :: h2 :: rest'' =>
          match unhex h1, unhex h2 with
          | Some v1, Some v2 => and_then (byte_of (16 * v1 + v2)) (unescape_from (4 + index) rest'')
          | _, _ => Err (BadHexDigits [h1; h2])
          end
        | _ => Err (NeedsTwoHexDigits index)
        end
      | _ => Err (UnknownEscape c)
      end
    | [] => Ok [b]
    end
  end.

Definition unescape (text : string) : result escape_error bytes := unescape_from 0 (bytes_of_string text).

(** [hex.DecodeString]. *)
Fixpoint hex_decode (text : bytes) : option bytes :=
  match text with
  | [] => Some []
  | [_] => None
  | h1 :: h2 :: rest => v1 ← unhex h1; v2 ← unhex h2; out ← hex_decode rest; Some (byte_of (16 * v1 + v2) :: out)
  end.

(** [strings.ReplaceAll] of each space by nothing. *)
Definition without_spaces (text : bytes) : bytes := List.filter (fun b => negb (bool_decide (b = x20))) text.

Inductive payload_error := GiveExactlyOne | NotRead (err : string) | NotHex | NotUnescaped (err : escape_error).

Definition payload (ReadFile : string -> result string bytes) (text file hexData : string) : result payload_error bytes :=
  let given := length (List.filter (fun value => negb (bool_decide (value = ""))) [text; file; hexData]) in
  if negb (given =? 1)%nat then Err GiveExactlyOne
  else if negb (bool_decide (file = "")) then match ReadFile file with Ok data => Ok data | Err err => Err (NotRead err) end
  else if negb (bool_decide (hexData = "")) then
    match hex_decode (without_spaces (bytes_of_string hexData)) with Some data => Ok data | None => Err NotHex end
  else match unescape text with Ok data => Ok data | Err err => Err (NotUnescaped err) end.

(** ** Its id *)

(** Of 16 random bytes: the version and the variant are set. *)
Definition uuid_bits (randomBytes : bytes) : bytes :=
  alter (fun b => byte_of (Z.lor (Z.land (byte_Z b) 63) 128)) 8%nat
    (alter (fun b => byte_of (Z.lor (Z.land (byte_Z b) 15) 64)) 6%nat randomBytes).

Definition newUUID (rand_Read : result string bytes) : result string string :=
  match rand_Read with
  | Err err => Err err
  | Ok randomBytes =>
    let hexDigits := hex_encode (uuid_bits randomBytes) in
    Ok (String.substring 0 8 hexDigits +:+ "-" +:+ String.substring 8 4 hexDigits +:+ "-" +:+ String.substring 12 4 hexDigits +:+ "-" +:+
        String.substring 16 4 hexDigits +:+ "-" +:+ String.substring 20 12 hexDigits)
  end.

(** ** What it listens to *)

Definition cut_suffix (suffix text : bytes) : option bytes :=
  let rest := (length text - length suffix)%nat in
  if (length suffix <=? length text)%nat && bool_decide (drop rest text = suffix) then Some (take rest text) else None.

Definition HasSuffix (text suffix : string) : bool := bool_decide (is_Some (cut_suffix (bytes_of_string suffix) (bytes_of_string text))).

Definition TrimSuffix (text suffix : string) : string :=
  match cut_suffix (bytes_of_string suffix) (bytes_of_string text) with Some rest => string_of_bytes rest | None => text end.

(** The filter of a tx's results, and whether its topic is a group's. *)
Definition resultsFilter (topic : string) : string * bool :=
  let ls := levels topic in
  let group_at := fun k => bool_decide (ls !! k = Some "group") in
  if (length ls =? 5)%nat && group_at 2%nat then (joinLevels (take 2 ls) +:+ "/+/+/+/status", true)
  else if (length ls =? 6)%nat && group_at 3%nat then (joinLevels (take 3 ls) +:+ "/+/+/status", true)
  else if (length ls =? 7)%nat && group_at 4%nat then (joinLevels (take 4 ls) +:+ "/+/status", true)
  else (TrimSuffix topic "/tx" +:+ "/status", false).

(** The callback on what arrives: the results of tx [id]. *)
Definition result_of (id : string) (received : bytes) : option (gmap string json) :=
  message ← unmarshal_object received;
  if text_is message "kind" "tx_result" && text_is message "tx_id" id then Some message else None.

(** ** What it sends *)

(** The body's fields, in the order in which a map's keys are written. *)
Definition body (id sender : string) (data : bytes) : json :=
  JObject [(json_bytes "id", JString (bytes_of_string id)); (json_bytes "raw_b64", JString (b64_encode data));
           (json_bytes "schema", JNumber (decimal 2)); (json_bytes "sender", JString (bytes_of_string sender))].

(** The expiry in seconds, rounded up, in 32 bits; none when it is not
    positive. *)
Definition expiry_seconds (expiry : duration) : option Z :=
  if (0 <? expiry)%Z then Some (Z.quot (int64 (expiry + Second - 1)) Second mod 2 ^ 32)%Z else None.

Record tx_packet := mkTxPacket { txp_Topic : string; txp_QoS : Z; txp_Payload : bytes; txp_ContentType : string; txp_Expiry : option Z }.

Definition tx_publish (topic id sender : string) (data : bytes) (expiry : duration) : tx_packet :=
  mkTxPacket topic 1 (encode (body id sender data)) "application/json" (expiry_seconds expiry).

Inductive run_error :=
  | ConnError (err : conn_error)
  | NotPublished (topic err : string)
  | PublishRefused (topic : string) (reason : Z)
  | NoFinalResult (wait : duration).

(** The verdict on the publish, of the PUBACK's reason and the error. *)
Definition publish_verdict (topic : string) (puback : option Z) (err : option string) : option run_error :=
  match err, puback with
  | Some err, _ => Some (NotPublished topic err)
  | None, Some reason => if (reasonCodeFailure <=? reason)%Z then Some (PublishRefused topic reason) else None
  | None, None => None
  end.

(** ** The results *)

Inductive heard := Heard (result : gmap string json) | DeadlinePassed.

(** A line for a result, with its device when it is a group's; and the line
    that ends a group's wait. *)
Inductive line :=
  | ResultLine (shown : option string) (state code text detail : option json)
  | Summary (devices : nat) (wait : duration).

Section Results.
(** [%s] of what is no string. *)
Context (other_text : option json -> string).

Definition fmt_s (v : option json) : string := match v with Some (JString s) => string_of_bytes s | _ => other_text v end.
Definition device_of (result : gmap string json) : string := fmt_s (result !! "station") +:+ "/" +:+ fmt_s (result !! "device_id").
Definition is_final (result : gmap string json) : bool :=
  text_is result "state" "written" || text_is result "state" "failed" || text_is result "state" "rejected".

(** The loop, to its end: the lines, and the error; [None] while it waits. *)
Fixpoint result_loop (group : bool) (wait : duration) (finished : gset string) (inputs : list heard) : list line * option (option run_error) :=
  match inputs with
  | [] => ([], None)
  | Heard result :: inputs' =>
    let shown := ResultLine (if group then Some (device_of result) else None) (result !! "state") (result !! "code") (result !! "text") (result !! "detail") in
    if is_final result then
      if negb group then ([shown], Some None)
      else let (lines, ended) := result_loop group wait ({[device_of result]} ∪ finished) inputs' in (shown :: lines, ended)
    else let (lines, ended) := result_loop group wait finished inputs' in (shown :: lines, ended)
  | DeadlinePassed :: _ =>
    if group && negb (bool_decide (finished = ∅)) then ([Summary (size finished) wait], Some None)
    else ([], Some (Some (NoFinalResult wait)))
  end.

(** ** [run] *)

(** What the broker answers, in turn, and what is heard. *)
Record answers := mkAnswers {
  ans_dial : Prelude.result string unit; ans_connack : Prelude.result string Z;
  ans_suback : option (list Z) * option string; ans_puback : option Z * option string; ans_heard : list heard;
}.

Inductive action :=
  | Connected (packet : connect_packet)
  | Subscribed (filter : string) (qos : Z)
  | Published (packet : tx_packet)
  | PrintedSent (id topic : string) (count : nat)
  | Printed (l : line)
  | Disconnected (reason : Z).

(** The actions, and how it ends, [None] while it waits. The deferred
    disconnect is the last action of a connection. *)
Definition run (broker username password topic id sender : string) (data : bytes) (expiry wait : duration) (env : answers) :
    list action * option (option run_error) :=
  match Connect broker username password ("sendtx-" +:+ id) (ans_dial env) (ans_connack env) with
  | Err err => ([], Some (Some (ConnError err)))
  | Ok packet =>
    let (filter, group) := resultsFilter topic in
    let opened := [Connected packet; Subscribed filter 1] in
    match Subscribe filter (fst (ans_suback env)) (snd (ans_suback env)) with
    | Some err => ((opened ++ [Disconnected 0])%list, Some (Some (ConnError err)))
    | None =>
      let sent := (opened ++ [Published (tx_publish topic id sender data expiry)])%list in
      match publish_verdict topic (fst (ans_puback env)) (snd (ans_puback env)) with
      | Some err => ((sent ++ [Disconnected 0])%list, Some (Some err))
      | None =>
        let (lines, ended) := result_loop group wait ∅ (ans_heard env) in
        ((sent ++ PrintedSent id topic (length data) :: map Printed lines ++ if ended then [Disconnected 0] else [])%list, ended)
      end
    end
  end.
End Results.

(** ** [main], after its flags *)

Inductive main_error := PayloadError (err : payload_error) | NotATxTopic (topic : string) | NoUUID (err : string).

(** The bytes and the id that are sent. *)
Definition prepare (ReadFile : string -> result string bytes) (rand_Read : result string bytes) (topic text file hexData id : string) :
    result main_error (bytes * string) :=
  match payload ReadFile text file hexData with
  | Err err => Err (PayloadError err)
  | Ok data =>
    if negb (HasSuffix topic "/tx") then Err (NotATxTopic topic)
    else if bool_decide (id = "") then match newUUID rand_Read with Ok id => Ok (data, id) | Err err => Err (NoUUID err) end
    else Ok (data, id)
  end.

(** ** The bytes that are meant *)

(** The ways to write a byte: itself, unless it is a backslash, by its name, or
    in hexadecimal. *)
Definition escapes : list (byte * byte) := [(x72, x0d); (x6e, x0a); (x74, x09); (x5c, x5c)].

Inductive escaped : byte -> bytes -> Prop :=
  | escaped_plain b : b <> x5c -> escaped b [b]
  | escaped_name c b : (c, b) ∈ escapes -> escaped b [x5c; c]
  | escaped_hex h1 h2 v1 v2 : unhex h1 = Some v1 -> unhex h2 = Some v2 -> escaped (byte_of (16 * v1 + v2)) [x5c; x78; h1; h2].

Lemma unescape_escaped b s rest index :
  escaped b s ->
  unescape_from index (s ++ rest) = and_then b (unescape_from (length s + index) rest).
Proof.
  intros H. destruct H as [b Hb|c b Hc|h1 h2 v1 v2 H1 H2].
  - cbn [app length unescape_from]. destruct rest as [|c rest]; [done|]. by rewrite bool_decide_eq_false_2 by done.
  - assert ((c = x72 /\ b = x0d) \/ (c = x6e /\ b = x0a) \/ (c = x74 /\ b = x09) \/ (c = x5c /\ b = x5c)) by (unfold escapes in Hc; set_solver).
    naive_solver.
  - cbn [app length unescape_from]. rewrite bool_decide_eq_true_2 by done. cbn [negb]. by rewrite H1, H2.
Qed.

(** Whatever way each byte is written, and with a backslash at the end or
    not, what is sent are the bytes. *)
Lemma unescape_meant data spellings tail :
  Forall2 escaped data spellings -> tail = [] \/ tail = [x5c] ->
  unescape (string_of_bytes (concat spellings ++ tail)) = Ok (data ++ tail)%list.
Proof.
  intros H Htail. unfold unescape. rewrite bytes_of_string_of_bytes. generalize 0 as index.
  induction H as [|b s data spellings Hb _ IH]; intros index; [by destruct Htail as [-> | ->]|].
  cbn [concat]. rewrite <-app_assoc, (unescape_escaped b) by done. by rewrite IH.
Qed.

(** ** The tx is taken *)

Lemma body_writable id sender data :
  utf8_valid (bytes_of_string id) = true -> utf8_valid (bytes_of_string sender) = true -> writable (body id sender data).
Proof.
  intros Hid Hsender. cbn [body writable]. split_and!; try done; [|by eexists]. apply utf8_valid_ascii, b64_encode_ascii.
Qed.

Lemma body_taken uuid_parse id sender data :
  uuid_parse id = true -> String.length id = hyphenatedUUIDLength ->
  utf8_valid (bytes_of_string id) = true -> utf8_valid (bytes_of_string sender) = true -> sender <> "" -> data <> [] ->
  ReadTx uuid_parse (encode (body id sender data)) = (mkTxRef id sender, data, None).
Proof.
  intros Huuid Hlen Hid Hsender Hne Hdata. rewrite <-(app_nil_r (encode _)).
  eapply read_fields with (rest := []); try done.
  - by apply decode_encode; [apply body_writable|..].
  - reflexivity.
  - generalize (JString (b64_encode data)), (JString (bytes_of_string sender)), (JString (bytes_of_string id)). intros. vm_compute. reflexivity.
  - reflexivity.
  - reflexivity.
  - reflexivity.
  - reflexivity.
Qed.

(** ** Its id is a version 4 UUID *)

Definition hexadecimal (b : byte) : bool := GoLib.between 48 57 b || GoLib.between 97 102 b.

Definition variant (b : byte) : bool := GoLib.between 56 57 b || GoLib.between 97 98 b.

(** 32 digits in the groups of a UUID, the version 4 and the variant of
    RFC 4122. *)
Definition uuid4_at (i : nat) (b : byte) : bool :=
  match i with
  | 8%nat | 13%nat | 18%nat | 23%nat => bool_decide (b = x2d)
  | 14%nat => bool_decide (b = x34)
  | 19%nat => variant b
  | _ => hexadecimal b
  end.

Definition is_uuid4 (text : string) : bool :=
  let l := bytes_of_string text in
  (length l =? 36)%nat && forallb id (imap uuid4_at l).

Definition digit_char (p : byte -> bool) (s : string) : Prop := exists c, s = String.String c "" /\ p (Ascii.byte_of_ascii c) = true.

(** What holds of every byte is seen by looking at each. *)
Lemma hex_digits b : digit_char hexadecimal (hex_digit (byte_Z b / 16)) /\ digit_char hexadecimal (hex_digit (byte_Z b mod 16)).
Proof. destruct b; split; (eexists; split; [reflexivity|reflexivity]). Qed.

Lemma hex_version b : digit_char (fun b => bool_decide (b = x34)) (hex_digit (byte_Z (byte_of (Z.lor (Z.land (byte_Z b) 15) 64)) / 16)).
Proof. destruct b; (eexists; split; [reflexivity|reflexivity]). Qed.

Lemma hex_variant b : digit_char variant (hex_digit (byte_Z (byte_of (Z.lor (Z.land (byte_Z b) 63) 128)) / 16)).
Proof. destruct b; (eexists; split; [reflexivity|reflexivity]). Qed.

Ltac spell b := let c1 := fresh "c" in let c2 := fresh "c" in let E1 := fresh in let E2 := fresh in
  destruct (hex_digits b) as [(c1 & E1 & ?) (c2 & E2 & ?)]; rewrite E1, E2; clear E1 E2.

Lemma newUUID_uuid4 randomBytes : length randomBytes = 16%nat -> exists id, newUUID (Ok randomBytes) = Ok id /\ is_uuid4 id = true.
Proof.
  intros Hlen. eexists. split; [reflexivity|].
  destruct randomBytes as [|b0 [|b1 [|b2 [|b3 [|b4 [|b5 [|b6 [|b7 [|b8 [|b9 [|b10 [|b11 [|b12 [|b13 [|b14 [|b15 [|? ?]]]]]]]]]]]]]]]]]; try done.
  change (uuid_bits _) with [b0; b1; b2; b3; b4; b5; byte_of (Z.lor (Z.land (byte_Z b6) 15) 64); b7; byte_of (Z.lor (Z.land (byte_Z b8) 63) 128);
    b9; b10; b11; b12; b13; b14; b15].
  pose proof (hex_version b6) as H6. pose proof (hex_variant b8) as H8.
  set (v6 := byte_of (Z.lor (Z.land (byte_Z b6) 15) 64)) in *. set (v8 := byte_of (Z.lor (Z.land (byte_Z b8) 63) 128)) in *. clearbody v6 v8.
  cbn [hex_encode]. destruct H6 as (c6 & E6 & H6), H8 as (c8 & E8 & H8).
  spell b0; spell b1; spell b2; spell b3; spell b4; spell b5; spell b7; spell b9; spell b10; spell b11; spell b12; spell b13; spell b14; spell b15.
  destruct (hex_digits v6) as [_ (d6 & E6' & ?)], (hex_digits v8) as [_ (d8 & E8' & ?)]. rewrite E6, E8, E6', E8'.
  cbv [String.append String.substring].
  cbv [is_uuid4 bytes_of_string String.list_byte_of_string String.list_ascii_of_string map length imap uuid4_at forallb Datatypes.id compose Nat.eqb].
  repeat match goal with H : _ = true |- _ => rewrite H; clear H end.
  reflexivity.
Qed.

Lemma uuid4_ascii i b : uuid4_at i b = true -> GoLib.between 0 127 b = true.
Proof.
  intros H. assert (Hcases : bool_decide (b = x2d) = true \/ bool_decide (b = x34) = true \/ variant b = true \/ hexadecimal b = true)
    by (unfold uuid4_at in H; repeat case_match; auto).
  unfold variant, hexadecimal, GoLib.between in *. rewrite !bool_decide_eq_true in Hcases. destruct Hcases as [-> | [-> | [Hv | Hv]]]; [done..|lia|lia].
Qed.

Lemma imap_ascii (f : nat -> byte -> bool) l :
  (forall i b, f i b = true -> GoLib.between 0 127 b = true) -> forallb id (imap f l) = true -> forallb (GoLib.between 0 127) l = true.
Proof.
  revert f. induction l as [|b l IH]; intros f Hf; [done|]. cbn. intros [Hb Hl]%andb_prop. rewrite (Hf 0%nat b Hb). cbn.
  apply (IH (f ∘ S)); [intros i; apply Hf|done].
Qed.

Lemma uuid4_text id : is_uuid4 id = true -> String.length id = hyphenatedUUIDLength /\ is_text id.
Proof.
  unfold is_uuid4. intros [Hlen Hall]%andb_prop. apply Nat.eqb_eq in Hlen. rewrite string_length_bytes in Hlen.
  split; [done|]. apply utf8_valid_ascii. eapply imap_ascii; [apply uuid4_ascii|exact Hall].
Qed.

(** ** Where its results arrive *)

Lemma cut_suffix_app text suffix : cut_suffix suffix (text ++ suffix) = Some text.
Proof.
  unfold cut_suffix. rewrite length_app. replace (length text + length suffix - length suffix)%nat with (length text) by lia.
  rewrite (proj2 (Nat.leb_le _ _)), drop_app_length, take_app_length, bool_decide_eq_true_2 by (done || lia). done.
Qed.

Lemma bytes_of_string_app a b : bytes_of_string (a +:+ b) = (bytes_of_string a ++ bytes_of_string b)%list.
Proof.
  unfold bytes_of_string, String.list_byte_of_string. rewrite <-map_app. f_equal.
  induction a as [|c a IH]; [done|]. rewrite str_app_cons. cbn [String.list_ascii_of_string app]. by rewrite IH.
Qed.

Lemma TrimSuffix_app text suffix : TrimSuffix (text +:+ suffix) suffix = text.
Proof. unfold TrimSuffix. rewrite bytes_of_string_app, cut_suffix_app. apply string_of_bytes_of_string. Qed.

Lemma join_last ls last : ls <> [] -> joinLevels (ls ++ [last]) = joinLevels ls +:+ "/" +:+ last.
Proof.
  intros Hne. induction ls as [|a ls IH]; [done|]. destruct ls as [|b ls]; [done|].
  change (joinLevels ((a :: b :: ls) ++ [last])) with (a +:+ "/" +:+ joinLevels ((b :: ls) ++ [last])). rewrite IH by done.
  change (joinLevels (a :: b :: ls)) with (a +:+ "/" +:+ joinLevels (b :: ls)). by rewrite <-!str_app_assoc.
Qed.

(** A device's results arrive on its status topic. *)
Lemma device_results project site station topics id dev :
  NewStationTopics project site station = Ok topics -> DeviceTopicsOf topics id = Ok dev ->
  resultsFilter (tx dev) = (status dev, false) /\ HasSuffix (tx dev) "/tx" = true.
Proof.
  intros Hnew. destruct (NewStationTopics_Ok _ _ _ _ Hnew) as (Hp & Hs & Hst & Hg & ->).
  unfold DeviceTopicsOf, checkSegment. destruct (segmentRule id) eqn:Hid; [|done]. case_bool_decide; [done|]. intros [= <-].
  cbn [tx status stationPrefix].
  flatten_levels. pose proof (join_last [rootLevel; project; site; station; id]) as Hlast. cbn [app] in Hlast.
  assert (Htx : joinLevels [rootLevel; project; site; station; id; txLevel] = joinLevels [rootLevel; project; site; station; id] +:+ "/tx") by by apply Hlast.
  split.
  - unfold resultsFilter. read_levels. cbn [length Nat.eqb andb lookup list_lookup].
    rewrite bool_decide_eq_false_2 by (intros [= Heq]; by apply Hg). cbv iota beta.
    rewrite Htx, TrimSuffix_app. f_equal. symmetry. by apply Hlast.
  - unfold HasSuffix. rewrite Htx, bytes_of_string_app, cut_suffix_app. by apply bool_decide_eq_true_2.
Qed.

(** Whether a station is in the scope of a group of another. *)
Definition in_scope (scope : TxScope) (project site station project' site' station' : string) : Prop :=
  match scope with
  | ScopeProject => project' = project
  | ScopeSite => project' = project /\ site' = site
  | ScopeStation => project' = project /\ site' = site /\ station' = station
  | ScopeDevice => False
  end.

Lemma levels_filter a ls wild : Forall no_slash (a :: ls) -> Forall no_slash wild -> wild <> [] ->
  levels (joinLevels (a :: ls) +:+ "/" +:+ joinLevels wild) = ((a :: ls) ++ wild)%list.
Proof.
  intros Hls Hwild Hne. rewrite <-(levels_join ((a :: ls) ++ wild)%list) by (done || by apply Forall_app). f_equal.
  destruct wild as [|w wild]; [done|]. rewrite <-(join_nest a ls (w :: wild)). reflexivity.
Qed.

Lemma segment_match f t : segmentRule f = true -> (bool_decide (f = anyLevel) || bool_decide (f = t)) = bool_decide (t = f).
Proof.
  intros Hf. rewrite (bool_decide_eq_false_2 (f = anyLevel)) by (by apply segmentRule_not_any). cbn [orb].
  by apply bool_decide_ext.
Qed.

Ltac segments := repeat apply Forall_cons_2; try apply Forall_nil_2; first [apply segmentRule_no_slash; assumption | apply segment_literals].

(** The filter of a group's results matches the status topics of the devices
    of the stations in the group's scope, and of no other. *)
Lemma group_results project site station topics scope group route project' site' station' topics' id' dev' :
  NewStationTopics project site station = Ok topics -> GroupTx topics scope group = Ok route ->
  NewStationTopics project' site' station' = Ok topics' -> DeviceTopicsOf topics' id' = Ok dev' ->
  (resultsFilter (Topic route)).2 = true /\
  (filter_matches (resultsFilter (Topic route)).1 (status dev') = true <-> in_scope scope project site station project' site' station').
Proof.
  intros Hnew Hgroup Hnew' Hdev. destruct (NewStationTopics_Ok _ _ _ _ Hnew) as (Hp & Hs & Hst & Hg & ->).
  destruct (NewStationTopics_Ok _ _ _ _ Hnew') as (Hp' & Hs' & Hst' & Hg' & ->).
  unfold DeviceTopicsOf, checkSegment in Hdev. destruct (segmentRule id') eqn:Hid; [|done].
  destruct (bool_decide (id' = AgentLevel)); [done|]. injection Hdev as <-.
  unfold GroupTx, checkSegment in Hgroup. destruct (segmentRule group) eqn:Hgr; [|done].
  cbn [status projectPrefix sitePrefix stationPrefix] in *.
  assert (Hroot : segmentRule rootLevel = true) by done.
  assert (Hstatus : levels (joinLevels [joinLevels [joinLevels [rootLevel; project'; site'; station']; id']; statusLevel]) =
    [rootLevel; project'; site'; station'; id'; statusLevel]) by (by read_levels).
  unfold filter_matches. rewrite Hstatus. clear Hstatus.
  destruct scope; [done|..]; injection Hgroup as <-; cbn [Topic]; unfold resultsFilter; read_levels;
    cbn [length Nat.eqb andb lookup list_lookup take]; rewrite (bool_decide_eq_true_2 (Some GroupLevel = Some "group")) by done;
    cbn [andb fst snd]; (split; [done|]);
    [change "/+/status" with ("/" +:+ joinLevels [anyLevel; statusLevel])
    |change "/+/+/status" with ("/" +:+ joinLevels [anyLevel; anyLevel; statusLevel])
    |change "/+/+/+/status" with ("/" +:+ joinLevels [anyLevel; anyLevel; anyLevel; statusLevel])];
    rewrite levels_filter by (done || segments); cbn [app levels_match]; rewrite !segment_match by done;
    rewrite ?(bool_decide_eq_true_2 (anyLevel = anyLevel)), ?(bool_decide_eq_true_2 (rootLevel = rootLevel)),
      ?(bool_decide_eq_true_2 (statusLevel = statusLevel)) by done; cbn [orb andb in_scope]; rewrite ?orb_true_r, ?andb_true_r, ?andb_true_iff, ?bool_decide_eq_true; tauto.
Qed.

(** ** What it hears *)

Lemma members_height (l : list (bytes * json)) n :
  (0 <= n)%Z -> Forall (fun m => (height m.2 <= n)%Z) l -> (height (JObject l) <= 1 + n)%Z.
Proof.
  intros Hn H. cbn [height]. enough (((fix go l := match l with [] => 0 | (_, e) :: l' => Z.max (height e) (go l') end) l <= n)%Z) by lia.
  induction H as [|[name v] l Hv _ IH]; cbn [snd] in *; lia.
Qed.

Lemma scalar_height v : match v with JArray _ | JObject _ => False | _ => True end -> height v = 0%Z.
Proof. by destruct v. Qed.

Lemma detail_height d : (height (detail_json d) <= 1)%Z.
Proof.
  unfold detail_json. apply (members_height _ 0); [done|]. apply Forall_map, Forall_true. intros name. cbn [snd].
  by destruct (d !! name) as [[s|z]|].
Qed.

Lemma txResult_height m : (height (txResult_json m) <= 2)%Z.
Proof.
  apply (members_height _ 1); [done|]. pose proof (detail_height (txr_Detail m)).
  unfold header_fields, device_fields, fields. repeat apply Forall_app_2; repeat apply Forall_cons_2; try apply Forall_nil_2; cbn [snd jstring jint];
    first [done|by destruct (dh_DeviceType (txr_device m))|by destruct (txr_TxID m)|by destruct (txr_Sender m)].
Qed.

(** Of the results the agent publishes it hears those of its tx, each with its
    state, and no other. *)
Lemma result_heard m id :
  h_Kind (txr_header m) = KindTxResult -> writable (txResult_json m) ->
  if bool_decide (txr_TxID m = Some id)
  then exists message, result_of id (encode (txResult_json m)) = Some message /\
         message !! "state" = Some (jstring (TxState_text (txr_State m))) /\ message !! "code" = Some (jstring (TxCode_text (txr_Code m)))
  else result_of id (encode (txResult_json m)) = None.
Proof.
  intros Hkind Hwritable. unfold result_of. rewrite unmarshal_encoded by (done || (pose proof (txResult_height m); unfold maxNestingDepth; lia)).
  destruct m as [h dev open expiry txid sender state code text detail]. cbn [txr_header txr_TxID txr_State txr_Code] in *.
  cbn [mbind option_bind]. unfold txResult_json, header_fields, device_fields, fields.
  cbn [txr_header txr_device txr_DeviceOpen txr_MessageExpiryS txr_TxID txr_Sender txr_State txr_Code txr_Text txr_Detail map app fst snd names_of mbind option_bind].
  rewrite Hkind. set (names := list_to_map _).
  assert (H1 : names !! "kind" = Some (jstring KindTxResult)) by reflexivity.
  assert (H2 : names !! "tx_id" = Some (jnullable jstring txid)) by reflexivity.
  assert (H3 : names !! "state" = Some (jstring (TxState_text state))) by reflexivity.
  assert (H4 : names !! "code" = Some (jstring (TxCode_text code))) by reflexivity.
  clearbody names. unfold text_is. rewrite H1, H2. cbn [jstring].
  rewrite (bool_decide_eq_true_2 (bytes_of_string KindTxResult = _)) by done. cbn [andb].
  destruct txid as [t|]; cbn [jnullable jstring]; [|done].
  destruct (decide (t = id)) as [->|Hne].
  - rewrite !bool_decide_eq_true_2 by done. by exists names.
  - assert (bytes_of_string t <> bytes_of_string id).
    { intros H%(f_equal string_of_bytes). by rewrite !string_of_bytes_of_string in H. }
    by rewrite !bool_decide_eq_false_2 by congruence.
Qed.

(** ** The loop *)

Definition shown_line (other_text : option json -> string) (group : bool) (result : gmap string json) : line :=
  ResultLine (if group then Some (device_of other_text result) else None) (result !! "state") (result !! "code") (result !! "text") (result !! "detail").

(** A device's results are shown up to the first final one, which ends it. *)
Lemma loop_device other_text wait finished results final rest :
  Forall (fun r => is_final r = false) results -> is_final final = true ->
  result_loop other_text false wait finished (map Heard results ++ Heard final :: rest) =
    (map (shown_line other_text false) (results ++ [final]), Some None).
Proof.
  intros Hresults Hfinal. induction Hresults as [|r results Hr _ IH]; cbn [map app result_loop]; [by rewrite Hfinal|].
  rewrite Hr, IH. reflexivity.
Qed.

(** A group's are shown until the wait is over; the devices that finished are
    counted once each, and it fails only when there is none. *)
Lemma loop_group other_text wait finished results rest :
  let all := list_to_set (map (device_of other_text) (List.filter is_final results)) ∪ finished in
  result_loop other_text true wait finished (map Heard results ++ DeadlinePassed :: rest) =
    ((map (shown_line other_text true) results ++ if bool_decide (all = ∅) then [] else [Summary (size all) wait])%list,
     Some (if bool_decide (all = ∅) then Some (NoFinalResult wait) else None)).
Proof.
  cbn zeta. revert finished. induction results as [|r results IH]; intros finished; cbn [map app result_loop List.filter list_to_set].
  - rewrite (left_id_L ∅ (∪)). cbn [andb]. by case_bool_decide.
  - destruct (is_final r); cbn [negb map list_to_set].
    + rewrite IH. rewrite (assoc_L (∪)), (comm_L (∪) (list_to_set _)). reflexivity.
    + by rewrite IH.
Qed.

(** ** Properties *)

(** C35: a tx sent from its command line. However its bytes are spelled there,
    the agent takes the tx that is published as these bytes, from this sender,
    under the id made for it; before it goes out, the results of its device are
    subscribed to; of the results the agent publishes there, those of this id
    are heard and no other; and the sender shows what it hears up to the first
    result that is final, and ends with it. *)
Theorem tx_sent_and_heard uuid_parse other_text project site station topics device dev ReadFile random data spellings
    broker username password sender expiry wait packet env results final rest :
  NewStationTopics project site station = Ok topics -> DeviceTopicsOf topics device = Ok dev ->
  (forall id, is_uuid4 id = true -> uuid_parse id = true) -> length random = 16%nat ->
  Forall2 escaped data spellings -> data <> [] -> is_text sender -> sender <> "" ->
  (forall id, Connect broker username password ("sendtx-" +:+ id) (ans_dial env) (ans_connack env) = Ok (packet id)) ->
  Subscribe (status dev) (ans_suback env).1 (ans_suback env).2 = None -> publish_verdict (tx dev) (ans_puback env).1 (ans_puback env).2 = None ->
  ans_heard env = (map Heard results ++ Heard final :: rest)%list -> Forall (fun r => is_final r = false) results -> is_final final = true ->
  exists id published,
    prepare ReadFile (Ok random) (tx dev) (string_of_bytes (concat spellings)) "" "" "" = Ok (data, id) /\
    run other_text broker username password (tx dev) id sender data expiry wait env =
      ([Connected (packet id); Subscribed (status dev) 1; Published published; PrintedSent id (tx dev) (length data)] ++
       map Printed (map (shown_line other_text false) (results ++ [final])) ++ [Disconnected 0], Some None)%list /\
    txp_Topic published = tx dev /\ ReadTx uuid_parse (txp_Payload published) = (mkTxRef id sender, data, None) /\
    forall m, h_Kind (txr_header m) = KindTxResult -> writable (txResult_json m) ->
      (is_Some (result_of id (encode (txResult_json m))) <-> txr_TxID m = Some id).
Proof.
  intros Hnew Hdev Huuid Hrandom Hspelled Hdata Hsender Hne Hconnect Hsub Hpub Hheard Hresults Hfinal.
  destruct (device_results _ _ _ _ _ _ Hnew Hdev) as [Hfilter Hsuffix].
  destruct (newUUID_uuid4 random Hrandom) as (id & Hid & Hid4). destruct (uuid4_text id Hid4) as [Hlen Htext].
  exists id, (tx_publish (tx dev) id sender data expiry).
  assert (Hsome : string_of_bytes (concat spellings) <> "").
  { intros Hnil. pose proof (unescape_meant data spellings [] Hspelled (or_introl eq_refl)) as Hmeant.
    rewrite !app_nil_r, Hnil in Hmeant. by injection Hmeant as <-. }
  split_and!.
  - unfold prepare, payload. cbn [List.filter].
    rewrite (bool_decide_eq_false_2 (string_of_bytes (concat spellings) = "")) by done. cbn [negb].
    rewrite !(bool_decide_eq_true_2 ("" = "")) by done. cbn [negb length Nat.eqb].
    pose proof (unescape_meant data spellings [] Hspelled (or_introl eq_refl)) as Hmeant. rewrite !app_nil_r in Hmeant.
    by rewrite Hmeant, Hsuffix, Hid.
  - unfold run. rewrite Hconnect, Hfilter. rewrite Hsub, Hpub, Hheard, loop_device by done. reflexivity.
  - done.
  - by apply body_taken; [apply Huuid|..].
  - intros m Hkind Hwritable. pose proof (result_heard m id Hkind Hwritable) as Hres.
    case_bool_decide as Heq; [|rewrite Hres; split; [by intros [? ?]|done]].
    destruct Hres as (message & -> & _). by split; [|eexists].
Qed.

(** ** Witness *)

Definition example_scanner : DeviceTopics :=
  mkDeviceTopics "skuhus/acme/lager/pack-1/scanner/rx" "skuhus/acme/lager/pack-1/scanner/tx" "skuhus/acme/lager/pack-1/scanner/status".

Definition sixteen : bytes := replicate 16 xab.
Definition with_state (state : string) : gmap string json := {["state" := jstring state]}.
Definition written_after_accepted : answers :=
  mkAnswers (Ok tt) (Ok 0%Z) (Some [1%Z], None) (Some 0%Z, None) [Heard (with_state "accepted"); Heard (with_state "written"); DeadlinePassed].
Definition no_text (v : option json) : string := "".

(** The text A, a carriage return by its name and a byte in hexadecimal. *)
Lemma tx_sent_and_heard_witness :
  exists id published,
    prepare (fun _ => Err "no file") (Ok sixteen) (tx example_scanner) (string_of_bytes [x41; x5c; x72; x5c; x78; x66; x46]) "" "" "" =
      Ok ([x41; x0d; xff], id) /\
    ReadTx is_uuid4 (txp_Payload published) = (mkTxRef id "me", [x41; x0d; xff], None) /\
    (run no_text "broker:1883" "ingest" "secret" (tx example_scanner) id "me" [x41; x0d; xff] Second Second written_after_accepted).2 = Some None.
Proof.
  destruct (tx_sent_and_heard is_uuid4 no_text "acme" "lager" "pack-1" example_station "scanner" example_scanner (fun _ => Err "no file") sixteen
    [x41; x0d; xff] [[x41]; [x5c; x72]; [x5c; x78; x66; x46]] "broker:1883" "ingest" "secret" "me" Second Second
    (fun id => mkConnect ("sendtx-" +:+ id) 30 true (Some ("ingest", "secret"))) written_after_accepted [with_state "accepted"] (with_state "written") [DeadlinePassed])
    as (id & published & Hprepare & Hrun & _ & Hread & _).
  - reflexivity.
  - reflexivity.
  - intros id Hid. exact Hid.
  - reflexivity.
  - constructor; [by constructor|]. constructor; [apply escaped_name; by left|].
    constructor; [exact (escaped_hex x66 x46 15 15 eq_refl eq_refl)|constructor].
  - discriminate.
  - reflexivity.
  - discriminate.
  - reflexivity.
  - reflexivity.
  - reflexivity.
  - reflexivity.
  - constructor; [reflexivity|constructor].
  - reflexivity.
  - exists id, published. split; [exact Hprepare|]. split; [exact Hread|]. by rewrite Hrun.
Defined.
