(* ===== verification/Consumer.v ===== *)
(** * A consumer: dev/consumer/main.go

    What it prints of each message, and how a run ends. Lines are data: how an
    envelope is indented and a text quoted, and the times, are left out. *)
From S2P Require Import Prelude GoLib Base64 Topics Wire Json ReadTx Encode MqttConn.
#[local] Open Scope string_scope.

(** ** One message *)

Record properties := mkProperties { pr_MessageExpiry : option Z; pr_ResponseTopic : string; pr_CorrelationData : bytes }.
Record packet := mkPacket { pk_Topic : string; pk_QoS : Z; pk_Retain : bool; pk_Properties : option properties; pk_Payload : bytes }.

Inductive preview_text := Quoted (text : string) | Hex (digits : string).

Definition preview (raw : bytes) : preview_text := if negb (utf8_valid raw) then Hex (hex_encode raw) else Quoted (string_of_bytes raw).

Inductive property := ShownExpiry (seconds : Z) | ShownResponseTopic (topic : string) | ShownCorrelation (data : preview_text).

Definition describeProperties (p : packet) : list property :=
  match pk_Properties p with
  | None => []
  | Some props =>
    (match pr_MessageExpiry props with Some seconds => [ShownExpiry seconds] | None => [] end ++
     (if bool_decide (pr_ResponseTopic props = "") then [] else [ShownResponseTopic (pr_ResponseTopic props)]) ++
     (if bool_decide (pr_CorrelationData props = []) then [] else [ShownCorrelation (preview (pr_CorrelationData props))]))%list
  end.

Inductive decoded_raw := NotBase64 | Bytes (shown : preview_text) (count : nat) (digits : string).

Definition decodeRaw (envelope : gmap string json) : option decoded_raw :=
  match envelope !! "raw_b64" with
  | Some (JString encoded) =>
    match b64_decode encoded with
    | None => Some NotBase64
    | Some data => Some (Bytes (preview data) (length data) (hex_encode data))
    end
  | _ => None
  end.

Inductive printed :=
  | Header (topic : string) (qos : Z) (retained : bool) (props : list property)
  | AsReceived (payload : bytes)
  | EmptyPayload
  | NotJSON (shown : preview_text)
  | Envelope (message : gmap string json)
  | Payload (raw : decoded_raw)
  | BlankLine.

Definition printMessage (p : packet) (raw : bool) : list printed :=
  Header (pk_Topic p) (pk_QoS p) (pk_Retain p) (describeProperties p) ::
  if raw then [AsReceived (pk_Payload p); BlankLine]
  else if bool_decide (pk_Payload p = []) then [EmptyPayload; BlankLine]
  else match unmarshal_object (pk_Payload p) with
  | None => [NotJSON (preview (pk_Payload p)); BlankLine]
  | Some envelope => (Envelope envelope :: match decodeRaw envelope with Some raw => [Payload raw] | None => [] end ++ [BlankLine])%list
  end.

(** ** A run *)

Inductive observed :=
  | Received (p : packet)
  | ClientError (err : string)
  | ServerDisconnect (reason : Z)
  | Signal.

Inductive run_error := ConnError (err : conn_error) | ConnectionLost (err : string) | BrokerDisconnected (reason : Z).

(** [end]: the channel holds one error, and the first stays. *)
Definition end_ (err : run_error) (lost : option run_error) : option run_error := match lost with Some first => Some first | None => Some err end.

(** What is printed, with what the channel holds and whether the context has
    ended: paho may still call after that. *)
Fixpoint observe (raw : bool) (events : list observed) (lost : option run_error) (ended : bool) : list printed * option run_error * bool :=
  match events with
  | [] => ([], lost, ended)
  | Received p :: events' => let '(lines, lost, ended) := observe raw events' lost ended in ((printMessage p raw ++ lines)%list, lost, ended)
  | ClientError err :: events' => observe raw events' (end_ (ConnectionLost err) lost) true
  | ServerDisconnect reason :: events' => observe raw events' (end_ (BrokerDisconnected reason) lost) true
  | Signal :: events' => observe raw events' lost true
  end.

(** How [run] ends, of what is observed up to its look at the channel: [None]
    while it waits; whether it disconnects, and its error. *)
Definition run (broker username password topic clientID : string) (qos : Z) (raw : bool) (dial : Prelude.result string unit)
    (connack : Prelude.result string Z) (suback : option (list Z) * option string) (events : list observed) :
    list printed * option (bool * option run_error) :=
  match Connect broker username password clientID dial connack with
  | Err err => ([], Some (false, Some (ConnError err)))
  | Ok _ =>
    match Subscribe topic (fst suback) (snd suback) with
    | Some err => ([], Some (false, Some (ConnError err)))
    | None =>
      let '(lines, lost, ended) := observe raw events None false in
      (lines, if negb ended then None else Some match lost with Some err => (false, Some err) | None => (true, None) end)
    end
  end.

(** ** What it shows *)

(** The error of a run is the first that came. *)
Lemma observe_lost raw events lost ended :
  (observe raw events lost ended).1.2 =
  match lost with
  | Some first => Some first
  | None => head (omap (fun e => match e with ClientError err => Some (ConnectionLost err) | ServerDisconnect reason => Some (BrokerDisconnected reason)
                       | _ => None end) events)
  end.
Proof.
  revert lost ended. induction events as [|[p|err|reason|] events IH]; intros lost ended; cbn [observe omap list_omap head fst snd]; [by destruct lost|..].
  - specialize (IH lost ended). by destruct (observe raw events lost ended) as [[lines l] e].
  - rewrite IH. by destruct lost.
  - rewrite IH. by destruct lost.
  - apply IH.
Qed.

(** Of a reading of the agent it shows the bytes of the frame, in hexadecimal
    and with their number. *)
Theorem reading_shown m frame p :
  rx_RawB64 m = string_of_bytes (b64_encode frame) -> writable (rx_json m) -> pk_Payload p = encode (rx_json m) ->
  Payload (Bytes (preview frame) (length frame) (hex_encode frame)) ∈ printMessage p false.
Proof.
  intros Hraw Hw Hp. unfold printMessage. rewrite Hp, unmarshal_encoded by (done || apply rx_json_height).
  rewrite bool_decide_eq_false_2 by (unfold rx_json; cbn [encode]; done).
  unfold rx_json at 1. unfold header_fields, device_fields, fields. cbn [map app fst snd names_of]. set (names := list_to_map _).
  assert (H1 : names !! "raw_b64" = Some (jstring (rx_RawB64 m))) by reflexivity. clearbody names.
  unfold decodeRaw. rewrite H1, Hraw. cbn [jstring]. rewrite bytes_of_string_of_bytes, b64_decode_encode. set_solver.
Qed.
