(* ===== verification/LogTest.v ===== *)
(** * The rules of a log line, as the tests hold the agent's log to them:
      internal/logging/logtest

    A decoded object keeps every member here, so a repeated key can be seen as
    the token by token reading of the code sees it. *)
From S2P Require Import Prelude GoLib Strconv Json ReadTx MqttConn.
#[local] Open Scope string_scope.

(** ** Lines *)

Definition newline : Ascii.ascii := Ascii.ascii_of_nat 10.

(** [strings.Split] at newlines. *)
Fixpoint split_lines (text : string) : list string :=
  match text with
  | "" => [""]
  | String.String c text' =>
    match split_lines text' with
    | [] => []
    | line :: rest => if Ascii.eqb c newline then "" :: line :: rest else String.String c line :: rest
    end
  end.

Definition lines (text : string) : list string := List.filter (fun line => negb (bool_decide (TrimSpace line = ""))) (split_lines text).

(** ** Repeated keys *)

Inductive line_error := NotJSON | NotAnObject | MoreThanOneValue.

(** The keys that come again, of an object's members after the [seen], and of
    what is in them. *)
Fixpoint repeated_in (path : string) (v : json) : list string :=
  match v with
  | JObject members =>
    (fix object (seen : gset string) (members : list (bytes * json)) : list string :=
       match members with
       | [] => []
       | (name, value) :: members' =>
         let key := string_of_bytes name in
         ((if bool_decide (key ∈ seen) then [path +:+ key] else []) ++ repeated_in (path +:+ key +:+ ".") value ++ object ({[key]} ∪ seen) members')%list
       end) ∅ members
  | JArray elements => (fix array (elements : list json) : list string := match elements with [] => [] | e :: elements' => (repeated_in path e ++ array elements')%list end) elements
  | _ => []
  end.

(** [Decoder.More] after a value that no other holds. *)
Definition more (rest : bytes) : bool :=
  match skip_space rest with
  | [] => false
  | b :: _ => negb (is_byte 93 b || is_byte 125 b)
  end.

(** [RepeatedKeys], of a line that nests no deeper than the decoder goes. *)
Definition RepeatedKeys (line : bytes) : result line_error (list string) :=
  match skip_space line with
  | b :: _ =>
    if is_byte 91 b then Err NotAnObject
    else match decode line with
    | None => Err NotJSON
    | Some (JObject members, rest) => if more rest then Err MoreThanOneValue else Ok (repeated_in "" (JObject members))
    | Some _ => Err NotAnObject
    end
  | [] => Err NotJSON
  end.

(** ** A line's problem *)

Inductive line_problem := LineError (err : line_error) | Repeated (keys : list string) | NotDecoded | No (key : string) | NoSource | SourceIncomplete.

(** A name that is the empty text or null, or is not there. *)
Definition names_nothing (source : gmap string json) (key : string) : bool :=
  match source !! key with
  | None | Some JNull => true
  | Some (JString s) => bool_decide (s = [])
  | _ => false
  end.

Definition no_value (source : gmap string json) (key : string) : bool := match source !! key with None | Some JNull => true | _ => false end.

Definition lineProblem (line : bytes) : option line_problem :=
  match RepeatedKeys line with
  | Err err => Some (LineError err)
  | Ok ((_ :: _) as repeated) => Some (Repeated repeated)
  | Ok [] =>
    match unmarshal_object line with
    | None => Some NotDecoded
    | Some record =>
      match List.filter (fun key => negb (bool_decide (is_Some (record !! key)))) ["time"; "level"; "msg"] with
      | key :: _ => Some (No key)
      | [] =>
        match record !! "source" with
        | Some (JObject members) =>
          let source := default ∅ (names_of (JObject members)) in
          if names_nothing source "function" || names_nothing source "file" || no_value source "line" then Some SourceIncomplete else None
        | _ => Some NoSource
        end
      end
    end
  end.

(** [CheckText]: the lines that break a rule. *)
Definition CheckText (text : string) : list (string * line_problem) :=
  omap (fun line => (fun problem => (line, problem)) <$> lineProblem (bytes_of_string line)) (lines text).

(** [Records]: the decoded lines, or the first that is not JSON. *)
Fixpoint decode_lines (ls : list string) : result string (list (gmap string json)) :=
  match ls with
  | [] => Ok []
  | line :: ls' =>
    match unmarshal_object (bytes_of_string line) with
    | None => Err line
    | Some record => match decode_lines ls' with Ok records => Ok (record :: records) | Err line => Err line end
    end
  end.

Definition Records (text : string) : result string (list (gmap string json)) := decode_lines (lines text).

Definition WithMessage (text msg : string) : result string (list (gmap string json)) :=
  match Records text with Ok records => Ok (List.filter (fun record => text_is record "msg" msg) records) | Err line => Err line end.

(** ** What the rules say *)

(** No object of [v] has a key twice. *)
Fixpoint unique_keys (v : json) : Prop :=
  match v with
  | JObject members =>
    NoDup (map (fun m => string_of_bytes m.1) members) /\
    (fix object (members : list (bytes * json)) : Prop := match members with [] => True | (_, value) :: members' => unique_keys value /\ object members' end) members
  | JArray elements => (fix array (elements : list json) : Prop := match elements with [] => True | e :: elements' => unique_keys e /\ array elements' end) elements
  | _ => True
  end.

Lemma repeated_none v : forall path, repeated_in path v = [] <-> unique_keys v.
Proof.
  induction v as [|b|literal|s|elements IH|members IH] using json_nested_ind; intros path; cbn [repeated_in unique_keys]; try done.
  - induction IH as [|e elements He _ IH']; [done|]. by rewrite app_nil, He, IH'.
  - enough (H : forall seen, (fix object (seen : gset string) (members : list (bytes * json)) : list string :=
       match members with
       | [] => []
       | (name, value) :: members' =>
         let key := string_of_bytes name in
         ((if bool_decide (key ∈ seen) then [path +:+ key] else []) ++ repeated_in (path +:+ key +:+ ".") value ++ object ({[key]} ∪ seen) members')%list
       end) seen members = [] <->
       (NoDup (map (fun m => string_of_bytes m.1) members) /\ (forall key, key ∈ map (fun m => string_of_bytes m.1) members -> key ∉ seen)) /\
       (fix object (members : list (bytes * json)) : Prop := match members with [] => True | (_, value) :: members' => unique_keys value /\ object members' end) members).
    { rewrite H. clear. set_solver. }
    induction IH as [|[name value] members Hv _ IH']; intros seen; cbn [map fst snd] in *.
    { split; [|done]. intros _. split; [|done]. split; [constructor|set_solver]. }
    cbv zeta. rewrite !app_nil, Hv, IH', NoDup_cons. case_bool_decide; set_solver.
Qed.

(** A line without a problem is one JSON object and nothing else, in which no
    object has a key twice, with a time, a level, a message, and a source that
    names its function, its file and its line. *)
Theorem line_rules line :
  lineProblem line = None ->
  exists members rest record source,
    decode line = Some (JObject members, rest) /\ skip_space rest = [] /\ unique_keys (JObject members) /\
    names_of (JObject members) = Some record /\ Forall (fun key => is_Some (record !! key)) ["time"; "level"; "msg"] /\
    record !! "source" = Some (JObject source) /\
    names_nothing (default ∅ (names_of (JObject source))) "function" = false /\ names_nothing (default ∅ (names_of (JObject source))) "file" = false /\
    no_value (default ∅ (names_of (JObject source))) "line" = false.
Proof.
  unfold lineProblem. destruct (RepeatedKeys line) as [[|key keys]|err] eqn:Hkeys; [|done..].
  unfold RepeatedKeys in Hkeys. destruct (skip_space line) as [|b text]; [done|]. destruct (is_byte 91 b); [done|].
  destruct (decode line) as [[[| | | | |members] rest]|] eqn:Hdecode; try done. destruct (more rest); [done|].
  assert (Hunique : repeated_in "" (JObject members) = []) by (by injection Hkeys). apply repeated_none in Hunique.
  unfold unmarshal_object. rewrite Hdecode. cbn [mbind option_bind].
  destruct (bool_decide (skip_space rest = [])) eqn:Hrest; [|done]. apply bool_decide_eq_true in Hrest.
  destruct (names_of (JObject members)) as [record|] eqn:Hrecord; [|done].
  match goal with |- context [List.filter ?p ?l] => destruct (List.filter p l) as [|key keys] eqn:Hnames; [|done] end.
  destruct (record !! "source") as [[| | | | |source]|] eqn:Hsource; try done.
  destruct (names_nothing _ "function") eqn:Hfunction; [done|]. destruct (names_nothing _ "file") eqn:Hfile; [done|].
  destruct (no_value _ "line") eqn:Hline; [done|]. intros _. exists members, rest, record, source. split_and!; try done.
  apply Forall_forall. intros key Hkey. apply dec_stable. intros Hnone. apply list_elem_of_In in Hkey.
  assert (Hin : In key []); [|done]. rewrite <-Hnames. apply filter_In. split; [done|]. by rewrite bool_decide_eq_false_2.
Qed.

Example lineProblem_examples :
  let good := quoted "{'time':'t','level':'INFO','msg':'m','source':{'function':'f','file':'a.go','line':1}}" in
  lineProblem good = None /\ lineProblem (good ++ json_bytes " 1") = Some (LineError MoreThanOneValue) /\
  lineProblem (quoted "{'time':'t','a':[{'b':1,'b':2}],'time':'u'}") = Some (Repeated ["a.b"; "time"]) /\
  lineProblem (quoted "{'time':'t','level':'INFO','msg':'m','source':{'function':'','file':'a.go','line':1}}") = Some SourceIncomplete /\
  lineProblem (json_bytes "[1]") = Some (LineError NotAnObject) /\ lineProblem (good ++ json_bytes "}") = Some NotDecoded.
Proof. vm_compute. auto 10. Qed.
