(* ===== verification/BrokerInfo.v ===== *)
(** * The probe of a broker: spike/brokerinfo/main.go

    The packet it sends, and what it makes of the replies; the network is an
    argument, and results are data, not the lines that show them. *)
From S2P Require Import Prelude GoLib Strconv.
#[local] Open Scope Z_scope.

(** ** CONNECT *)

(** The loop over the remaining length: seven bits of each byte, the eighth
    for another to come. [fuel] bounds the bytes. *)
Fixpoint length_digits (fuel : nat) (remaining : Z) : bytes :=
  match fuel with
  | O => []
  | S fuel' =>
    let lengthDigit := remaining mod 128 in
    let remaining := remaining / 128 in
    if 0 <? remaining then byte_of (Z.lor lengthDigit 128) :: length_digits fuel' remaining
    else [byte_of lengthDigit]
  end.

Definition connect_body (level : byte) (clientID : bytes) : bytes :=
  ([x00; x04; x4d; x51; x54; x54; level; x02; x00; x3c] ++ (if bool_decide (level = x05) then [x00] else []) ++
   [byte_of (Z.of_nat (length clientID) / 256 mod 256); byte_of (Z.of_nat (length clientID) mod 256)] ++ clientID)%list.

Definition connectPacket (level : byte) (clientID : string) : bytes :=
  let body := connect_body level (bytes_of_string clientID) in
  (x10 :: length_digits (S (Z.to_nat (Z.log2 (Z.of_nat (length body))))) (Z.of_nat (length body)) ++ body)%list.

(** ** CONNACK *)

Inductive connack_meaning :=
  | Accepted | UnacceptableVersion | UnsupportedVersion | BadCredentials | NotAuthorised | SeeTable31 | SeeSection3222.

Definition connackReason (level code : byte) : connack_meaning :=
  if bool_decide (level = x04) then
    match code with x00 => Accepted | x01 => UnacceptableVersion | x04 => BadCredentials | x05 => NotAuthorised | _ => SeeTable31 end
  else match code with x00 => Accepted | x84 => UnsupportedVersion | x86 => BadCredentials | x87 => NotAuthorised | _ => SeeSection3222 end.

Inductive mqtt_answer :=
  | DialFailed (err : string)
  | WriteFailed (err : string)
  | LevelNotSupported (err : option string)
  | NoConnack (reply : bytes)
  | Connack (reason : byte) (meaning : connack_meaning) (reply : bytes).

(** [probeMQTT], of what dialling, the write and the read give. *)
Definition probeMQTT (level : byte) (dial write : option string) (reply : bytes) (read_err : option string) : mqtt_answer :=
  match dial, write with
  | Some err, _ => DialFailed err
  | None, Some err => WriteFailed err
  | None, None =>
    match reply with
    | [] => LevelNotSupported read_err
    | first :: _ =>
      if negb (bool_decide (first = x20)) then NoConnack reply
      else
        let reason := default xff (if (4 <=? length reply)%nat then reply !! 3%nat else None) in
        Connack reason (connackReason level reason) reply
    end
  end.

(** ** The server's properties over AMQP *)

Definition printable (b : byte) : bool := GoLib.between 32 126 b.

(** The longest runs of printable bytes; [run] is the one being read. *)
Fixpoint runs_from (run : bytes) (reply : bytes) : list bytes :=
  match reply with
  | [] => [run]
  | b :: reply' => if printable b then runs_from (run ++ [b]) reply' else run :: runs_from [] reply'
  end.

(** [FindAllString] of four printable characters or more. *)
Definition printable_runs (reply : bytes) : list bytes := List.filter (fun run => (4 <=? length run)%nat) (runs_from [] reply).

Definition trimLeadingLength (text : bytes) : bytes :=
  match text with
  | b :: ((_ :: _) as rest) => if byte_Z b =? Z.of_nat (length rest) then rest else text
  | _ => text
  end.

Definition property_keys : list string := ["product"; "version"; "platform"; "cluster_name"]%string.

(** The loop: a run that is a key and an S is followed by its value. *)
Fixpoint server_fields (runs : list bytes) (fields : gmap string bytes) : gmap string bytes :=
  match runs with
  | run :: ((next :: _) as runs') =>
    server_fields runs'
      (match List.filter (fun key => bool_decide (run = bytes_of_string key ++ [x53])) property_keys with
       | key :: _ => <[key := trimLeadingLength next]> fields
       | [] => fields
       end)
  | _ => fields
  end.

Definition orUnknown (text : bytes) : bytes := if bool_decide (text = []) then bytes_of_string "unknown" else text.

Inductive amqp_answer :=
  | AMQPDialFailed (err : string)
  | AMQPWriteFailed (err : string)
  | NoReply (err : option string)
  | NothingRecognised
  | Server (product version platform cluster : bytes).

Definition probeAMQP (dial write : option string) (reply : bytes) (read_err : option string) : amqp_answer :=
  match dial, write with
  | Some err, _ => AMQPDialFailed err
  | None, Some err => AMQPWriteFailed err
  | None, None =>
    if bool_decide (reply = []) then NoReply read_err
    else
      let fields := server_fields (printable_runs reply) ∅ in
      if bool_decide (fields = ∅) then NothingRecognised
      else
        let field key := orUnknown (default [] (fields !! key)) in
        Server (field "product"%string) (field "version"%string) (field "platform"%string) (field "cluster_name"%string)
  end.

Example brokerinfo_examples :
  connectPacket x05 "ab" = [x10; x0f; x00; x04; x4d; x51; x54; x54; x05; x02; x00; x3c; x00; x00; x02; x61; x62] /\
  length_digits 9 321 = [xc1; x02] /\
  probeMQTT x05 None None [x20; x03; x00; x87] None = Connack x87 NotAuthorised [x20; x03; x00; x87] /\
  probeAMQP None None (([x07] ++ bytes_of_string "productS" ++ [x00; x00; x00; x08] ++ bytes_of_string "RabbitMQ" ++ [x07] ++
    bytes_of_string "versionS" ++ [x00; x00; x00; x06] ++ bytes_of_string "3.13.1" ++ [xce])%list) None =
    Server (bytes_of_string "RabbitMQ") (bytes_of_string "3.13.1") (bytes_of_string "unknown") (bytes_of_string "unknown").
Proof. vm_compute. auto. Qed.

(** ** The packet is the CONNECT that is meant *)

(** A variable byte integer (MQTT 5.0, section 1.5.5), and what follows. *)
Fixpoint read_length (text : bytes) : option (Z * bytes) :=
  match text with
  | [] => None
  | b :: rest =>
    if 128 <=? byte_Z b then '(v, rest) ← read_length rest; Some (byte_Z b - 128 + 128 * v, rest) else Some (byte_Z b, rest)
  end.

(** A CONNECT of a clean start without will or credentials, with nothing in
    its properties: its level, its keepalive and its client id. *)
Definition read_connect (packet : bytes) : option (byte * Z * bytes) :=
  match packet with
  | x10 :: rest =>
    '(remaining, rest) ← read_length rest;
    if negb (remaining =? Z.of_nat (length rest)) then None
    else match rest with
    | x00 :: x04 :: x4d :: x51 :: x54 :: x54 :: level :: x02 :: k1 :: k0 :: rest =>
      let id := match level, rest with x05, x00 :: rest => Some rest | x05, _ => None | _, _ => Some rest end in
      match id with
      | Some (n1 :: n0 :: id) => if byte_Z n1 * 256 + byte_Z n0 =? Z.of_nat (length id) then Some (level, byte_Z k1 * 256 + byte_Z k0, id) else None
      | _ => None
      end
    | _ => None
    end
  | _ => None
  end.

Lemma lor_128 d : 0 <= d < 128 -> Z.lor d 128 = 128 + d.
Proof.
  intros Hd. rewrite Z.add_nocarry_lxor, Z.lxor_comm, Z.lxor_lor; [done|..];
    (apply Z.bits_inj'; intros n Hn; rewrite Z.land_spec, Z.bits_0; change 128 with (2 ^ 7); rewrite Z.pow2_bits_eqb by lia;
     destruct (Z.eqb_spec 7 n) as [<-|]; rewrite ?andb_false_r, ?andb_false_l; try done;
     rewrite (Z.bits_above_log2 d 7); [done|lia|]; destruct (decide (d = 0)) as [->|]; [done|]; apply Z.log2_lt_pow2; lia).
Qed.

Lemma read_length_digits fuel remaining rest :
  0 <= remaining < 2 ^ Z.of_nat fuel -> (0 < fuel)%nat -> read_length (length_digits fuel remaining ++ rest) = Some (remaining, rest).
Proof.
  revert remaining. induction fuel as [|fuel IH]; intros remaining Hr Hfuel; [lia|]. cbn [length_digits].
  pose proof (Z.div_mod remaining 128 ltac:(lia)). pose proof (Z.mod_pos_bound remaining 128 ltac:(lia)).
  destruct (0 <? remaining / 128) eqn:Hmore; cbn [app read_length].
  - rewrite lor_128, byte_Z_byte_of by lia. rewrite (proj2 (Z.leb_le _ _)) by lia.
    rewrite Nat2Z.inj_succ, Z.pow_succ_r in Hr by lia.
    assert (Hdiv : remaining / 128 < 2 ^ Z.of_nat fuel) by (apply Z.div_lt_upper_bound; lia).
    rewrite IH; [|lia|destruct fuel; [cbn in Hdiv; lia|lia]]. cbn [mbind option_bind]. do 2 f_equal. lia.
  - assert (remaining / 128 = 0) by (assert (0 <= remaining / 128) by (apply Z.div_pos; lia); lia).
    rewrite byte_Z_byte_of by lia. rewrite (proj2 (Z.leb_gt _ _)) by lia. do 2 f_equal. lia.
Qed.

(** A broker reads the packet as what is meant, for any client id that its two
    bytes of length can tell. *)
Theorem connect_reads_back level clientID :
  Z.of_nat (String.length clientID) < 65536 -> level = x04 \/ level = x05 ->
  read_connect (connectPacket level clientID) = Some (level, 60, bytes_of_string clientID).
Proof.
  rewrite <-string_length_bytes. unfold connectPacket. generalize (bytes_of_string clientID). intros id Hlen Hlevel.
  set (body := connect_body level id). set (fuel := S (Z.to_nat (Z.log2 (Z.of_nat (length body))))).
  assert (Hbody : 0 < Z.of_nat (length body)) by (unfold body, connect_body; rewrite !length_app; cbn; lia).
  unfold read_connect. rewrite read_length_digits; [|unfold fuel|lia].
  2: { split; [lia|]. rewrite Nat2Z.inj_succ, Z2Nat.id by apply Z.log2_nonneg. by apply Z.log2_spec. }
  cbn [mbind option_bind]. rewrite Z.eqb_refl. cbn [negb]. unfold body, connect_body.
  pose proof (Z.div_mod (Z.of_nat (length id)) 256 ltac:(lia)). pose proof (Z.mod_pos_bound (Z.of_nat (length id)) 256 ltac:(lia)).
  assert (Hdiv : 0 <= Z.of_nat (length id) / 256 < 256) by (split; [by apply Z.div_pos; lia|apply Z.div_lt_upper_bound; lia]).
  destruct Hlevel as [-> | ->]; cbn [app bool_decide]; [rewrite bool_decide_eq_false_2 by done|rewrite bool_decide_eq_true_2 by done]; cbn [app];
    rewrite (Z.mod_small (_ / 256)) by lia;
    rewrite (byte_Z_byte_of (_ / 256)), (byte_Z_byte_of (_ mod 256)) by lia;
    rewrite (proj2 (Z.eqb_eq (Z.of_nat (length id) / 256 * 256 + Z.of_nat (length id) mod 256) (Z.of_nat (length id)))) by lia; reflexivity.
Qed.
