(* ===== verification/SerialBench.v ===== *)
(** * The bench for a serial printer: spike/serialbench/main.go

    The port, the clock and the flag package are arguments: what the port answers
    to each call comes as a list, and a loop whose list has run out is still
    going. Lines of output are data, and their times are left out. *)
From S2P Require Import Prelude GoLib Float Strconv Serial.
#[local] Open Scope Z_scope.

(** ** ESC/POS *)

Definition escInit : bytes := [x1b; x40].
Definition dleEOT : bytes := [x10; x04].
Definition feedAndCut : bytes := [x1d; x56; x41].
Definition statusFixed : Z := 147.
Definition statusExpect : Z := 18.
Definition status_types : list byte := [x01; x02; x03; x04].

(** ** The line's settings *)

Record lineFlags := mkLineFlags { lf_path : string; lf_dataBits : Z; lf_parity : string; lf_stopBits : Z }.

Inductive bench_error :=
  | PathRequired | BadParity (parity : string) | BadStopBits (stopBits : Z)
  | BadBaud (field : string) | BaudRequired | ChunkRequired
  | NotOpened (path : string) (err : string) | PortFailed (err : string) | WriteFailed (accepted total : nat) (err : string) | NotDrained (err : string)
  | NoWellFormedReplies.

Definition mode (lineSettings : lineFlags) (baud : Z) : result bench_error Mode :=
  if bool_decide (lf_path lineSettings = ""%string) then Err PathRequired
  else
    let parity := if bool_decide (lf_parity lineSettings = "none"%string) then Some NoParity
      else if bool_decide (lf_parity lineSettings = "odd"%string) then Some OddParity
      else if bool_decide (lf_parity lineSettings = "even"%string) then Some EvenParity else None in
    match parity with
    | None => Err (BadParity (lf_parity lineSettings))
    | Some parity =>
      if lf_stopBits lineSettings =? 1 then Ok (mkMode baud (lf_dataBits lineSettings) parity OneStopBit)
      else if lf_stopBits lineSettings =? 2 then Ok (mkMode baud (lf_dataBits lineSettings) parity TwoStopBits)
      else Err (BadStopBits (lf_stopBits lineSettings))
    end.

(** ** Writing and reading *)

(** What a call of [Write] gives: how many bytes were accepted, and an error. *)
Definition write_answer : Type := nat * option string.

(** [writeAll]: what the port took, and the error; [None] is still writing. *)
Fixpoint writeAll (answers : list write_answer) (data : bytes) : bytes * option (option string) :=
  match data, answers with
  | [], _ => ([], Some None)
  | _, [] => ([], None)
  | _, (accepted, Some err) :: _ => (take accepted data, Some (Some err))
  | _, (accepted, None) :: answers' =>
    let (took, ended) := writeAll answers' (drop accepted data) in ((take accepted data ++ took)%list, ended)
  end.

(** [readFor]: the reads that begin before the deadline, up to one that fails. *)
Fixpoint readFor (reads : list (result string bytes)) : bytes :=
  match reads with
  | Ok chunk :: reads' => (chunk ++ readFor reads')%list
  | _ => []
  end.

(** ** status *)

Inductive verdict := NoReply | Malformed | WellFormed.

Definition well_formed (reply : bytes) : bool := match reply with [b] => Z.land (byte_Z b) statusFixed =? statusExpect | _ => false end.

Definition verdict_of (reply : bytes) : verdict :=
  match reply with [] => NoReply | _ => if well_formed reply then WellFormed else Malformed end.

(** A request's answers: those of the writes, and the reads that follow. *)
Record exchange := mkExchange { ex_writes : list write_answer; ex_reads : list (result string bytes) }.

(** The requests in turn: the replies, and how they end. *)
Fixpoint requests (exchange_of : byte -> exchange) (types : list byte) : list (byte * bytes) * option (option bench_error) :=
  match types with
  | [] => ([], Some None)
  | t :: types' =>
    match snd (writeAll (ex_writes (exchange_of t)) (dleEOT ++ [t])) with
    | None => ([], None)
    | Some (Some err) => ([], Some (Some (PortFailed err)))
    | Some None => let (replies, ended) := requests exchange_of types' in ((t, readFor (ex_reads (exchange_of t))) :: replies, ended)
    end
  end.

(** What the port does at a rate: opening it, setting it up, and the requests. *)
Record bench_port := mkBenchPort { bp_open : option string; bp_setup : option string; bp_exchange : byte -> exchange }.

Definition queryStatus (path : string) (port : bench_port) : option (result bench_error (list (byte * bytes))) :=
  match bp_open port, bp_setup port with
  | Some err, _ => Some (Err (NotOpened path err))
  | None, Some err => Some (Err (PortFailed err))
  | None, None =>
    match requests (bp_exchange port) status_types with
    | (_, None) => None
    | (_, Some (Some err)) => Some (Err err)
    | (replies, Some None) => Some (Ok replies)
    end
  end.

Inductive status_line := ReplyLine (baud : Z) (type_ : byte) (reply : bytes) (v : verdict) | Found (baud : Z).

(** The loop of [runStatus] over the fields of [--bauds]. *)
Fixpoint status_loop (lineSettings : lineFlags) (port_at : Mode -> bench_port) (fields : list string) : option (list status_line * option bench_error) :=
  match fields with
  | [] => Some ([], Some NoWellFormedReplies)
  | field :: fields' =>
    match Atoi (TrimSpace field) with
    | None => Some ([], Some (BadBaud field))
    | Some baud =>
      match mode lineSettings baud with
      | Err err => Some ([], Some err)
      | Ok m =>
        replies ← queryStatus (lf_path lineSettings) (port_at m);
        match replies with
        | Err err => Some ([], Some err)
        | Ok replies =>
          let shown := map (fun '(t, reply) => ReplyLine baud t reply (verdict_of reply)) replies in
          if (length (List.filter (fun r : byte * bytes => well_formed r.2) replies) =? 4)%nat then Some ((shown ++ [Found baud])%list, None)
          else '(lines, err) ← status_loop lineSettings port_at fields'; Some ((shown ++ lines)%list, err)
        end
      end
    end
  end.

(** ** print *)

(** [buildJob]; [stamp] is the time as it is written. *)
Definition job_line (lines line : Z) : bytes :=
  bytes_of_string (pad_decimal 4 line +:+ "/" +:+ pad_decimal 4 lines +:+ " ABCDEFGHIJKLMNOPQRSTUVWXYZ0123" +:+ string_of_bytes [x0a])%string.

Definition buildJob (stamp : string) (baud : Z) (lines : Z) (cut : bool) : bytes :=
  (escInit ++ bytes_of_string ("serialbench " +:+ stamp +:+ string_of_bytes [x0a] +:+ "baud " +:+ fmt_d baud +:+ ", " +:+ fmt_d lines +:+ " lines" +:+ string_of_bytes [x0a])%string ++
   concat (map (fun line => job_line lines (Z.of_nat line)) (seq 1 (Z.to_nat lines))) ++
   bytes_of_string ("end of job, " +:+ fmt_d lines +:+ " lines" +:+ string_of_bytes [x0a])%string ++
   if cut then feedAndCut ++ [x30] else [])%list.

(** How long the line needs for [count] bytes, of ten bits each: as print says
    it, and as flood does. *)
Definition bits_over_baud (count : nat) (baud : Z) : float64 := float_div (float_mul (float_of_Z (Z.of_nat count)) (float_of_Z 10)) (float_of_Z baud).
Definition onLine (count : nat) (baud : Z) : option duration := Z_of_float (float_mul (bits_over_baud count baud) (float_of_Z Second)).
Definition flood_onLine (count : nat) (baud : Z) : option duration := (fun whole => int64 (whole * Second)) <$> Z_of_float (bits_over_baud count baud).

(** The loop that writes the job in parts: the calls, and how it ends. *)
Fixpoint print_loop (answers : list write_answer) (size total : nat) (rest : bytes) : list bytes * option (option bench_error) :=
  match rest, answers with
  | [], _ => ([], Some None)
  | _, [] => ([], None)
  | _, (accepted, err) :: answers' =>
    let part := take (Nat.min size (length rest)) rest in
    match err with
    | Some err => ([part], Some (Some (WriteFailed (total - length rest) total err)))
    | None => let (calls, ended) := print_loop answers' size total (drop accepted rest) in (part :: calls, ended)
    end
  end.

(** ** The FEED button *)

(** [awaitFeed], over the polls: the error of a poll's write, or its reply. *)
Fixpoint awaitFeed (pressed : bool) (polls : list (result string bytes)) : option (option string) :=
  match polls with
  | [] => None
  | Err err :: _ => Some (Some err)
  | Ok reply :: polls' =>
    match reply with
    | [b] =>
      if Z.land (byte_Z b) statusFixed =? statusExpect then
        if negb (Z.land (byte_Z b) 8 =? 0) then awaitFeed true polls'
        else if pressed then Some None else awaitFeed pressed polls'
      else awaitFeed pressed polls'
    | _ => awaitFeed pressed polls'
    end
  end.

(** ** flood *)

Inductive flood_line := Accepted (offered count total : Z).

(** The loop; [written] is an [int]. *)
Fixpoint flood_loop (answers : list write_answer) (chunk total written : Z) : list flood_line * option (option string) :=
  if written <? total then
    match answers with
    | [] => ([], None)
    | (accepted, err) :: answers' =>
      let offered := Z.min chunk (total - written) in
      let written := written + Z.of_nat accepted in
      match err with
      | Some err => ([Accepted offered (Z.of_nat accepted) written], Some (Some err))
      | None => let (lines, ended) := flood_loop answers' chunk total written in (Accepted offered (Z.of_nat accepted) written :: lines, ended)
      end
    end
  else ([], Some None).

(** [runFlood] after its flags: the lines, and how it ends. *)
Definition runFlood (lineSettings : lineFlags) (baud total chunk : Z) (open : option string) (answers : list write_answer) :
    list flood_line * option (option bench_error) :=
  if (baud <=? 0) || (chunk <=? 0) then ([], Some (Some ChunkRequired))
  else match mode lineSettings baud, open with
  | Err err, _ => ([], Some (Some err))
  | Ok _, Some err => ([], Some (Some (NotOpened (lf_path lineSettings) err)))
  | Ok _, None => let (lines, ended) := flood_loop answers chunk total 0 in (lines, option_map (option_map PortFailed) ended)
  end.

(** ** What is recorded during a job *)

Inductive flow := XON | XOFF.
Inductive incoming := Incoming (data : bytes) (names : list flow) | ReadFailed (err : string).

Definition flow_names (data : bytes) : list flow :=
  omap (fun b => if bool_decide (b = x11) then Some XON else if bool_decide (b = x13) then Some XOFF else None) data.

(** [readEverything], over the reads before the stop. *)
Fixpoint readEverything (reads : list (result string bytes)) : list incoming :=
  match reads with
  | [] => []
  | Err err :: _ => [ReadFailed err]
  | Ok [] :: reads' => readEverything reads'
  | Ok data :: reads' => Incoming data (flow_names data) :: readEverything reads'
  end.

Section Samples.
Context {sample : Type} `{EqDecision sample}.

(** [sampleModemLines]: the samples that differ from the last recorded. *)
Fixpoint changes_from (last : option sample) (samples : list sample) : list sample :=
  match samples with
  | [] => []
  | s :: samples' => if bool_decide (last = Some s) then changes_from last samples' else s :: changes_from (Some s) samples'
  end.
Definition sampleModemLines (samples : list sample) : list sample := changes_from None samples.
End Samples.

(** ** A whole print *)

(** What the port does, in turn: opening and its timeout, the polls of the FEED
    button, the writes of the job, the drain, what is recorded until the stop,
    and the requests after it. *)
Record print_port := mkPrintPort {
  pp_open : option string; pp_timeout : option string; pp_polls : list (result string bytes); pp_writes : list write_answer;
  pp_drain : option string; pp_samples : list string; pp_incoming : list (result string bytes); pp_exchange : byte -> exchange;
}.

(** What it prints: the parts offered to the port, the changes of the modem
    lines and what came in during the job, and the replies after it. *)
Record print_report := mkReport { calls : list bytes; changes : list string; came : list incoming; replies : list (byte * bytes) }.

(** [runPrint] after its flags, and how it ends. *)
Definition runPrint (lineSettings : lineFlags) (baud lines chunk : Z) (cut waitFeed : bool) (stamp : string) (port : print_port) :
    print_report * option (option bench_error) :=
  let failed err := (mkReport [] [] [] [], Some (Some err)) in
  if baud <=? 0 then failed BaudRequired
  else match mode lineSettings baud, pp_open port, pp_timeout port with
  | Err err, _, _ => failed err
  | Ok _, Some err, _ => failed (NotOpened (lf_path lineSettings) err)
  | Ok _, None, Some err => failed (PortFailed err)
  | Ok _, None, None =>
    match (if waitFeed then awaitFeed false (pp_polls port) else Some None) with
    | None => (mkReport [] [] [] [], None)
    | Some (Some err) => failed (PortFailed err)
    | Some None =>
      let job := buildJob stamp baud lines cut in
      let size := if chunk <=? 0 then length job else Z.to_nat chunk in
      match print_loop (pp_writes port) size (length job) job with
      | (calls, Some None) =>
        match pp_drain port with
        | Some err => (mkReport calls [] [] [], Some (Some (NotDrained err)))
        | None =>
          let report := mkReport calls (sampleModemLines (pp_samples port)) (readEverything (pp_incoming port)) in
          let (replies, ended) := requests (pp_exchange port) status_types in (report replies, ended)
        end
      | (calls, ended) => (mkReport calls [] [] [], ended)
      end
    end
  end.

(** ** What it does *)

(** What the port takes of a write are the first bytes of it, and all of them
    when it ends without an error. *)
Lemma writeAll_takes answers data :
  (writeAll answers data).1 `prefix_of` data /\ ((writeAll answers data).2 = Some None -> (writeAll answers data).1 = data).
Proof.
  revert data. induction answers as [|[accepted [err|]] answers IH]; intros [|b data]; cbn [writeAll fst snd]; try (by split; [apply prefix_nil|]); try done.
  - split; [|done]. exists (drop accepted (b :: data)). by rewrite take_drop.
  - destruct (IH (drop accepted (b :: data))) as [Hprefix Hall]. destruct (writeAll answers (drop accepted (b :: data))) as [took ended]. cbn [fst snd] in *.
    split.
    + destruct Hprefix as [rest Hrest]. exists rest. by rewrite <-app_assoc, <-Hrest, take_drop.
    + intros Hended. by rewrite (Hall Hended), take_drop.
Qed.

(** It ends when the port takes a byte at least of every call. *)
Lemma writeAll_ends answers data :
  Forall (fun a : write_answer => (0 < a.1)%nat /\ a.2 = None) answers -> (length data <= length answers)%nat -> (writeAll answers data).2 = Some None.
Proof.
  revert data. induction answers as [|[accepted err] answers IH]; intros data Hanswers Hlen; (destruct data as [|b data]; [by cbn|]); [cbn in Hlen; lia|].
  apply Forall_cons in Hanswers as [[Hpos Herr] Hanswers]. cbn [fst snd] in *. subst err. cbn [writeAll].
  specialize (IH (drop accepted (b :: data)) Hanswers). rewrite length_drop in IH. cbn [length] in *.
  destruct (writeAll answers (drop accepted (b :: data))). cbn [snd] in *. apply IH. lia.
Qed.

(** A port that takes nothing, and reports no error, keeps it writing. *)
Lemma writeAll_stalls n b data : (writeAll (replicate n (0%nat, None)) (b :: data)).2 = None.
Proof. induction n as [|n IH]; cbn [replicate writeAll]; [done|]. rewrite drop_0. by destruct (writeAll (replicate n (0%nat, None)) (b :: data)). Qed.

(** The rate that status reports answered every request well formed, and every
    rate before it did not. *)
Lemma status_found lineSettings port_at fields lines :
  status_loop lineSettings port_at fields = Some (lines, None) ->
  exists before field after baud m replies,
    fields = (before ++ field :: after)%list /\ Atoi (TrimSpace field) = Some baud /\ mode lineSettings baud = Ok m /\
    queryStatus (lf_path lineSettings) (port_at m) = Some (Ok replies) /\ last lines = Some (Found baud) /\
    length (List.filter (fun r : byte * bytes => well_formed r.2) replies) = 4%nat.
Proof.
  revert lines. induction fields as [|field fields IH]; intros lines; cbn [status_loop]; [done|].
  destruct (Atoi (TrimSpace field)) as [baud|] eqn:Hbaud; [|done]. destruct (mode lineSettings baud) as [m|] eqn:Hmode; [|done].
  destruct (queryStatus (lf_path lineSettings) (port_at m)) as [[replies|]|] eqn:Hquery; cbn [mbind option_bind]; try done.
  destruct (length (List.filter (fun r : byte * bytes => well_formed r.2) replies) =? 4)%nat eqn:Hfour.
  - intros [= <-]. exists [], field, fields, baud, m, replies. split_and!; try done; [apply last_snoc|by apply Nat.eqb_eq].
  - destruct (status_loop lineSettings port_at fields) as [[lines' err]|] eqn:Hloop; cbn [mbind option_bind]; [|done]. intros [= <- ->].
    destruct (IH lines' eq_refl) as (before & field' & after & baud' & m' & replies' & -> & ? & ? & ? & Hlast & ?).
    exists (field :: before), field', after, baud', m', replies'. split_and!; try done. by rewrite last_app, Hlast.
Qed.

Definition feeding (poll : result string bytes) : Prop :=
  exists b, poll = Ok [b] /\ well_formed [b] = true /\ Z.land (byte_Z b) 8 <> 0.
Definition resting (poll : result string bytes) : Prop :=
  exists b, poll = Ok [b] /\ well_formed [b] = true /\ Z.land (byte_Z b) 8 = 0.

(** It goes on only once the button was seen pressed, and then released. *)
Lemma awaitFeed_released pressed polls :
  awaitFeed pressed polls = Some None ->
  exists before after poll, polls = (before ++ poll :: after)%list /\ resting poll /\ (pressed = true \/ Exists feeding before).
Proof.
  revert pressed. induction polls as [|[reply|err] polls IH]; intros pressed; cbn [awaitFeed]; [done| |done].
  assert (Hlater : forall pressed', (pressed' = true -> pressed = true \/ feeding (Ok reply)) -> awaitFeed pressed' polls = Some None ->
    exists before after poll, Ok reply :: polls = (before ++ poll :: after)%list /\ resting poll /\ (pressed = true \/ Exists feeding before)).
  { intros pressed' Hp (before & after & poll & -> & Hrest & Hpressed)%IH. exists (Ok reply :: before), after, poll. split; [done|]. split; [done|].
    destruct Hpressed as [Hpressed|Hbefore]; [|right; by apply Exists_cons_tl]. destruct (Hp Hpressed); [by left|right; by apply Exists_cons_hd]. }
  destruct reply as [|b [|? ?]]; [by apply Hlater; auto| |by apply Hlater; auto].
  destruct (Z.land (byte_Z b) statusFixed =? statusExpect) eqn:Hwell; [|by apply Hlater; auto].
  destruct (Z.land (byte_Z b) 8 =? 0) eqn:Hbit; cbn [negb].
  - destruct pressed; [|by apply Hlater; auto]. intros _. exists [], polls, (Ok [b]). split; [done|]. split; [|by left]. exists b. split_and!; [done..|lia].
  - apply Hlater. intros _. right. exists b. split_and!; [done..|lia].
Qed.

(** A print that comes to its end has offered the job in parts of the size that
    was asked for, the first of them its start. *)
Lemma print_parts answers size total rest calls ended :
  print_loop answers size total rest = (calls, ended) -> Forall (fun part => (length part <= size)%nat) calls /\ (forall part, head calls = Some part -> part `prefix_of` rest).
Proof.
  revert rest calls ended. induction answers as [|[accepted [err|]] answers IH]; intros [|b rest] calls ended; cbn [print_loop]; try (intros [= <- <-]; by split).
  - intros [= <- <-]. split; [apply Forall_singleton; rewrite length_take; lia|]. intros part [= <-]. exists (drop (Nat.min size (length (b :: rest))) (b :: rest)). by rewrite take_drop.
  - destruct (print_loop answers size total (drop accepted (b :: rest))) as [calls' ended'] eqn:Hloop. intros [= <- <-].
    destruct (IH _ _ _ Hloop) as [Hsizes _]. split; [apply Forall_cons; split; [rewrite length_take; lia|done]|].
    intros part [= <-]. exists (drop (Nat.min size (length (b :: rest))) (b :: rest)). by rewrite take_drop.
Qed.

(** Every recorded sample differs from the one before it, and the last is the
    line's state at the stop. *)
Lemma changes_differ {sample} `{EqDecision sample} (samples : list sample) last_ :
  (forall i s t, changes_from last_ samples !! i = Some s -> changes_from last_ samples !! S i = Some t -> s <> t) /\
  (forall s, head (changes_from last_ samples) = Some s -> last_ <> Some s) /\
  from_option Some last_ (last (changes_from last_ samples)) = from_option Some last_ (last samples).
Proof.
  revert last_. induction samples as [|s samples IH]; intros last_; cbn [changes_from]; [by split_and!|].
  assert (Hlast : forall o, from_option Some o (last (s :: samples)) = from_option Some (Some s) (last samples)) by (intros o; rewrite last_cons; by destruct (last samples)).
  rewrite Hlast. case_bool_decide as Hs.
  - subst last_. apply IH.
  - destruct (IH (Some s)) as (Hnext & Hhead & Hend). split_and!.
    + intros [|i] t u; cbn; [|apply Hnext]. intros [= <-] Hu. assert (head (changes_from (Some s) samples) = Some u) as Hu' by (by rewrite head_lookup). specialize (Hhead u Hu'). congruence.
    + by intros t [= <-].
    + rewrite last_cons. destruct (last (changes_from (Some s) samples)); exact Hend.
Qed.

(** flood drops the part of a second before it says how long the line needs;
    print keeps it: for 61440 bytes at 115200 baud, 5 s and 5.333 s. *)
Lemma flood_line_truncated : flood_onLine 61440 115200 = Some (5 * Second) /\ onLine 61440 115200 = Some 5333333333.
Proof. by vm_compute. Qed.

Example serialbench_examples :
  verdict_of [x16] = WellFormed /\ verdict_of [x13] = Malformed /\ verdict_of [] = NoReply /\
  awaitFeed false [Ok []; Ok [x16]; Ok [x1e]; Ok [x1e]; Ok [x12]; Ok [x1e]] = Some None /\ awaitFeed false [Ok [x12]; Ok [x1e]] = None /\
  length (buildJob "2026-01-01 00:00:00" 9600 2 true) = 159%nat /\
  flow_names [x41; x13; x11] = [XOFF; XON] /\ sampleModemLines [1; 1; 2; 2; 1] = [1; 2; 1].
Proof. vm_compute. auto 10. Qed.
