(* ===== verification/TxSystem.v ===== *)
(** * The goroutines of a device's tx: the interleavings of internal/core/tx.go

    The intake admits tx, the writer writes them, the reader and the publishers
    change the pipeline, and the agent may stop, at any point between two of
    their steps. A step is what happens under one lock; [intakeMu] is held from
    a claim to its push, so that the agent does not start to stop in between. *)
From S2P Require Import Prelude GoLib Base64 Topics Wire Json ReadTx Encode Logging Queue Device Pipeline Tx.
#[local] Open Scope core_scope.

(** ** States *)

(** The intake between two steps: [IDecided] after the locks of [admitTxTo], and
    [IRecorded] when a claimed job's accepted is queued and the job is not. *)
Inductive intake_pc := IIdle | IDecided (message : TxMessage) (now : time) (adm : admission) | IRecorded (adm : admission).

(** The writer: in [next], about to check, in [Write], or about to take [txMu]
    with when the tx was written, if it was; or returned. *)
Inductive writer_pc :=
  | WIdle
  | WTrying (job : nat) (attempts : Z)
  | WWriting (job : nat) (attempts : Z)
  | WDone (job : nat) (written : option time)
  | WFinished.

(** [answers] are the results recorded, oldest first, with the job each is of;
    [remembered] the ids remembered, oldest first. Neither is in the program:
    they are what its outside saw. *)
Record system := mkSys {
  tx_ : tx_world; intake : intake_pc; writer : writer_pc; stopping : bool;
  answers : list (option nat * TxResult); remembered : list string;
}.

Section System.
Context (opts : Options) (uuid_parse : string -> bool) (problem_text : tx_reason -> string) (dev : CoreDevice).

Definition start_world (b : world) : tx_world := mkTxWorld b ∅ (newWrittenIDs (TxRememberedIDs dev)) newWaitingQueue [].

Definition system_started (s : system) : Prop := exists b, s = mkSys (start_world b) IIdle WIdle false [] [].

(** The record of a job's verdict; its result is returned. *)
Definition write_record (job : txJob) (attempts : Z) (v : verdict) (now : time) (took : duration) (w : tx_world) : TxResult * tx_world :=
  let line := line_of (base w) in
  let (result, b) :=
    (let! result := draw (verdict_result opts (WireDevice dev) (isOpen line) (job_ref job) attempts v now) in
     recordTxResult result now (verdict_attrs opts (job_data job) attempts v took);; ret result) (base w) in
  (result, with_base b w).

Definition update_job (j : nat) (f : txJob -> txJob) (w : tx_world) : tx_world := with_jobs (alter f j (jobs w)) w.

(** Whether the intake holds [intakeMu]. *)
Definition claimed (adm : admission) : bool := match adm with AdmitClaimed _ _ _ => true | _ => false end.

Definition holds_intake (pc : intake_pc) : bool :=
  match pc with IIdle => false | IDecided _ _ adm => claimed adm | IRecorded adm => claimed adm end.

(** ** Steps *)

Inductive sys_step : system -> system -> Prop :=
  (** [admitTxTo], up to the release of [txMu] *)
  | step_claim w wr stop ans rem message now adm w' :
      admit_claim uuid_parse message now stop w = (adm, w') ->
      sys_step (mkSys w IIdle wr stop ans rem) (mkSys w' (IDecided message now adm) wr stop ans rem)
  (** its [recordTxResult] *)
  | step_record w wr stop ans rem message now adm result w' :
      admit_record opts problem_text message now adm w = (result, w') ->
      sys_step (mkSys w (IDecided message now adm) wr stop ans rem)
        (mkSys w' (if claimed adm then IRecorded adm else IIdle) wr stop (ans ++ [(admission_job adm, result)]) rem)
  (** the push of a claimed job *)
  | step_push_job w wr stop ans rem adm :
      sys_step (mkSys w (IRecorded adm) wr stop ans rem) (mkSys (admit_push adm w) IIdle wr stop ans rem)
  (** [writeTxs] takes a job, or returns *)
  | step_next w i stop ans rem q j :
      pop (tx_queue w) = (q, Some j) ->
      sys_step (mkSys w i WIdle stop ans rem) (mkSys (with_queue q w) i (WTrying j 0) stop ans rem)
  | step_end w i stop ans rem :
      wait (tx_queue w) = Some false ->
      sys_step (mkSys w i WIdle stop ans rem) (mkSys w i WFinished stop ans rem)
  (** [writeTx]: its checks fail *)
  | step_refuse w i stop ans rem j attempts job now took v result w' :
      jobs w !! j = Some job -> write_check (writable dev) job now stop = Some v ->
      write_record job attempts v now took w = (result, w') ->
      sys_step (mkSys w i (WTrying j attempts) stop ans rem)
        (mkSys w' i (WDone j (verdict_written v now)) stop (ans ++ [(Some j, result)]) rem)
  (** its checks pass, and it calls [Write] *)
  | step_write w i stop ans rem j attempts job now :
      jobs w !! j = Some job -> write_check (writable dev) job now stop = None ->
      sys_step (mkSys w i (WTrying j attempts) stop ans rem)
        (mkSys (update_job j (setStage TxWriting now) w) i (WWriting j attempts) stop ans rem)
  | step_progress w i stop ans rem j attempts n :
      sys_step (mkSys w i (WWriting j attempts) stop ans rem)
        (mkSys (update_job j (progress n) w) i (WWriting j attempts) stop ans rem)
  (** [Write] returns: the port was not open, and it is asked for *)
  | step_retry w i stop ans rem j attempts written err ctx now :
      write_verdict (TxOpenAttempts dev) attempts written err ctx (lastFailure (line_of (base w))) = None ->
      sys_step (mkSys w i (WWriting j attempts) stop ans rem)
        (mkSys (update_job j (setStage TxQueued now) w) i (WTrying j (attempts + 1)) stop ans rem)
  (** or it ends the tx *)
  | step_verdict w i stop ans rem j attempts job written err ctx now took v result w' :
      jobs w !! j = Some job ->
      write_verdict (TxOpenAttempts dev) attempts written err ctx (lastFailure (line_of (base w))) = Some v ->
      write_record job attempts v now took w = (result, w') ->
      sys_step (mkSys w i (WWriting j attempts) stop ans rem)
        (mkSys w' i (WDone j (verdict_written v now)) stop (ans ++ [(Some j, result)]) rem)
  (** what [writeTxs] does under [txMu] *)
  | step_done w i stop ans rem j job written :
      jobs w !! j = Some job ->
      sys_step (mkSys w i (WDone j written) stop ans rem)
        (mkSys (write_done job written w) i WIdle stop ans
           (match written with Some _ => rem ++ [ref_ID (job_ref job)] | None => rem end))
  (** [Run]: the agent starts to stop, and closes the queue *)
  | step_stop w i wr stop ans rem :
      holds_intake i = false -> sys_step (mkSys w i wr stop ans rem) (mkSys w i wr true ans rem)
  | step_close_queue w i wr ans rem :
      sys_step (mkSys w i wr true ans rem) (mkSys (with_queue (close (tx_queue w)) w) i wr true ans rem)
  (** the reader, the publishers and the keepalive, on what is not the tx's *)
  | step_other w i wr stop ans rem b :
      sys_step (mkSys w i wr stop ans rem) (mkSys (with_base b w) i wr stop ans rem).

(** ** The jobs that are in hand *)

(** Claimed, and not yet answered. *)
Definition unanswered (s : system) : list nat := match intake s with IDecided _ _ adm => option_list (admission_job adm) | _ => [] end.

(** Answered as accepted, and without a verdict. *)
Definition pending (s : system) : list nat :=
  (match intake s with IRecorded adm => option_list (admission_job adm) | _ => [] end) ++
  items (tx_queue (tx_ s)) ++
  (match writer s with WTrying j _ | WWriting j _ => [j] | _ => [] end).

(** With a verdict, and still in [txActive]. *)
Definition finishing (s : system) : list nat := match writer s with WDone j _ => [j] | _ => [] end.

Definition in_hand (s : system) : list nat := unanswered s ++ pending s ++ finishing s.

Definition id_at (s : system) (j : nat) : option string := (fun job => ref_ID (job_ref job)) <$> jobs (tx_ s) !! j.

(** The states a job's results gave, oldest first. *)
Definition answers_of (ans : list (option nat * TxResult)) (j : nat) : list TxState :=
  omap (fun a => if bool_decide (a.1 = Some j) then Some (txr_State a.2) else None) ans.

Definition final (st : TxState) : Prop := st = TxWrittenState \/ st = TxFailedState.

Record sys_ok (s : system) : Prop := {
  so_nodup : NoDup (in_hand s);
  so_range : forall j, j ∈ in_hand s -> j < length (jobs (tx_ s));
  so_active : forall id j, txActive (tx_ s) !! id = Some j <-> j ∈ in_hand s /\ id_at s j = Some id;
  so_ids : ids_ok (written_ids (tx_ s)) /\ limit (written_ids (tx_ s)) = TxRememberedIDs dev;
  so_window : order (written_ids (tx_ s)) = lastn (Z.to_nat (TxRememberedIDs dev)) (remembered s);
  so_new : forall j id, j ∈ in_hand s -> id_at s j = Some id -> id ∉ order (written_ids (tx_ s));
  so_unanswered : forall j, j ∈ unanswered s \/ length (jobs (tx_ s)) <= j -> answers_of (answers s) j = [];
  so_pending : forall j, j ∈ pending s -> answers_of (answers s) j = [TxAcceptedState];
  so_finished : forall j, j < length (jobs (tx_ s)) -> j ∉ unanswered s -> j ∉ pending s ->
    exists st, final st /\ answers_of (answers s) j = [TxAcceptedState; st];
  so_closed : closed (tx_queue (tx_ s)) = true -> stopping s = true;
  so_stopping : stopping s = true -> holds_intake (intake s) = false;
  so_ended : writer s = WFinished -> items (tx_queue (tx_ s)) = [] /\ closed (tx_queue (tx_ s)) = true;
  so_recorded : forall adm, intake s = IRecorded adm -> claimed adm = true;
}.

(** ** The invariant holds *)

Lemma answers_of_snoc ans t r j :
  answers_of (ans ++ [(t, r)]) j = answers_of ans j ++ (if bool_decide (t = Some j) then [txr_State r] else []).
Proof. unfold answers_of. rewrite omap_app. cbn. by case_bool_decide. Qed.

Lemma id_at_ext s s' : (forall j, job_ref <$> jobs (tx_ s') !! j = job_ref <$> jobs (tx_ s) !! j) -> forall j, id_at s' j = id_at s j.
Proof.
  intros H j. specialize (H j). unfold id_at. destruct (jobs (tx_ s') !! j), (jobs (tx_ s) !! j); cbn in H |- *; try done. by injection H as ->.
Qed.

(** A state that differs in nothing the invariant speaks of, up to the order of
    the pending jobs. *)
Lemma sys_ok_same s s' :
  sys_ok s ->
  txActive (tx_ s') = txActive (tx_ s) -> written_ids (tx_ s') = written_ids (tx_ s) ->
  length (jobs (tx_ s')) = length (jobs (tx_ s)) -> (forall j, id_at s' j = id_at s j) ->
  unanswered s' = unanswered s -> pending s' ≡ₚ pending s -> finishing s' = finishing s ->
  answers s' = answers s -> remembered s' = remembered s ->
  (closed (tx_queue (tx_ s')) = true -> stopping s' = true) ->
  (stopping s' = true -> holds_intake (intake s') = false) ->
  (writer s' = WFinished -> items (tx_queue (tx_ s')) = [] /\ closed (tx_queue (tx_ s')) = true) ->
  (forall adm, intake s' = IRecorded adm -> claimed adm = true) ->
  sys_ok s'.
Proof.
  intros [Hnd Hr Ha Hi Hw Hn Hu Hp Hf Hc Hs He Hrec] Ea Ei El Eid Eu Ep Ef Eans Erem Hc' Hs' He' Hrec'.
  assert (Eh : in_hand s' ≡ₚ in_hand s) by (unfold in_hand; by rewrite Eu, Ep, Ef).
  assert (Ehin : forall j, j ∈ in_hand s' <-> j ∈ in_hand s) by (intros; by rewrite Eh).
  assert (Epin : forall j, j ∈ pending s' <-> j ∈ pending s) by (intros; by rewrite Ep).
  split; try done.
  - by rewrite Eh.
  - intros j. rewrite Ehin, El. apply Hr.
  - intros id j. by rewrite Ea, Ehin, Eid.
  - by rewrite Ei.
  - by rewrite Ei, Erem.
  - intros j id. rewrite Ehin, Eid, Ei. apply Hn.
  - intros j. rewrite Eu, El, Eans. apply Hu.
  - intros j. rewrite Epin, Eans. apply Hp.
  - intros j. rewrite El, Eu, Epin, Eans. apply Hf.
Qed.

(** A result recorded for a job that moves from one group to the next. *)
Lemma sys_ok_answer s s' j r :
  sys_ok s -> tx_ s' = with_base (base (tx_ s')) (tx_ s) ->
  remembered s' = remembered s -> stopping s' = stopping s -> answers s' = answers s ++ [(Some j, r)] ->
  (stopping s' = true -> holds_intake (intake s') = false) ->
  (writer s' = WFinished -> items (tx_queue (tx_ s')) = [] /\ closed (tx_queue (tx_ s')) = true) ->
  (forall adm, intake s' = IRecorded adm -> claimed adm = true) ->
  in_hand s' ≡ₚ in_hand s ->
  ((unanswered s = j :: unanswered s' /\ pending s' ≡ₚ j :: pending s /\ txr_State r = TxAcceptedState) \/
   (unanswered s' = unanswered s /\ pending s ≡ₚ j :: pending s' /\ final (txr_State r))) ->
  sys_ok s'.
Proof.
  intros [Hnd Hr Ha Hi Hw Hn Hu Hp Hf Hc Hs He Hrec] Etx Erem Est Eans Hs' He' Hrec' Eh Hmove.
  assert (Etx' : txActive (tx_ s') = txActive (tx_ s) /\ written_ids (tx_ s') = written_ids (tx_ s) /\
    tx_queue (tx_ s') = tx_queue (tx_ s) /\ jobs (tx_ s') = jobs (tx_ s)) by (rewrite Etx; by split_and!).
  destruct Etx' as (Ea & Ei & Eq & Ej).
  assert (Eid : forall j, id_at s' j = id_at s j) by (intros; unfold id_at; by rewrite Ej).
  assert (Ehin : forall j, j ∈ in_hand s' <-> j ∈ in_hand s) by (intros; by rewrite Eh).
  assert (Hans : forall i, answers_of (answers s') i = answers_of (answers s) i ++ (if bool_decide (i = j) then [txr_State r] else [])).
  { intros i. rewrite Eans, answers_of_snoc. f_equal. by rewrite (bool_decide_ext (Some j = Some i) (i = j)) by naive_solver. }
  assert (Hjin : j ∈ in_hand s).
  { unfold in_hand. destruct Hmove as [(-> & _)|(_ & -> & _)]; set_solver. }
  pose proof (Hr j Hjin) as Hjlen.
  assert (Hnd' : NoDup (unanswered s' ++ pending s' ++ finishing s')) by (change (NoDup (in_hand s')); by rewrite Eh).
  split; try done.
  - intros i. rewrite Ehin, Ej. apply Hr.
  - intros id i. by rewrite Ea, Ehin, Eid.
  - by rewrite Ei.
  - by rewrite Ei, Erem.
  - intros i id. rewrite Ehin, Eid, Ei. apply Hn.
  - intros i Hin. rewrite Hans, Ej in *. rewrite bool_decide_eq_false_2, app_nil_r.
    + apply Hu. destruct Hin as [Hin|]; [left|by right]. destruct Hmove as [(-> & _)|(<- & _)]; set_solver.
    + intros ->. destruct Hin as [Hin|]; [|lia]. unfold in_hand in Hnd.
      destruct Hmove as [(Eu & _)|(Eu & Ep & _)].
      * rewrite Eu in Hnd. apply NoDup_app in Hnd as (Hnd & _). apply NoDup_cons in Hnd as [Hnd _]. done.
      * apply NoDup_app in Hnd as (_ & Hdis & _). apply (Hdis j); [by rewrite <-Eu|]. rewrite Ep. set_solver.
  - intros i Hin. rewrite Hans. destruct Hmove as [(Eu & Ep & Est')|(Eu & Ep & Hfin)].
    + rewrite Ep in Hin. apply elem_of_cons in Hin as [->|Hin].
      * rewrite bool_decide_eq_true_2, Hu, Est' by (done || left; rewrite Eu; set_solver). done.
      * rewrite bool_decide_eq_false_2, app_nil_r by
          (intros ->; unfold in_hand in Hnd; apply NoDup_app in Hnd as (_ & Hdis & _); apply (Hdis j); [rewrite Eu|]; set_solver).
        by apply Hp.
    + rewrite bool_decide_eq_false_2, app_nil_r.
      * apply Hp. rewrite Ep. set_solver.
      * intros ->. unfold in_hand in Hnd. rewrite Ep in Hnd. apply NoDup_app in Hnd as (_ & _ & Hnd).
        apply NoDup_app in Hnd as (Hnd & _). apply NoDup_cons in Hnd as [Hnd _]. done.
  - intros i Hlen Hun Hpe. rewrite Hans, Ej in *. destruct Hmove as [(Eu & Ep & Est')|(Eu & Ep & Hfin)].
    + assert (i <> j) by (intros ->; apply Hpe; rewrite Ep; set_solver).
      rewrite bool_decide_eq_false_2, app_nil_r by done. apply Hf; [done|rewrite Eu; set_solver|].
      intros Hin. apply Hpe. rewrite Ep. set_solver.
    + destruct (decide (i = j)) as [->|Hne].
      * rewrite bool_decide_eq_true_2, Hp by (done || rewrite Ep; set_solver). by eexists.
      * rewrite bool_decide_eq_false_2, app_nil_r by done. apply Hf; [done|by rewrite <-Eu|]. rewrite Ep. set_solver.
  - by rewrite Eq, Est.
Qed.

Lemma admit_record_spec message now adm w :
  let '(result, w') := admit_record opts problem_text message now adm w in
  w' = with_base (base w') w /\ txr_State result = txCodeStates (admission_code adm).
Proof.
  unfold admit_record.
  pose proof (admission_result_spec opts problem_text message now adm (line_of (base w)) (jobs w) (ids (base w))) as Hres.
  destruct (admission_result _ _ _ _ _ _ _) as [make extra]. unfold bind, draw, ret. cbn [fst snd] in Hres.
  destruct (make (ids (base w))) as [result n]. destruct (recordTxResult _ _ _ _) as [[] b]. by destruct Hres as (_ & ? & _).
Qed.

Lemma write_record_spec job attempts v now took w :
  let '(result, w') := write_record job attempts v now took w in
  w' = with_base (base w') w /\ final (txr_State result).
Proof.
  unfold write_record, bind, draw, ret.
  pose proof (verdict_result_spec opts (WireDevice dev) (isOpen (line_of (base w))) (job_ref job) attempts v now (ids (base w))) as Hres.
  destruct (verdict_result _ _ _ _ _ _ _ _) as [result n]. cbn [fst] in Hres.
  destruct (recordTxResult _ _ _ _) as [[] b]. destruct Hres as (_ & Hst & _). split; [done|]. rewrite Hst. unfold final. destruct v; auto.
Qed.

Lemma update_job_refs j f w i :
  (forall job, job_ref (f job) = job_ref job) -> job_ref <$> jobs (update_job j f w) !! i = job_ref <$> jobs w !! i.
Proof.
  intros Hf. unfold update_job. cbn. destruct (decide (i = j)) as [->|Hne].
  - rewrite list_lookup_alter_eq. destruct (jobs w !! j); [cbn; by rewrite Hf|done].
  - by rewrite list_lookup_alter_ne.
Qed.

Lemma setStage_ref stage now job : job_ref (setStage stage now job) = job_ref job.
Proof. unfold setStage. by case_bool_decide. Qed.

(** An answer to a tx that is no job. *)
Lemma sys_ok_unanswered s s' (t : option nat) r :
  sys_ok s -> t = None -> tx_ s' = with_base (base (tx_ s')) (tx_ s) -> writer s' = writer s -> unanswered s = [] ->
  holds_intake (intake s) = false -> intake s' = IIdle -> pending s' = pending s ->
  remembered s' = remembered s -> stopping s' = stopping s -> answers s' = answers s ++ [(t, r)] ->
  sys_ok s'.
Proof.
  intros Hok -> Etx Ewr Eu Hfree Ei' Ep Erem Est Eans.
  assert (Hans : forall j, answers_of (answers s') j = answers_of (answers s) j).
  { intros j. rewrite Eans, answers_of_snoc, bool_decide_eq_false_2 by done. apply app_nil_r. }
  assert (Etx' : txActive (tx_ s') = txActive (tx_ s) /\ written_ids (tx_ s') = written_ids (tx_ s) /\
    tx_queue (tx_ s') = tx_queue (tx_ s) /\ jobs (tx_ s') = jobs (tx_ s)) by (rewrite Etx; by split_and!).
  destruct Etx' as (Ea & Eids & Eq & Ej). clear Etx.
  assert (Hsame : sys_ok (mkSys (tx_ s') (intake s') (writer s') (stopping s') (answers s) (remembered s'))).
  { apply (sys_ok_same s); cbn [tx_ intake writer stopping answers remembered]; try done; rewrite ?Ej, ?Eq, ?Est, ?Ewr, ?Ei'; try done; try apply Hok.
    - intros j. unfold id_at. cbn [tx_]. by rewrite Ej.
    - rewrite <-Ep. unfold pending. cbn [intake tx_ writer]. by rewrite Ei', Ewr. }
  destruct Hsame as [Hnd Hr Ha Hi Hw Hn Hu Hp Hf Hc Hs He Hrec]. destruct s'. cbn in *.
  split; try done; cbn; intros; rewrite Hans; eauto.
Qed.

(** A claim: the new job is in hand and is answered by nothing yet. *)
Lemma claim_ok w wr stop ans rem message now adm w' :
  sys_ok (mkSys w IIdle wr stop ans rem) -> admit_claim uuid_parse message now stop w = (adm, w') ->
  sys_ok (mkSys w' (IDecided message now adm) wr stop ans rem).
Proof.
  intros Hok Hclaim. pose proof (admit_claim_spec uuid_parse message now stop w) as Hspec. rewrite Hclaim in Hspec.
  destruct Hspec as (Hbase & Hids & Hqueue & Hadm).
  destruct (claimed adm) eqn:Hcl.
  2: { assert (w' = w) as -> by (destruct adm; try done; by destruct Hadm).
       assert (admission_job adm = None) as Hjob by (by destruct adm).
       eapply sys_ok_same; [exact Hok|..]; try done; unfold unanswered; cbn; rewrite ?Hjob; try done; try apply Hok. }
  destruct adm as [| | | |j ref data]; try done. destruct Hadm as (_ & Hnot & Hnew & -> & -> & Hact & Hjobs).
  destruct Hok as [Hnd Hr Ha Hi Hw Hn Hu Hp Hf Hc Hs He Hrec]. cbn [tx_ intake writer answers stopping] in *.
  set (s := mkSys w IIdle wr false ans rem) in *.
  set (s' := mkSys w' (IDecided message now (AdmitClaimed (length (jobs w)) ref data)) wr false ans rem).
  assert (Epen : pending s' = pending s) by (unfold pending; cbn; by rewrite Hqueue).
  assert (Efin : finishing s' = finishing s) by done.
  assert (Eh : in_hand s' = length (jobs w) :: in_hand s) by (unfold in_hand; rewrite Epen, Efin; done).
  assert (Hfresh : length (jobs w) ∉ in_hand s) by (intros Hin; specialize (Hr _ Hin); lia).
  assert (Eid : forall j, j < length (jobs w) -> id_at s' j = id_at s j)
    by (intros j Hj; unfold id_at; cbn; rewrite Hjobs, lookup_app_l by done; done).
  assert (Eidn : id_at s' (length (jobs w)) = Some (ref_ID ref))
    by (unfold id_at; cbn; rewrite Hjobs, lookup_app_r, Nat.sub_diag by lia; done).
  assert (Hlen : length (jobs w') = S (length (jobs w))) by (rewrite Hjobs, length_app; cbn; lia).
  split; fold s'; change (tx_ s') with w'; change (answers s') with ans; rewrite ?Hids, ?Hqueue; try done.
  - rewrite Eh. by constructor.
  - rewrite Eh, Hlen. intros j [->|Hj]%elem_of_cons; [lia|]. specialize (Hr j Hj). lia.
  - intros id j. rewrite Hact, Eh, elem_of_cons. destruct (decide (id = ref_ID ref)) as [->|Hne].
    + rewrite lookup_insert_eq. split; [intros [= <-]; auto|]. intros [[->|Hj] Hid]; [done|].
      rewrite Eid in Hid by auto. assert (Hx : txActive w !! ref_ID ref = Some j) by (by apply Ha). congruence.
    + rewrite lookup_insert_ne by done. rewrite Ha. split.
      * intros [Hj Hid]. rewrite Eid by auto. auto.
      * intros [[->|Hj] Hid]; [congruence|]. rewrite Eid in Hid by auto. auto.
  - intros j id. rewrite Eh. intros [->|Hj]%elem_of_cons Hid; [|rewrite Eid in Hid by auto; by apply (Hn j)].
    rewrite Eidn in Hid. injection Hid as <-. intros Hin. apply (ids_dom _ (proj1 Hi)) in Hin. unfold lookup_id in Hnew.
    rewrite Hnew in Hin. by destruct Hin.
  - intros j [Hj|Hj].
    + change (j ∈ [length (jobs w)]) in Hj. apply list_elem_of_singleton in Hj as ->. apply Hu. right. cbn. lia.
    + apply Hu. right. cbn. lia.
  - intros j. rewrite Epen. apply Hp.
  - intros j Hj Hun Hpe. change (j ∉ [length (jobs w)]) in Hun. apply Hf; [|set_solver|by rewrite <-Epen].
    assert (j <> length (jobs w)) by set_solver. lia.
Qed.

(** A job leaves: it is no longer in hand, and its id is remembered when it was
    written. *)
Lemma done_ok w i stop ans rem j job written :
  sys_ok (mkSys w i (WDone j written) stop ans rem) -> jobs w !! j = Some job ->
  sys_ok (mkSys (write_done job written w) i WIdle stop ans
    (match written with Some _ => rem ++ [ref_ID (job_ref job)] | None => rem end)).
Proof.
  intros [Hnd Hr Ha Hi Hw Hn Hu Hp Hf Hc Hs He Hrec] Hjob.
  set (s := mkSys w i (WDone j written) stop ans rem) in *. set (id := ref_ID (job_ref job)).
  set (s' := mkSys (write_done job written w) i WIdle stop ans (match written with Some _ => rem ++ [id] | None => rem end)).
  change (tx_ s) with w in *. change (answers s) with ans in *. change (remembered s) with rem in *.
  assert (Eh : in_hand s ≡ₚ j :: in_hand s').
  { unfold in_hand, finishing, unanswered, pending, s, s'. cbn. rewrite !app_nil_r, !(assoc_L (++)). by rewrite <-Permutation_cons_append. }
  assert (Epen : pending s' = pending s) by done.
  assert (Hidj : id_at s j = Some id) by (unfold id_at; cbn; by rewrite Hjob).
  assert (Hnd' : NoDup (j :: in_hand s')) by (by rewrite <-Eh). apply NoDup_cons in Hnd' as [Hjnot Hnd'].
  assert (Hsub : forall k, k ∈ in_hand s' -> k ∈ in_hand s) by (intros k Hk; rewrite Eh; by right).
  assert (Hjin : j ∈ in_hand s) by (rewrite Eh; by left).
  assert (Hother : forall k, k ∈ in_hand s' -> id_at s k <> Some id).
  { intros k Hk Hid. assert (Hk1 : txActive w !! id = Some k) by (apply Ha; auto).
    assert (Hj1 : txActive w !! id = Some j) by (apply Ha; auto). rewrite Hj1 in Hk1. injection Hk1 as ->. done. }
  assert (Hidnew : id ∉ order (written_ids w)) by (by apply (Hn j)).
  assert (Hids : exists ids', written_ids (write_done job written w) = ids' /\ ids_ok ids' /\ limit ids' = TxRememberedIDs dev /\
    order ids' = lastn (Z.to_nat (TxRememberedIDs dev)) (match written with Some _ => rem ++ [id] | None => rem end) /\
    (forall x, x ∈ order ids' -> x ∈ order (written_ids w) \/ x = id)).
  { eexists. split; [reflexivity|]. destruct Hi as [Hi Hl]. cbn. destruct written as [t|]; [|by split_and!; auto].
    destruct (remember_ok (written_ids w) id t Hi) as (ids' & Hrem & Hok' & Hl' & _ & Ho' & _). fold id. rewrite Hrem. cbn.
    rewrite bool_decide_eq_false_2, Hl in Ho' by done. split_and!; try done; [congruence|by rewrite Ho', Hw, lastn_lastn_app|].
    intros x. rewrite Ho'. intros Hx%lastn_elem. set_solver. }
  destruct Hids as (ids' & Hids & Hok' & Hl' & Ho' & Hsubids).
  split; fold s'; change (tx_ s') with (write_done job written w); change (answers s') with ans; rewrite ?Hids; try done.
  - intros k Hk. by apply Hr, Hsub.
  - intros id' k. change (txActive (write_done job written w)) with (delete id (txActive w)).
    change (id_at s' k) with (id_at s k). destruct (decide (id' = id)) as [->|Hne].
    + rewrite lookup_delete_eq. split; [done|]. intros [Hk Hid]. by destruct (Hother k Hk).
    + rewrite lookup_delete_ne, Ha by done. split; [|naive_solver]. intros [Hk Hid]. split; [|done].
      rewrite Eh in Hk. apply elem_of_cons in Hk as [->|]; [congruence|done].
  - intros k id' Hk Hid Hin. apply Hsubids in Hin as [Hin| ->]; [by apply (Hn k id'); auto|]. by destruct (Hother k Hk).
Qed.

Lemma sys_step_ok s s' : sys_ok s -> sys_step s s' -> sys_ok s'.
Proof.
  intros Hok Hstep. destruct Hstep as
    [w wr stop ans rem message now adm w' Hclaim
    |w wr stop ans rem message now adm result w' Hrec
    |w wr stop ans rem adm
    |w i stop ans rem q j Hpop
    |w i stop ans rem Hwait
    |w i stop ans rem j attempts job now took v result w' Hjob Hcheck Hrec
    |w i stop ans rem j attempts job now Hjob Hcheck
    |w i stop ans rem j attempts n
    |w i stop ans rem j attempts written err ctx now Hv
    |w i stop ans rem j attempts job written err ctx now took v result w' Hjob Hv Hrec
    |w i stop ans rem j job written Hjob
    |w i wr stop ans rem Hfree|w i wr ans rem|w i wr stop ans rem b].
  - by eapply claim_ok.
  - pose proof (admit_record_spec message now adm w) as Hspec. rewrite Hrec in Hspec. destruct Hspec as [Hw' Hst].
    generalize dependent (base w'). intros b Hw'. subst w'.
    destruct adm as [ref problem|ref earlier|ref at_ data|ref data|j ref data]; cbn [claimed admission_job].
    5: { apply (sys_ok_answer _ _ j result Hok); try done; try apply Hok.
         - intros adm [= <-]. done.
         - by left. }
    all: apply (sys_ok_unanswered _ _ None result Hok); done.
  - assert (Hcl : claimed adm = true) by (by apply (so_recorded _ Hok)).
    destruct adm as [| | | |j ref data]; try done. eapply sys_ok_same; [exact Hok|..]; try done.
    + unfold pending. cbn. rewrite <-(assoc_L (++)). cbn. by rewrite <-Permutation_middle.
    + apply Hok.
    + intros Hwr. exfalso. destruct (so_ended _ Hok Hwr) as [_ Hclosed]. apply (so_closed _ Hok), (so_stopping _ Hok) in Hclosed. done.
  - unfold pop in Hpop. destruct (items (tx_queue w)) as [|x l] eqn:Hitems; [done|]. injection Hpop as <- ->.
    eapply sys_ok_same; [exact Hok|..]; try done; try apply Hok.
    unfold pending. cbn. rewrite Hitems. cbn. rewrite app_nil_r. apply Permutation_app_head. by rewrite <-Permutation_cons_append.
  - eapply sys_ok_same; [exact Hok|..]; try done; try apply Hok. intros _. unfold wait in Hwait. cbn.
    by destruct (items (tx_queue w)), (closed (tx_queue w)).
  - pose proof (write_record_spec job attempts v now took w) as Hspec. rewrite Hrec in Hspec. destruct Hspec as [Hw' Hfinal].
    generalize dependent (base w'). intros b Hw'. subst w'.
    apply (sys_ok_answer _ _ j result Hok); try done; try apply Hok.
    + unfold in_hand, unanswered, pending, finishing. cbn. by rewrite !app_nil_r, <-!(assoc_L (++)).
    + right. unfold unanswered, pending. cbn. rewrite app_nil_r. split_and!; try done.
      by rewrite (assoc_L (++)), <-Permutation_cons_append.
  - eapply sys_ok_same; [exact Hok|..]; try done; try apply Hok; [unfold update_job; cbn; by rewrite length_alter|].
    apply id_at_ext. intros k. apply update_job_refs. intros. apply setStage_ref.
  - eapply sys_ok_same; [exact Hok|..]; try done; try apply Hok; [unfold update_job; cbn; by rewrite length_alter|].
    apply id_at_ext. intros k. by apply update_job_refs.
  - eapply sys_ok_same; [exact Hok|..]; try done; try apply Hok; [unfold update_job; cbn; by rewrite length_alter|].
    apply id_at_ext. intros k. apply update_job_refs. intros. apply setStage_ref.
  - pose proof (write_record_spec job attempts v now took w) as Hspec. rewrite Hrec in Hspec. destruct Hspec as [Hw' Hfinal].
    generalize dependent (base w'). intros b Hw'. subst w'.
    apply (sys_ok_answer _ _ j result Hok); try done; try apply Hok.
    + unfold in_hand, unanswered, pending, finishing. cbn. by rewrite !app_nil_r, <-!(assoc_L (++)).
    + right. unfold unanswered, pending. cbn. rewrite app_nil_r. split_and!; try done.
      by rewrite (assoc_L (++)), <-Permutation_cons_append.
  - by eapply done_ok.
  - eapply sys_ok_same; [exact Hok|..]; try done; apply Hok.
  - eapply sys_ok_same; [exact Hok|..]; try done; try apply Hok. intros Hwr. cbn in Hwr. split; [|done].
    by apply (so_ended _ Hok).
  - eapply sys_ok_same; [exact Hok|..]; try done; apply Hok.
Qed.

Lemma sys_start_ok s : (1 <= TxRememberedIDs dev)%Z -> system_started s -> sys_ok s.
Proof.
  intros Hids [b ->]. unfold start_world.
  assert (Hin : forall j, j ∉ in_hand (mkSys (start_world b) IIdle WIdle false [] [])) by (intros j; unfold in_hand; cbn; set_solver).
  split; try done; try (by constructor); try (by intros j Hj; destruct (Hin j)); try (by intros j id Hj; destruct (Hin j)).
  - intros id j. split; [done|]. intros [Hj _]. by destruct (Hin j).
  - split; [by apply newWrittenIDs_ok|done].
  - intros j Hj. cbn in Hj. lia.
Qed.

Lemma sys_reachable_ok s0 s :
  (1 <= TxRememberedIDs dev)%Z -> system_started s0 -> rtc sys_step s0 s -> sys_ok s.
Proof. intros Hids Hstart Hr. pose proof (sys_start_ok s0 Hids Hstart) as Hok. revert Hok. clear Hstart. induction Hr; eauto using sys_step_ok. Qed.

(** What a step remembers is new, among the last [tx_remembered_ids]. *)
Lemma step_remembers s s' :
  sys_ok s -> sys_step s s' ->
  remembered s' = remembered s \/
  exists id, remembered s' = remembered s ++ [id] /\ id ∉ lastn (Z.to_nat (TxRememberedIDs dev)) (remembered s).
Proof.
  intros Hok Hstep. destruct Hstep as [ | | | | | | | | | |w i stop ans rem j job written Hjob| | | ]; try by left.
  destruct written as [t|]; [right|by left]. eexists. split; [done|]. rewrite <-(so_window _ Hok). apply (so_new _ Hok j).
  - unfold in_hand, finishing. cbn. rewrite !elem_of_app. right. right. by left.
  - unfold id_at. cbn. by rewrite Hjob.
Qed.

Lemma lastn_lookup (l : list string) n i x : l !! i = Some x -> length l - n <= i -> x ∈ lastn n l.
Proof.
  intros Hx Hi. apply (list_elem_of_lookup_2 _ (i - (length l - n))). unfold lastn. rewrite lookup_drop.
  by replace (length l - n + (i - (length l - n))) with i by lia.
Qed.


(** C6: a tx resent is not written again: no two txs in hand have one id,
    [txActive] has exactly the ids in hand, a tx in hand has none of the last
    [tx_remembered_ids] ids written, and of the ids written, in order, no two
    that are at most [tx_remembered_ids] apart are the same. *)
Theorem no_tx_written_twice s0 s :
  (1 <= TxRememberedIDs dev)%Z -> system_started s0 -> rtc sys_step s0 s ->
  (forall i j id, i ∈ in_hand s -> j ∈ in_hand s -> id_at s i = Some id -> id_at s j = Some id -> i = j) /\
  (forall id, is_Some (txActive (tx_ s) !! id) <-> exists j, j ∈ in_hand s /\ id_at s j = Some id) /\
  (forall j id, j ∈ in_hand s -> id_at s j = Some id ->
    id ∉ lastn (Z.to_nat (TxRememberedIDs dev)) (remembered s)) /\
  (forall i k id, remembered s !! i = Some id -> remembered s !! k = Some id ->
    (Z.of_nat k <= Z.of_nat i + TxRememberedIDs dev)%Z -> k <= i).
Proof.
  intros Hids Hstart Hr. pose proof (sys_reachable_ok s0 s Hids Hstart Hr) as Hok. split_and!.
  - intros i j id Hi Hj Hidi Hidj. assert (Hx : txActive (tx_ s) !! id = Some i) by (by apply (so_active _ Hok)).
    assert (Hy : txActive (tx_ s) !! id = Some j) by (by apply (so_active _ Hok)). congruence.
  - intros id. unfold is_Some. by setoid_rewrite (so_active _ Hok).
  - intros j id Hj Hid. rewrite <-(so_window _ Hok). by apply (so_new _ Hok j).
  - clear Hok. pose proof (sys_start_ok s0 Hids Hstart) as Hok. destruct Hstart as [b ->].
    assert (Hrem : forall i k id, remembered (mkSys (start_world b) IIdle WIdle false [] []) !! i = Some id ->
      remembered (mkSys (start_world b) IIdle WIdle false [] []) !! k = Some id ->
      (Z.of_nat k <= Z.of_nat i + TxRememberedIDs dev)%Z -> k <= i) by done.
    revert Hok Hrem. induction Hr as [|x y z Hstep Hr IH]; [done|]. intros Hok Hrem.
    apply IH; [by eapply sys_step_ok|]. destruct (step_remembers x y Hok Hstep) as [-> |(id & -> & Hnew)]; [done|].
    intros i k id' Hi Hk Hle. apply lookup_app_Some in Hk as [Hk|[Hklen Hk]].
    + apply lookup_app_Some in Hi as [Hi|[Hilen _]]; [by eapply Hrem|]. apply lookup_lt_Some in Hk. lia.
    + apply list_lookup_singleton_Some in Hk as [Hk <-]. apply lookup_app_Some in Hi as [Hi|[Hilen _]]; [|lia].
      destruct Hnew. apply (lastn_lookup _ _ i); [done|]. lia.
Qed.

(** C7: a tx that comes when the agent stops is not taken, and every one taken
    before is answered for: once the agent stops it goes on stopping, no tx
    becomes a job and none is pushed, the queue only gives up its oldest; it is
    closed only then, and the writer returns only when it is empty. *)
Theorem stopping_takes_no_tx s0 s s' :
  (1 <= TxRememberedIDs dev)%Z -> system_started s0 -> rtc sys_step s0 s -> sys_step s s' -> stopping s = true ->
  stopping s' = true /\ length (jobs (tx_ s')) = length (jobs (tx_ s)) /\
  (items (tx_queue (tx_ s')) = items (tx_queue (tx_ s)) \/
   exists j, items (tx_queue (tx_ s)) = j :: items (tx_queue (tx_ s'))) /\
  (writer s' = WFinished -> closed (tx_queue (tx_ s')) = true /\ items (tx_queue (tx_ s')) = []).
Proof.
  intros Hids Hstart Hr Hstep Hstop. pose proof (sys_reachable_ok s0 s Hids Hstart Hr) as Hok.
  pose proof (sys_step_ok s s' Hok Hstep) as Hok'.
  assert (Hend : writer s' = WFinished -> closed (tx_queue (tx_ s')) = true /\ items (tx_queue (tx_ s')) = [])
    by (intros Hw; destruct (so_ended _ Hok' Hw); done).
  pose proof (so_stopping _ Hok Hstop) as Hfree. pose proof (so_recorded _ Hok) as Hrecd. clear Hok Hok' Hr.
  destruct Hstep as
    [w wr stop ans rem message now adm w' Hclaim
    |w wr stop ans rem message now adm result w' Hrec
    |w wr stop ans rem adm
    |w i stop ans rem q j Hpop
    |w i stop ans rem Hwait
    |w i stop ans rem j attempts job now took v result w' Hjob Hcheck Hrec
    |w i stop ans rem j attempts job now Hjob Hcheck
    |w i stop ans rem j attempts n
    |w i stop ans rem j attempts written err ctx now Hv
    |w i stop ans rem j attempts job written err ctx now took v result w' Hjob Hv Hrec
    |w i stop ans rem j job written Hjob
    |w i wr stop ans rem Hidle|w i wr ans rem|w i wr stop ans rem b];
    cbn [stopping tx_ intake] in *; subst; try solve [split_and!; auto].
  - pose proof (admit_claim_spec uuid_parse message now true w) as Hspec. rewrite Hclaim in Hspec.
    destruct Hspec as (_ & _ & Hqueue & Hadm). split_and!; [done| |left; by rewrite Hqueue|exact Hend].
    destruct adm; [by destruct Hadm as [_ ->]..|by destruct Hadm as (_ & _ & _ & ? & _)].
  - pose proof (admit_record_spec message now adm w) as Hspec. rewrite Hrec in Hspec. destruct Hspec as [Hw' _]. generalize dependent (base w'). intros b ->. split_and!; auto.
  - cbn [holds_intake] in Hfree. rewrite (Hrecd adm eq_refl) in Hfree. discriminate Hfree.
  - unfold pop in Hpop. destruct (items (tx_queue w)) as [|x l] eqn:Hitems; [done|]. injection Hpop as <- ->.
    split_and!; try done. right. by eexists.
  - pose proof (write_record_spec job attempts v now took w) as Hspec. rewrite Hrec in Hspec. destruct Hspec as [Hw' _]. generalize dependent (base w'). intros b ->. split_and!; auto.
  - unfold update_job. cbn. rewrite length_alter. split_and!; auto.
  - unfold update_job. cbn. rewrite length_alter. split_and!; auto.
  - unfold update_job. cbn. rewrite length_alter. split_and!; auto.
  - pose proof (write_record_spec job attempts v now took w) as Hspec. rewrite Hrec in Hspec. destruct Hspec as [Hw' _]. generalize dependent (base w'). intros b ->. split_and!; auto.
Qed.
End System.

(** ** Witnesses *)

Definition a_start : system := mkSys (start_world a_core_device a_world) IIdle WIdle false [] [].

Definition a_tx_message : TxMessage :=
  mkTxMessage "" (encode (tx_json (mkTx Schema an_id "wms" (string_of_bytes (b64_encode [x1b; x40]))))) 0 false unix_epoch.

Definition a_reason (r : tx_reason) : string := "bad".

Lemma a_start_started : system_started a_core_device a_start.
Proof. by exists a_world. Qed.

Notation a_step := (sys_step some_options any_uuid a_reason a_core_device).

Ltac run_step step := eapply rtc_l; [eapply step; (vm_compute; reflexivity)|].

(** A tx is taken, the agent starts to stop, and the tx is written all the same. *)
Lemma a_run :
  exists s, rtc a_step a_start s /\ length (jobs (tx_ s)) = 1%nat /\ intake s = IIdle /\ writer s = WFinished /\
    stopping s = true /\ remembered s = [an_id] /\ answers_of (answers s) 0 = [TxAcceptedState; TxWrittenState].
Proof.
  eexists. split.
  - run_step (step_claim some_options any_uuid a_reason a_core_device (start_world a_core_device a_world) WIdle false [] [] a_tx_message unix_epoch).
    run_step step_record. 
    eapply rtc_l; [eapply step_push_job|]. run_step step_next.
    eapply rtc_l; [eapply (step_write _ _ _ _ _ _ _ _ _ _ _ _ unix_epoch); (vm_compute; reflexivity)|].
    eapply rtc_l; [eapply step_stop; (vm_compute; reflexivity)|].
    eapply rtc_l; [eapply (step_verdict _ _ _ _ _ _ _ _ _ _ _ _ 2%Z None None unix_epoch 5%Z); [vm_compute; reflexivity..|apply surjective_pairing]|].
    run_step step_done. eapply rtc_l; [eapply step_close_queue|]. run_step step_end. apply rtc_refl.
  - vm_compute. split_and!; reflexivity.
Qed.


Lemma no_tx_written_twice_witness :
  exists s, rtc a_step a_start s /\ remembered s = [an_id] /\ txActive (tx_ s) !! an_id = None.
Proof.
  destruct a_run as (s & Hr & _ & _ & _ & _ & Hrem & _). exists s. split; [exact Hr|]. split; [exact Hrem|].
  destruct (no_tx_written_twice some_options any_uuid a_reason a_core_device a_start s) as (_ & Hact & Hnew & _);
    [vm_compute; discriminate|exact a_start_started|exact Hr|].
  destruct (txActive (tx_ s) !! an_id) as [j|] eqn:Hj; [|reflexivity]. exfalso.
  destruct (proj1 (Hact an_id)) as (k & Hk & Hid); [eauto|]. apply (Hnew k an_id Hk Hid). rewrite Hrem.
  apply (bool_decide_eq_true_1 _). vm_compute. reflexivity.
Defined.

Lemma stopping_takes_no_tx_witness :
  exists s s', rtc a_step a_start s /\ a_step s s' /\ intake s' = IDecided a_tx_message unix_epoch
    (AdmitStopping (mkTxRef an_id "wms") [x1b; x40]) /\ length (jobs (tx_ s')) = 0%nat.
Proof.
  eexists (mkSys (start_world a_core_device a_world) IIdle WIdle true [] []), _.
  assert (Hr : rtc a_step a_start (mkSys (start_world a_core_device a_world) IIdle WIdle true [] []))
    by (apply rtc_once, step_stop; reflexivity).
  match goal with |- _ /\ ?step /\ _ => assert (Hs : step) by (eapply (step_claim _ _ _ _ _ _ _ _ _ a_tx_message unix_epoch); vm_compute; reflexivity) end.
  split; [exact Hr|]. split; [exact Hs|]. split; [vm_compute; reflexivity|].
  destruct (stopping_takes_no_tx some_options any_uuid a_reason a_core_device a_start _ _ ltac:(vm_compute; discriminate)
    a_start_started Hr Hs eq_refl) as (_ & Hlen & _).
  rewrite Hlen. reflexivity.
Defined.
